(** * publint: conditional entry-point resolution and format consistency

    A shallow embedding of [packages/publint/src/shared/utils.js] and of the
    parts of [packages/publint/src/shared/core.js] that crawl [exports] and
    [imports], check file formats and pair declaration files, together with
    the properties the specification states about them.

    Conventions of the embedding:
    - a JavaScript string is a [string]: the sequence of its code units,
      each of them below 256, character [n] of [ascii] being the code
      unit [n].  So [\s] is the white space below 256, the no-break space
      U+00A0 with it, the line terminators are the line feed and the
      carriage return, and [\w] is the ASCII class it is in JavaScript.
      A text with a code unit from 256 on is outside the embedding;
    - a parsed manifest is a [json] value; an object lists its own keys in
      the order [Object.keys] and [for..in] enumerate them;
    - [undefined] is [None] of an [option];
    - the [messages] array is only ever appended to, so a function that
      pushes messages returns the list of messages it pushed, in order;
    - an [async] task is run to its end where it is pushed on the promise
      queue.  Tasks read the manifest and the file system and append to
      [messages]; they never read [messages], so another interleaving only
      permutes the list.  Statements below count or test membership. *)

From Stdlib Require Import String Ascii List Bool Arith ZArith Lia.
From Stdlib Require DecimalString.
Import ListNotations.
Open Scope string_scope.
Open Scope list_scope.

Set Implicit Arguments.

(** String concatenation, the [+] of JavaScript on strings. *)
Infix "+++" := String.append (right associativity, at level 60).

(* ===================================================================== *)
(** ** JavaScript strings *)
(* ===================================================================== *)

Module Str.

(** [s.startsWith(p)] *)
Definition startsWith (s p : string) : bool := String.prefix p s.

(** [s.endsWith(p)] *)
Definition endsWith (s p : string) : bool :=
  let n := String.length p in
  let m := String.length s in
  (n <=? m)%nat && String.eqb (String.substring (m - n) n s) p.

(** [s.includes(p)] *)
Fixpoint includes (s p : string) : bool :=
  String.prefix p s ||
  match s with
  | EmptyString => false
  | String _ s' => includes s' p
  end.

(** [s.slice(0, -n)] *)
Definition dropEnd (n : nat) (s : string) : string :=
  String.substring 0 (String.length s - n) s.

(** [s.slice(n)] *)
Definition dropStart (n : nat) (s : string) : string :=
  String.substring n (String.length s - n) s.

(** [s[0]] *)
Definition first (s : string) : option ascii := String.get 0 s.

(** [s[s.length - 1]] *)
Definition last (s : string) : option ascii :=
  match String.length s with
  | 0 => None
  | S n => String.get n s
  end.

(** [s.split(c)] for a one-character separator: never empty. *)
Fixpoint split (c : ascii) (s : string) : list string :=
  match s with
  | EmptyString => [EmptyString]
  | String a s' =>
      if Ascii.eqb a c then EmptyString :: split c s'
      else match split c s' with
           | [] => [String a EmptyString]
           | p :: ps => String a p :: ps
           end
  end.

(** [s.indexOf(p)] *)
Fixpoint indexOf (s p : string) : option nat :=
  if String.prefix p s then Some 0
  else match s with
       | EmptyString => None
       | String _ s' => option_map S (indexOf s' p)
       end.

(** [s.lastIndexOf(p)] *)
Fixpoint lastIndexOf (s p : string) : option nat :=
  match s with
  | EmptyString => if String.prefix p s then Some 0 else None
  | String _ s' =>
      match lastIndexOf s' p with
      | Some i => Some (S i)
      | None => if String.prefix p s then Some 0 else None
      end
  end.

(** [s.replace(/^[\/]+/, '')]: the leading slashes removed. *)
Fixpoint stripLeadingSlashes (s : string) : string :=
  match s with
  | String "/" s' => stripLeadingSlashes s'
  | _ => s
  end.

(** [s.replace(/\\/g, '/')] *)
Fixpoint slash (s : string) : string :=
  match s with
  | EmptyString => EmptyString
  | String a s' =>
      String (if Ascii.eqb a "\" then "/"%char else a) (slash s')
  end.

(** The expansion of the patterns [$$], [$&], [$`] and [$'] in the
    replacement of [String.prototype.replace] with a string pattern;
    [before], [matched] and [after] cut the subject at the match. *)
Fixpoint substitution (before matched after repl : string) : string :=
  match repl with
  | String "$" (String "$" r) =>
      String "$" (substitution before matched after r)
  | String "$" (String "&" r) =>
      matched +++ substitution before matched after r
  | String "$" (String "`" r) =>
      before +++ substitution before matched after r
  | String "$" (String "'" r) =>
      after +++ substitution before matched after r
  | String a r => String a (substitution before matched after r)
  | EmptyString => EmptyString
  end.

(** [s.replace(p, repl)] with a string pattern: the first occurrence. *)
Definition replaceFirst (s p repl : string) : string :=
  match indexOf s p with
  | None => s
  | Some i =>
      let before := String.substring 0 i s in
      let after := dropStart (i + String.length p) s in
      before +++ substitution before p after repl +++ after
  end.

(** [parts.join(sep)] *)
Definition join (sep : string) (parts : list string) : string :=
  String.concat sep parts.

(** ['' + n] for an array index [n]. *)
Definition ofNat (n : nat) : string :=
  DecimalString.NilZero.string_of_uint (Nat.to_uint n).

Definition mem (s : string) (l : list string) : bool :=
  existsb (String.eqb s) l.

End Str.

(* ===================================================================== *)
(** ** Regular expressions

    A backtracking matcher with the priorities of the JavaScript engine:
    alternatives are tried left to right, a greedy iteration tries one more
    round before it tries to stop, a lazy one the other way round, and an
    iteration round that consumes nothing is abandoned.  The matcher walks
    the subject as the pair of the character before the position and the
    text from the position on. *)
(* ===================================================================== *)

Module Regex.

Inductive regex : Type :=
| Eps                                 (* the empty pattern *)
| Chr (p : ascii -> bool)             (* one character of a class *)
| Lit (s : string)                    (* a literal text *)
| Seq (r1 r2 : regex)
| Alt (r1 r2 : regex)                 (* [r1|r2] *)
| Star (r : regex)                    (* [r*] *)
| LazyStar (r : regex)                (* [r*?] *)
| Group (n : nat) (r : regex)         (* the [n]-th capturing group *)
| Bos                                 (* [^] *)
| Bol                                 (* [^] under the flag [m] *)
| Eos                                 (* [$] *)
| WordB.                              (* [\b] *)

Definition Plus (r : regex) : regex := Seq r (Star r).
Definition Opt (r : regex) : regex := Alt r Eps.

Fixpoint seqs (rs : list regex) : regex :=
  match rs with
  | [] => Eps
  | [r] => r
  | r :: rs' => Seq r (seqs rs')
  end.

Fixpoint alts (rs : list regex) : regex :=
  match rs with
  | [] => Eps
  | [r] => r
  | r :: rs' => Alt r (alts rs')
  end.

(** *** Character classes *)

Definition between (lo hi : ascii) (a : ascii) : bool :=
  (nat_of_ascii lo <=? nat_of_ascii a)%nat &&
  (nat_of_ascii a <=? nat_of_ascii hi)%nat.

Fixpoint oneOf (cs : string) (a : ascii) : bool :=
  match cs with
  | EmptyString => false
  | String c cs' => Ascii.eqb a c || oneOf cs' a
  end.

Definition isLineTerminator (a : ascii) : bool :=
  Ascii.eqb a "010" || Ascii.eqb a "013".

(** [.] *)
Definition dot (a : ascii) : bool := negb (isLineTerminator a).

(** [\w] *)
Definition isWord (a : ascii) : bool :=
  between "a" "z" a || between "A" "Z" a || between "0" "9" a ||
  Ascii.eqb a "_".

(** [\s]: the tabulations, the line terminators, the form feed, the
    space and the no-break space; the other members of the class
    (U+1680, U+2000 to U+200A, U+2028, U+2029, U+202F, U+205F, U+3000,
    U+FEFF) are code units from 256 on. *)
Definition isSpace (a : ascii) : bool :=
  between "009" "013" a || Ascii.eqb a " " || Ascii.eqb a "160".

Definition union (p q : ascii -> bool) (a : ascii) : bool := p a || q a.

(** *** Matching *)

Definition captures := list (nat * string).

Fixpoint capture (n : nat) (c : captures) : option string :=
  match c with
  | [] => None
  | (m, s) :: c' => if Nat.eqb n m then Some s else capture n c'
  end.

Fixpoint matchLit (l : string) (prev : option ascii) (s : string)
  : option (option ascii * string) :=
  match l with
  | EmptyString => Some (prev, s)
  | String a l' =>
      match s with
      | String b s' => if Ascii.eqb a b then matchLit l' (Some b) s' else None
      | EmptyString => None
      end
  end.

Definition wordBefore (prev : option ascii) : bool :=
  match prev with Some a => isWord a | None => false end.

Definition wordAfter (s : string) : bool :=
  match s with String a _ => isWord a | EmptyString => false end.

Section Run.
Variable R : Type.

(** The continuation receives the position after the match and the
    groups captured so far. *)
Definition cont := option ascii -> string -> captures -> option R.

Fixpoint run (r : regex) (prev : option ascii) (s : string)
         (c : captures) (k : cont) {struct r} : option R :=
  match r with
  | Eps => k prev s c
  | Chr p =>
      match s with
      | String a s' => if p a then k (Some a) s' c else None
      | EmptyString => None
      end
  | Lit l =>
      match matchLit l prev s with
      | Some (prev', s') => k prev' s' c
      | None => None
      end
  | Seq r1 r2 =>
      run r1 prev s c (fun prev' s' c' => run r2 prev' s' c' k)
  | Alt r1 r2 =>
      match run r1 prev s c k with
      | Some x => Some x
      | None => run r2 prev s c k
      end
  | Star r' =>
      (fix loop (n : nat) (prev : option ascii) (s : string)
           (c : captures) {struct n} : option R :=
         match n with
         | 0 => k prev s c
         | S n' =>
             match
               run r' prev s c
                   (fun prev' s' c' =>
                      if (String.length s' <? String.length s)%nat
                      then loop n' prev' s' c' else None)
             with
             | Some x => Some x
             | None => k prev s c
             end
         end) (String.length s) prev s c
  | LazyStar r' =>
      (fix loop (n : nat) (prev : option ascii) (s : string)
           (c : captures) {struct n} : option R :=
         match k prev s c with
         | Some x => Some x
         | None =>
             match n with
             | 0 => None
             | S n' =>
                 run r' prev s c
                     (fun prev' s' c' =>
                        if (String.length s' <? String.length s)%nat
                        then loop n' prev' s' c' else None)
             end
         end) (String.length s) prev s c
  | Group n r' =>
      run r' prev s c
          (fun prev' s' c' =>
             k prev' s'
               ((n, String.substring 0 (String.length s - String.length s') s)
                  :: c'))
  | Bos => match prev with None => k prev s c | Some _ => None end
  | Bol =>
      match prev with
      | None => k prev s c
      | Some a => if isLineTerminator a then k prev s c else None
      end
  | Eos => match s with EmptyString => k prev s c | _ => None end
  | WordB =>
      if xorb (wordBefore prev) (wordAfter s) then k prev s c else None
  end.

(** The leftmost position at which [r] matches; [before] collects, in
    reverse, the characters skipped. *)
Fixpoint searchFrom (r : regex) (before : string) (prev : option ascii)
         (s : string) (k : string -> cont) : option R :=
  match run r prev s [] (k before) with
  | Some x => Some x
  | None =>
      match s with
      | String a s' => searchFrom r (before +++ String a EmptyString) (Some a) s' k
      | EmptyString => None
      end
  end.
End Run.

(** [re.test(s)] *)
Definition test (r : regex) (s : string) : bool :=
  match searchFrom r EmptyString None s (fun _ _ _ _ => Some tt) with
  | Some _ => true
  | None => false
  end.

(** [s.match(re)] for a pattern without the flag [g]: the groups
    [1..n] of the first match, [undefined] for one that took no part. *)
Definition exec (r : regex) (n : nat) (s : string)
  : option (list (option string)) :=
  searchFrom r EmptyString None s
    (fun _ _ _ c => Some (map (fun i => capture i c) (seq 1 n))).

(** The first match cut out of the subject: the text before it, its
    groups and the text after it. *)
Definition firstMatch (r : regex) (s : string)
  : option (string * captures * string) :=
  searchFrom r EmptyString None s
    (fun before _ rest c => Some (before, c, rest)).

(** [s.replace(re, '')] under the flag [g]: every match removed, the
    search resuming where the last match ended. *)
Fixpoint removeAllFrom (r : regex) (n : nat) (prev : option ascii)
         (s : string) : string :=
  match n with
  | 0 => s
  | S n' =>
      let advance :=
        match s with
        | String a s' => String a (removeAllFrom r n' (Some a) s')
        | EmptyString => EmptyString
        end in
      match run r prev s [] (fun prev' s' _ => Some (prev', s')) with
      | Some (prev', s') =>
          if (String.length s' <? String.length s)%nat
          then removeAllFrom r n' prev' s'
          else advance
      | None => advance
      end
  end.

Definition removeAll (r : regex) (s : string) : string :=
  removeAllFrom r (String.length s) None s.

End Regex.

(* ===================================================================== *)
(** ** [shared/utils.js] *)
(* ===================================================================== *)

Import Regex.

(** [CodeFormat]: ['ESM' | 'CJS' | 'mixed' | 'unknown'] *)
Inductive CodeFormat : Type := ESM | CJS | mixed | unknown.

Definition CodeFormat_eqb (a b : CodeFormat) : bool :=
  match a, b with
  | ESM, ESM | CJS, CJS | mixed, mixed | unknown, unknown => true
  | _, _ => false
  end.

(** The quotation mark, written by its code. *)
Definition dquote : ascii := "034".

(** [ESM_CONTENT_RE]: after white space, a semicolon or the start of a
    line, one of: [import], a run of word characters, commas, braces,
    white space and stars, [from]; [import], white space, a quote, a star
    or an opening brace; [export] at a word boundary, white space, and a
    star, a brace or one of the listed keywords; [import.meta] at a word
    boundary. *)
Definition ESM_CONTENT_RE : regex :=
  Seq (Group 1 (Alt (Chr (union isSpace (oneOf ";"))) Bol))
      (Group 2 (alts [
         seqs [Lit "import";
               Star (Chr (union isWord (union (oneOf ",{}*") isSpace)));
               Lit "from"];
         seqs [Lit "import"; Star (Chr isSpace);
               Chr (union (oneOf "'*{") (Ascii.eqb dquote))];
         seqs [Lit "export"; WordB; Star (Chr isSpace);
               alts [Chr (oneOf "*{"); Lit "default"; Lit "type";
                     Lit "function"; Lit "const"; Lit "var"; Lit "let";
                     Lit "async function"]];
         seqs [Lit "import"; Lit ".meta"; WordB]])).

Definition isCodeEsm (code : string) : bool := test ESM_CONTENT_RE code.

(** [CJS_CONTENT_RE]; the dot of [module.exports] is not escaped in the
    source and stands for any character of a line. *)
Definition CJS_CONTENT_RE : regex :=
  Seq (Group 1 (Alt (Chr (union isSpace (oneOf ";"))) Bol))
      (Group 2 (alts [
         seqs [Lit "module"; Chr dot; Lit "exports"; WordB];
         seqs [Lit "exports."; Chr isWord];
         seqs [Lit "require"; Star (Chr isSpace); Lit "("];
         seqs [Lit "global."; Chr isWord];
         seqs [Lit "Object.";
               Group 3 (alts [Lit "defineProperty"; Lit "defineProperties";
                              Lit "assign"]);
               Star (Chr isSpace); Lit "("; Star (Chr isSpace);
               Lit "exports"; WordB]])).

Definition isCodeCjs (code : string) : bool := test CJS_CONTENT_RE code.

(** [MULTILINE_COMMENTS_RE]: from a slash and a star, lazily, to the next
    star and slash. *)
Definition MULTILINE_COMMENTS_RE : regex :=
  seqs [Lit "/*";
        LazyStar (Group 1 (Alt (Chr dot) (Chr isLineTerminator)));
        Lit "*/"].

(** [SINGLELINE_COMMENTS_RE]: two slashes and the rest of the line. *)
Definition SINGLELINE_COMMENTS_RE : regex :=
  Seq (Lit "//") (Star (Chr dot)).

Definition stripComments (code : string) : string :=
  removeAll SINGLELINE_COMMENTS_RE (removeAll MULTILINE_COMMENTS_RE code).

Definition getCodeFormat (code : string) : CodeFormat :=
  let code := stripComments code in
  let isEsm := isCodeEsm code in
  let isCjs := isCodeCjs code in
  if isEsm && isCjs then mixed
  else if isEsm then ESM
  else if isCjs then CJS
  else unknown.

Definition getCodeFormatExtension (format : CodeFormat) : string :=
  match format with
  | ESM => ".mjs"
  | CJS => ".cjs"
  | _ => ".js"
  end.

Definition getDtsCodeFormatExtension (format : CodeFormat) : string :=
  match format with
  | ESM => ".mts"
  | CJS => ".cts"
  | _ => ".ts"
  end.

Definition isExplicitExtension (path : string) : bool :=
  Str.endsWith path ".mjs" || Str.endsWith path ".cjs".

Definition isFilePathRawTs (filePath : string) : bool :=
  (Str.endsWith filePath ".ts" && negb (Str.endsWith filePath ".d.ts")) ||
  Str.endsWith filePath ".tsx".

(** [FLOW_COMMENT_RE]: at the start of a line, white space, a comment
    opener or a star, white space, [@flow]. *)
Definition FLOW_COMMENT_RE : regex :=
  seqs [Bol; Star (Chr isSpace);
        alts [Lit "//"; Seq (Lit "/*") (Opt (Lit "*")); Lit "*"];
        Star (Chr isSpace); Lit "@flow"].

Definition isFileContentLintable (fileContent : string) : bool :=
  negb (test FLOW_COMMENT_RE fileContent).

Definition isRelativePath (filePath : string) : bool :=
  match Str.first filePath with
  | Some "."%char => true
  | c =>
      negb (match c with Some "/"%char => true | _ => false end) &&
      negb (Str.includes filePath ":")
  end.

(** The second disjunct reads [filePath[1]] first, so the [match] on
    [filePath[0]] is never reached with an empty path. *)
Definition isAbsolutePath (filePath : string) : bool :=
  match Str.first filePath with
  | Some "/"%char => true
  | c0 =>
      match String.get 1 filePath, c0 with
      | Some ":"%char, Some a => between "a" "z" a || between "A" "Z" a
      | _, _ => false
      end
  end.

Definition replaceLast (str search replace : string) : string :=
  match Str.lastIndexOf str search with
  | None => str
  | Some index =>
      String.substring 0 index str +++ replace +++
      Str.dropStart (index + String.length search) str
  end.

(** [startsWithShebang]: the pattern is not anchored. *)
Definition startsWithShebang (code : string) : bool :=
  test (seqs [Lit "#!"; Star (Chr isSpace); Lit "/usr/bin/env"]) code.

Definition DTS_RE : regex :=
  seqs [Lit ".d."; Opt (Chr (oneOf "mc")); Lit "ts"; Eos].

Definition isDtsFile (filePath : string) : bool := test DTS_RE filePath.

(** [filePath.replace(/\.([mc]?)jsx?$/, '.d.$1ts')] *)
Definition getAdjacentDtsPath (filePath : string) : string :=
  match firstMatch (seqs [Lit "."; Group 1 (Opt (Chr (oneOf "mc"))); Lit "js";
                    Opt (Lit "x"); Eos]) filePath with
  | Some (before, c, rest) =>
      before +++ ".d." +++
      match capture 1 c with Some g => g | None => EmptyString end +++
      "ts" +++ rest
  | None => filePath
  end.

(* ===================================================================== *)
(** ** Manifests *)
(* ===================================================================== *)

(** A value produced by [JSON.parse].  The members of an object are its
    own properties in enumeration order, each key once; of a number only
    its being zero or not is ever looked at. *)
#[warnings="-register-all"]
Inductive json : Type :=
| JNull
| JBool (b : bool)
| JNum (n : Z)
| JStr (s : string)
| JArr (items : list json)
| JObj (members : list (string * json)).

Fixpoint lookup (key : string) (members : list (string * json))
  : option json :=
  match members with
  | [] => None
  | (k, v) :: rest => if String.eqb k key then Some v else lookup key rest
  end.

(** [Object.keys(obj)] *)
Definition keys (members : list (string * json)) : list string :=
  map fst members.

(** [keys.indexOf(key)] *)
Fixpoint indexOf (key : string) (ks : list string) : option nat :=
  match ks with
  | [] => None
  | k :: rest =>
      if String.eqb k key then Some 0 else option_map S (indexOf key rest)
  end.

(** Truthiness; [undefined] is [None]. *)
Definition truthy (v : option json) : bool :=
  match v with
  | None | Some JNull => false
  | Some (JBool b) => b
  | Some (JNum n) => negb (Z.eqb n 0)
  | Some (JStr s) => negb (String.eqb s EmptyString)
  | Some (JArr _) | Some (JObj _) => true
  end.

(** [v == null] *)
Definition nullish (v : option json) : bool :=
  match v with
  | None | Some JNull => true
  | _ => false
  end.

(** [typeof v] *)
Definition typeOf (v : option json) : string :=
  match v with
  | None => "undefined"
  | Some JNull | Some (JArr _) | Some (JObj _) => "object"
  | Some (JBool _) => "boolean"
  | Some (JNum _) => "number"
  | Some (JStr _) => "string"
  end.

(** The index an array or a string is read at by the property name [p]. *)
Definition arrayIndex (p : string) (len : nat) : option nat :=
  List.find (fun i => String.eqb (Str.ofNat i) p) (seq 0 len).

(** How an evaluation ends: with a value, with an exception thrown, or,
    in this model only, with the bound on a loop used up. *)
Inductive outcome (A : Type) : Type :=
| Ok (a : A)
| Throw
| OutOfFuel.
Arguments Throw {A}.
Arguments OutOfFuel {A}.

(** [v.name], and [v[key]] for a key that [Object.keys] or [for..in]
    gave: the own property, the [length] of an array or a string with
    them; reading a property of [null] or [undefined] throws.  The names
    the code reads this way ([main], [module], [exports], [imports],
    [browser], [bin], [types], [typings], [type], [files], [license],
    [dependencies], [repository], [url], [directory], [publishConfig],
    [name], [jsnext:main], [jsnext], [unpkg], [jsdelivr] and [.]) are
    names of no member of a built-in prototype, so for them the own
    property is the property.  A key that comes from elsewhere is read
    with [member] below. *)
Definition getProp (v : option json) (p : string) : outcome (option json) :=
  match v with
  | None | Some JNull => Throw
  | Some (JObj members) => Ok (lookup p members)
  | Some (JArr items) =>
      if String.eqb p "length" then Ok (Some (JNum (Z.of_nat (length items))))
      else Ok (match arrayIndex p (length items) with
               | Some i => nth_error items i
               | None => None
               end)
  | Some (JStr s) =>
      if String.eqb p "length"
      then Ok (Some (JNum (Z.of_nat (String.length s))))
      else Ok (match arrayIndex p (String.length s) with
               | Some i => option_map (fun a => JStr (String a EmptyString))
                                      (String.get i s)
               | None => None
               end)
  | Some (JBool _) | Some (JNum _) => Ok None
  end.

(** [v?.[p]] *)
Definition getPropOpt (v : option json) (p : string) : option json :=
  match getProp v p with
  | Ok x => x
  | _ => None
  end.

(** *** The prototype chain

    A property that is no own property of a value is looked up on the
    prototype chain of the value, where the built-in methods are:
    [toString], [constructor], [map], and so on.  What is found there is
    a value of the host, not of the manifest.  Of the host nothing is
    fixed here: which members a value inherits, what reading a property
    of a value of the host gives, and which of them are truthy. *)
Record Realm : Type := {
  (** the values of the host that are no values of the manifest *)
  Host : Type;
  (** the member named [p] on the prototype chain of [v], for a [p] that
      is no own property of [v]; [None] where there is none *)
  inherited : json -> string -> option Host;
  (** [h[p]] for a value of the host; [None] is [undefined] *)
  hostGet : Host -> string -> outcome (option Host);
  hostTruthy : Host -> bool
}.

Section Chain.

Variable realm : Realm.

(** What a property read gives: a value of the manifest, [undefined]
  with them, or a value of the host. *)
Inductive Value : Type :=
| Own (v : option json)
| Foreign (h : Host realm).

(** [!!x] *)
Definition truthyValue (x : Value) : bool :=
match x with
| Own v => truthy v
| Foreign h => hostTruthy realm h
end.

(** [x[p]] for any key [p]: the own property where there is one, and
  otherwise the member the prototype chain has. *)
Definition member (x : Value) (p : string) : outcome Value :=
match x with
| Own v =>
    match getProp v p, v with
    | Ok (Some own), _ => Ok (Own (Some own))
    | Ok None, Some holder =>
        match inherited realm holder p with
        | Some h => Ok (Foreign h)
        | None => Ok (Own None)
        end
    | Ok None, None => Throw
    | Throw, _ => Throw
    | OutOfFuel, _ => OutOfFuel
    end
| Foreign h =>
    match hostGet realm h p with
    | Ok (Some h') => Ok (Foreign h')
    | Ok None => Ok (Own None)
    | Throw => Throw
    | OutOfFuel => OutOfFuel
    end
end.

(** [getPkgPathValue]: [for (const p of path) v = v[p]] *)
Fixpoint getPkgPathValueFrom (v : Value) (path : list string)
: outcome Value :=
match path with
| [] => Ok v
| p :: rest =>
    match member v p with
    | Ok v' => getPkgPathValueFrom v' rest
    | Throw => Throw
    | OutOfFuel => OutOfFuel
    end
end.

Definition getPkgPathValue (pkg : json) (path : list string)
: outcome Value :=
getPkgPathValueFrom (Own (Some pkg)) path.

(** [key in obj] for any key and an [obj] with [typeof obj === 'object']:
  an own property or an inherited member; on [null] the operator
  throws. *)
Definition hasMember (obj : json) (key : string) : outcome bool :=
match getProp (Some obj) key with
| Ok (Some _) => Ok true
| Ok None =>
    Ok (match inherited realm obj key with Some _ => true | None => false end)
| Throw => Throw
| OutOfFuel => OutOfFuel
end.

End Chain.

(** [getPublishedField]; every call passes one of the field names
    listed at [getProp]. *)
Definition getPublishedField (pkgJson : json) (field : string)
  : option json * list string :=
  let published :=
    getPropOpt (getPropOpt (Some pkgJson) "publishConfig") field in
  if truthy published then (published, ["publishConfig"; field])
  else (getPropOpt (Some pkgJson) field, [field]).

(** The keys [for (const k in obj)] runs over, each with [obj[k]]. *)
Definition forIn (obj : option json) : list (string * json) :=
  match obj with
  | Some (JObj members) => members
  | Some (JArr items) =>
      combine (map Str.ofNat (seq 0 (length items))) items
  | Some (JStr s) =>
      combine (map Str.ofNat (seq 0 (String.length s)))
              (map (fun a => JStr (String a EmptyString)) (list_ascii_of_string s))
  | _ => []
  end.

Definition isObjectType (v : json) : bool :=
  String.eqb (typeOf (Some v)) "object".

(** [objectHasKeyNested] *)
Fixpoint objectHasKeyNested (obj : json) (key : string) : bool :=
  match obj with
  | JObj members =>
      (fix each (members : list (string * json)) : bool :=
         match members with
         | [] => false
         | (k, v) :: rest =>
             String.eqb k key ||
             (isObjectType v && objectHasKeyNested v key) ||
             each rest
         end) members
  | JArr items =>
      (fix each (items : list json) (i : nat) : bool :=
         match items with
         | [] => false
         | v :: rest =>
             String.eqb (Str.ofNat i) key ||
             (isObjectType v && objectHasKeyNested v key) ||
             each rest (S i)
         end) items 0
  | JStr s => Str.mem key (map fst (forIn (Some obj)))
  | _ => false
  end.

(** [objectHasValueNested] *)
Fixpoint objectHasValueNested (obj : json) (predicate : string -> bool)
  : bool :=
  let on (v : json) (nested : bool) : bool :=
    match v with
    | JStr s => predicate s
    | _ => isObjectType v && nested
    end in
  match obj with
  | JObj members =>
      (fix each (members : list (string * json)) : bool :=
         match members with
         | [] => false
         | (_, v) :: rest =>
             on v (objectHasValueNested v predicate) || each rest
         end) members
  | JArr items =>
      (fix each (items : list json) : bool :=
         match items with
         | [] => false
         | v :: rest => on v (objectHasValueNested v predicate) || each rest
         end) items
  | JStr s => existsb (fun a => predicate (String a EmptyString))
                      (list_ascii_of_string s)
  | _ => false
  end.

(** The result of [resolveExports]: [{ value, path }]. *)
Record Resolved : Type := { value : string; matched : list string }.

(** [resolveExports]; an empty array hands [undefined] on, which has no
    keys to run over. *)
Fixpoint resolveExports (exportsValue : json) (conditions : list string)
         (currentPath : list string) : option Resolved :=
  match exportsValue with
  | JStr s => Some {| value := s; matched := currentPath |}
  | JArr items =>
      match items with
      | first :: _ => resolveExports first conditions (currentPath ++ ["0"])
      | [] => None
      end
  | JObj members =>
      (fix each (members : list (string * json)) : option Resolved :=
         match members with
         | [] => None
         | (key, v) :: rest =>
             if Str.mem key conditions || String.eqb key "default" then
               match resolveExports v conditions (currentPath ++ [key]) with
               | Some result => Some result
               | None => if String.eqb key "default" then None else each rest
               end
             else each rest
         end) members
  | _ => None
  end.

(* ===================================================================== *)
(** ** The file system port, messages and effects *)
(* ===================================================================== *)

Module Vfs.
(** The [Vfs] of [core.js].  [readFile] fails with [None] where the
    port rejects; the other operations are total. *)
Record t : Type := {
  readFile : string -> option string;
  readDir : string -> list string;
  isPathDir : string -> bool;
  isPathExist : string -> bool;
  pathJoin : string -> string -> string;
  pathRelative : string -> string -> string;
  getDirName : string -> string;
  getExtName : string -> string
}.
End Vfs.

(** The tables of [shared/constants.js] the modelled code reads.  That
    file is outside what this development was written from: the tables
    are a parameter, and no statement depends on what they hold. *)
Record Constants : Type := {
  invalidJsxExtensions : list string;
  knownBrowserishConditions : list string;
  lintableFileExtensions : list string
}.

Inductive MessageType : Type := error | warning | suggestion.

Inductive MessageCode : Type :=
| FILE_INVALID_EXPLICIT_FORMAT
| FILE_INVALID_FORMAT
| HAS_ESM_MAIN_BUT_NO_EXPORTS
| FILE_DOES_NOT_EXIST
| FILE_NOT_PUBLISHED
| FILE_INVALID_JSX_EXTENSION
| FIELD_INVALID_VALUE_TYPE
| IMPORTS_GLOB_NO_DEPRECATED_SUBPATH_MAPPING
| EXPORTS_GLOB_NO_DEPRECATED_SUBPATH_MAPPING
| IMPORTS_VALUE_INVALID
| EXPORTS_VALUE_INVALID
| IMPORTS_GLOB_NO_MATCHED_FILES
| EXPORTS_GLOB_NO_MATCHED_FILES
| EXPORTS_VALUE_CONFLICTS_WITH_BROWSER
| IMPORTS_MODULE_SHOULD_BE_ESM
| EXPORTS_MODULE_SHOULD_BE_ESM
| IMPORTS_FALLBACK_ARRAY_USE
| EXPORTS_FALLBACK_ARRAY_USE
| EXPORTS_TYPES_SHOULD_BE_FIRST
| IMPORTS_MODULE_SHOULD_PRECEDE_REQUIRE
| EXPORTS_MODULE_SHOULD_PRECEDE_REQUIRE
| IMPORTS_DEFAULT_SHOULD_BE_LAST
| EXPORTS_DEFAULT_SHOULD_BE_LAST
| IMPORTS_KEY_INVALID
| EXPORTS_TYPES_INVALID_FORMAT
| TYPES_NOT_EXPORTED
| BIN_FILE_NOT_EXECUTABLE.

Definition MessageCode_eq_dec (a b : MessageCode) : {a = b} + {a <> b}.
Proof. decide equality. Defined.

Definition MessageCode_eqb (a b : MessageCode) : bool :=
  if MessageCode_eq_dec a b then true else false.

(** A value of the [args] of a message. *)
Inductive Arg : Type :=
| ArgString (s : string)
| ArgFormat (f : CodeFormat)
| ArgList (l : list string)
| ArgJson (v : json)
| ArgUndefined.

Record Message : Type := {
  code : MessageCode;
  args : list (string * Arg);
  path : list string;
  type : MessageType
}.

(** The state of a promise of the queue: [pending] is a task that has
    not settled within the bound of the model. *)
Inductive Settled : Type := fulfilled | rejected | pending.

(** A computation that pushes messages: the messages pushed, in order,
    and how it ended. *)
Definition M (A : Type) : Type := (list Message * outcome A)%type.

Definition ret {A : Type} (a : A) : M A := ([], Ok a).

Definition bind {A B : Type} (m : M A) (f : A -> M B) : M B :=
  match snd m with
  | Ok a => (fst m ++ fst (f a), snd (f a))
  | Throw => (fst m, Throw)
  | OutOfFuel => (fst m, OutOfFuel)
  end.

Notation "x <- c1 ;; c2" := (bind c1 (fun x => c2))
  (at level 61, c1 at next level, right associativity).
Notation "c1 ;; c2" := (bind c1 (fun _ => c2))
  (at level 61, right associativity).

(** [messages.push(m)] *)
Definition push (m : Message) : M unit := ([m], Ok tt).

Definition lift {A : Type} (o : outcome A) : M A := ([], o).

Definition when (b : bool) (m : M unit) : M unit :=
  if b then m else ret tt.

(** [for (const x of l) body(x)] *)
Fixpoint forEach {A : Type} (body : A -> M unit) (l : list A) : M unit :=
  match l with
  | [] => ret tt
  | x :: rest => body x ;; forEach body rest
  end.

(** [promiseQueue.push(task)]: the task runs; an exception it throws
    rejects its promise and is seen by [wait] only, and the caller goes
    on in every case. *)
Definition promiseQueue_push (task : M unit) : M (list Settled) :=
  match snd task with
  | Ok _ => (fst task, Ok [fulfilled])
  | Throw => (fst task, Ok [rejected])
  | OutOfFuel => (fst task, Ok [pending])
  end.

(** The messages a computation pushed. *)
Definition messages {A : Type} (m : M A) : list Message := fst m.

(* ===================================================================== *)
(** ** A file system in memory

    The instances the examples below run on: POSIX paths as [node:path] joins,
    splits and relates them, a file system given by the list of its
    files, tables for the constants, a host, and [JSON.parse] on the
    manifests the examples hold. *)
(* ===================================================================== *)

Module Posix.

Definition isAbsolute (p : string) : bool := Str.startsWith p "/".

(** The segments of a path, without the empty ones and the dots. *)
Definition segments (p : string) : list string :=
  filter (fun s => negb (String.eqb s EmptyString || String.eqb s "."))
         (Str.split "/" p).

(** [acc] holds, in reverse, the segments kept so far. *)
Fixpoint resolveDots (absolute : bool) (segs acc : list string)
  : list string :=
  match segs with
  | [] => rev acc
  | seg :: rest =>
      if String.eqb seg ".." then
        match acc with
        | [] => resolveDots absolute rest (if absolute then [] else [".."])
        | top :: acc' =>
            if String.eqb top ".."
            then resolveDots absolute rest (seg :: acc)
            else resolveDots absolute rest acc'
        end
      else resolveDots absolute rest (seg :: acc)
  end.

(** [path.normalize] *)
Definition normalize (p : string) : string :=
  let segs := resolveDots (isAbsolute p) (segments p) [] in
  let body := Str.join "/" segs in
  let trailing :=
    Str.endsWith p "/" && negb (Nat.eqb (length segs) 0) in
  let out :=
    (if isAbsolute p then "/" else EmptyString) +++ body +++
    (if trailing then "/" else EmptyString) in
  if String.eqb out EmptyString then "." else out.

(** [path.join(a, b)] *)
Definition join (a b : string) : string :=
  if String.eqb a EmptyString then normalize b
  else if String.eqb b EmptyString then normalize a
  else normalize (a +++ "/" +++ b).

Fixpoint stripTrailingSlashes (n : nat) (p : string) : string :=
  match n with
  | 0 => p
  | S n' =>
      if (1 <? String.length p)%nat && Str.endsWith p "/"
      then stripTrailingSlashes n' (Str.dropEnd 1 p) else p
  end.

(** [path.dirname] *)
Definition dirname (p : string) : string :=
  let p := stripTrailingSlashes (String.length p) p in
  match Str.lastIndexOf p "/" with
  | None => "."
  | Some 0 => "/"
  | Some i => stripTrailingSlashes i (String.substring 0 i p)
  end.

(** [path.basename] *)
Definition basename (p : string) : string :=
  let p := stripTrailingSlashes (String.length p) p in
  match Str.lastIndexOf p "/" with
  | None => p
  | Some i => Str.dropStart (S i) p
  end.

(** [path.extname] *)
Definition extname (p : string) : string :=
  let base := basename p in
  match Str.lastIndexOf base "." with
  | None | Some 0 => EmptyString
  | Some i => Str.dropStart i base
  end.

Fixpoint dropCommon (a b : list string) : list string * list string :=
  match a, b with
  | x :: a', y :: b' => if String.eqb x y then dropCommon a' b' else (a, b)
  | _, _ => (a, b)
  end.

(** [path.relative(from, to)] between two absolute paths *)
Definition relative (from to : string) : string :=
  let (up, down) :=
    dropCommon (resolveDots true (segments from) [])
               (resolveDots true (segments to) []) in
  Str.join "/" (map (fun _ => "..") up ++ down).

End Posix.

Module MemFs.

(** Is [p] a proper ancestor directory of the file [f]? *)
Definition above (p f : string) : bool :=
  if String.eqb p "/" then Str.startsWith f "/"
  else Str.startsWith f (p +++ "/").

Definition isDir (files : list (string * string)) (p : string) : bool :=
  existsb (fun f => above p (fst f)) files.

Definition read (files : list (string * string)) (p : string)
  : option string :=
  option_map snd (List.find (fun f => String.eqb (fst f) p) files).

Fixpoint dedupe (l : list string) : list string :=
  match l with
  | [] => []
  | x :: rest => x :: filter (fun y => negb (String.eqb x y)) (dedupe rest)
  end.

(** The names right below the directory [p]. *)
Definition children (files : list (string * string)) (p : string)
  : list string :=
  dedupe
    (flat_map
       (fun f =>
          if above p (fst f) then
            match Posix.segments
                    (Str.dropStart (String.length p) (fst f)) with
            | name :: _ => [name]
            | [] => []
            end
          else [])
       files).

Definition make (files : list (string * string)) : Vfs.t :=
  {| Vfs.readFile := read files;
     Vfs.readDir := children files;
     Vfs.isPathDir := isDir files;
     Vfs.isPathExist :=
       fun p => match read files p with
                | Some _ => true
                | None => isDir files p
                end;
     Vfs.pathJoin := Posix.join;
     Vfs.pathRelative := Posix.relative;
     Vfs.getDirName := Posix.dirname;
     Vfs.getExtName := Posix.extname |}.

End MemFs.

Module Fixture.

(** Tables for the examples, not those of [shared/constants.js]. *)
Definition constants : Constants :=
  {| invalidJsxExtensions := [".mjsx"; ".cjsx"; ".mtsx"; ".ctsx"];
     knownBrowserishConditions := ["worker"; "browser"];
     lintableFileExtensions := [".js"; ".mjs"; ".cjs"] |}.

(** A host for the examples: an object and an array inherit the
    members of [Object.prototype] listed, each a function, which is
    truthy and has no properties of its own here. *)
Definition realm : Realm :=
  {| Host := string;
     inherited := fun v p =>
       match v with
       | JObj _ | JArr _ =>
           if Str.mem p ["constructor"; "hasOwnProperty"; "isPrototypeOf";
                         "propertyIsEnumerable"; "toLocaleString";
                         "toString"; "valueOf"]
           then Some p else None
       | _ => None
       end;
     hostGet := fun _ _ => Ok None;
     hostTruthy := fun _ => true |}.

(** A text between quotation marks. *)
Definition q (s : string) : string :=
  String dquote s +++ String dquote EmptyString.

(** The manifest texts of the examples. *)
Definition typeModuleText : string := "{" +++ q "type" +++ ":" +++ q "module" +++ "}".
Definition emptyObjectText : string := "{}".

(** A manifest with [main] whose [exports] has the key [./sub] only,
    and one whose [repository] is [null]. *)
Definition subOnlyText : string :=
  "{" +++ q "type" +++ ":" +++ q "module" +++ "," +++
  q "main" +++ ":" +++ q "./index.js" +++ "," +++
  q "exports" +++ ":{" +++ q "./sub" +++ ":null}}".
Definition subOnly : json :=
  JObj [("type", JStr "module"); ("main", JStr "./index.js");
        ("exports", JObj [("./sub", JNull)])].
Definition repositoryNullText : string :=
  "{" +++ q "type" +++ ":" +++ q "module" +++ "," +++
  q "repository" +++ ":null}".
Definition repositoryNull : json :=
  JObj [("type", JStr "module"); ("repository", JNull)].

(** [JSON.parse] on these texts; every other text of the examples is
    JavaScript source, on which it throws. *)
Definition JSON_parse (text : string) : option json :=
  if String.eqb text typeModuleText then Some (JObj [("type", JStr "module")])
  else if String.eqb text emptyObjectText then Some (JObj [])
  else if String.eqb text subOnlyText then Some subOnly
  else if String.eqb text repositoryNullText then Some repositoryNull
  else None.

Definition fuel : nat := 16.

(** A package of type [module] with a directory [sub] that holds a
    manifest of its own without a [type] field. *)
Definition nested : Vfs.t :=
  MemFs.make
    [("/pkg/package.json", typeModuleText);
     ("/pkg/index.js", "export default 1");
     ("/pkg/sub/package.json", emptyObjectText);
     ("/pkg/sub/index.js", "module.exports = {}")].

(** A package whose [dist] holds [a/a.js], which a pattern with two
    wildcards matches with the same text twice, and [a/b.js], which it
    matches with two texts. *)
Definition twice : Vfs.t :=
  MemFs.make
    [("/pkg/package.json", typeModuleText);
     ("/pkg/dist/a/a.js", "export default 1");
     ("/pkg/dist/a/b.js", "export default 2")].

(** A package of type [module] with one entry in three formats. *)
Definition dual : Vfs.t :=
  MemFs.make
    [("/pkg/package.json", typeModuleText);
     ("/pkg/a.js", "export default 1");
     ("/pkg/a.mjs", "export default 1");
     ("/pkg/a.cjs", "module.exports = 1")].

Definition requireBeforeModule : json :=
  JObj [("require", JStr "./a.cjs"); ("module", JStr "./a.mjs")].

Definition defaultFirst : json :=
  JObj [("default", JStr "./a.js"); ("import", JStr "./a.mjs")].

(** [imports] with a key that lacks the [#]. *)
Definition importsFoo : json := JObj [("foo", JStr "./a.js")].

(** [imports] with a condition map under a key. *)
Definition importsNested : json :=
  JObj [("#a", JObj [("node", JStr "./a.cjs"); ("default", JStr "./a.js")])].

Definition manifest (field : string) (v : json) : json :=
  JObj [("name", JStr "pkg"); ("type", JStr "module"); (field, v)].

(** A mapping of a folder, as Node.js once had them; the package has
    no folder [sub]. *)
Definition folderMapping : json := JObj [("./sub/", JStr "./sub/")].

(** The folder mapping kept beside the wildcard mapping that
    replaces it. *)
Definition folderAndWildcard : json :=
  JObj [("./sub/", JStr "./sub/"); ("./sub/*", JStr "./sub/*")].

(** A folder mapping under the condition [import], beside a wildcard
    mapping of the same key that has the condition [require] only. *)
Definition wildcardOtherCondition : json :=
  JObj [("./sub/", JObj [("import", JStr "./sub/")]);
        ("./sub/*", JObj [("require", JStr "./sub/*")])].

(** [imports] that maps a name to a folder of a dependency. *)
Definition importsDependency : json := JObj [("#dep/", JStr "dep/")].

(** A package of type [module] with a file that has the markers of
    both formats and one that has none. *)
Definition undecided : Vfs.t :=
  MemFs.make
    [("/pkg/package.json", typeModuleText);
     ("/pkg/both.js", "import a from 'b'; module.exports = a");
     ("/pkg/side.cjs", "console.log(1)")].

(** A package whose [main] has the extension of one format and the
    text of the other. *)
Definition mismatch : Vfs.t :=
  MemFs.make
    [("/pkg/package.json", typeModuleText);
     ("/pkg/index.mjs", "module.exports = {}")].

(** A package of type [module] whose declaration file has the
    extension of the other format. *)
Definition typed : Vfs.t :=
  MemFs.make
    [("/pkg/package.json", typeModuleText);
     ("/pkg/a.mjs", "export default 1");
     ("/pkg/a.d.cts", "export = a")].

Definition typedExports : json :=
  JObj [("types", JStr "./a.d.cts"); ("import", JStr "./a.mjs")].

Definition typedManifest : json :=
  JObj [("name", JStr "pkg"); ("type", JStr "module");
        ("types", JStr "./a.d.cts"); ("exports", typedExports)].

(** The same package without the field [types]. *)
Definition untypedManifest : json :=
  JObj [("name", JStr "pkg"); ("type", JStr "module");
        ("exports", typedExports)].

(** A package of type [module] whose declaration file has the
    extension of its code file, and no entry for [require]. *)
Definition typedEsm : Vfs.t :=
  MemFs.make
    [("/pkg/package.json", typeModuleText);
     ("/pkg/a.mjs", "export default 1");
     ("/pkg/a.d.mts", "export default 1")].

Definition typedEsmExports : json :=
  JObj [("types", JStr "./a.d.mts"); ("import", JStr "./a.mjs")].

Definition typedEsmManifest : json :=
  JObj [("name", JStr "pkg"); ("type", JStr "module");
        ("types", JStr "./a.d.mts"); ("exports", typedEsmExports)].

End Fixture.

(* ===================================================================== *)
(** ** [shared/utils.js]: the functions that read the file system *)
(* ===================================================================== *)

(** [new RegExp(`^${parts.map(escapeRegExp).join('(.+)')}$`)]: the parts
    are escaped, so each is matched as it is written; between two parts
    stands the group [(.+)], numbered from [n]. *)
Fixpoint globParts (parts : list string) (n : nat) : regex :=
  match parts with
  | [] => Eps
  | [p] => Lit p
  | p :: rest =>
      Seq (Lit p) (Seq (Group n (Plus (Chr dot))) (globParts rest (S n)))
  end.

Definition globRegExp (str : string) : regex :=
  seqs [Bos; globParts (Str.split "*" str) 1; Eos].

(** The number of groups of [globRegExp str]. *)
Definition globGroups (str : string) : nat :=
  length (Str.split "*" str) - 1.

(** [str.match(globRegExp)]: the captured texts [matched[1]], ... *)
Definition globMatch (globStr str : string) : option (list (option string)) :=
  exec (globRegExp globStr) (globGroups globStr) str.

Definition optString_eqb (a b : option string) : bool :=
  match a, b with
  | Some x, Some y => String.eqb x y
  | None, None => true
  | _, _ => false
  end.

(** The loop over [matched[2]], ...: each the same as [matched[1]]. *)
Definition allGlobSame (matched : list (option string)) : bool :=
  match matched with
  | [] => true
  | first :: rest => forallb (fun c => optString_eqb c first) rest
  end.

(** A capture spliced into a text; [undefined] prints as its name. *)
Definition captureText (c : option (option string)) : string :=
  match c with
  | Some (Some s) => s
  | _ => "undefined"
  end.

Section Utils.

(** [JSON.parse]: [None] where it throws. *)
Variable JSON_parse : string -> option json.

(** The bound on the ancestors [getNearestPkg] visits and on the depth
    [exportsGlob] descends to. *)
Variable fuel : nat.

(** The [while (true)] loop of [getNearestPkg]. *)
Fixpoint getNearestPkgFrom (vfs : Vfs.t) (n : nat) (currentDir : string)
  : outcome (option json) :=
  match n with
  | 0 => OutOfFuel
  | S n' =>
      let pkgJsonPath := Vfs.pathJoin vfs currentDir "package.json" in
      let parsed :=
        if Vfs.isPathExist vfs pkgJsonPath then
          match Vfs.readFile vfs pkgJsonPath with
          | Some text => JSON_parse text
          | None => None
          end
        else None in
      match parsed with
      | Some pkg => Ok (Some pkg)
      | None =>
          let nextDir := Vfs.getDirName vfs currentDir in
          if String.eqb nextDir currentDir then Ok None
          else getNearestPkgFrom vfs n' nextDir
      end
  end.

Definition getNearestPkg (filePath : string) (vfs : Vfs.t)
  : outcome (option json) :=
  getNearestPkgFrom vfs fuel (Vfs.getDirName vfs filePath).

(** [nearestPkg?.type === 'module' ? 'ESM' : 'CJS'] *)
Definition formatOfPkg (nearestPkg : option json) : CodeFormat :=
  match nearestPkg with
  | None => CJS
  | Some pkg =>
      match getPropOpt (Some pkg) "type" with
      | Some (JStr type) => if String.eqb type "module" then ESM else CJS
      | _ => CJS
      end
  end.

Definition getFilePathFormat (filePath : string) (vfs : Vfs.t)
  : outcome CodeFormat :=
  let filePath :=
    if Str.endsWith filePath ".native.js" then Str.dropEnd 10 filePath
    else filePath in
  if Str.endsWith filePath ".mjs" then Ok ESM
  else if Str.endsWith filePath ".cjs" then Ok CJS
  else match getNearestPkg filePath vfs with
       | Ok nearestPkg => Ok (formatOfPkg nearestPkg)
       | Throw => Throw
       | OutOfFuel => OutOfFuel
       end.

Definition getDtsFilePathFormat (filePath : string) (vfs : Vfs.t)
  : outcome CodeFormat :=
  if Str.endsWith filePath ".d.mts" then Ok ESM
  else if Str.endsWith filePath ".d.cts" then Ok CJS
  else match getNearestPkg filePath vfs with
       | Ok nearestPkg => Ok (formatOfPkg nearestPkg)
       | Throw => Throw
       | OutOfFuel => OutOfFuel
       end.

(** The regular expressions of the keys of [exports] mapped to
    [null]. *)
Definition excludedExportKeys (exportsKey : option string)
           (exports : option json) : list string :=
  if truthy (option_map JStr exportsKey) && truthy exports then
    map fst (filter (fun kv => match snd kv with JNull => true | _ => false end)
                    (forIn exports))
  else [].

(** What [scanDir] does with an item that is not a directory: [true]
    where the path is pushed to [filePaths]. *)
Definition globAccepts (globStr : string) (exportsKey : option string)
           (exports : option json) (itemPath : string) : bool :=
  match globMatch (Str.slash globStr) (Str.slash itemPath) with
  | None => false
  | Some matched =>
      if negb (allGlobSame matched) then false
      else
        match exportsKey with
        | Some key =>
            let excluded := excludedExportKeys exportsKey exports in
            if truthy (Some (JStr key)) && truthy exports &&
               negb (Nat.eqb (length excluded) 0) then
              let replacedExportsKey :=
                Str.replaceFirst key "*" (captureText (nth_error matched 0)) in
              negb (existsb (fun k => test (globRegExp k) replacedExportsKey)
                            excluded)
            else true
        | None => true
        end
  end.

(** [packedFiles.some((file) => file.startsWith(itemPath))], true
    without [packedFiles]. *)
Definition isPacked (packedFiles : option (list string))
           (itemPath : string) : bool :=
  match packedFiles with
  | None => true
  | Some files => existsb (fun file => Str.startsWith file itemPath) files
  end.

Fixpoint concatOutcomes {A B : Type} (f : A -> outcome (list B))
         (l : list A) : outcome (list B) :=
  match l with
  | [] => Ok []
  | x :: rest =>
      match f x with
      | Ok ys =>
          match concatOutcomes f rest with
          | Ok zs => Ok (ys ++ zs)
          | Throw => Throw
          | OutOfFuel => OutOfFuel
          end
      | Throw => Throw
      | OutOfFuel => OutOfFuel
      end
  end.

(** [scanDir]: the paths it pushes to [filePaths], in order. *)
Fixpoint scanDir (globStr : string) (vfs : Vfs.t)
         (packedFiles : option (list string)) (exportsKey : option string)
         (exports : option json) (n : nat) (dirPath : string)
  : outcome (list string) :=
  match n with
  | 0 => OutOfFuel
  | S n' =>
      concatOutcomes
        (fun item =>
           let itemPath := Vfs.pathJoin vfs dirPath item in
           if isPacked packedFiles itemPath then
             if Vfs.isPathDir vfs itemPath then
               scanDir globStr vfs packedFiles exportsKey exports n' itemPath
             else if globAccepts globStr exportsKey exports itemPath
                  then Ok [itemPath] else Ok []
           else Ok [])
        (Vfs.readDir vfs dirPath)
  end.

(** [globStr.split('*')[0].match(/(.+)[/\\]/)?.[1]] *)
Definition topDirOf (globStr : string) : option string :=
  match exec (Seq (Group 1 (Plus (Chr dot))) (Chr (oneOf "/\")))
             1 (hd EmptyString (Str.split "*" globStr)) with
  | Some [Some dir] => Some dir
  | _ => None
  end.

Definition exportsGlob (globStr : string) (vfs : Vfs.t)
           (packedFiles : option (list string)) (exportsKey : option string)
           (exports : option json) : outcome (list string) :=
  match topDirOf globStr with
  | Some topDir =>
      if Vfs.isPathDir vfs topDir
      then scanDir globStr vfs packedFiles exportsKey exports fuel topDir
      else Ok []
  | None => Ok []
  end.

End Utils.

(* ===================================================================== *)
(** ** [shared/core.js] *)
(* ===================================================================== *)

Definition format_differs (actualFormat expectFormat : CodeFormat) : bool :=
  negb (CodeFormat_eqb actualFormat expectFormat) &&
  negb (CodeFormat_eqb actualFormat unknown) &&
  negb (CodeFormat_eqb actualFormat mixed).

(** ['name' in obj] for [obj] with [typeof obj === 'object'] and one of
    the names listed at [getProp]. *)
Definition hasProperty (obj : json) (key : string) : outcome bool :=
  match getProp (Some obj) key with
  | Ok (Some _) => Ok true
  | Ok None => Ok false
  | Throw => Throw
  | OutOfFuel => OutOfFuel
  end.

(* ===================================================================== *)
(** ** [shared/utils.js]: the repository URLs *)
(* ===================================================================== *)

(** [GIT_URL_RE]: an optional protocol before [://] (group 1), an
    optional user before [@], the host (group 2), an optional port after
    a colon (group 3), the path from its slash on (group 4), an optional
    slash, the end. *)
Definition GIT_URL_RE : regex :=
  seqs [Bos;
        Opt (Seq (Group 1 (alts [Seq (Lit "git+http") (Opt (Lit "s"));
                                 Lit "git+ssh";
                                 Seq (Lit "http") (Opt (Lit "s"));
                                 Lit "ssh"; Lit "git"]))
                 (Lit "://"));
        Opt (Seq (Plus (Chr (union isWord (oneOf "._-")))) (Lit "@"));
        Group 2 (Plus (Chr (union isWord (oneOf ".-"))));
        Opt (Seq (Lit ":") (Group 3 (Plus (Chr (union isWord (oneOf "-"))))));
        Group 4 (Seq (Lit "/") (Plus (Chr (union isWord (oneOf "._/-")))));
        Opt (Lit "/");
        Eos].

(** [tokens[i]] of a match with four groups. *)
Definition token (tokens : list (option string)) (i : nat) : option string :=
  match nth_error tokens (i - 1) with
  | Some t => t
  | None => None
  end.

(** [re.test(host)] where [host] may be [undefined], which is tested as
    the text of its name. *)
Definition testToken (r : regex) (t : option string) : bool :=
  test r (match t with Some s => s | None => "undefined" end).

Definition hasProtocolOrUser (url : string) : bool :=
  Str.includes url "://" || Str.includes url "@".

Definition isGitUrl (url : string) : bool :=
  test GIT_URL_RE url && hasProtocolOrUser url.

Definition isShorthandGitHubOrGitLabUrl (url : string) : bool :=
  match exec GIT_URL_RE 4 url with
  | Some tokens =>
      if hasProtocolOrUser url then
        let host := token tokens 2 in
        let path := token tokens 4 in
        if testToken (Group 1 (Alt (Lit "github") (Lit "gitlab"))) host then
          negb (Str.startsWith url "git+") ||
          negb (match path with
                | Some path => Str.endsWith path ".git"
                | None => false
                end)
        else false
      else false
  | None => false
  end.

Definition isDeprecatedGitHubGitUrl (url : string) : bool :=
  match exec GIT_URL_RE 4 url with
  | Some tokens =>
      let protocol := token tokens 1 in
      let host := token tokens 2 in
      testToken (Lit "github") host && optString_eqb protocol (Some "git")
  | None => false
  end.

Definition notSlash (a : ascii) : bool := negb (Ascii.eqb a "/").

(** [SHORTHAND_REPOSITORY_URL_RE]: a host name, a colon, a user, a slash
    and a name; or [gist:] and an id; or a user, a slash and a name. *)
Definition SHORTHAND_REPOSITORY_URL_RE : regex :=
  seqs [Bos;
        alts [seqs [alts [Lit "github"; Lit "bitbucket"; Lit "gitlab"];
                    Lit ":"; Plus (Chr notSlash); Lit "/"; Plus (Chr dot)];
              seqs [Lit "gist:"; Plus (Chr dot)];
              seqs [Plus (Chr notSlash); Lit "/"; Plus (Chr notSlash)]];
        Eos].

Definition isShorthandRepositoryUrl (url : string) : bool :=
  test SHORTHAND_REPOSITORY_URL_RE url.

(* ===================================================================== *)
(** ** The messages of a pass *)
(* ===================================================================== *)

(** The codes of the checks on the package as a whole; [MessageCode]
    has those of the checks on entry points and files. *)
Inductive PackageCode : Type :=
| USE_FILES
| USE_LICENSE
| LOCAL_DEPENDENCY
| USE_TYPE
| IMPLICIT_INDEX_JS_INVALID_FORMAT
| MODULE_SHOULD_BE_ESM
| HAS_MODULE_BUT_NO_EXPORTS
| EXPORTS_MISSING_ROOT_ENTRYPOINT
| INVALID_REPOSITORY_VALUE
| DEPRECATED_FIELD_JSNEXT
| USE_EXPORTS_BROWSER
| USE_EXPORTS_OR_IMPORTS_BROWSER.

Definition PackageCode_eq_dec (a b : PackageCode) : {a = b} + {a <> b}.
Proof. decide equality. Defined.

Module Pass.

(** The code of a message of [core]: of either list. *)
Inductive Code : Type :=
| OfEntry (c : MessageCode)
| OfPackage (c : PackageCode).

Record message : Type := {
  code : Code;
  args : list (string * Arg);
  path : list string;
  type : MessageType
}.

(** A message of the checks on entry points as a message of the
    pass. *)
Definition ofMessage (m : Message) : message :=
  let (c, a, p, t) := m in
  {| code := OfEntry c; args := a; path := p; type := t |}.

(** A computation of [core]: the messages pushed and how it ended. *)
Definition M (A : Type) : Type := (list message * outcome A)%type.

Definition ret {A : Type} (a : A) : M A := ([], Ok a).

Definition bind {A B : Type} (m : M A) (f : A -> M B) : M B :=
  match snd m with
  | Ok a => (fst m ++ fst (f a), snd (f a))
  | Throw => (fst m, Throw)
  | OutOfFuel => (fst m, OutOfFuel)
  end.

Definition push (m : message) : M unit := ([m], Ok tt).

Definition lift {A : Type} (o : outcome A) : M A := ([], o).

Definition when (b : bool) (m : M unit) : M unit :=
  if b then m else ret tt.

End Pass.

Notation "x <~ c1 ;; c2" := (Pass.bind c1 (fun x => c2))
  (at level 61, c1 at next level, right associativity).

(** A check on entry points run within the pass. *)
Definition entry {A : Type} (m : M A) : Pass.M A :=
  (map Pass.ofMessage (fst m), snd m).

(** [promiseQueue.push(task)] for a task of the pass. *)
Definition queue (task : Pass.M unit) : Pass.M (list Settled) :=
  match snd task with
  | Ok _ => (fst task, Ok [fulfilled])
  | Throw => (fst task, Ok [rejected])
  | OutOfFuel => (fst task, Ok [pending])
  end.

(** [await promiseQueue.wait()], that is [Promise.all]: it rejects where
    a promise of the queue is rejected, and does not come back where
    none is rejected and one never settles. *)
Definition wait (promises : list Settled) : outcome unit :=
  if existsb (fun p => match p with rejected => true | _ => false end) promises
  then Throw
  else if existsb (fun p => match p with pending => true | _ => false end)
                  promises
       then OutOfFuel
       else Ok tt.

(** [key in obj]: on a value that is no object the operator throws. *)
Definition inOperator (key : string) (obj : json) : outcome bool :=
  match obj with
  | JObj _ | JArr _ => hasProperty obj key
  | _ => Throw
  end.

Section Core.

#[local] Set Default Proof Using "Type".

Variable JSON_parse : string -> option json.
Variable fuel : nat.
Variable constants : Constants.

(** The parameters of [core] its closures read, and [rootPkg]. *)
Variable pkgDir : string.
Variable vfs : Vfs.t.
Variable _packedFiles : option (list string).
Variable rootPkg : json.

(** The built-in prototypes of the host the code runs on. *)
Variable realm : Realm.

Definition exports : option json := fst (getPublishedField rootPkg "exports").
Definition exportsPkgPath : list string :=
  snd (getPublishedField rootPkg "exports").
Definition browser : option json := fst (getPublishedField rootPkg "browser").
Definition browserPkgPath : list string :=
  snd (getPublishedField rootPkg "browser").

Definition isFilePathLintable (filePath : string) : bool :=
  existsb (fun ext => Str.endsWith filePath ext)
          (lintableFileExtensions constants).

Definition fileNotPublished (pkgPath : list string) : M unit :=
  push {| code := FILE_NOT_PUBLISHED; args := []; path := pkgPath;
          type := error |}.

(** [pkgPath && _packedFiles && !_packedFiles.includes(path)]; an
    empty [pkgPath] is an array and so is truthy. *)
Definition reportUnpublished (pkgPath : option (list string))
           (path : string) : M unit :=
  match pkgPath, _packedFiles with
  | Some pkgPath, Some files =>
      when (negb (Str.mem path files)) (fileNotPublished pkgPath)
  | _, _ => ret tt
  end.

(** The [catch] branch of [readFile]. *)
Fixpoint readFileTry (path : string) (pkgPath : option (list string))
         (tryExtensions : list string) : M (option string) :=
  match tryExtensions with
  | [] =>
      match pkgPath with
      | Some pkgPath =>
          push {| code := FILE_DOES_NOT_EXIST; args := []; path := pkgPath;
                  type := error |}
      | None => ret tt
      end ;;
      ret None
  | ext :: rest =>
      let ext :=
        match Str.first ext, Str.last path with
        | Some "/"%char, Some "/"%char => Str.dropStart 1 ext
        | _, _ => ext
        end in
      match Vfs.readFile vfs (path +++ ext) with
      | Some content =>
          reportUnpublished pkgPath (path +++ ext) ;;
          ret (Some content)
      | None => readFileTry path pkgPath rest
      end
  end.

(** [readFile]: [None] is the [false] of the source. *)
Definition readFile (path : string) (pkgPath : option (list string))
           (tryExtensions : list string) : M (option string) :=
  match Vfs.readFile vfs path with
  | Some content =>
      reportUnpublished pkgPath path ;;
      ret (Some content)
  | None => readFileTry path pkgPath tryExtensions
  end.

Definition hasInvalidJsxExtension (filePath : string)
           (currentPath : list string) (globbedFilePath : option string)
  : M bool :=
  match List.find (fun ext => Str.endsWith filePath ext)
                  (invalidJsxExtensions constants) with
  | Some matched =>
      if truthy (Some (JStr matched)) then
        push {| code := FILE_INVALID_JSX_EXTENSION;
                args := [("actualExtension", ArgString matched);
                         ("globbedFilePath",
                          match globbedFilePath with
                          | Some g => ArgString g
                          | None => ArgUndefined
                          end)];
                path := currentPath; type := error |} ;;
        ret true
      else ret false
  | None => ret false
  end.

Definition ensureTypeOfField (fieldValue : option json)
           (expectTypes : list string) (pkgPath : list string) : M bool :=
  if negb (Str.mem (typeOf fieldValue) expectTypes) then
    push {| code := FIELD_INVALID_VALUE_TYPE;
            args := [("actualType", ArgString (typeOf fieldValue));
                     ("expectTypes", ArgList expectTypes)];
            path := pkgPath; type := error |} ;;
    ret false
  else ret true.

(** The message of a format mismatch, as [main], [bin] and the crawl
    of [exports] build it; [actualFilePath] is absent for [main] and
    [bin]. *)
Definition invalidFormatMessage (actualFormat expectFormat : CodeFormat)
           (actualExtension expectExtension : string)
           (actualFilePath : option string) (pkgPath : list string)
  : Message :=
  {| code := if isExplicitExtension actualExtension
             then FILE_INVALID_EXPLICIT_FORMAT else FILE_INVALID_FORMAT;
     args := [("actualFormat", ArgFormat actualFormat);
              ("expectFormat", ArgFormat expectFormat);
              ("actualExtension", ArgString actualExtension);
              ("expectExtension", ArgString expectExtension)] ++
             match actualFilePath with
             | Some f => [("actualFilePath", ArgString f)]
             | None => []
             end;
     path := pkgPath; type := warning |}.

(** *** [main] (the task of lines 196-238) *)

Definition mainTask (main : option json) (mainPkgPath : list string)
  : M unit :=
  ok <- ensureTypeOfField main ["string"] mainPkgPath ;;
  match ok, main with
  | true, Some (JStr main) =>
      let mainPath := Vfs.pathJoin vfs pkgDir main in
      mainContent <- readFile mainPath (Some mainPkgPath) [".js"; "/index.js"] ;;
      match mainContent with
      | None => ret tt
      | Some mainContent =>
          invalid <- hasInvalidJsxExtension main mainPkgPath None ;;
          if invalid then ret tt
          else if negb (isFilePathLintable main) then ret tt
          else
            let actualFormat := getCodeFormat mainContent in
            expectFormat <- lift (getFilePathFormat JSON_parse fuel mainPath vfs) ;;
            when (format_differs actualFormat expectFormat)
                 (let actualExtension := Vfs.getExtName vfs mainPath in
                  push (invalidFormatMessage actualFormat expectFormat
                          actualExtension
                          (getCodeFormatExtension actualFormat)
                          None mainPkgPath)) ;;
            when (CodeFormat_eqb actualFormat ESM && nullish exports)
                 (push {| code := HAS_ESM_MAIN_BUT_NO_EXPORTS; args := [];
                          path := mainPkgPath; type := suggestion |})
      end
  | _, _ => ret tt
  end.

(** [if (main != null) promiseQueue.push(...)] *)
Definition checkMain : M (list Settled) :=
  let (main, mainPkgPath) := getPublishedField rootPkg "main" in
  if nullish main then ret []
  else promiseQueue_push (mainTask main mainPkgPath).

(** *** [bin] *)

Definition binTask (binValue : string) (currentPath : list string)
  : M unit :=
  let binPath := Vfs.pathJoin vfs pkgDir binValue in
  binContent <- readFile binPath (Some currentPath) [".js"; "/index.js"] ;;
  match binContent with
  | None => ret tt
  | Some binContent =>
      if negb (isFilePathLintable binValue) then ret tt
      else
        when (negb (startsWithShebang binContent))
             (push {| code := BIN_FILE_NOT_EXECUTABLE; args := [];
                      path := currentPath; type := error |}) ;;
        let actualFormat := getCodeFormat binContent in
        expectFormat <- lift (getFilePathFormat JSON_parse fuel binPath vfs) ;;
        when (format_differs actualFormat expectFormat)
             (let actualExtension := Vfs.getExtName vfs binPath in
              push (invalidFormatMessage actualFormat expectFormat
                      actualExtension
                      (getCodeFormatExtension actualFormat)
                      None currentPath))
  end.

(** [crawlBin]: a nested value that is not a string is reported by
    [ensureTypeOfField] and not crawled. *)
Definition crawlBin (binValue : json) (currentPath : list string)
  : M (list Settled) :=
  match binValue with
  | JStr s => promiseQueue_push (binTask s currentPath)
  | _ =>
      if isObjectType binValue then
        (fix each (members : list (string * json)) : M (list Settled) :=
           match members with
           | [] => ret []
           | (key, v) :: rest =>
               let binPath := currentPath ++ [key] in
               ok <- ensureTypeOfField (Some v) ["string"] binPath ;;
               ps <- match ok, v with
                     | true, JStr s => promiseQueue_push (binTask s binPath)
                     | _, _ => ret []
                     end ;;
               qs <- each rest ;;
               ret (ps ++ qs)
           end) (forIn (Some binValue))
      else ret []
  end.

(** *** The files of a package without [exports] (lines 386-452) *)

Definition scanFile (filePath : string) : M unit :=
  invalid <- hasInvalidJsxExtension filePath ["name"]
               (Some ("/" +++ Vfs.pathRelative vfs pkgDir filePath)) ;;
  if invalid then ret tt
  else if negb (isFilePathLintable filePath) then ret tt
  else
    fileContent <- readFile filePath (Some []) [] ;;
    match fileContent with
    | None => ret tt
    | Some fileContent =>
        if negb (isFileContentLintable fileContent) then ret tt
        else
          let actualFormat := getCodeFormat fileContent in
          expectFormat <- lift (getFilePathFormat JSON_parse fuel filePath vfs) ;;
          if format_differs actualFormat expectFormat then
            let isSafeEsm :=
              CodeFormat_eqb actualFormat ESM &&
              (Str.includes filePath "browser" ||
               Str.includes filePath "bundler") in
            if isSafeEsm then ret tt
            else
              let actualExtension := Vfs.getExtName vfs filePath in
              let expectExtension := getCodeFormatExtension actualFormat in
              let expectFilePath :=
                replaceLast filePath actualExtension expectExtension in
              if Vfs.isPathExist vfs expectFilePath then ret tt
              else
                push (invalidFormatMessage actualFormat expectFormat
                        actualExtension expectExtension
                        (Some ("/" +++ Vfs.pathRelative vfs pkgDir filePath))
                        ["name"])
          else ret tt
    end.

Definition scanTask : M unit :=
  files <- lift (exportsGlob fuel (Vfs.pathJoin vfs pkgDir "./*") vfs
                   _packedFiles None None) ;;
  forEach scanFile files.

(** *** [exports] and [imports] *)

Definition getExportsFiles (exportsValue : string)
           (exportsKey : option string) (exports : option json)
  : outcome (list string) :=
  let exportsPath :=
    if isRelativePath exportsValue
    then Vfs.pathJoin vfs pkgDir exportsValue else exportsValue in
  let isGlob := Str.includes exportsValue "*" in
  if isGlob
  then exportsGlob fuel exportsPath vfs _packedFiles exportsKey exports
  else Ok [exportsPath].

(** The body of [for (const filePath of exportsFiles)] together with
    the task it pushes on [pq]. *)
Definition crawlFile (exportsValue : string) (currentPath : list string)
           (isImports isAfterNodeCondition isGlob : bool)
           (filePath : string) : M unit :=
  invalid <- hasInvalidJsxExtension filePath currentPath
               (if isGlob
                then Some ("./" +++ Vfs.pathRelative vfs pkgDir filePath)
                else None) ;;
  if invalid then ret tt
  else if negb (isFilePathLintable filePath) then
    if isAbsolutePath filePath && negb (isFilePathRawTs filePath)
    then _ <- readFile filePath (Some currentPath) [] ;; ret tt
    else ret tt
  else
    fileContent <- readFile filePath (Some currentPath) [] ;;
    match fileContent with
    | None => ret tt
    | Some fileContent =>
        if negb (isFileContentLintable fileContent) then ret tt
        else if Str.mem "module" currentPath then
          when (CodeFormat_eqb (getCodeFormat fileContent) CJS)
               (push {| code := if isImports
                                then IMPORTS_MODULE_SHOULD_BE_ESM
                                else EXPORTS_MODULE_SHOULD_BE_ESM;
                        args := []; path := currentPath; type := error |})
        else if isAfterNodeCondition || Str.mem "browser" currentPath
        then ret tt
        else
          let actualFormat := getCodeFormat fileContent in
          expectFormat <- lift (getFilePathFormat JSON_parse fuel filePath vfs) ;;
          if format_differs actualFormat expectFormat then
            let isSafeEsm :=
              CodeFormat_eqb actualFormat ESM &&
              (Str.includes filePath "browser" ||
               Str.includes filePath "bundler") in
            if isSafeEsm then ret tt
            else
              let actualExtension := Vfs.getExtName vfs filePath in
              let expectExtension := getCodeFormatExtension actualFormat in
              if isGlob &&
                 Vfs.isPathExist vfs
                   (replaceLast filePath actualExtension expectExtension)
              then ret tt
              else
                push (invalidFormatMessage actualFormat expectFormat
                        actualExtension expectExtension
                        (Some (if isGlob
                               then "./" +++ Vfs.pathRelative vfs pkgDir filePath
                               else exportsValue))
                        currentPath)
          else ret tt
    end.

(** [currentPath.map((part) => part.endsWith('/') ? part + '*' : part)] *)
Definition expectPathOf (currentPath : list string) : list string :=
  map (fun part => if Str.endsWith part "/" then part +++ "*" else part)
      currentPath.

(** The block [if (exportsValue.endsWith('/'))]: the message, and the
    value the task goes on with. *)
Definition deprecatedSubpathMapping (exportsValue : string)
           (currentPath : list string) (isImports : bool) : M string :=
  if Str.endsWith exportsValue "/" then
    let expectPath := expectPathOf currentPath in
    found <- lift (getPkgPathValue realm rootPkg expectPath) ;;
    let expectPathAlreadyExist := truthyValue found in
    push {| code := if isImports
                    then IMPORTS_GLOB_NO_DEPRECATED_SUBPATH_MAPPING
                    else EXPORTS_GLOB_NO_DEPRECATED_SUBPATH_MAPPING;
            args := [("expectPath", ArgList expectPath);
                     ("expectValue", ArgString (exportsValue +++ "*"))];
            path := currentPath;
            type := if expectPathAlreadyExist then suggestion else error |} ;;
    ret (exportsValue +++ "*")
  else ret exportsValue.

(** The block on a value found among the keys of [browser]. *)
Definition browserConflict (exportsValue : string)
           (currentPath : list string) (isImports : bool) : M unit :=
  match isImports, browser with
  | false, Some b =>
      if isObjectType b then
        remapped <- lift (hasMember realm b exportsValue) ;;
        if remapped then
          match List.find (fun c => Str.mem c currentPath)
                          (knownBrowserishConditions constants) with
          | Some browserishCondition =>
              when (truthy (Some (JStr browserishCondition)))
                   (push {| code := EXPORTS_VALUE_CONFLICTS_WITH_BROWSER;
                            args := [("browserPath",
                                      ArgList (browserPkgPath ++ [exportsValue]));
                                     ("browserishCondition",
                                      ArgString browserishCondition)];
                            path := currentPath; type := warning |})
          | None => ret tt
          end
        else ret tt
      else ret tt
  | _, _ => ret tt
  end.

(** The task pushed for a string (lines 695-879). *)
Definition crawlLeaf (exportsValue : string) (currentPath : list string)
           (isImports isAfterNodeCondition : bool) : M unit :=
  if isImports && negb (Str.startsWith exportsValue ".") then ret tt
  else
    exportsValue <- deprecatedSubpathMapping exportsValue currentPath isImports ;;
    when (negb (Str.startsWith exportsValue "./"))
         (push {| code := if isImports then IMPORTS_VALUE_INVALID
                          else EXPORTS_VALUE_INVALID;
                  args := [("suggestValue",
                            ArgString ("./" +++ Str.stripLeadingSlashes exportsValue))];
                  path := currentPath; type := error |}) ;;
    let isGlob := Str.includes exportsValue "*" in
    let exportsKey := nth_error currentPath 1 in
    exportsFiles <- lift (getExportsFiles exportsValue exportsKey exports) ;;
    if isGlob && Nat.eqb (length exportsFiles) 0 then
      push {| code := if isImports then IMPORTS_GLOB_NO_MATCHED_FILES
                      else EXPORTS_GLOB_NO_MATCHED_FILES;
              args := []; path := currentPath; type := warning |}
    else
      browserConflict exportsValue currentPath isImports ;;
      forEach (crawlFile exportsValue currentPath isImports
                         isAfterNodeCondition isGlob)
              exportsFiles.

(** The keys before [types] that are neither [types]-like nor lead to
    a raw TypeScript file. *)
Definition precedingKeys (members : list (string * json))
  : list (string * json) :=
  filter
    (fun kv =>
       let (key, value) := kv : string * json in
       if Str.startsWith key "types" then false
       else match value with
            | JStr s => negb (isFilePathRawTs s)
            | _ => negb (isObjectType value &&
                         objectHasValueNested value isFilePathRawTs)
            end)
    (firstn (match indexOf "types" (keys members) with
             | Some i => i
             | None => 0
             end) members).

(** The check [types should be the first condition]. *)
Definition typesShouldBeFirst (members : list (string * json))
           (currentPath : list string) (isImports : bool) : M unit :=
  if negb isImports && Str.mem "types" (keys members) &&
     negb (optString_eqb (nth_error (keys members) 0) (Some "types")) then
    let preceding := precedingKeys members in
    let isPrecededByNestedTypesCondition :=
      existsb (fun kv => isObjectType (snd kv) &&
                         objectHasKeyNested (snd kv) "types") preceding in
    when (negb (Nat.eqb (length preceding) 0) &&
          negb isPrecededByNestedTypesCondition)
         (push {| code := EXPORTS_TYPES_SHOULD_BE_FIRST; args := [];
                  path := currentPath ++ ["types"]; type := error |})
  else ret tt.

(** [keys.indexOf(a) > keys.indexOf(b)]; [indexOf] is [-1] for an
    absent key. *)
Definition indexGt (a b : option nat) : bool :=
  match a, b with
  | Some i, Some j => (j <? i)%nat
  | Some _, None => true
  | None, _ => false
  end.

(** The check [module should precede require]. *)
Definition moduleShouldPrecedeRequire (members : list (string * json))
           (currentPath : list string) (isImports : bool) : M unit :=
  let exportsKeys := keys members in
  when (Str.mem "module" exportsKeys && Str.mem "require" exportsKeys &&
        indexGt (indexOf "module" exportsKeys) (indexOf "require" exportsKeys))
       (push {| code := if isImports
                        then IMPORTS_MODULE_SHOULD_PRECEDE_REQUIRE
                        else EXPORTS_MODULE_SHOULD_PRECEDE_REQUIRE;
                args := []; path := currentPath ++ ["module"];
                type := error |}).

(** The check [default should be the last condition]. *)
Definition defaultShouldBeLast (members : list (string * json))
           (currentPath : list string) (isImports : bool) : M unit :=
  let exportsKeys := keys members in
  when (Str.mem "default" exportsKeys &&
        negb (optString_eqb
                (nth_error exportsKeys (length exportsKeys - 1))
                (Some "default")))
       (push {| code := if isImports then IMPORTS_DEFAULT_SHOULD_BE_LAST
                        else EXPORTS_DEFAULT_SHOULD_BE_LAST;
                args := []; path := currentPath ++ ["default"];
                type := error |}).

(** The check on a key of [imports]. *)
Definition importsKeyInvalid (key : string) (currentPath : list string)
           (isCurrentPathImports : bool) : M unit :=
  when (isCurrentPathImports && negb (Str.startsWith key "#"))
       (push {| code := IMPORTS_KEY_INVALID;
                args := [("suggestKey",
                          ArgString ("#" +++ Str.stripLeadingSlashes key))];
                path := currentPath ++ [key]; type := error |}).

(** [currentPath[currentPath.length - 1]] *)
Definition lastPart (currentPath : list string) : option string :=
  nth_error currentPath (length currentPath - 1).

(** [for (const key of exportsValue.keys())] over an array, from the
    index [key] on. *)
Fixpoint forItems (body : nat -> json -> M (list Settled))
         (items : list json) (key : nat) : M (list Settled) :=
  match items with
  | [] => ret []
  | item :: rest =>
      ps <- body key item ;;
      qs <- forItems body rest (S key) ;;
      ret (ps ++ qs)
  end.

(** [for (const key of exportsKeys)] with the flag the loop keeps:
    set once the key [node] has been gone through. *)
Fixpoint forMembers (body : string -> json -> bool -> M (list Settled))
         (members : list (string * json)) (isKeyAfterNodeCondition : bool)
  : M (list Settled) :=
  match members with
  | [] => ret []
  | (key, value) :: rest =>
      ps <- body key value isKeyAfterNodeCondition ;;
      qs <- forMembers body rest
              (isKeyAfterNodeCondition || String.eqb key "node") ;;
      ret (ps ++ qs)
  end.

(** [crawlExportsOrImports]: the promises it pushed on the queue.  A
    truthy number or [true] makes the operator [in] throw. *)
Fixpoint crawlExportsOrImports (exportsValue : json)
         (currentPath : list string)
         (isImports isAfterNodeCondition : bool) {struct exportsValue}
  : M (list Settled) :=
  match exportsValue with
  | JStr s =>
      promiseQueue_push
        (crawlLeaf s currentPath isImports isAfterNodeCondition)
  | JArr items =>
      push {| code := if isImports then IMPORTS_FALLBACK_ARRAY_USE
                      else EXPORTS_FALLBACK_ARRAY_USE;
              args := []; path := currentPath; type := warning |} ;;
      forItems
        (fun key item =>
           crawlExportsOrImports item (currentPath ++ [Str.ofNat key])
                                 isImports isAfterNodeCondition)
        items 0
  | JObj members =>
      typesShouldBeFirst members currentPath isImports ;;
      moduleShouldPrecedeRequire members currentPath isImports ;;
      defaultShouldBeLast members currentPath isImports ;;
      let isCurrentPathImports :=
        isImports && optString_eqb (lastPart currentPath) (Some "imports") in
      forMembers
        (fun key value isKeyAfterNodeCondition =>
           importsKeyInvalid key currentPath isCurrentPathImports ;;
           crawlExportsOrImports value (currentPath ++ [key])
                                 isImports isKeyAfterNodeCondition)
        members isAfterNodeCondition
  | JNull => ret []
  | JBool b => if b then lift Throw else ret []
  | JNum n => if Z.eqb n 0 then ret [] else lift Throw
  end.

(** *** Declaration files *)

Definition findTypesFilePath (exportsKey : option string)
  : M (option json) :=
  if match exportsKey with
     | None => true
     | Some key => String.eqb key "."
     end
  then
    let types := fst (getPublishedField rootPkg "types") in
    let typings := fst (getPublishedField rootPkg "typings") in
    if truthy types then ret types
    else if truthy typings then ret typings
    else
      content <- readFile (Vfs.pathJoin vfs pkgDir "./index.d.ts") None [] ;;
      if truthy (option_map JStr content)
      then ret (Some (JStr "./index.d.ts"))
      else ret None
  else ret None.

(** [format === 'import' ? 'ESM' : 'CJS'] *)
Definition formatOfCondition (format : string) : CodeFormat :=
  if String.eqb format "import" then ESM else CJS.

(** The path the message proposes: the condition put before a final
    [types], or else appended. *)
Definition expectPathFor (path : list string) (format : string)
  : list string :=
  if Str.mem format path then path
  else
    match indexOf "types" path with
    | Some typesIndex =>
        if Nat.eqb typesIndex (length path - 1)
        then firstn typesIndex path ++ [format] ++ skipn typesIndex path
        else path ++ [format]
    | None => path ++ [format]
    end.

(** The format expected of a declaration file from the code file
    resolved for the same conditions. *)
Definition siblingFormat (isDualPublish : bool)
           (jsResult : option Resolved) : outcome (option CodeFormat) :=
  if negb isDualPublish then
    match jsResult with
    | Some js =>
        let jsResolvedPath := Vfs.pathJoin vfs pkgDir (value js) in
        if Vfs.isPathExist vfs jsResolvedPath then
          match getFilePathFormat JSON_parse fuel jsResolvedPath vfs with
          | Ok f => Ok (Some f)
          | Throw => Throw
          | OutOfFuel => OutOfFuel
          end
        else Ok None
    | None => Ok None
    end
  else Ok None.

(** The branch [if (isDtsFile(typesResult.value))]. *)
Definition checkDtsFormat (typesResult : Resolved) (format : string)
           (isDualPublish : bool) (importResult requireResult : option Resolved)
  : M unit :=
  let typesResolvedPath := Vfs.pathJoin vfs pkgDir (value typesResult) in
  dtsActualFormat <- lift (getDtsFilePathFormat JSON_parse fuel typesResolvedPath vfs) ;;
  let jsResult :=
    if String.eqb format "import" then importResult else requireResult in
  fromSibling <- lift (siblingFormat isDualPublish jsResult) ;;
  let dtsExpectFormat :=
    match fromSibling with
    | Some f => f
    | None => formatOfCondition format
    end in
  when (negb (CodeFormat_eqb dtsActualFormat dtsExpectFormat))
       (push {| code := EXPORTS_TYPES_INVALID_FORMAT;
                args := [("condition", ArgString format);
                         ("actualFormat", ArgFormat dtsActualFormat);
                         ("expectFormat", ArgFormat dtsExpectFormat);
                         ("actualExtension",
                          ArgString (Vfs.getExtName vfs (value typesResult)));
                         ("expectExtension",
                          ArgString (getDtsCodeFormatExtension dtsExpectFormat));
                         ("expectPath",
                          ArgList (expectPathFor (matched typesResult) format))];
                path := matched typesResult; type := warning |}).

(** The branch of a resolved file that is no declaration file.  The
    port joins strings only: a [types] field of another type throws. *)
Definition checkAdjacentDts (typesFilePath : json) (typesResult : Resolved)
           (format : string) : M unit :=
  let hasAdjacentDtsFile :=
    Vfs.isPathExist vfs
      (Vfs.pathJoin vfs pkgDir (getAdjacentDtsPath (value typesResult))) in
  if hasAdjacentDtsFile then ret tt
  else
    match typesFilePath with
    | JStr typesFile =>
        dtsActualFormat <-
          lift (getDtsFilePathFormat JSON_parse fuel
                  (Vfs.pathJoin vfs pkgDir typesFile) vfs) ;;
        let dtsExpectFormat := formatOfCondition format in
        let isMatchingFormat := CodeFormat_eqb dtsActualFormat dtsExpectFormat in
        push {| code := TYPES_NOT_EXPORTED;
                args := [("typesFilePath", ArgJson typesFilePath);
                         ("actualExtension",
                          if isMatchingFormat then ArgUndefined
                          else ArgString (Vfs.getExtName vfs typesFile));
                         ("expectExtension",
                          if isMatchingFormat then ArgUndefined
                          else ArgString (getDtsCodeFormatExtension dtsExpectFormat))];
                path := matched typesResult; type := warning |}
    | _ => lift Throw
    end.

Definition resolveExportsOf (exportsRootValue : option json)
           (conditions : list string) (exportsPath : list string)
  : option Resolved :=
  match exportsRootValue with
  | Some v => resolveExports v conditions exportsPath
  | None => None
  end.

(** [conditions.filter(Boolean)] on [[c1, ..., env]] *)
Definition withEnv (conditions : list string) (env : option string)
  : list string :=
  filter (fun c => negb (String.eqb c EmptyString))
         (conditions ++ match env with Some e => [e] | None => [] end).

(** The body of [for (const format of ['import', 'require'])]: the
    set of keys seen goes in and comes out. *)
Definition checkTypesOne (typesFilePath : json)
           (exportsRootValue : option json) (exportsPath : list string)
           (env : option string) (importResult requireResult : option Resolved)
           (isDualPublish : bool) (format : string)
           (seenResolvedKeys : list string) : M (list string) :=
  match resolveExportsOf exportsRootValue (withEnv ["types"; format] env)
                         exportsPath with
  | None => ret seenResolvedKeys
  | Some typesResult =>
      let seenKey :=
        Str.join "." (matched typesResult) +++
        (if isDualPublish then format else EmptyString) in
      if Str.mem seenKey seenResolvedKeys then ret seenResolvedKeys
      else
        let seenResolvedKeys := seenKey :: seenResolvedKeys in
        let typesResolvedPath := Vfs.pathJoin vfs pkgDir (value typesResult) in
        if negb (Vfs.isPathExist vfs typesResolvedPath)
        then ret seenResolvedKeys
        else
          (if isDtsFile (value typesResult)
           then checkDtsFormat typesResult format isDualPublish
                               importResult requireResult
           else checkAdjacentDts typesFilePath typesResult format) ;;
          ret seenResolvedKeys
  end.

(** [importResult && requireResult &&
    importResult.value !== requireResult.value] *)
Definition isDualPublishOf (importResult requireResult : option Resolved)
  : bool :=
  match importResult, requireResult with
  | Some i, Some r => negb (String.eqb (value i) (value r))
  | _, _ => false
  end.

(** The body of [for (const env of [undefined, 'node', 'browser',
    'worker'])]. *)
Definition checkTypesEnv (typesFilePath : json)
           (exportsRootValue : option json) (exportsPath : list string)
           (env : option string) (seenResolvedKeys : list string)
  : M (list string) :=
  let importResult :=
    resolveExportsOf exportsRootValue (withEnv ["import"] env) exportsPath in
  let requireResult :=
    resolveExportsOf exportsRootValue (withEnv ["require"] env) exportsPath in
  let isDualPublish := isDualPublishOf importResult requireResult in
  seen <- checkTypesOne typesFilePath exportsRootValue exportsPath env
            importResult requireResult isDualPublish "import"
            seenResolvedKeys ;;
  checkTypesOne typesFilePath exportsRootValue exportsPath env
    importResult requireResult isDualPublish "require" seen.

Definition checkTypesExportedTask (exportsRootKey : option string)
  : M unit :=
  typesFilePath <- findTypesFilePath exportsRootKey ;;
  let rooted := truthy (option_map JStr exportsRootKey) in
  exportsRootValue <-
    match exportsRootKey with
    | Some key => if rooted then lift (getProp exports key) else ret exports
    | None => ret exports
    end ;;
  match typesFilePath with
  | Some typesFile =>
      if truthy typesFilePath then
        let exportsPath :=
          match exportsRootKey with
          | Some key => if rooted then exportsPkgPath ++ [key] else exportsPkgPath
          | None => exportsPkgPath
          end in
        s0 <- checkTypesEnv typesFile exportsRootValue exportsPath None [] ;;
        s1 <- checkTypesEnv typesFile exportsRootValue exportsPath (Some "node") s0 ;;
        s2 <- checkTypesEnv typesFile exportsRootValue exportsPath (Some "browser") s1 ;;
        _ <- checkTypesEnv typesFile exportsRootValue exportsPath (Some "worker") s2 ;;
        ret tt
      else ret tt
  | None => ret tt
  end.

Definition checkTypesExported (exportsRootKey : option string)
  : M (list Settled) :=
  promiseQueue_push (checkTypesExportedTask exportsRootKey).

Definition doCheckTypesExported : M (list Settled) :=
  match exports with
  | Some (JStr _) => checkTypesExported None
  | Some (JObj members) =>
      match keys members with
      | [] => ret []
      | first :: _ =>
          if negb (Str.startsWith first ".") then checkTypesExported None
          else if Str.mem "." (keys members) then checkTypesExported (Some ".")
          else ret []
      end
  | Some (JArr items) =>
      match items with
      | [] => ret []
      | _ :: _ => checkTypesExported None
      end
  | Some JNull => lift Throw
  | _ => ret []
  end.


(* =================================================================== *)
(** ** [core]: the checks on the package as a whole

    This section's [rootPkg] is the manifest that line 78 parses;
    [readRootPkg] is the reading and parsing of lines 70 to 78.  The
    tasks are run where they are pushed on the queue; [wait] then
    looks at how each of them settled. *)
(* =================================================================== *)

(** [commonInternalPaths] and [licenseFiles] of [constants.js], the
    latter as the list of the tests [r.test] of its patterns. *)
Variable commonInternalPaths : list string.
Variable licenseFiles : list (string -> bool).

Definition packageMessage (c : PackageCode) (a : list (string * Arg))
           (p : list string) (t : MessageType) : Pass.message :=
  {| Pass.code := Pass.OfPackage c; Pass.args := a; Pass.path := p;
     Pass.type := t |}.

Definition rootPkgPath : string := Vfs.pathJoin vfs pkgDir "package.json".

(** Lines 70 to 78: an error is thrown where the manifest cannot be
    read, and [JSON.parse] throws where it cannot be parsed. *)
Definition readRootPkg : M json :=
  rootPkgContent <- readFile rootPkgPath (Some []) [] ;;
  match rootPkgContent with
  | None => lift Throw
  | Some text =>
      match JSON_parse text with
      | Some parsed => ret parsed
      | None => lift Throw
      end
  end.

(** The task of lines 85 to 104, from the path [p] of
    [commonInternalPaths] on. *)
Fixpoint useFilesTask (paths : list string) : Pass.M unit :=
  match paths with
  | [] => Pass.ret tt
  | p :: rest =>
      let internalPath := Vfs.pathJoin vfs pkgDir p in
      if match _packedFiles with
         | Some files =>
             forallb (fun f => negb (Str.startsWith f internalPath)) files
         | None => false
         end
      then useFilesTask rest
      else if Vfs.isPathExist vfs internalPath
           then Pass.push (packageMessage USE_FILES [] ["name"] suggestion)
           else useFilesTask rest
  end.

(** The task of lines 109 to 128: the first file at the top of the
    package that a pattern of [licenseFiles] matches. *)
Definition licenseTask : Pass.M unit :=
  let topFiles := Vfs.readDir vfs pkgDir in
  match List.find
          (fun f =>
             negb (Vfs.isPathDir vfs (Vfs.pathJoin vfs pkgDir f)) &&
             existsb (fun r => r f) licenseFiles)
          topFiles with
  | Some f =>
      let matchedLicenseFilePath := "/" +++ f in
      Pass.when (truthy (Some (JStr matchedLicenseFilePath)))
        (Pass.push (packageMessage USE_LICENSE
                      [("licenseFilePath", ArgString matchedLicenseFilePath)]
                      ["name"] suggestion))
  | None => Pass.ret tt
  end.

(** The task of lines 133 to 146; [depVersion.startsWith] is no
    function where the version is no text. *)
Fixpoint localDependencies (dependencies : list (string * json))
  : Pass.M unit :=
  match dependencies with
  | [] => Pass.ret tt
  | (depName, depVersion) :: rest =>
      match depVersion with
      | JStr depVersion =>
          _ <~ Pass.when (Str.startsWith depVersion "file:" ||
                          Str.startsWith depVersion "link:")
                 (Pass.push (packageMessage LOCAL_DEPENDENCY []
                               ["dependencies"; depName] error)) ;;
          localDependencies rest
      | _ => Pass.lift Throw
      end
  end.

(** The task of lines 164 to 188. *)
Definition implicitIndexTask : Pass.M unit :=
  let defaultPath := Vfs.pathJoin vfs pkgDir "index.js" in
  if Vfs.isPathExist vfs defaultPath then
    defaultContent <~ entry (readFile defaultPath (Some []) []) ;;
    match defaultContent with
    | None => Pass.ret tt
    | Some defaultContent =>
        let actualFormat := getCodeFormat defaultContent in
        expectFormat <~
          Pass.lift (getFilePathFormat JSON_parse fuel defaultPath vfs) ;;
        Pass.when (format_differs actualFormat expectFormat)
          (Pass.push (packageMessage IMPLICIT_INDEX_JS_INVALID_FORMAT
                        [("actualFormat", ArgFormat actualFormat);
                         ("expectFormat", ArgFormat expectFormat)]
                        ["name"] warning))
    end
  else Pass.ret tt.

(** The task of lines 247 to 275. *)
Definition moduleTask (module : option json) (modulePkgPath : list string)
  : Pass.M unit :=
  ok <~ entry (ensureTypeOfField module ["string"] modulePkgPath) ;;
  match ok, module with
  | true, Some (JStr module) =>
      let modulePath := Vfs.pathJoin vfs pkgDir module in
      moduleContent <~
        entry (readFile modulePath (Some modulePkgPath) [".js"; "/index.js"]) ;;
      match moduleContent with
      | None => Pass.ret tt
      | Some moduleContent =>
          invalid <~ entry (hasInvalidJsxExtension module modulePkgPath None) ;;
          if invalid then Pass.ret tt
          else if negb (isFilePathLintable module) then Pass.ret tt
          else
            let actualFormat := getCodeFormat moduleContent in
            _ <~ Pass.when (CodeFormat_eqb actualFormat CJS)
                   (Pass.push (packageMessage MODULE_SHOULD_BE_ESM []
                                 modulePkgPath error)) ;;
            Pass.when (negb (truthy exports))
              (Pass.push (packageMessage HAS_MODULE_BUT_NO_EXPORTS []
                            modulePkgPath suggestion))
      end
  | _, _ => Pass.ret tt
  end.

(** Lines 281 to 303; [Object.keys] of an array are its indices. *)
Definition missingRootEntrypoint (main module : option json)
  : Pass.M unit :=
  if (negb (nullish main) || negb (nullish module)) && negb (nullish exports)
  then
    let hasRootExports :=
      if String.eqb (typeOf exports) "object" then
        let exportsKeys := map fst (forIn exports) in
        negb (match nth_error exportsKeys 0 with
              | Some first => Str.startsWith first "."
              | None => false
              end && negb (Str.mem "." exportsKeys))
      else true in
    Pass.when (negb hasRootExports)
      (let mainFields :=
         (if truthy main then ["main"] else []) ++
         (if truthy module then ["module"] else []) in
       Pass.push (packageMessage EXPORTS_MISSING_ROOT_ENTRYPOINT
                    [("mainFields", ArgList mainFields)]
                    exportsPkgPath warning))
  else Pass.ret tt.

(** The text lines 570 to 583 propose for a shorthand URL. *)
Definition suggestedGitUrl (url : string) : string :=
  let fullUrl :=
    if negb (Str.includes url "://")
    then "git+ssh://" +++ Str.replaceFirst url ":" "/" else url in
  let fullUrl :=
    match Str.last fullUrl with
    | Some "/"%char => Str.dropEnd 1 fullUrl
    | _ => fullUrl
    end in
  let fullUrl :=
    if negb (Str.startsWith fullUrl "git+") then "git+" +++ fullUrl
    else fullUrl in
  if negb (Str.endsWith fullUrl ".git") then fullUrl +++ ".git"
  else fullUrl.

Definition repositoryMessage (kind : string) (more : list (string * Arg))
           (p : list string) (t : MessageType) : Pass.message :=
  packageMessage INVALID_REPOSITORY_VALUE (("type", ArgString kind) :: more)
                 p t.

(** [checkRepositoryField].  Reading [repository.url] of [null]
    throws.  A truthy [url] that is no text is no git URL: the pattern
    is tested on its text, which for a number, [true] and an object
    holds no slash, and [includes] of an array looks for an item. *)
Definition checkRepositoryField (repository : option json) : Pass.M unit :=
  ok <~ entry (ensureTypeOfField repository ["string"; "object"]
                                 ["repository"]) ;;
  if negb ok then Pass.ret tt
  else
    match repository with
    | Some (JStr repository) =>
        Pass.when (negb (isShorthandRepositoryUrl repository))
          (Pass.push (repositoryMessage "invalid-string-shorthand" []
                        ["repository"] warning))
    | Some JNull => Pass.lift Throw
    | _ =>
        let url := getPropOpt repository "url" in
        if truthy url &&
           match getPropOpt repository "type" with
           | Some (JStr type) => String.eqb type "git"
           | _ => false
           end
        then
          match url with
          | Some (JStr url) =>
              if negb (isGitUrl url) then
                Pass.push (repositoryMessage "invalid-git-url" []
                             ["repository"; "url"] warning)
              else if isDeprecatedGitHubGitUrl url then
                Pass.push (repositoryMessage "deprecated-github-git-protocol"
                             [] ["repository"; "url"] suggestion)
              else if isShorthandGitHubOrGitLabUrl url then
                Pass.push (repositoryMessage "shorthand-git-sites"
                             [("suggestValue",
                               ArgString (suggestedGitUrl url))]
                             ["repository"; "url"] suggestion)
              else Pass.ret tt
          | _ =>
              Pass.push (repositoryMessage "invalid-git-url" []
                           ["repository"; "url"] warning)
          end
        else Pass.ret tt
    end.

(** Lines 312 to 325. *)
Definition knownFields : list string :=
  let all := ["types"; "typings"; "jsnext:main"; "jsnext"; "unpkg";
              "jsdelivr"] in
  if truthy (fst (getPublishedField rootPkg "typesVersions"))
  then skipn 2 all else all.

(** The task of lines 332 to 350. *)
Definition knownFieldTask (module : option json) (fieldName : string)
           (fieldValue : string) (fieldPkgPath : list string)
  : Pass.M unit :=
  let fieldPath := Vfs.pathJoin vfs pkgDir fieldValue in
  content <~
    entry (readFile fieldPath (Some fieldPkgPath) [".js"; "/index.js"]) ;;
  let hasContent := match content with Some _ => true | None => false end in
  Pass.when (hasContent &&
             (String.eqb fieldName "jsnext:main" ||
              String.eqb fieldName "jsnext"))
    (Pass.push (packageMessage DEPRECATED_FIELD_JSNEXT [] fieldPkgPath
                  (if truthy module then suggestion else warning))).

(** The loop of lines 326 to 352. *)
Fixpoint checkKnownFields (module : option json) (fields : list string)
  : Pass.M (list Settled) :=
  match fields with
  | [] => Pass.ret []
  | fieldName :: rest =>
      let (fieldValue, fieldPkgPath) := getPublishedField rootPkg fieldName in
      ps <~ (if nullish fieldValue then Pass.ret []
             else
               ok <~ entry (ensureTypeOfField fieldValue ["string"]
                                              fieldPkgPath) ;;
               match ok, fieldValue with
               | true, Some (JStr fieldValue) =>
                   queue (knownFieldTask module fieldName fieldValue
                                         fieldPkgPath)
               | _, _ => Pass.ret []
               end) ;;
      qs <~ checkKnownFields module rest ;;
      Pass.ret (ps ++ qs)
  end.

(** [crawlBrowser]: the promises it pushed on the queue. *)
Fixpoint crawlBrowser (fieldValue : json) (currentPath : list string)
  : Pass.M (list Settled) :=
  match fieldValue with
  | JStr fieldValue =>
      queue (let browserPath := Vfs.pathJoin vfs pkgDir fieldValue in
             _ <~ entry (readFile browserPath (Some currentPath)
                                  [".js"; "/index.js"]) ;;
             Pass.ret tt)
  | JObj members =>
      (fix each (members : list (string * json)) : Pass.M (list Settled) :=
         match members with
         | [] => Pass.ret []
         | (key, v) :: rest =>
             ps <~ crawlBrowser v (currentPath ++ [key]) ;;
             qs <~ each rest ;;
             Pass.ret (ps ++ qs)
         end) members
  | JArr items =>
      (fix each (items : list json) (key : nat) : Pass.M (list Settled) :=
         match items with
         | [] => Pass.ret []
         | v :: rest =>
             ps <~ crawlBrowser v (currentPath ++ [Str.ofNat key]) ;;
             qs <~ each rest (S key) ;;
             Pass.ret (ps ++ qs)
         end) items 0
  | _ => Pass.ret []
  end.

(** Lines 355 to 377. *)
Definition checkBrowser : Pass.M (list Settled) :=
  match browser with
  | Some b =>
      if truthy browser then
        ps <~ crawlBrowser b browserPkgPath ;;
        _ <~ Pass.when (truthy exports)
               (Pass.push
                  (packageMessage
                     (if String.eqb (typeOf browser) "string"
                      then USE_EXPORTS_BROWSER
                      else USE_EXPORTS_OR_IMPORTS_BROWSER)
                     [] browserPkgPath suggestion)) ;;
        Pass.ret ps
      else Pass.ret []
  | None => Pass.ret []
  end.

(** Lines 379 to 453. *)
Definition checkExports : Pass.M (list Settled) :=
  match exports with
  | Some e =>
      if truthy exports then
        ps <~ entry (crawlExportsOrImports e exportsPkgPath false false) ;;
        qs <~ entry doCheckTypesExported ;;
        Pass.ret (ps ++ qs)
      else entry (promiseQueue_push scanTask)
  | None => entry (promiseQueue_push scanTask)
  end.

(** Lines 456 to 459. *)
Definition checkBin : Pass.M (list Settled) :=
  let (bin, binPkgPath) := getPublishedField rootPkg "bin" in
  match bin with
  | Some b => if truthy bin then entry (crawlBin b binPkgPath)
              else Pass.ret []
  | None => Pass.ret []
  end.

(** Lines 462 to 465. *)
Definition checkImports : Pass.M (list Settled) :=
  let (imports, importsPkgPath) := getPublishedField rootPkg "imports" in
  match imports with
  | Some i =>
      if truthy imports then
        ok <~ entry (ensureTypeOfField imports ["object"] importsPkgPath) ;;
        if ok then entry (crawlExportsOrImports i importsPkgPath true false)
        else Pass.ret []
      else Pass.ret []
  | None => Pass.ret []
  end.

(** Lines 70 to 467 of [core]: the messages pushed, and the promises
    on the queue.  Reading [publishConfig] of a manifest that is
    [null] throws. *)
Definition checks : Pass.M (list Settled) :=
  _ <~ entry readRootPkg ;;
  _ <~ Pass.lift (getProp (Some rootPkg) "publishConfig") ;;
  let (main, mainPkgPath) := getPublishedField rootPkg "main" in
  let (module, modulePkgPath) := getPublishedField rootPkg "module" in
  q1 <~ (if nullish (getPropOpt (Some rootPkg) "files")
         then queue (useFilesTask commonInternalPaths) else Pass.ret []) ;;
  q2 <~ (if nullish (getPropOpt (Some rootPkg) "license")
         then queue licenseTask else Pass.ret []) ;;
  q3 <~ (if truthy (getPropOpt (Some rootPkg) "dependencies")
         then queue (localDependencies
                       (forIn (getPropOpt (Some rootPkg) "dependencies")))
         else Pass.ret []) ;;
  _ <~ Pass.when (nullish (getPropOpt (Some rootPkg) "type"))
         (Pass.push (packageMessage USE_TYPE [] ["name"] suggestion)) ;;
  q4 <~ (if nullish main && nullish module && nullish exports
         then queue implicitIndexTask else Pass.ret []) ;;
  q5 <~ entry checkMain ;;
  q6 <~ (if nullish module then Pass.ret []
         else queue (moduleTask module modulePkgPath)) ;;
  _ <~ missingRootEntrypoint main module ;;
  hasRepository <~ Pass.lift (inOperator "repository" rootPkg) ;;
  q7 <~ (if hasRepository
         then queue (checkRepositoryField
                       (getPropOpt (Some rootPkg) "repository"))
         else Pass.ret []) ;;
  q8 <~ checkKnownFields module knownFields ;;
  q9 <~ checkBrowser ;;
  q10 <~ checkExports ;;
  q11 <~ checkBin ;;
  q12 <~ checkImports ;;
  Pass.ret (q1 ++ q2 ++ q3 ++ q4 ++ q5 ++ q6 ++ q7 ++ q8 ++ q9 ++ q10 ++
            q11 ++ q12).

(** [if (message.type === 'warning') message.type = 'error'] *)
Definition escalate (m : Pass.message) : Pass.message :=
  match Pass.type m with
  | warning =>
      {| Pass.code := Pass.code m; Pass.args := Pass.args m;
         Pass.path := Pass.path m; Pass.type := error |}
  | _ => m
  end.

Definition isSuggestion (m : Pass.message) : bool :=
  match Pass.type m with suggestion => true | _ => false end.

Definition isError (m : Pass.message) : bool :=
  match Pass.type m with error => true | _ => false end.

(** The result of [core]: [{ messages, pkg }]. *)
Record Result : Type := { resultMessages : list Pass.message; pkg : json }.

(** Lines 469 to 489 on the messages pushed. *)
Definition report (level : MessageType) (strict : bool)
           (pushed : list Pass.message) : list Pass.message :=
  let messages := if strict then map escalate pushed else pushed in
  match level with
  | warning => filter (fun m => negb (isSuggestion m)) messages
  | error => filter isError messages
  | suggestion => messages
  end.

(** [core]; [level] is one of the three types of a message. *)
Definition core (level : MessageType) (strict : bool) : outcome Result :=
  let run := (promises <~ checks ;; Pass.lift (wait promises)) in
  match snd run with
  | Ok _ => Ok {| resultMessages := report level strict (fst run);
                  pkg := rootPkg |}
  | Throw => Throw
  | OutOfFuel => OutOfFuel
  end.

(* =================================================================== *)
(** ** Notions the properties are stated with *)
(* =================================================================== *)

(** *** What a pattern matches

    [Matches r prev s prev' s']: the pattern [r] matches a prefix of [s],
    which comes after the character [prev], and leaves [s'], which comes
    after the character [prev'].  The groups are not recorded.  A round
    of a star takes at least one character, as a round that takes none
    is given up by the engine. *)
Inductive Matches : regex -> option ascii -> string -> option ascii -> string
                    -> Prop :=
| MEps prev s : Matches Eps prev s prev s
| MChr (p : ascii -> bool) prev a s :
    p a = true -> Matches (Chr p) prev (String a s) (Some a) s
| MLit l prev s prev' s' :
    matchLit l prev s = Some (prev', s') -> Matches (Lit l) prev s prev' s'
| MSeq r1 r2 prev s prev1 s1 prev' s' :
    Matches r1 prev s prev1 s1 -> Matches r2 prev1 s1 prev' s' ->
    Matches (Seq r1 r2) prev s prev' s'
| MAltL r1 r2 prev s prev' s' :
    Matches r1 prev s prev' s' -> Matches (Alt r1 r2) prev s prev' s'
| MAltR r1 r2 prev s prev' s' :
    Matches r2 prev s prev' s' -> Matches (Alt r1 r2) prev s prev' s'
| MStarStop r prev s : Matches (Star r) prev s prev s
| MStarRound r prev s prev1 s1 prev' s' :
    Matches r prev s prev1 s1 -> String.length s1 < String.length s ->
    Matches (Star r) prev1 s1 prev' s' ->
    Matches (Star r) prev s prev' s'
| MLazyStop r prev s : Matches (LazyStar r) prev s prev s
| MLazyRound r prev s prev1 s1 prev' s' :
    Matches r prev s prev1 s1 -> String.length s1 < String.length s ->
    Matches (LazyStar r) prev1 s1 prev' s' ->
    Matches (LazyStar r) prev s prev' s'
| MGroup n r prev s prev' s' :
    Matches r prev s prev' s' -> Matches (Group n r) prev s prev' s'
| MBos s : Matches Bos None s None s
| MBolStart s : Matches Bol None s None s
| MBolLine a s :
    isLineTerminator a = true -> Matches Bol (Some a) s (Some a) s
| MEos prev : Matches Eos prev EmptyString prev EmptyString
| MWordB prev s :
    xorb (wordBefore prev) (wordAfter s) = true ->
    Matches WordB prev s prev s.

(** The character a text ends with, or [prev] before an empty text. *)
Fixpoint endOf (prev : option ascii) (w : string) : option ascii :=
  match w with
  | EmptyString => prev
  | String a w' => endOf (Some a) w'
  end.

(** All characters of a text are of a class. *)
Definition allOf (p : ascii -> bool) (w : string) : bool :=
  forallb p (list_ascii_of_string w).

(** The loop of [run] on a star with [n] rounds left, and the one on a
    lazy star. *)
Section Loops.

Variable R : Type.
Variable r : regex.
Variable k : cont R.

Fixpoint starLoop (n : nat) (prev : option ascii) (s : string)
         (c : captures) {struct n} : option R :=
  match n with
  | 0 => k prev s c
  | S n' =>
      match
        run r prev s c
            (fun prev' s' c' =>
               if (String.length s' <? String.length s)%nat
               then starLoop n' prev' s' c' else None)
      with
      | Some x => Some x
      | None => k prev s c
      end
  end.

Fixpoint lazyLoop (n : nat) (prev : option ascii) (s : string)
         (c : captures) {struct n} : option R :=
  match k prev s c with
  | Some x => Some x
  | None =>
      match n with
      | 0 => None
      | S n' =>
          run r prev s c
              (fun prev' s' c' =>
                 if (String.length s' <? String.length s)%nat
                 then lazyLoop n' prev' s' c' else None)
      end
  end.

End Loops.

(** *** The markers of the two formats, on texts *)

(** What may follow [export]. *)
Definition esmKeywords : list string :=
  ["*"; "{"; "default"; "type"; "function"; "const"; "var"; "let";
   "async function"].

(** A marker of module syntax starts the text [rest]: [import], names,
    commas, braces, stars and white space, and [from]; [import], white
    space, and a quote, a star or an opening brace; [export], white
    space, and a star, a brace or one of the keywords, [export] being a
    word of its own; [import.meta] as a word of its own. *)
Definition esmMarkerAt (rest : string) : Prop :=
  (exists w tail,
      rest = "import" +++ w +++ "from" +++ tail /\
      allOf (fun a => isWord a || (oneOf ",{}*" a || isSpace a)) w = true) \/
  (exists w a tail,
      rest = "import" +++ w +++ String a tail /\
      allOf isSpace w = true /\
      (oneOf "'*{" a || Ascii.eqb dquote a) = true) \/
  (exists w keyword tail,
      rest = "export" +++ w +++ keyword +++ tail /\
      allOf isSpace w = true /\ In keyword esmKeywords /\
      wordAfter (w +++ keyword +++ tail) = false) \/
  (exists tail, rest = "import.meta" +++ tail /\ wordAfter tail = false).

(** A marker of CommonJS starts the text [rest]: [module], any
    character of a line, and [exports] as the end of a word; [exports.]
    or [global.] and a character of a name; [require], white space and
    an opening parenthesis; [Object.defineProperty],
    [Object.defineProperties] or [Object.assign], called on [exports]
    as a word of its own. *)
Definition cjsMarkerAt (rest : string) : Prop :=
  (exists a tail,
      rest = "module" +++ String a ("exports" +++ tail) /\
      dot a = true /\ wordAfter tail = false) \/
  (exists a tail, rest = "exports." +++ String a tail /\ isWord a = true) \/
  (exists w tail,
      rest = "require" +++ w +++ "(" +++ tail /\ allOf isSpace w = true) \/
  (exists a tail, rest = "global." +++ String a tail /\ isWord a = true) \/
  (exists name w1 w2 tail,
      rest = "Object." +++ name +++ w1 +++ "(" +++ w2 +++ "exports" +++ tail /\
      In name ["defineProperty"; "defineProperties"; "assign"] /\
      allOf isSpace w1 = true /\ allOf isSpace w2 = true /\
      wordAfter tail = false).

(** The text has a marker: at its start, or after white space or a
    semicolon.  The start of a later line comes after a line terminator,
    which is white space. *)
Definition marked (markerAt : string -> Prop) (text : string) : Prop :=
  markerAt text \/
  exists before a rest,
    text = before +++ String a rest /\
    (isSpace a || oneOf ";" a) = true /\ markerAt rest.

(** *** Comments, on texts *)

(** The text after the characters [x] and [y], for a text that starts
    with them. *)
Definition afterTwo (x y : ascii) (s : string) : option string :=
  match s with
  | String a (String b rest) =>
      if Ascii.eqb a x && Ascii.eqb b y then Some rest else None
  | _ => None
  end.

(** The text after the first star and slash. *)
Fixpoint afterCommentEnd (s : string) : option string :=
  match afterTwo "*" "/" s with
  | Some rest => Some rest
  | None =>
      match s with
      | String _ s' => afterCommentEnd s'
      | EmptyString => None
      end
  end.

(** The text after the comment between a slash and a star and the next
    star and slash, for a text that starts with one. *)
Definition afterBlockComment (s : string) : option string :=
  match afterTwo "/" "*" s with
  | Some rest => afterCommentEnd rest
  | None => None
  end.

(** The text from the first line terminator on. *)
Fixpoint lineEnd (s : string) : string :=
  match s with
  | String a s' => if isLineTerminator a then s else lineEnd s'
  | EmptyString => EmptyString
  end.

(** The text after the comment from two slashes to the end of the line,
    for a text that starts with one. *)
Definition afterLineComment (s : string) : option string :=
  option_map lineEnd (afterTwo "/" "/" s).

(** The text without its comments, [after] telling where the comment a
    text starts with ends: a comment is passed over, any other character
    is kept; [n] bounds the characters looked at. *)
Fixpoint withoutComments (after : string -> option string) (n : nat) (s : string)
  : string :=
  match n with
  | 0 => s
  | S n' =>
      match after s with
      | Some rest => withoutComments after n' rest
      | None =>
          match s with
          | String a s' => String a (withoutComments after n' s')
          | EmptyString => EmptyString
          end
      end
  end.

Definition withoutBlockComments (s : string) : string :=
  withoutComments afterBlockComment (String.length s) s.

Definition withoutLineComments (s : string) : string :=
  withoutComments afterLineComment (String.length s) s.

(** The manifest [getNearestPkg] loads from the directory [dir]: the
    file is there, can be read and parses. *)
Definition manifestAt (dir : string) : option json :=
  if Vfs.isPathExist vfs (Vfs.pathJoin vfs dir "package.json") then
    match Vfs.readFile vfs (Vfs.pathJoin vfs dir "package.json") with
    | Some text => JSON_parse text
    | None => None
    end
  else None.

(** The [k]-th directory above the file [filePath]. *)
Definition ancestor (k : nat) (filePath : string) : string :=
  Nat.iter k (Vfs.getDirName vfs) (Vfs.getDirName vfs filePath).

(** The path with the suffix [.native.js] taken off. *)
Definition withoutNative (filePath : string) : string :=
  if Str.endsWith filePath ".native.js" then Str.dropEnd 10 filePath
  else filePath.

(** Does the manifest say [type: module]? *)
Definition typeIsModule (pkg : json) : bool :=
  match getPropOpt (Some pkg) "type" with
  | Some (JStr type) => String.eqb type "module"
  | _ => false
  end.

(** Following the specification's words for the walk: the nearest
    manifest that has a [type] field. *)
Fixpoint nearestTypedManifest (n : nat) (dir : string)
  : outcome (option json) :=
  match n with
  | 0 => OutOfFuel
  | S n' =>
      let next :=
        if String.eqb (Vfs.getDirName vfs dir) dir then Ok None
        else nearestTypedManifest n' (Vfs.getDirName vfs dir) in
      match manifestAt dir with
      | Some pkg =>
          match getPropOpt (Some pkg) "type" with
          | Some _ => Ok (Some pkg)
          | None => next
          end
      | None => next
      end
  end.

(** Following the specification's words: the extension first, else
    the [type] of the nearest manifest that has one. *)
Definition expectedFormat_asSpecified (filePath : string)
  : outcome CodeFormat :=
  let path := withoutNative filePath in
  if Str.endsWith path ".mjs" then Ok ESM
  else if Str.endsWith path ".cjs" then Ok CJS
  else match nearestTypedManifest fuel (Vfs.getDirName vfs path) with
       | Ok (Some pkg) => Ok (if typeIsModule pkg then ESM else CJS)
       | Ok None => Ok CJS
       | Throw => Throw
       | OutOfFuel => OutOfFuel
       end.

(** Every message a computation pushed satisfies [P]. *)
Definition only (A : Type) (P : Message -> Prop) (m : M A) : Prop :=
  forall x, In x (messages m) -> P x.

Definition pathIs (p : list string) (m : Message) : bool :=
  if list_eq_dec string_dec (path m) p then true else false.

(** The messages of [l] at the path [p] whose code [sel] selects. *)
Definition fired (sel : MessageCode -> bool) (p : list string)
           (l : list Message) : list Message :=
  filter (fun m => sel (code m) && pathIs p m) l.

(** The codes of the checks on the keys of a condition map. *)
Definition mapLevel (c : MessageCode) : bool :=
  match c with
  | EXPORTS_TYPES_SHOULD_BE_FIRST
  | IMPORTS_MODULE_SHOULD_PRECEDE_REQUIRE
  | EXPORTS_MODULE_SHOULD_PRECEDE_REQUIRE
  | IMPORTS_DEFAULT_SHOULD_BE_LAST
  | EXPORTS_DEFAULT_SHOULD_BE_LAST
  | IMPORTS_KEY_INVALID => true
  | _ => false
  end.

Definition isPrecedence (c : MessageCode) : bool :=
  match c with
  | IMPORTS_MODULE_SHOULD_PRECEDE_REQUIRE
  | EXPORTS_MODULE_SHOULD_PRECEDE_REQUIRE => true
  | _ => false
  end.

Definition isDefaultLast (c : MessageCode) : bool :=
  match c with
  | IMPORTS_DEFAULT_SHOULD_BE_LAST
  | EXPORTS_DEFAULT_SHOULD_BE_LAST => true
  | _ => false
  end.

Definition isKeyInvalid (c : MessageCode) : bool :=
  match c with
  | IMPORTS_KEY_INVALID => true
  | _ => false
  end.

(** A message of the crawl at [p]: one of the value at [p] itself,
    which carries no code of the checks on keys, or one further down. *)
Definition inScope (p : list string) (m : Message) : Prop :=
  exists suffix,
    path m = p ++ suffix /\ (suffix = [] -> mapLevel (code m) = false).

Definition hasCode (codes : list MessageCode) (c : MessageCode) : bool :=
  existsb (MessageCode_eqb c) codes.

(** A message at the path [p] with one of the codes [codes]. *)
Definition emits (codes : list MessageCode) (p : list string)
           (m : Message) : Prop :=
  path m = p /\ hasCode codes (code m) = true.

(** The codes of the messages about one file. *)
Definition fileCodes : list MessageCode :=
  [FILE_INVALID_EXPLICIT_FORMAT; FILE_INVALID_FORMAT; FILE_DOES_NOT_EXIST;
   FILE_NOT_PUBLISHED; FILE_INVALID_JSX_EXTENSION;
   IMPORTS_MODULE_SHOULD_BE_ESM; EXPORTS_MODULE_SHOULD_BE_ESM].

(** The codes of the messages about one string of [exports] or
    [imports]. *)
Definition leafCodes : list MessageCode :=
  [IMPORTS_GLOB_NO_DEPRECATED_SUBPATH_MAPPING;
   EXPORTS_GLOB_NO_DEPRECATED_SUBPATH_MAPPING;
   IMPORTS_VALUE_INVALID; EXPORTS_VALUE_INVALID;
   IMPORTS_GLOB_NO_MATCHED_FILES; EXPORTS_GLOB_NO_MATCHED_FILES;
   EXPORTS_VALUE_CONFLICTS_WITH_BROWSER] ++ fileCodes.

(** The loop of [crawlExportsOrImports] over the keys of an object. *)
Definition crawlMembers (p : list string) (isImports : bool)
           (members : list (string * json)) (after : bool)
  : M (list Settled) :=
  forMembers
    (fun key value isKeyAfterNodeCondition =>
       importsKeyInvalid key p
         (isImports && optString_eqb (lastPart p) (Some "imports")) ;;
       crawlExportsOrImports value (p ++ [key]) isImports
                             isKeyAfterNodeCondition)
    members after.

(** No value in the tree is a truthy number or [true], on which the
    operator [in] of the crawl throws. *)
Fixpoint throwFree (v : json) : bool :=
  match v with
  | JBool b => negb b
  | JNum n => Z.eqb n 0
  | JArr items => forallb throwFree items
  | JObj members => forallb (fun kv => throwFree (snd kv)) members
  | JNull | JStr _ => true
  end.

(** The message on the key [key] of the map at [p]. *)
Definition keyInvalidMessage (p : list string) (key : string) : Message :=
  {| code := IMPORTS_KEY_INVALID;
     args := [("suggestKey", ArgString ("#" +++ Str.stripLeadingSlashes key))];
     path := p ++ [key]; type := error |}.

Definition isDeprecatedMapping (c : MessageCode) : bool :=
  match c with
  | IMPORTS_GLOB_NO_DEPRECATED_SUBPATH_MAPPING
  | EXPORTS_GLOB_NO_DEPRECATED_SUBPATH_MAPPING => true
  | _ => false
  end.

Definition isNoMatchedFiles (c : MessageCode) : bool :=
  match c with
  | IMPORTS_GLOB_NO_MATCHED_FILES
  | EXPORTS_GLOB_NO_MATCHED_FILES => true
  | _ => false
  end.

(** The message on a value that ends in a slash, of the severity
    [severity]. *)
Definition deprecatedMappingMessage (exportsValue : string)
           (currentPath : list string) (isImports : bool)
           (severity : MessageType) : Message :=
  {| code := if isImports then IMPORTS_GLOB_NO_DEPRECATED_SUBPATH_MAPPING
             else EXPORTS_GLOB_NO_DEPRECATED_SUBPATH_MAPPING;
     args := [("expectPath", ArgList (expectPathOf currentPath));
              ("expectValue", ArgString (exportsValue +++ "*"))];
     path := currentPath;
     type := severity |}.

(** A part of the path ends in a slash: the key of a folder mapping. *)
Definition underFolderKey (currentPath : list string) : bool :=
  existsb (fun part => Str.endsWith part "/") currentPath.

(** The message on a glob that matches no file. *)
Definition noMatchedFilesMessage (currentPath : list string)
           (isImports : bool) : Message :=
  {| code := if isImports then IMPORTS_GLOB_NO_MATCHED_FILES
             else EXPORTS_GLOB_NO_MATCHED_FILES;
     args := []; path := currentPath; type := warning |}.

(** What the task of a string does with the value once the block on
    the trailing slash is through. *)
Definition crawlLeafFrom (exportsValue : string)
           (currentPath : list string)
           (isImports isAfterNodeCondition : bool) : M unit :=
  when (negb (Str.startsWith exportsValue "./"))
       (push {| code := if isImports then IMPORTS_VALUE_INVALID
                        else EXPORTS_VALUE_INVALID;
                args := [("suggestValue",
                          ArgString ("./" +++ Str.stripLeadingSlashes exportsValue))];
                path := currentPath; type := error |}) ;;
  let isGlob := Str.includes exportsValue "*" in
  let exportsKey := nth_error currentPath 1 in
  exportsFiles <- lift (getExportsFiles exportsValue exportsKey exports) ;;
  if isGlob && Nat.eqb (length exportsFiles) 0 then
    push {| code := if isImports then IMPORTS_GLOB_NO_MATCHED_FILES
                    else EXPORTS_GLOB_NO_MATCHED_FILES;
            args := []; path := currentPath; type := warning |}
  else
    browserConflict exportsValue currentPath isImports ;;
    forEach (crawlFile exportsValue currentPath isImports
                       isAfterNodeCondition isGlob)
            exportsFiles.

Definition isFormatMismatch (c : MessageCode) : bool :=
  match c with
  | FILE_INVALID_FORMAT | FILE_INVALID_EXPLICIT_FORMAT => true
  | _ => false
  end.

(** The checks of a pass that compare the format of a file with the
    format expected of its path: on [main], on a command of [bin], on a
    file matched by a value of [exports] or [imports], and on a file of
    a package without [exports]. *)
Inductive FormatCheck : Type :=
| MainCheck (main : string) (mainPkgPath : list string)
| BinCheck (binValue : string) (currentPath : list string)
| ExportedCheck (exportsValue : string) (currentPath : list string)
                (isImports isAfterNodeCondition isGlob : bool)
                (filePath : string)
| ScannedCheck (filePath : string).

Definition runCheck (c : FormatCheck) : M unit :=
  match c with
  | MainCheck main mainPkgPath => mainTask (Some (JStr main)) mainPkgPath
  | BinCheck binValue currentPath => binTask binValue currentPath
  | ExportedCheck exportsValue currentPath isImports isAfterNodeCondition
                  isGlob filePath =>
      crawlFile exportsValue currentPath isImports isAfterNodeCondition
                isGlob filePath
  | ScannedCheck filePath => scanFile filePath
  end.

(** The reading of the file a check classifies. *)
Definition contentRead (c : FormatCheck) : M (option string) :=
  match c with
  | MainCheck main mainPkgPath =>
      readFile (Vfs.pathJoin vfs pkgDir main) (Some mainPkgPath)
               [".js"; "/index.js"]
  | BinCheck binValue currentPath =>
      readFile (Vfs.pathJoin vfs pkgDir binValue) (Some currentPath)
               [".js"; "/index.js"]
  | ExportedCheck _ currentPath _ _ _ filePath =>
      readFile filePath (Some currentPath) []
  | ScannedCheck filePath => readFile filePath (Some []) []
  end.

(** The message on a declaration file of the format [actual] where
    [expect] is expected. *)
Definition dtsFormatMessage (typesResult : Resolved) (format : string)
           (actual expect : CodeFormat) : Message :=
  {| code := EXPORTS_TYPES_INVALID_FORMAT;
     args := [("condition", ArgString format);
              ("actualFormat", ArgFormat actual);
              ("expectFormat", ArgFormat expect);
              ("actualExtension",
               ArgString (Vfs.getExtName vfs (value typesResult)));
              ("expectExtension",
               ArgString (getDtsCodeFormatExtension expect));
              ("expectPath",
               ArgList (expectPathFor (matched typesResult) format))];
     path := matched typesResult; type := warning |}.

(** The key under which a resolved declaration file is remembered. *)
Definition seenKeyOf (typesResult : Resolved) (isDualPublish : bool)
           (format : string) : string :=
  Str.join "." (matched typesResult) +++
  (if isDualPublish then format else EmptyString).

(** *** The declaration check, round by round *)

(** The rounds of the loops over the environments and the formats,
    in the order they are run. *)
Definition typesRounds : list (option string * string) :=
  flat_map (fun env => [(env, "import"); (env, "require")])
           [None; Some "node"; Some "browser"; Some "worker"].

(** The code files resolved for [import] and for [require] in the
    environment differ. *)
Definition dualPublishIn (root : option json) (exportsPath : list string)
           (env : option string) : bool :=
  isDualPublishOf
    (resolveExportsOf root (withEnv ["import"] env) exportsPath)
    (resolveExportsOf root (withEnv ["require"] env) exportsPath).

(** What [types], the format and the environment of a round resolve
    to. *)
Definition typesResultIn (root : option json) (exportsPath : list string)
           (round : option string * string) : option Resolved :=
  resolveExportsOf root (withEnv ["types"; snd round] (fst round))
                   exportsPath.

Definition roundKey (root : option json) (exportsPath : list string)
           (round : option string * string) : option string :=
  option_map
    (fun r => seenKeyOf r (dualPublishIn root exportsPath (fst round))
                        (snd round))
    (typesResultIn root exportsPath round).

(** No round of [earlier] resolved to the key. *)
Definition firstMet (root : option json) (exportsPath : list string)
           (earlier : list (option string * string)) (key : string) : bool :=
  negb (existsb (fun e => match roundKey root exportsPath e with
                          | Some k => String.eqb k key
                          | None => false
                          end) earlier).

(** The format expected of the declaration file of a round: that of
    the path of the code file resolved for the format and the
    environment, where the package does not publish two formats and
    that file exists, and otherwise that of the condition. *)
Definition expectedDtsFormat (root : option json)
           (exportsPath : list string) (round : option string * string)
  : outcome CodeFormat :=
  match resolveExportsOf root (withEnv [snd round] (fst round))
                         exportsPath with
  | Some js =>
      let jsResolvedPath := Vfs.pathJoin vfs pkgDir (value js) in
      if negb (dualPublishIn root exportsPath (fst round)) &&
         Vfs.isPathExist vfs jsResolvedPath
      then getFilePathFormat JSON_parse fuel jsResolvedPath vfs
      else Ok (formatOfCondition (snd round))
  | None => Ok (formatOfCondition (snd round))
  end.

(** The message of a round: for a declaration file that is resolved,
    met for the first time and there, the message on its format where
    the format differs from the expected one. *)
Definition roundMessages (root : option json) (exportsPath : list string)
           (earlier : list (option string * string))
           (round : option string * string) : list Message :=
  match typesResultIn root exportsPath round,
        roundKey root exportsPath round with
  | Some r, Some key =>
      let typesResolvedPath := Vfs.pathJoin vfs pkgDir (value r) in
      if firstMet root exportsPath earlier key &&
         Vfs.isPathExist vfs typesResolvedPath && isDtsFile (value r)
      then
        match getDtsFilePathFormat JSON_parse fuel typesResolvedPath vfs,
              expectedDtsFormat root exportsPath round with
        | Ok actual, Ok expect =>
            if CodeFormat_eqb actual expect then []
            else [dtsFormatMessage r (snd round) actual expect]
        | _, _ => []
        end
      else []
  | _, _ => []
  end.

Fixpoint roundsMessages (root : option json) (exportsPath : list string)
         (earlier rounds : list (option string * string)) : list Message :=
  match rounds with
  | [] => []
  | round :: rest =>
      roundMessages root exportsPath earlier round ++
      roundsMessages root exportsPath (earlier ++ [round]) rest
  end.

(** The walks up the directories that the rounds ask for, from the
    declaration files and the code files they resolve to and from the
    declaration file of the package, end within the bound. *)
Definition roundsEnd (root : option json) (exportsPath : list string)
           (typesFile : string) : bool :=
  let known (format : outcome CodeFormat) : bool :=
    match format with Ok _ => true | _ => false end in
  known (getDtsFilePathFormat JSON_parse fuel
           (Vfs.pathJoin vfs pkgDir typesFile) vfs) &&
  forallb
    (fun round =>
       match typesResultIn root exportsPath round with
       | Some r =>
           known (getDtsFilePathFormat JSON_parse fuel
                    (Vfs.pathJoin vfs pkgDir (value r)) vfs)
       | None => true
       end &&
       match resolveExportsOf root (withEnv [snd round] (fst round))
                              exportsPath with
       | Some js =>
           known (getFilePathFormat JSON_parse fuel
                    (Vfs.pathJoin vfs pkgDir (value js)) vfs)
       | None => true
       end)
    typesRounds.

Definition isTypesInvalidFormat (c : MessageCode) : bool :=
  match c with
  | EXPORTS_TYPES_INVALID_FORMAT => true
  | _ => false
  end.

(** The value the check resolves, [exports] or its entry at the key,
    and the path it is found at. *)
Definition exportsRootOf (exportsRootKey : option string)
  : outcome (option json) :=
  match exportsRootKey with
  | Some key =>
      if String.eqb key EmptyString then Ok exports else getProp exports key
  | None => Ok exports
  end.

Definition exportsPathOf (exportsRootKey : option string) : list string :=
  match exportsRootKey with
  | Some key =>
      if String.eqb key EmptyString then exportsPkgPath
      else exportsPkgPath ++ [key]
  | None => exportsPkgPath
  end.

(** The directories below [dirPath] that the scan enters lie no
    deeper than [n]. *)
Fixpoint shallow (packedFiles : option (list string)) (n : nat)
         (dirPath : string) : bool :=
  match n with
  | 0 => false
  | S n' =>
      forallb
        (fun item =>
           let itemPath := Vfs.pathJoin vfs dirPath item in
           if isPacked packedFiles itemPath then
             if Vfs.isPathDir vfs itemPath
             then shallow packedFiles n' itemPath else true
           else true)
        (Vfs.readDir vfs dirPath)
  end.

(** The pattern of [getAdjacentDtsPath]: a dot, [m] or [c] or neither,
    [js], an [x] or none, the end. *)
Definition ADJACENT_JS_RE : regex :=
  seqs [Lit "."; Group 1 (Opt (Chr (oneOf "mc"))); Lit "js";
        Opt (Lit "x"); Eos].

(** The extensions [ADJACENT_JS_RE] matches. *)
Definition jsExtensions : list string :=
  [".js"; ".jsx"; ".mjs"; ".mjsx"; ".cjs"; ".cjsx"].

(** No text twice in the list. *)
Fixpoint noDuplicate (ks : list string) : bool :=
  match ks with
  | [] => true
  | k :: rest => negb (Str.mem k rest) && noDuplicate rest
  end.

(** Every object of the value lists each of its keys once, as the
    objects [JSON.parse] builds do. *)
Fixpoint uniqueKeys (v : json) : bool :=
  match v with
  | JObj members =>
      noDuplicate (keys members) &&
      forallb (fun kv => uniqueKeys (snd kv)) members
  | JArr items => forallb uniqueKeys items
  | _ => true
  end.

Definition isFallbackArray (c : MessageCode) : bool :=
  match c with
  | IMPORTS_FALLBACK_ARRAY_USE | EXPORTS_FALLBACK_ARRAY_USE => true
  | _ => false
  end.

Definition isTypesFirst (c : MessageCode) : bool :=
  match c with
  | EXPORTS_TYPES_SHOULD_BE_FIRST => true
  | _ => false
  end.

Definition isValueInvalid (c : MessageCode) : bool :=
  match c with
  | IMPORTS_VALUE_INVALID | EXPORTS_VALUE_INVALID => true
  | _ => false
  end.

(** The message on a value that does not start with [./]. *)
Definition valueInvalidMessage (exportsValue : string)
           (currentPath : list string) (isImports : bool) : Message :=
  {| code := if isImports then IMPORTS_VALUE_INVALID
             else EXPORTS_VALUE_INVALID;
     args := [("suggestValue",
               ArgString ("./" +++ Str.stripLeadingSlashes exportsValue))];
     path := currentPath; type := error |}.

(** The conditions under which the crawl compares no formats: the key
    [node] has been passed, or the path holds [browser] or [module]. *)
Definition skipsFormatCheck (currentPath : list string)
           (isAfterNodeCondition : bool) : bool :=
  isAfterNodeCondition || Str.mem "browser" currentPath ||
  Str.mem "module" currentPath.

(** The paths [readFile] tries, in order: the path, and the path with
    each of the extensions, less the slash that would double one. *)
Definition readCandidates (path : string) (tryExtensions : list string)
  : list string :=
  path ::
  map (fun ext =>
         path +++
         match Str.first ext, Str.last path with
         | Some "/"%char, Some "/"%char => Str.dropStart 1 ext
         | _, _ => ext
         end)
      tryExtensions.

Definition unreadable (path : string) : bool :=
  match Vfs.readFile vfs path with
  | Some _ => false
  | None => true
  end.

Definition fileDoesNotExistMessage (pkgPath : list string) : Message :=
  {| code := FILE_DOES_NOT_EXIST; args := []; path := pkgPath;
     type := error |}.

(** Every message a computation of the pass pushed satisfies [P]. *)
Definition passOnly (A : Type) (P : Pass.message -> Prop) (m : Pass.M A)
  : Prop :=
  forall x, In x (fst m) -> P x.

Definition isPackageCode (c : PackageCode) (m : Pass.message) : bool :=
  match Pass.code m with
  | Pass.OfPackage c' => if PackageCode_eq_dec c c' then true else false
  | Pass.OfEntry _ => false
  end.

(** The condition of lines 281 to 291: [main] or [module] is there,
    and [exports] is an object or array whose first key starts with a
    dot and that has no key [.]. *)
Definition lacksRootEntrypoint : bool :=
  let main := fst (getPublishedField rootPkg "main") in
  let module := fst (getPublishedField rootPkg "module") in
  (negb (nullish main) || negb (nullish module)) &&
  match exports with
  | Some (JObj _) | Some (JArr _) =>
      match map fst (forIn exports) with
      | first :: _ =>
          Str.startsWith first "." && negb (Str.mem "." (map fst (forIn exports)))
      | [] => false
      end
  | _ => false
  end.

(** A message that is none of the two the body of [core] pushes
    itself: on the field [type] and on the root entry point. *)
Definition fromTask (m : Pass.message) : Prop :=
  isPackageCode USE_TYPE m = false /\
  isPackageCode EXPORTS_MISSING_ROOT_ENTRYPOINT m = false.

(** The message on the field [type]. *)
Definition useTypeMessage : Pass.message :=
  packageMessage USE_TYPE [] ["name"] suggestion.

(** The message on [exports] without a root entry point, as [core]
    returns it. *)
Definition missingRootMessage (strict : bool) : Pass.message :=
  packageMessage EXPORTS_MISSING_ROOT_ENTRYPOINT
    [("mainFields",
      ArgList ((if truthy (fst (getPublishedField rootPkg "main"))
                then ["main"] else []) ++
               (if truthy (fst (getPublishedField rootPkg "module"))
                then ["module"] else [])))]
    exportsPkgPath (if strict then error else warning).

(** The pattern [exportsGlob] builds for a glob with one wildcard:
    the text before it, the group [(.+)], the text after it. *)
Definition oneStar (pre suf : string) : regex :=
  seqs [Bos; globParts [pre; suf] 1; Eos].

(* =================================================================== *)
(** ** Properties *)
(* =================================================================== *)

(** *** The messages of a computation *)

Lemma messages_bind (A B : Type) (m : M A) (f : A -> M B) :
  messages (bind m f) =
  messages m ++ match snd m with Ok a => messages (f a) | _ => [] end.
Proof.
  unfold bind, messages. destruct (snd m); simpl; auto using app_nil_r.
Qed.

Lemma outcome_bind (A B : Type) (m : M A) (f : A -> M B) :
  snd (bind m f) =
  match snd m with Ok a => snd (f a) | Throw => Throw | OutOfFuel => OutOfFuel end.
Proof. unfold bind. destruct (snd m); reflexivity. Qed.

Lemma messages_promiseQueue_push (task : M unit) :
  messages (promiseQueue_push task) = messages task.
Proof. unfold promiseQueue_push, messages. destruct (snd task); reflexivity. Qed.

Lemma promiseQueue_push_settles (task : M unit) :
  exists p, snd (promiseQueue_push task) = Ok [p].
Proof.
  unfold promiseQueue_push. destruct (snd task); simpl; eauto.
Qed.

(** *** The classifier of source text *)

(** What the engine finds is what the pattern matches. *)

Lemma run_Star (R : Type) (r : regex) (k : cont R) prev s c :
  run (Star r) prev s c k = starLoop r k (String.length s) prev s c.
Proof. reflexivity. Qed.

Lemma run_LazyStar (R : Type) (r : regex) (k : cont R) prev s c :
  run (LazyStar r) prev s c k = lazyLoop r k (String.length s) prev s c.
Proof. reflexivity. Qed.

Lemma run_sound (R : Type) (r : regex) :
  forall prev s c (k : cont R) x,
    run r prev s c k = Some x ->
    exists prev' s' c', Matches r prev s prev' s' /\ k prev' s' c' = Some x.
Proof.
  induction r as [| p | l | r1 IH1 r2 IH2 | r1 IH1 r2 IH2 | r IH | r IH
                  | g r IH | | | |]; intros prev s c k x H.
  - exists prev, s, c. split; [constructor | exact H].
  - cbn [run] in H. destruct s as [|a s]; [discriminate H |].
    destruct (p a) eqn:Hp; [| discriminate H].
    exists (Some a), s, c. split; [constructor; exact Hp | exact H].
  - cbn [run] in H. destruct (matchLit l prev s) as [[prev' s']|] eqn:E;
      [| discriminate H].
    exists prev', s', c. split; [constructor; exact E | exact H].
  - cbn [run] in H. apply IH1 in H as (prev1 & s1 & c1 & M1 & H).
    apply IH2 in H as (prev' & s' & c' & M2 & H).
    exists prev', s', c'. split; [econstructor; eassumption | exact H].
  - cbn [run] in H. destruct (run r1 prev s c k) as [y|] eqn:E.
    + injection H as ->. apply IH1 in E as (prev' & s' & c' & M & H).
      exists prev', s', c'. split; [apply MAltL; exact M | exact H].
    + apply IH2 in H as (prev' & s' & c' & M & H).
      exists prev', s', c'. split; [apply MAltR; exact M | exact H].
  - rewrite run_Star in H.
    remember (String.length s) as n eqn:Hn in H. clear Hn. revert prev s c H.
    induction n as [|n IHn]; intros prev s c H; cbn [starLoop] in H.
    + exists prev, s, c. split; [constructor | exact H].
    + match type of H with
      | match ?inner with _ => _ end = _ => destruct inner as [y|] eqn:E
      end.
      * injection H as ->. apply IH in E as (prev1 & s1 & c1 & M1 & E).
        destruct (String.length s1 <? String.length s)%nat eqn:Hlt;
          [| discriminate E].
        apply IHn in E as (prev' & s' & c' & M & E).
        exists prev', s', c'. split; [| exact E].
        eapply MStarRound; [exact M1 | apply Nat.ltb_lt; exact Hlt | exact M].
      * exists prev, s, c. split; [constructor | exact H].
  - rewrite run_LazyStar in H.
    remember (String.length s) as n eqn:Hn in H. clear Hn. revert prev s c H.
    induction n as [|n IHn]; intros prev s c H; cbn [lazyLoop] in H.
    + destruct (k prev s c) as [y|] eqn:E; [| discriminate H].
      exists prev, s, c. split; [constructor | congruence].
    + destruct (k prev s c) as [y|] eqn:E.
      * exists prev, s, c. split; [constructor | congruence].
      * apply IH in H as (prev1 & s1 & c1 & M1 & H).
        destruct (String.length s1 <? String.length s)%nat eqn:Hlt;
          [| discriminate H].
        apply IHn in H as (prev' & s' & c' & M & H).
        exists prev', s', c'. split; [| exact H].
        eapply MLazyRound; [exact M1 | apply Nat.ltb_lt; exact Hlt | exact M].
  - cbn [run] in H. apply IH in H as (prev' & s' & c' & M & H).
    eexists prev', s', _. split; [constructor; exact M | exact H].
  - cbn [run] in H. destruct prev; [discriminate H |].
    exists None, s, c. split; [constructor | exact H].
  - cbn [run] in H. destruct prev as [a|].
    + destruct (isLineTerminator a) eqn:Ha; [| discriminate H].
      exists (Some a), s, c. split; [constructor; exact Ha | exact H].
    + exists None, s, c. split; [constructor | exact H].
  - cbn [run] in H. destruct s; [| discriminate H].
    exists prev, EmptyString, c. split; [constructor | exact H].
  - cbn [run] in H.
    destruct (xorb (wordBefore prev) (wordAfter s)) eqn:Hb; [| discriminate H].
    exists prev, s, c. split; [constructor; exact Hb | exact H].
Qed.

Lemma run_complete_loops (R : Type) (r : regex) prev s prev' s' :
  Matches r prev s prev' s' ->
  forall c (k : cont R),
    (forall c', k prev' s' c' <> None) ->
    run r prev s c k <> None /\
    match r with
    | Star r' =>
        forall n, String.length s <= n -> starLoop r' k n prev s c <> None
    | LazyStar r' =>
        forall n, String.length s <= n -> lazyLoop r' k n prev s c <> None
    | _ => True
    end.
Proof.
  induction 1 as [prev s | p prev a s Hp | l prev s prev' s' Hl
                  | r1 r2 prev s prev1 s1 prev' s' _ IH1 _ IH2
                  | r1 r2 prev s prev' s' _ IH
                  | r1 r2 prev s prev' s' _ IH
                  | r prev s
                  | r prev s prev1 s1 prev' s' _ IH1 Hlt _ IH2
                  | r prev s
                  | r prev s prev1 s1 prev' s' _ IH1 Hlt _ IH2
                  | g r prev s prev' s' _ IH
                  | s | s | a s Ha | prev | prev s Hb];
    intros c k Hk.
  - split; [apply Hk | exact I].
  - split; [cbn [run]; rewrite Hp; apply Hk | exact I].
  - split; [cbn [run]; rewrite Hl; apply Hk | exact I].
  - split; [| exact I]. cbn [run].
    apply (IH1 c). intros c'. apply (IH2 c'). exact Hk.
  - split; [| exact I]. cbn [run].
    destruct (run r1 prev s c k) eqn:E; [discriminate |].
    exfalso. exact (proj1 (IH c k Hk) E).
  - split; [| exact I]. cbn [run].
    destruct (run r1 prev s c k); [discriminate |]. apply (IH c k Hk).
  - assert (Hany : forall n, starLoop r k n prev s c <> None).
    { intros [|n]; cbn [starLoop]; [apply Hk |].
      match goal with
      | |- match ?inner with _ => _ end <> _ => destruct inner
      end; [discriminate | apply Hk]. }
    split; [rewrite run_Star; apply Hany | intros n _; apply Hany].
  - assert (Hany : forall n, String.length s <= n ->
                             starLoop r k n prev s c <> None).
    { intros [|n] Hn; [lia |]. cbn [starLoop].
      match goal with
      | |- match ?inner with _ => _ end <> _ => destruct inner eqn:E
      end; [discriminate |].
      exfalso. revert E. apply (IH1 c). intros c'.
      apply Nat.ltb_lt in Hlt as Hlt'. rewrite Hlt'.
      apply (IH2 c' k Hk). lia. }
    split; [rewrite run_Star; apply Hany; lia | exact Hany].
  - assert (Hany : forall n, lazyLoop r k n prev s c <> None).
    { intros [|n]; cbn [lazyLoop]; specialize (Hk c);
        destruct (k prev s c); try discriminate; contradiction. }
    split; [rewrite run_LazyStar; apply Hany | intros n _; apply Hany].
  - assert (Hany : forall n, String.length s <= n ->
                             lazyLoop r k n prev s c <> None).
    { intros [|n] Hn; [lia |]. cbn [lazyLoop].
      destruct (k prev s c); [discriminate |].
      apply (IH1 c). intros c'.
      apply Nat.ltb_lt in Hlt as Hlt'. rewrite Hlt'.
      apply (IH2 c' k Hk). lia. }
    split; [rewrite run_LazyStar; apply Hany; lia | exact Hany].
  - split; [| exact I]. cbn [run]. apply (IH c). intros c'. apply Hk.
  - split; [apply Hk | exact I].
  - split; [apply Hk | exact I].
  - split; [cbn [run]; rewrite Ha; apply Hk | exact I].
  - split; [apply Hk | exact I].
  - split; [cbn [run]; rewrite Hb; apply Hk | exact I].
Qed.

Lemma run_complete (R : Type) (r : regex) prev s prev' s' (c : captures)
      (k : cont R) :
  Matches r prev s prev' s' ->
  (forall c', k prev' s' c' <> None) ->
  run r prev s c k <> None.
Proof. intros M Hk. exact (proj1 (run_complete_loops M c k Hk)). Qed.

Lemma matchLit_iff (l : string) :
  forall prev s prev' s',
    matchLit l prev s = Some (prev', s') <->
    s = l +++ s' /\ prev' = endOf prev l.
Proof.
  induction l as [|a l IH]; intros prev s prev' s'; cbn [matchLit endOf String.append].
  - split.
    + intros H. injection H as <- <-. auto.
    + intros [-> ->]. reflexivity.
  - destruct s as [|b s].
    + split; [discriminate | intros [H _]; discriminate H].
    + destruct (Ascii.eqb a b) eqn:E.
      * apply Ascii.eqb_eq in E. subst b. rewrite IH. split.
        -- intros [-> ->]. auto.
        -- intros [H ->]. injection H as ->. auto.
      * split; [discriminate |]. intros [H _]. injection H as -> _.
        rewrite Ascii.eqb_refl in E. discriminate E.
Qed.

Lemma Matches_Lit (l : string) prev s prev' s' :
  Matches (Lit l) prev s prev' s' <-> s = l +++ s' /\ prev' = endOf prev l.
Proof.
  rewrite <- matchLit_iff. split.
  - intros H. inversion H. assumption.
  - apply MLit.
Qed.

Lemma endOf_append (w1 w2 : string) :
  forall prev, endOf prev (w1 +++ w2) = endOf (endOf prev w1) w2.
Proof.
  induction w1 as [|a w1 IH]; intros prev; cbn [String.append endOf];
    [reflexivity | apply IH].
Qed.

Lemma append_assoc (a b c : string) : (a +++ b) +++ c = a +++ b +++ c.
Proof.
  induction a as [|x a IH]; cbn [String.append]; [reflexivity |].
  rewrite IH. reflexivity.
Qed.

(** A star of a class matches the texts of that class. *)
Lemma Matches_star_class (p : ascii -> bool) prev s prev' s' :
  Matches (Star (Chr p)) prev s prev' s' <->
  exists w, s = w +++ s' /\ allOf p w = true /\ prev' = endOf prev w.
Proof.
  split.
  - intros H. remember (Star (Chr p)) as r eqn:Hr.
    induction H as [| | | | | | r0 prev s
                    | r0 prev s prev1 s1 prev' s' H1 _ Hlt H2 IH2
                    | | | | | | | |]; try discriminate Hr.
    + exists EmptyString. repeat split.
    + injection Hr as ->. destruct (IH2 eq_refl) as (w & -> & Hw & ->).
      inversion H1 as [| p0 prev0 a s0 Hp | | | | | | | | | | | | | |]; subst.
      exists (String a w). cbn [String.append endOf]. repeat split.
      unfold allOf. cbn [list_ascii_of_string forallb]. rewrite Hp. exact Hw.
  - intros (w & -> & Hw & ->). revert prev Hw.
    induction w as [|a w IH]; intros prev Hw; cbn [String.append endOf].
    + constructor.
    + unfold allOf in Hw. cbn [list_ascii_of_string forallb] in Hw.
      apply andb_prop in Hw as [Hp Hw].
      eapply MStarRound.
      * constructor. exact Hp.
      * cbn [String.length]. lia.
      * apply IH. exact Hw.
Qed.

(** [re.test(s)]: the pattern matches at some place of the text. *)
Lemma searchFrom_Matches (r : regex) :
  forall s before prev,
    searchFrom r before prev s (fun _ _ _ _ => Some tt) <> None <->
    exists skipped rest prev' s',
      s = skipped +++ rest /\ Matches r (endOf prev skipped) rest prev' s'.
Proof.
  induction s as [|a s IH]; intros before prev; cbn [searchFrom].
  - destruct (run r prev EmptyString [] (fun _ _ _ => Some tt)) as [[]|] eqn:E.
    + split; [| discriminate]. intros _.
      apply run_sound in E as (prev' & s' & _ & M & _).
      exists EmptyString, EmptyString, prev', s'. split; [reflexivity | exact M].
    + split; [intros H; contradiction |].
      intros (skipped & rest & prev' & s' & Hs & M).
      destruct skipped; [| discriminate Hs]. cbn in Hs. subst rest.
      cbn [endOf] in M. exfalso.
      apply (run_complete [] (fun _ _ _ => Some tt) M);
        [intros; discriminate | exact E].
  - destruct (run r prev (String a s) [] (fun _ _ _ => Some tt)) as [[]|] eqn:E.
    + split; [| discriminate]. intros _.
      apply run_sound in E as (prev' & s' & _ & M & _).
      exists EmptyString, (String a s), prev', s'.
      split; [reflexivity | exact M].
    + rewrite IH. split.
      * intros (skipped & rest & prev' & s' & -> & M).
        exists (String a skipped), rest, prev', s'.
        split; [reflexivity | exact M].
      * intros (skipped & rest & prev' & s' & Hs & M).
        destruct skipped as [|b skipped].
        -- cbn in Hs. subst rest. cbn [endOf] in M. exfalso.
           apply (run_complete [] (fun _ _ _ => Some tt) M);
             [intros; discriminate | exact E].
        -- cbn [String.append] in Hs. injection Hs as -> ->.
           exists skipped, rest, prev', s'. split; [reflexivity | exact M].
Qed.

Lemma test_Matches (r : regex) (s : string) :
  test r s = true <->
  exists skipped rest prev' s',
    s = skipped +++ rest /\ Matches r (endOf None skipped) rest prev' s'.
Proof.
  rewrite <- (searchFrom_Matches r s EmptyString None). unfold test.
  destruct (searchFrom r EmptyString None s (fun _ _ _ _ => Some tt));
    split; try discriminate; try reflexivity; intros H; contradiction.
Qed.

Ltac matches_inv :=
  repeat match goal with
         | H : Matches (Seq _ _) _ _ _ _ |- _ => inversion H; subst; clear H
         | H : Matches (Group _ _) _ _ _ _ |- _ => inversion H; subst; clear H
         | H : Matches (Alt _ _) _ _ _ _ |- _ => inversion H; subst; clear H
         | H : Matches (Lit _) _ _ _ _ |- _ =>
             apply Matches_Lit in H as [? ?]; subst
         | H : Matches (Star (Chr _)) _ _ _ _ |- _ =>
             apply Matches_star_class in H as (? & ? & ? & ?); subst
         | H : Matches (Chr _) _ _ _ _ |- _ => inversion H; subst; clear H
         | H : Matches WordB _ _ _ _ |- _ => inversion H; subst; clear H
         | H : Matches Bol _ _ _ _ |- _ => inversion H; subst; clear H
         end.

(** The start of a marker pattern: white space or a semicolon, or the
    start of a line. *)
Lemma Matches_lead (cls : ascii -> bool) (body : regex) prev rest prev' s' :
  Matches (Seq (Group 1 (Alt (Chr cls) Bol)) body) prev rest prev' s' <->
  (exists a rest',
      rest = String a rest' /\ cls a = true /\
      Matches body (Some a) rest' prev' s') \/
  (match prev with
   | None => True
   | Some a => isLineTerminator a = true
   end /\ Matches body prev rest prev' s').
Proof.
  split.
  - intros M. matches_inv.
    + left. eauto.
    + right. split; [exact I | assumption].
    + right. split; assumption.
  - intros [(a & rest' & -> & Ha & M) | [Hprev M]].
    + eapply MSeq; [| exact M]. apply MGroup, MAltL, MChr. exact Ha.
    + eapply MSeq; [| exact M]. apply MGroup, MAltR.
      destruct prev as [a|]; constructor. exact Hprev.
Qed.

Lemma wordB_after (a : ascii) (s : string) :
  isWord a = true ->
  xorb (wordBefore (Some a)) (wordAfter s) = true <-> wordAfter s = false.
Proof.
  intros Ha. cbn [wordBefore]. rewrite Ha.
  destruct (wordAfter s); cbn; split; congruence.
Qed.

Lemma oneOf_two (a b x : ascii) :
  oneOf (String a (String b EmptyString)) x = true -> x = a \/ x = b.
Proof.
  cbn [oneOf]. rewrite orb_false_r. intros H. apply orb_prop in H as [H | H];
    apply Ascii.eqb_eq in H; auto.
Qed.

Lemma esm_body (lead body : regex) :
  ESM_CONTENT_RE = Seq lead body ->
  forall prev rest,
    (exists prev' s', Matches body prev rest prev' s') <-> esmMarkerAt rest.
Proof.
  intros E. injection E as <- <-. intros prev rest. split.
  - intros (prev' & s' & M). cbn [alts seqs] in M. matches_inv.
    all: cbn [endOf] in *.
    all: try match goal with
             | H : xorb (wordBefore (Some ?a)) (wordAfter _) = true |- _ =>
                 apply (@wordB_after a _ eq_refl) in H
             end.
    + left. do 2 eexists. split; [reflexivity | assumption].
    + right; left. do 3 eexists. split; [reflexivity |]. split; assumption.
    + right; right; left.
      assert (Ha : a = "*"%char \/ a = "{"%char)
        by (apply oneOf_two; assumption).
      destruct Ha as [-> | ->].
      * exists x, "*", s'. repeat split; try assumption. cbn; auto.
      * exists x, "{", s'. repeat split; try assumption. cbn; auto.
    + right; right; left. exists x, "default", s'.
      repeat split; try assumption. cbn; auto 10.
    + right; right; left. exists x, "type", s'.
      repeat split; try assumption. cbn; auto 10.
    + right; right; left. exists x, "function", s'.
      repeat split; try assumption. cbn; auto 10.
    + right; right; left. exists x, "const", s'.
      repeat split; try assumption. cbn; auto 10.
    + right; right; left. exists x, "var", s'.
      repeat split; try assumption. cbn; auto 10.
    + right; right; left. exists x, "let", s'.
      repeat split; try assumption. cbn; auto 10.
    + right; right; left. exists x, "async function", s'.
      repeat split; try assumption. cbn; auto 10.
    + right; right; right. exists s'. split; [reflexivity | assumption].
  - assert (Hlit : forall l prev s, Matches (Lit l) prev (l +++ s) (endOf prev l) s).
    { intros. apply Matches_Lit. split; reflexivity. }
    assert (Hstar : forall p prev w s,
               allOf p w = true ->
               Matches (Star (Chr p)) prev (w +++ s) (endOf prev w) s).
    { intros. apply Matches_star_class. eexists; repeat split; assumption. }
    intros [(w & tail & -> & Hw)
           | [(w & a & tail & -> & Hw & Ha)
             | [(w & keyword & tail & -> & Hw & Hin & Hb) | (tail & -> & Hb)]]];
      cbn [alts seqs].
    + do 2 eexists. apply MGroup, MAltL.
      eapply MSeq; [apply Hlit |]. eapply MSeq; [apply Hstar; exact Hw |].
      apply Hlit.
    + do 2 eexists. apply MGroup, MAltR, MAltL.
      eapply MSeq; [apply Hlit |]. eapply MSeq; [apply Hstar; exact Hw |].
      apply MChr. exact Ha.
    + assert (Hkw :
                exists prev' s',
                  Matches (Alt (Chr (oneOf "*{"))
                             (Alt (Lit "default")
                                (Alt (Lit "type")
                                   (Alt (Lit "function")
                                      (Alt (Lit "const")
                                         (Alt (Lit "var")
                                            (Alt (Lit "let")
                                               (Lit "async function"))))))))
                          (endOf (Some "t"%char) w) (keyword +++ tail) prev' s').
      { cbn [esmKeywords In] in Hin.
        decompose [or] Hin; subst; try contradiction; do 2 eexists.
        - apply MAltL. cbn [String.append]. apply MChr. reflexivity.
        - apply MAltL. cbn [String.append]. apply MChr. reflexivity.
        - apply MAltR, MAltL, Hlit.
        - apply MAltR, MAltR, MAltL, Hlit.
        - apply MAltR, MAltR, MAltR, MAltL, Hlit.
        - apply MAltR, MAltR, MAltR, MAltR, MAltL, Hlit.
        - apply MAltR, MAltR, MAltR, MAltR, MAltR, MAltL, Hlit.
        - apply MAltR, MAltR, MAltR, MAltR, MAltR, MAltR, MAltL, Hlit.
        - apply MAltR, MAltR, MAltR, MAltR, MAltR, MAltR, MAltR, Hlit. }
      destruct Hkw as (prev' & s' & Hkw).
      exists prev', s'. apply MGroup, MAltR, MAltR, MAltL.
      eapply MSeq; [apply Hlit |].
      eapply MSeq; [apply MWordB; apply (@wordB_after "t" _ eq_refl); exact Hb |].
      eapply MSeq; [apply Hstar; exact Hw |]. exact Hkw.
    + do 2 eexists. apply MGroup, MAltR, MAltR, MAltR.
      eapply MSeq; [apply (Hlit "import") |].
      eapply MSeq; [apply (Hlit ".meta") |].
      apply MWordB. apply (@wordB_after "a" _ eq_refl). exact Hb.
Qed.

Lemma cjs_body (lead body : regex) :
  CJS_CONTENT_RE = Seq lead body ->
  forall prev rest,
    (exists prev' s', Matches body prev rest prev' s') <-> cjsMarkerAt rest.
Proof.
  intros E. injection E as <- <-. intros prev rest. split.
  - intros (prev' & s' & M). cbn [alts seqs] in M. matches_inv.
    all: cbn [endOf] in *.
    all: try match goal with
             | H : xorb (wordBefore (Some ?a)) (wordAfter _) = true |- _ =>
                 apply (@wordB_after a _ eq_refl) in H
             end.
    + left. do 2 eexists. split; [reflexivity |]. split; assumption.
    + right; left. do 2 eexists. split; [reflexivity | assumption].
    + right; right; left. do 2 eexists. split; [reflexivity | assumption].
    + right; right; right; left. do 2 eexists.
      split; [reflexivity | assumption].
    + right; right; right; right. exists "defineProperty", x0, x, s'.
      repeat split; try assumption. cbn; auto.
    + right; right; right; right. exists "defineProperties", x0, x, s'.
      repeat split; try assumption. cbn; auto.
    + right; right; right; right. exists "assign", x0, x, s'.
      repeat split; try assumption. cbn; auto.
  - assert (Hlit : forall l prev s, Matches (Lit l) prev (l +++ s) (endOf prev l) s).
    { intros. apply Matches_Lit. split; reflexivity. }
    assert (Hstar : forall p prev w s,
               allOf p w = true ->
               Matches (Star (Chr p)) prev (w +++ s) (endOf prev w) s).
    { intros. apply Matches_star_class. eexists; repeat split; assumption. }
    intros [(a & tail & -> & Ha & Hb)
           | [(a & tail & -> & Ha)
             | [(w & tail & -> & Hw)
               | [(a & tail & -> & Ha)
                 | (name & w1 & w2 & tail & -> & Hin & Hw1 & Hw2 & Hb)]]]];
      cbn [alts seqs].
    + do 2 eexists. apply MGroup, MAltL.
      eapply MSeq; [apply Hlit |]. eapply MSeq; [apply MChr; exact Ha |].
      eapply MSeq; [apply Hlit |].
      apply MWordB. apply (@wordB_after "s" _ eq_refl). exact Hb.
    + do 2 eexists. apply MGroup, MAltR, MAltL.
      eapply MSeq; [apply Hlit |]. apply MChr. exact Ha.
    + do 2 eexists. apply MGroup, MAltR, MAltR, MAltL.
      eapply MSeq; [apply Hlit |]. eapply MSeq; [apply Hstar; exact Hw |].
      apply Hlit.
    + do 2 eexists. apply MGroup, MAltR, MAltR, MAltR, MAltL.
      eapply MSeq; [apply Hlit |]. apply MChr. exact Ha.
    + assert (Hname : exists prev1,
                 forall s, Matches (Group 3 (Alt (Lit "defineProperty")
                                               (Alt (Lit "defineProperties")
                                                    (Lit "assign"))))
                                   (Some "."%char) (name +++ s) prev1 s).
      { cbn [In] in Hin. decompose [or] Hin; subst; try contradiction;
          eexists; intros s; apply MGroup.
        - apply MAltL, Hlit.
        - apply MAltR, MAltL, Hlit.
        - apply MAltR, MAltR, Hlit. }
      destruct Hname as [prev1 Hname].
      do 2 eexists. apply MGroup, MAltR, MAltR, MAltR, MAltR.
      eapply MSeq; [apply Hlit |]. eapply MSeq; [apply Hname |].
      eapply MSeq; [apply Hstar; exact Hw1 |].
      eapply MSeq; [apply Hlit |].
      eapply MSeq; [apply Hstar; exact Hw2 |].
      eapply MSeq; [apply Hlit |].
      apply MWordB. apply (@wordB_after "s" _ eq_refl). exact Hb.
Qed.

Lemma endOf_last (w : string) :
  forall prev a,
    endOf prev w = Some a ->
    (w = EmptyString /\ prev = Some a) \/
    exists w', w = w' +++ String a EmptyString.
Proof.
  induction w as [|b w IH]; intros prev a H; cbn [endOf] in H.
  - left. auto.
  - right. apply IH in H as [[-> H] | [w' ->]].
    + injection H as ->. exists EmptyString. reflexivity.
    + exists (String b w'). reflexivity.
Qed.

Lemma endOf_None (w : string) : endOf None w = None -> w = EmptyString.
Proof.
  destruct w as [|b w]; [reflexivity |]. cbn [endOf]. intros H. exfalso.
  assert (Hsome : forall w prev, endOf (Some prev) w <> None).
  { clear. induction w as [|c w IH]; intros prev; cbn [endOf];
      [discriminate | apply IH]. }
  exact (Hsome w b H).
Qed.

Lemma lineTerminator_space (a : ascii) :
  isLineTerminator a = true -> isSpace a = true.
Proof.
  unfold isLineTerminator. intros H. apply orb_prop in H as [H | H];
    apply Ascii.eqb_eq in H; subst a; reflexivity.
Qed.

(** A pattern made of the start of a marker and a marker is found in
    the texts that are marked. *)
Lemma test_marked (re lead body : regex) (markerAt : string -> Prop)
      (cls : ascii -> bool) :
  re = Seq (Group 1 (Alt (Chr cls) Bol)) body ->
  (forall a, cls a = (isSpace a || oneOf ";" a)) ->
  (forall prev rest,
      (exists prev' s', Matches body prev rest prev' s') <-> markerAt rest) ->
  forall text, test re text = true <-> marked markerAt text.
Proof.
  intros -> Hcls Hbody text. rewrite test_Matches. unfold marked. split.
  - intros (skipped & rest & prev' & s' & -> & M).
    apply Matches_lead in M as [(a & rest' & -> & Ha & M) | [Hprev M]].
    + right. exists skipped, a, rest'. rewrite <- Hcls.
      split; [reflexivity |]. split; [exact Ha |].
      apply (Hbody (Some a)). eauto.
    + assert (Hm : markerAt rest) by (apply (Hbody (endOf None skipped)); eauto).
      destruct (endOf None skipped) as [a|] eqn:E.
      * apply endOf_last in E as [[_ E] | [w' ->]]; [discriminate E |].
        right. exists w', a, rest. rewrite append_assoc.
        split; [reflexivity |]. split; [| exact Hm].
        rewrite (lineTerminator_space _ Hprev). reflexivity.
      * apply endOf_None in E. subst skipped. left. exact Hm.
  - intros [Hm | (before & a & rest & -> & Ha & Hm)].
    + apply (Hbody None) in Hm as (prev' & s' & M).
      exists EmptyString, text, prev', s'. split; [reflexivity |].
      apply Matches_lead. right. split; [exact I | exact M].
    + apply (Hbody (Some a)) in Hm as (prev' & s' & M).
      exists before, (String a rest), prev', s'. split; [reflexivity |].
      apply Matches_lead. left. exists a, rest. rewrite Hcls. auto.
Qed.

Lemma isCodeEsm_marked (text : string) :
  isCodeEsm text = true <-> marked esmMarkerAt text.
Proof.
  unfold isCodeEsm.
  apply (@test_marked ESM_CONTENT_RE (Group 1 (Alt (Chr (union isSpace (oneOf ";"))) Bol)) _ esmMarkerAt
           (union isSpace (oneOf ";")) eq_refl).
  - reflexivity.
  - apply (@esm_body _ _ eq_refl).
Qed.

Lemma isCodeCjs_marked (text : string) :
  isCodeCjs text = true <-> marked cjsMarkerAt text.
Proof.
  unfold isCodeCjs.
  apply (@test_marked CJS_CONTENT_RE (Group 1 (Alt (Chr (union isSpace (oneOf ";"))) Bol)) _ cjsMarkerAt
           (union isSpace (oneOf ";")) eq_refl).
  - reflexivity.
  - apply (@cjs_body _ _ eq_refl).
Qed.

Lemma matchLit_two (x y : ascii) (prev : option ascii) (s : string) :
  matchLit (String x (String y EmptyString)) prev s =
  option_map (fun rest => (Some y, rest)) (afterTwo x y s).
Proof.
  destruct s as [|a [|b rest]]; cbn [matchLit afterTwo option_map].
  - reflexivity.
  - destruct (Ascii.eqb x a); reflexivity.
  - rewrite (Ascii.eqb_sym a x), (Ascii.eqb_sym b y).
    destruct (Ascii.eqb x a); [| reflexivity].
    destruct (Ascii.eqb_spec y b) as [-> |]; reflexivity.
Qed.

Lemma afterTwo_shorter (x y : ascii) (s rest : string) :
  afterTwo x y s = Some rest -> String.length rest < String.length s.
Proof.
  destruct s as [|a [|b r]]; cbn [afterTwo]; try discriminate.
  destruct (Ascii.eqb a x && Ascii.eqb b y); [| discriminate].
  intros H. injection H as ->. cbn [String.length]. lia.
Qed.

Lemma afterCommentEnd_shorter (s : string) :
  forall rest, afterCommentEnd s = Some rest ->
               String.length rest < String.length s.
Proof.
  induction s as [|a s IH]; intros rest; cbn [afterCommentEnd].
  - cbn [afterTwo]. discriminate.
  - destruct (afterTwo "*" "/" (String a s)) as [r|] eqn:E.
    + intros H. injection H as ->. exact (afterTwo_shorter _ _ _ E).
    + intros H. apply IH in H. cbn [String.length]. lia.
Qed.

Lemma lineEnd_shorter (s : string) :
  String.length (lineEnd s) <= String.length s.
Proof.
  induction s as [|a s IH]; cbn [lineEnd]; [lia |].
  destruct (isLineTerminator a); cbn [String.length]; lia.
Qed.

(** The pattern of a block comment stops at the first star and slash. *)
Lemma lazyLoop_comment (n : nat) :
  forall (rest : string) (prev : option ascii) (c : captures),
    String.length rest <= n ->
    lazyLoop (Group 1 (Alt (Chr dot) (Chr isLineTerminator)))
             (fun prev' s' c' =>
                run (Lit "*/") prev' s' c'
                    (fun prev'' s'' _ => Some (prev'', s'')))
             n prev rest c
    = option_map (fun r => (Some "/"%char, r)) (afterCommentEnd rest).
Proof.
  induction n as [|n IH]; intros rest prev c Hn; cbn [lazyLoop run].
  - destruct rest; [| cbn [String.length] in Hn; lia].
    reflexivity.
  - rewrite matchLit_two.
    destruct rest as [|a rest].
    + reflexivity.
    + cbn [afterCommentEnd].
      destruct (afterTwo "*" "/" (String a rest)) as [r|]; [reflexivity |].
      cbn [option_map].
      assert (Hlt : (String.length rest <? String.length (String a rest))%nat
                    = true) by (apply Nat.ltb_lt; cbn [String.length]; lia).
      rewrite Hlt.
      cbn [String.length] in Hn.
      destruct (dot a) eqn:Hd.
      * rewrite IH by lia.
        destruct (option_map (fun r => (Some "/"%char, r)) (afterCommentEnd rest));
          [reflexivity |].
        unfold dot in Hd. destruct (isLineTerminator a); [discriminate Hd |].
        reflexivity.
      * unfold dot in Hd. destruct (isLineTerminator a); [| discriminate Hd].
        rewrite IH by lia. reflexivity.
Qed.

Lemma run_block_comment (prev : option ascii) (s : string) :
  run MULTILINE_COMMENTS_RE prev s [] (fun prev' s' _ => Some (prev', s'))
  = option_map (fun r => (Some "/"%char, r)) (afterBlockComment s).
Proof.
  unfold MULTILINE_COMMENTS_RE, afterBlockComment. cbn [seqs].
  cbn [run]. rewrite matchLit_two.
  destruct (afterTwo "/" "*" s) as [rest|]; cbn [option_map]; [| reflexivity].
  change (lazyLoop (Group 1 (Alt (Chr dot) (Chr isLineTerminator)))
            (fun prev' s' c' =>
               run (Lit "*/") prev' s' c'
                   (fun prev'' s'' _ => Some (prev'', s'')))
            (String.length rest) (Some "*"%char) rest []
          = option_map (fun r => (Some "/"%char, r)) (afterCommentEnd rest)).
  apply lazyLoop_comment. lia.
Qed.

(** The pattern of a line comment takes the rest of the line. *)
Lemma starLoop_line (n : nat) :
  forall (rest : string) (prev : option ascii) (c : captures),
    String.length rest <= n ->
    exists prev',
      starLoop (Chr dot) (fun prev' s' _ => Some (prev', s')) n prev rest c
      = Some (prev', lineEnd rest).
Proof.
  induction n as [|n IH]; intros rest prev c Hn; cbn [starLoop run].
  - destruct rest; [| cbn [String.length] in Hn; lia].
    exists prev. reflexivity.
  - destruct rest as [|a rest]; [exists prev; reflexivity |].
    cbn [lineEnd]. destruct (dot a) eqn:Hd; unfold dot in Hd;
      destruct (isLineTerminator a); try discriminate Hd.
    2:{ exists prev. reflexivity. }
    + assert (Hlt : (String.length rest <? String.length (String a rest))%nat
                    = true) by (apply Nat.ltb_lt; cbn [String.length]; lia).
      rewrite Hlt. cbn [String.length] in Hn.
      destruct (IH rest (Some a) c ltac:(lia)) as [prev' ->].
      exists prev'. reflexivity.
Qed.

Lemma run_line_comment (prev : option ascii) (s : string) :
  match afterLineComment s with
  | Some rest =>
      exists prev',
        run SINGLELINE_COMMENTS_RE prev s []
            (fun prev' s' _ => Some (prev', s')) = Some (prev', rest)
  | None =>
      run SINGLELINE_COMMENTS_RE prev s []
          (fun prev' s' _ => Some (prev', s')) = None
  end.
Proof.
  unfold SINGLELINE_COMMENTS_RE, afterLineComment.
  cbn [run]. rewrite matchLit_two.
  destruct (afterTwo "/" "/" s) as [rest|]; cbn [option_map]; [| reflexivity].
  exact (@starLoop_line (String.length rest) rest (Some "/"%char) []
           (le_n _)).
Qed.

(** Removing every match of a pattern that matches the comments a text
    starts with removes the comments. *)
Lemma removeAllFrom_without (r : regex) (after : string -> option string) :
  (forall prev s,
      match after s with
      | Some rest =>
          (exists prev',
              run r prev s [] (fun prev' s' _ => Some (prev', s'))
              = Some (prev', rest)) /\
          String.length rest < String.length s
      | None =>
          run r prev s [] (fun prev' s' _ => Some (prev', s')) = None
      end) ->
  forall n prev s, removeAllFrom r n prev s = withoutComments after n s.
Proof.
  intros Hr. induction n as [|n IH]; intros prev s;
    cbn [removeAllFrom withoutComments]; [reflexivity |].
  specialize (Hr prev s). destruct (after s) as [rest|].
  - destruct Hr as [[prev' ->] Hlt].
    apply Nat.ltb_lt in Hlt. rewrite Hlt. apply IH.
  - rewrite Hr. destruct s as [|a s]; [reflexivity |]. rewrite IH. reflexivity.
Qed.

Lemma stripComments_without (code : string) :
  stripComments code = withoutLineComments (withoutBlockComments code).
Proof.
  unfold stripComments, removeAll, withoutLineComments, withoutBlockComments.
  rewrite (@removeAllFrom_without MULTILINE_COMMENTS_RE afterBlockComment).
  - apply removeAllFrom_without. intros prev s.
    pose proof (run_line_comment prev s) as H.
    destruct (afterLineComment s) as [rest|] eqn:E; [| exact H].
    split; [exact H |].
    unfold afterLineComment in E.
    destruct (afterTwo "/" "/" s) as [r|] eqn:E2; [| discriminate E].
    injection E as <-. apply afterTwo_shorter in E2.
    pose proof (lineEnd_shorter r). lia.
  - intros prev s. rewrite run_block_comment.
    destruct (afterBlockComment s) as [rest|] eqn:E; [| reflexivity].
    split; [eexists; reflexivity |].
    unfold afterBlockComment in E.
    destruct (afterTwo "/" "*" s) as [r|] eqn:E2; [| discriminate E].
    apply afterTwo_shorter in E2. apply afterCommentEnd_shorter in E. lia.
Qed.

Lemma getCodeFormat_cases (code : string) :
  getCodeFormat code =
  let text := stripComments code in
  match isCodeEsm text, isCodeCjs text with
  | true, true => mixed
  | true, false => ESM
  | false, true => CJS
  | false, false => unknown
  end.
Proof.
  unfold getCodeFormat. cbv zeta.
  destruct (isCodeEsm (stripComments code)), (isCodeCjs (stripComments code));
    reflexivity.
Qed.

(** C2: the text [getCodeFormat] looks at is the source text without
    its comments: each comment between a slash and a star and the next
    star and slash passed over first, and then each comment from two
    slashes to the end of its line.  The answer is [mixed] where that
    text has a marker of module syntax and a marker of CommonJS, [ESM]
    where it has a marker of module syntax only, [CJS] where it has a
    marker of CommonJS only, and [unknown] where it has neither; a marker
    counts at the start of the text and after white space or a
    semicolon. *)
Theorem getCodeFormat_classifies (code : string) :
  let text := withoutLineComments (withoutBlockComments code) in
  stripComments code = text /\
  (getCodeFormat code = mixed <->
   marked esmMarkerAt text /\ marked cjsMarkerAt text) /\
  (getCodeFormat code = ESM <->
   marked esmMarkerAt text /\ ~ marked cjsMarkerAt text) /\
  (getCodeFormat code = CJS <->
   ~ marked esmMarkerAt text /\ marked cjsMarkerAt text) /\
  (getCodeFormat code = unknown <->
   ~ marked esmMarkerAt text /\ ~ marked cjsMarkerAt text).
Proof.
  cbv zeta. rewrite getCodeFormat_cases. cbv zeta.
  rewrite stripComments_without.
  set (text := withoutLineComments (withoutBlockComments code)).
  pose proof (isCodeEsm_marked text) as Hesm.
  pose proof (isCodeCjs_marked text) as Hcjs.
  split; [reflexivity |].
  clearbody text. clear - Hesm Hcjs.
  destruct (isCodeEsm text), (isCodeCjs text);
    repeat split; try discriminate; try tauto;
    intros; try (intros ?); intuition discriminate.
Qed.

(** *** Values of [imports] that name a dependency *)

(** C10: under [imports] a string that does not start with a dot is
    passed over: its task pushes no message and is fulfilled. *)
Theorem imports_external_value_skipped
        (exportsValue : string) (currentPath : list string)
        (isAfterNodeCondition : bool) :
  Str.startsWith exportsValue "." = false ->
  crawlExportsOrImports (JStr exportsValue) currentPath true
                        isAfterNodeCondition
  = ([], Ok [fulfilled]).
Proof.
  intros Hdot. simpl. unfold crawlLeaf. rewrite Hdot. reflexivity.
Qed.

(** *** The format a path is expected to have *)

Lemma getNearestPkgFrom_walk (k : nat) :
  forall (n : nat) (dir : string),
    k < n ->
    (forall i, i < k ->
       manifestAt (Nat.iter i (Vfs.getDirName vfs) dir) = None /\
       Nat.iter (S i) (Vfs.getDirName vfs) dir
       <> Nat.iter i (Vfs.getDirName vfs) dir) ->
    (forall pkg,
       manifestAt (Nat.iter k (Vfs.getDirName vfs) dir) = Some pkg ->
       getNearestPkgFrom JSON_parse vfs n dir = Ok (Some pkg)) /\
    (manifestAt (Nat.iter k (Vfs.getDirName vfs) dir) = None ->
     Nat.iter (S k) (Vfs.getDirName vfs) dir
     = Nat.iter k (Vfs.getDirName vfs) dir ->
     getNearestPkgFrom JSON_parse vfs n dir = Ok None).
Proof.
  induction k as [|k IH]; intros n dir Hn Hbelow.
  - destruct n as [|n]; [lia |]. simpl. fold (manifestAt dir).
    split.
    + intros pkg Hpkg. rewrite Hpkg. reflexivity.
    + intros Hnone Hfix. rewrite Hnone.
      apply String.eqb_eq in Hfix. rewrite Hfix. reflexivity.
  - destruct n as [|n]; [lia |].
    destruct (Hbelow 0 ltac:(lia)) as [H0 Hmove]. simpl in H0, Hmove.
    assert (Hstep : getNearestPkgFrom JSON_parse vfs (S n) dir
                    = getNearestPkgFrom JSON_parse vfs n (Vfs.getDirName vfs dir)).
    { simpl. fold (manifestAt dir). rewrite H0.
      apply String.eqb_neq in Hmove. rewrite Hmove. reflexivity. }
    rewrite Hstep.
    rewrite (Nat.iter_succ_r (S k) _ (Vfs.getDirName vfs) dir).
    rewrite (Nat.iter_succ_r k _ (Vfs.getDirName vfs) dir).
    apply IH; [lia |].
    intros i Hi. rewrite <- !Nat.iter_succ_r. apply Hbelow. lia.
Qed.

Lemma formatOfPkg_typeIsModule (pkg : json) :
  formatOfPkg (Some pkg) = if typeIsModule pkg then ESM else CJS.
Proof.
  unfold formatOfPkg, typeIsModule.
  destruct (getPropOpt (Some pkg) "type") as [[]|]; reflexivity.
Qed.

(** C1, as amended: a path that ends in [.mjs] or [.cjs], the suffix
    [.native.js] taken off first, has the format of its extension,
    whatever the file system holds.  Any other path has the format of
    the nearest manifest above it that can be loaded, with or without
    a [type] field: ESM exactly when its [type] is [module], CJS
    otherwise, and CJS when the walk reaches the top without one. *)
Theorem getFilePathFormat_rule (filePath : string) :
  let path := withoutNative filePath in
  (Str.endsWith path ".mjs" = true ->
   getFilePathFormat JSON_parse fuel filePath vfs = Ok ESM) /\
  (Str.endsWith path ".mjs" = false -> Str.endsWith path ".cjs" = true ->
   getFilePathFormat JSON_parse fuel filePath vfs = Ok CJS) /\
  (Str.endsWith path ".mjs" = false -> Str.endsWith path ".cjs" = false ->
   forall k : nat,
     k < fuel ->
     (forall i, i < k ->
        manifestAt (ancestor i path) = None /\
        ancestor (S i) path <> ancestor i path) ->
     (forall pkg,
        manifestAt (ancestor k path) = Some pkg ->
        getFilePathFormat JSON_parse fuel filePath vfs
        = Ok (if typeIsModule pkg then ESM else CJS)) /\
     (manifestAt (ancestor k path) = None ->
      ancestor (S k) path = ancestor k path ->
      getFilePathFormat JSON_parse fuel filePath vfs = Ok CJS)).
Proof.
  unfold getFilePathFormat. fold (withoutNative filePath). cbv zeta.
  set (path := withoutNative filePath).
  repeat split.
  - intros ->. reflexivity.
  - intros -> ->. reflexivity.
  - intros pkg Hpkg. rewrite H, H0. unfold getNearestPkg.
    destruct (getNearestPkgFrom_walk (k := k) (n := fuel)
                (Vfs.getDirName vfs path) H1 H2) as [Hfound _].
    rewrite (Hfound pkg Hpkg). rewrite formatOfPkg_typeIsModule. reflexivity.
  - intros Hnone Hfix. rewrite H, H0. unfold getNearestPkg.
    destruct (getNearestPkgFrom_walk (k := k) (n := fuel)
                (Vfs.getDirName vfs path) H1 H2) as [_ Htop].
    rewrite (Htop Hnone Hfix). reflexivity.
Qed.

(** *** The wildcard of a glob *)

Lemma optString_eqb_eq (a b : option string) :
  optString_eqb a b = true <-> a = b.
Proof.
  destruct a as [x|], b as [y|]; simpl; split; intros H;
    try congruence; try discriminate.
  - apply String.eqb_eq in H. congruence.
  - inversion H. apply String.eqb_refl.
Qed.

Lemma allGlobSame_spec (matched : list (option string)) :
  allGlobSame matched = true <->
  forall c, In c matched -> Some c = nth_error matched 0.
Proof.
  destruct matched as [|first rest]; simpl.
  - split; [intros _ c [] | reflexivity].
  - rewrite forallb_forall. split.
    + intros Hall c [<- | Hin]; [reflexivity |].
      f_equal. apply optString_eqb_eq. auto.
    + intros Hall c Hin. apply optString_eqb_eq.
      specialize (Hall c (or_intror Hin)). congruence.
Qed.

Lemma globAccepts_matched (globStr : string) (exportsKey : option string)
      (exports : option json) (itemPath : string) :
  globAccepts globStr exportsKey exports itemPath = true ->
  exists matched,
    globMatch (Str.slash globStr) (Str.slash itemPath) = Some matched /\
    allGlobSame matched = true.
Proof.
  unfold globAccepts.
  destruct (globMatch (Str.slash globStr) (Str.slash itemPath))
    as [matched|]; [| discriminate].
  destruct (allGlobSame matched) eqn:Hsame; simpl; [| discriminate].
  intros _. exists matched. auto.
Qed.

Lemma concatOutcomes_In (A B : Type) (f : A -> outcome (list B))
      (l : list A) (ys : list B) (y : B) :
  concatOutcomes f l = Ok ys -> In y ys ->
  exists x zs, In x l /\ f x = Ok zs /\ In y zs.
Proof.
  revert ys. induction l as [|x l IH]; simpl; intros ys Hys Hin.
  - inversion Hys; subst. destruct Hin.
  - destruct (f x) as [zs| |] eqn:Hfx; try discriminate.
    destruct (concatOutcomes f l) as [ws| |]; try discriminate.
    inversion Hys; subst. apply in_app_or in Hin as [Hin | Hin].
    + exists x, zs. auto.
    + destruct (IH ws eq_refl Hin) as (x' & zs' & Hx' & Hf & Hy).
      exists x', zs'. auto.
Qed.

Lemma scanDir_accepts (globStr : string) (packedFiles : option (list string))
      (exportsKey : option string) (exports : option json) (n : nat) :
  forall (dirPath : string) (files : list string) (filePath : string),
    scanDir globStr vfs packedFiles exportsKey exports n dirPath = Ok files ->
    In filePath files ->
    globAccepts globStr exportsKey exports filePath = true.
Proof.
  induction n as [|n IH]; intros dirPath files filePath Hscan Hin.
  - discriminate.
  - simpl in Hscan.
    destruct (@concatOutcomes_In _ _ _ _ _ _ Hscan Hin)
      as (item & zs & _ & Hitem & Hzs).
    destruct (isPacked packedFiles (Vfs.pathJoin vfs dirPath item)).
    + destruct (Vfs.isPathDir vfs (Vfs.pathJoin vfs dirPath item)).
      * eapply IH; eauto.
      * destruct (globAccepts globStr exportsKey exports
                    (Vfs.pathJoin vfs dirPath item)) eqn:Hacc;
          inversion Hitem; subst.
        -- destruct Hzs as [<- | []]. exact Hacc.
        -- destruct Hzs.
    + inversion Hitem; subst. destruct Hzs.
Qed.

(** C7: a path is among the files of a glob only if the pattern
    matches it with every capture of the wildcard the same text as the
    first; a path matched with captures that differ is not among them. *)
Theorem exportsGlob_captures_identical
        (globStr : string) (packedFiles : option (list string))
        (exportsKey : option string) (exports : option json)
        (files : list string) :
  exportsGlob fuel globStr vfs packedFiles exportsKey exports = Ok files ->
  (forall filePath,
     In filePath files ->
     exists matched,
       globMatch (Str.slash globStr) (Str.slash filePath) = Some matched /\
       forall c, In c matched -> Some c = nth_error matched 0) /\
  (forall filePath matched c,
     globMatch (Str.slash globStr) (Str.slash filePath) = Some matched ->
     In c matched -> Some c <> nth_error matched 0 ->
     ~ In filePath files).
Proof.
  intros Hglob.
  assert (Hinc : forall filePath,
             In filePath files ->
             exists matched,
               globMatch (Str.slash globStr) (Str.slash filePath) = Some matched /\
               forall c, In c matched -> Some c = nth_error matched 0).
  { intros filePath Hin. unfold exportsGlob in Hglob.
    destruct (topDirOf globStr) as [topDir|].
    - destruct (Vfs.isPathDir vfs topDir).
      + apply scanDir_accepts with (filePath := filePath) in Hglob; [| exact Hin].
        destruct (@globAccepts_matched _ _ _ _ Hglob) as (matched & Hm & Hsame).
        exists matched. split; [exact Hm |]. apply allGlobSame_spec, Hsame.
      + inversion Hglob; subst. destruct Hin.
    - inversion Hglob; subst. destruct Hin. }
  split; [exact Hinc |].
  intros filePath matched c Hm Hc Hdiff Hin.
  destruct (Hinc filePath Hin) as (matched' & Hm' & Hall).
  rewrite Hm in Hm'. inversion Hm'; subst matched'.
  apply Hdiff, Hall, Hc.
Qed.

(** More fuel does not change the files of a glob, and the scan of a
    tree of directories no deeper than the fuel returns. *)
Lemma concatOutcomes_ext (A B : Type) (f g : A -> outcome (list B))
      (l : list A) (ys : list B) :
  (forall x zs, In x l -> f x = Ok zs -> g x = Ok zs) ->
  concatOutcomes f l = Ok ys -> concatOutcomes g l = Ok ys.
Proof.
  revert ys. induction l as [|x l IH]; intros ys Hfg Hf; simpl in *.
  - exact Hf.
  - destruct (f x) as [zs| |] eqn:Hx; try discriminate.
    rewrite (Hfg x zs (or_introl eq_refl) Hx).
    destruct (concatOutcomes f l) as [ws| |] eqn:Hl; try discriminate.
    rewrite (IH ws (fun y zs' Hy => Hfg y zs' (or_intror Hy)) eq_refl).
    exact Hf.
Qed.

Lemma scanDir_more_fuel (globStr : string)
      (packedFiles : option (list string)) (exportsKey : option string)
      (exports : option json) (n : nat) :
  forall (dirPath : string) (files : list string),
    scanDir globStr vfs packedFiles exportsKey exports n dirPath = Ok files ->
    scanDir globStr vfs packedFiles exportsKey exports (S n) dirPath
    = Ok files.
Proof.
  induction n as [|n IH]; intros dirPath files Hscan; [discriminate |].
  cbn [scanDir] in Hscan. cbn [scanDir].
  eapply concatOutcomes_ext; [| exact Hscan].
  intros item zs _ Hitem. cbv beta in *.
  destruct (isPacked packedFiles (Vfs.pathJoin vfs dirPath item));
    [| exact Hitem].
  destruct (Vfs.isPathDir vfs (Vfs.pathJoin vfs dirPath item));
    [| exact Hitem].
  apply IH in Hitem. exact Hitem.
Qed.

Lemma exportsGlob_more_fuel (globStr : string)
      (packedFiles : option (list string)) (exportsKey : option string)
      (exports : option json) (files : list string) :
  exportsGlob fuel globStr vfs packedFiles exportsKey exports = Ok files ->
  exportsGlob (S fuel) globStr vfs packedFiles exportsKey exports = Ok files.
Proof.
  unfold exportsGlob. destruct (topDirOf globStr) as [topDir|]; [| auto].
  destruct (Vfs.isPathDir vfs topDir); [| auto].
  apply scanDir_more_fuel.
Qed.

Lemma concatOutcomes_returns (A B : Type) (f : A -> outcome (list B))
      (l : list A) :
  (forall x, In x l -> exists zs, f x = Ok zs) ->
  exists ys, concatOutcomes f l = Ok ys.
Proof.
  induction l as [|x l IH]; intros Hf; simpl.
  - eexists. reflexivity.
  - destruct (Hf x (or_introl eq_refl)) as [zs Hzs]. rewrite Hzs.
    destruct (IH (fun y Hy => Hf y (or_intror Hy))) as [ws Hws].
    rewrite Hws. eexists. reflexivity.
Qed.

Lemma scanDir_returns (globStr : string)
      (packedFiles : option (list string)) (exportsKey : option string)
      (exports : option json) (n : nat) :
  forall dirPath : string,
    shallow packedFiles n dirPath = true ->
    exists files,
      scanDir globStr vfs packedFiles exportsKey exports n dirPath = Ok files.
Proof.
  induction n as [|n IH]; intros dirPath Hshallow; [discriminate |].
  cbn [shallow] in Hshallow. cbn [scanDir].
  rewrite forallb_forall in Hshallow.
  apply concatOutcomes_returns. intros item Hitem.
  specialize (Hshallow item Hitem). cbv beta in *.
  destruct (isPacked packedFiles (Vfs.pathJoin vfs dirPath item));
    [| eexists; reflexivity].
  destruct (Vfs.isPathDir vfs (Vfs.pathJoin vfs dirPath item)).
  - apply IH. exact Hshallow.
  - destruct (globAccepts globStr exportsKey exports
                (Vfs.pathJoin vfs dirPath item)); eexists; reflexivity.
Qed.

(** *** What a computation pushes *)

Lemma only_ret (A : Type) (P : Message -> Prop) (a : A) : only P (ret a).
Proof. intros x []. Qed.

Lemma only_lift (A : Type) (P : Message -> Prop) (o : outcome A) :
  only P (lift o).
Proof. intros x []. Qed.

Lemma only_push (P : Message -> Prop) (m : Message) :
  P m -> only P (push m).
Proof. intros Hm x [<- | []]. exact Hm. Qed.

Lemma only_bind (A B : Type) (P : Message -> Prop) (m : M A) (f : A -> M B) :
  only P m -> (forall a, snd m = Ok a -> only P (f a)) -> only P (bind m f).
Proof.
  intros Hm Hf x Hx. rewrite messages_bind in Hx.
  apply in_app_or in Hx as [Hx | Hx]; [auto |].
  destruct (snd m) as [a| |] eqn:Ha; [| destruct Hx | destruct Hx].
  exact (Hf a eq_refl x Hx).
Qed.

Lemma only_when (P : Message -> Prop) (b : bool) (m : M unit) :
  (b = true -> only P m) -> only P (when b m).
Proof. destruct b; simpl; intros H; [auto | apply only_ret]. Qed.

Lemma only_forEach (A : Type) (P : Message -> Prop) (body : A -> M unit)
      (l : list A) :
  (forall x, In x l -> only P (body x)) -> only P (forEach body l).
Proof.
  induction l as [|x l IH]; simpl; intros H.
  - apply only_ret.
  - apply only_bind; [apply H; auto | intros _ _; apply IH; auto].
Qed.

Lemma only_promiseQueue_push (P : Message -> Prop) (task : M unit) :
  only P task -> only P (promiseQueue_push task).
Proof.
  intros H x Hx. rewrite messages_promiseQueue_push in Hx. auto.
Qed.

Lemma only_weaken (A : Type) (P Q : Message -> Prop) (m : M A) :
  (forall x, P x -> Q x) -> only P m -> only Q m.
Proof. intros HPQ H x Hx. auto. Qed.

(** One step through the body of a computation. *)
Ltac only_step :=
  match goal with
  | |- only _ (bind _ _) => apply only_bind; [| intros ? ?]
  | |- only _ (ret _) => apply only_ret
  | |- only _ (lift _) => apply only_lift
  | |- only _ (when _ _) => apply only_when; intros ?
  | |- only _ (forEach _ _) => apply only_forEach; intros ? ?
  | |- only _ (promiseQueue_push _) => apply only_promiseQueue_push
  | |- only _ (if ?b then _ else _) => destruct b eqn:?
  | |- only _ (match ?x with _ => _ end) => destruct x eqn:?
  | |- only _ (let (_, _) := ?x in _) => destruct x eqn:?
  end.

(** The induction on manifests: a property of the items of an array,
    or of the values of an object, passes to the array or object. *)
Lemma json_induction (P : json -> Prop)
      (HNull : P JNull) (HBool : forall b, P (JBool b))
      (HNum : forall n, P (JNum n)) (HStr : forall s, P (JStr s))
      (HArr : forall items, Forall P items -> P (JArr items))
      (HObj : forall members,
          Forall (fun kv => P (snd kv)) members -> P (JObj members)) :
  forall v : json, P v.
Proof.
  fix IH 1. intros [| b | n | s | items | members].
  - exact HNull.
  - apply HBool.
  - apply HNum.
  - apply HStr.
  - apply HArr. induction items as [|item rest IHrest].
    + constructor.
    + constructor; [apply IH | exact IHrest].
  - apply HObj. induction members as [|[key value] rest IHrest].
    + constructor.
    + constructor; [apply IH | exact IHrest].
Qed.

(** Closes a goal [emits codes p m] on a message written out. *)
Ltac emits_now :=
  unfold emits, invalidFormatMessage; simpl;
  repeat match goal with
         | |- context [if ?b then _ else _] => destruct b
         end;
  split; reflexivity.

Ltac only_auto :=
  repeat (only_step; try solve [apply only_push; emits_now]).

Lemma hasCode_incl (codes codes' : list MessageCode) (p : list string) :
  (forall c, hasCode codes c = true -> hasCode codes' c = true) ->
  forall m, emits codes p m -> emits codes' p m.
Proof. intros H m [Hp Hc]. split; auto. Qed.

Lemma readFileTry_emits (path : string) (pkgPath : list string)
      (tryExtensions : list string) :
  only (emits [FILE_DOES_NOT_EXIST; FILE_NOT_PUBLISHED] pkgPath)
       (readFileTry path (Some pkgPath) tryExtensions).
Proof.
  induction tryExtensions as [|ext rest IH]; simpl.
  - only_auto.
  - unfold reportUnpublished, fileNotPublished. only_auto. exact IH.
Qed.

Lemma readFile_emits (path : string) (pkgPath : list string)
      (tryExtensions : list string) :
  only (emits [FILE_DOES_NOT_EXIST; FILE_NOT_PUBLISHED] pkgPath)
       (readFile path (Some pkgPath) tryExtensions).
Proof.
  unfold readFile, reportUnpublished, fileNotPublished. only_auto.
  apply readFileTry_emits; assumption.
Qed.

Lemma hasInvalidJsxExtension_emits (filePath : string)
      (currentPath : list string) (globbedFilePath : option string) :
  only (emits [FILE_INVALID_JSX_EXTENSION] currentPath)
       (hasInvalidJsxExtension filePath currentPath globbedFilePath).
Proof. unfold hasInvalidJsxExtension. only_auto. Qed.

Lemma crawlFile_emits (exportsValue : string) (currentPath : list string)
      (isImports isAfterNodeCondition isGlob : bool) (filePath : string) :
  only (emits fileCodes currentPath)
       (crawlFile exportsValue currentPath isImports isAfterNodeCondition
                  isGlob filePath).
Proof.
  unfold crawlFile.
  only_auto;
    try (eapply only_weaken; [| apply hasInvalidJsxExtension_emits];
         apply hasCode_incl; intros []; simpl; congruence);
    try (eapply only_weaken; [| apply readFile_emits];
         apply hasCode_incl; intros []; simpl; congruence).
Qed.

Lemma crawlLeaf_emits (exportsValue : string) (currentPath : list string)
      (isImports isAfterNodeCondition : bool) :
  only (emits leafCodes currentPath)
       (crawlLeaf exportsValue currentPath isImports isAfterNodeCondition).
Proof.
  unfold crawlLeaf, deprecatedSubpathMapping, browserConflict.
  only_auto.
  eapply only_weaken; [| apply crawlFile_emits].
  apply hasCode_incl; intros []; simpl; congruence.
Qed.

(** *** Where the messages of a crawl lie *)

Lemma inScope_leaf (p : list string) (m : Message) :
  emits leafCodes p m -> inScope p m.
Proof.
  intros [Hp Hc]. exists []. rewrite app_nil_r. split; [exact Hp |].
  intros _. destruct (code m); simpl in *; congruence.
Qed.

Lemma inScope_below (p : list string) (k : string) (m : Message) :
  inScope (p ++ [k]) m -> inScope p m.
Proof.
  intros (suffix & Hp & _). exists (k :: suffix).
  rewrite <- app_assoc in Hp. split; [exact Hp | discriminate].
Qed.

Lemma inScope_key (p : list string) (k : string) (m : Message) :
  path m = p ++ [k] -> inScope p m.
Proof. intros Hp. exists [k]. split; [exact Hp | discriminate]. Qed.

Lemma typesShouldBeFirst_only (members : list (string * json))
      (p : list string) (isImports : bool) :
  only (fun m => path m = p ++ ["types"] /\
                 code m = EXPORTS_TYPES_SHOULD_BE_FIRST)
       (typesShouldBeFirst members p isImports).
Proof.
  unfold typesShouldBeFirst. only_auto.
Qed.

Lemma moduleShouldPrecedeRequire_only (members : list (string * json))
      (p : list string) (isImports : bool) :
  only (fun m => path m = p ++ ["module"] /\ isPrecedence (code m) = true)
       (moduleShouldPrecedeRequire members p isImports).
Proof.
  unfold moduleShouldPrecedeRequire. only_auto.
Qed.

Lemma defaultShouldBeLast_only (members : list (string * json))
      (p : list string) (isImports : bool) :
  only (fun m => path m = p ++ ["default"] /\ isDefaultLast (code m) = true)
       (defaultShouldBeLast members p isImports).
Proof.
  unfold defaultShouldBeLast. only_auto.
Qed.

Lemma importsKeyInvalid_only (key : string) (p : list string) (b : bool) :
  only (fun m => path m = p ++ [key] /\ code m = IMPORTS_KEY_INVALID)
       (importsKeyInvalid key p b).
Proof.
  unfold importsKeyInvalid. only_auto.
Qed.

Lemma forItems_only (P : Message -> Prop)
      (body : nat -> json -> M (list Settled)) (items : list json) :
  (forall key item, In item items -> only P (body key item)) ->
  forall key, only P (forItems body items key).
Proof.
  induction items as [|item rest IH]; intros Hbody key; simpl.
  - apply only_ret.
  - apply only_bind; [apply Hbody; left; reflexivity |].
    intros ps _. apply only_bind.
    + apply IH. intros k i Hi. apply Hbody. right. exact Hi.
    + intros qs _. apply only_ret.
Qed.

Lemma forMembers_only (P : Message -> Prop)
      (body : string -> json -> bool -> M (list Settled))
      (members : list (string * json)) :
  (forall key value after,
      In (key, value) members -> only P (body key value after)) ->
  forall after, only P (forMembers body members after).
Proof.
  induction members as [|[key value] rest IH]; intros Hbody after; simpl.
  - apply only_ret.
  - apply only_bind; [apply Hbody; left; reflexivity |].
    intros ps _. apply only_bind.
    + apply IH. intros k v a Hin. apply Hbody. right. exact Hin.
    + intros qs _. apply only_ret.
Qed.

(** Every message of a crawl lies at the path of the crawl or below
    it, and one at the path itself is none of the checks on keys. *)
Lemma crawl_inScope (exportsValue : json) :
  forall (currentPath : list string) (isImports isAfterNodeCondition : bool),
    only (inScope currentPath)
         (crawlExportsOrImports exportsValue currentPath isImports
                                isAfterNodeCondition).
Proof.
  induction exportsValue as [| b | n | s | items IH | members IH]
    using json_induction; intros p isImports after; simpl.
  - apply only_ret.
  - destruct b; [apply only_lift | apply only_ret].
  - destruct (Z.eqb n 0); [apply only_ret | apply only_lift].
  - apply only_promiseQueue_push.
    eapply only_weaken; [apply inScope_leaf | apply crawlLeaf_emits].
  - apply only_bind.
    + apply only_push. exists []. rewrite app_nil_r. split; [reflexivity |].
      intros _. destruct isImports; reflexivity.
    + intros _ _. apply forItems_only. intros key item Hin.
      rewrite Forall_forall in IH.
      eapply only_weaken; [apply inScope_below | apply IH; exact Hin].
  - apply only_bind; [| intros _ _; apply only_bind;
                        [| intros _ _; apply only_bind; [| intros _ _]]].
    + eapply only_weaken; [| apply typesShouldBeFirst_only].
      intros m [Hp _]. eapply inScope_key; eauto.
    + eapply only_weaken; [| apply moduleShouldPrecedeRequire_only].
      intros m [Hp _]. eapply inScope_key; eauto.
    + eapply only_weaken; [| apply defaultShouldBeLast_only].
      intros m [Hp _]. eapply inScope_key; eauto.
    + apply forMembers_only. intros key value a Hin.
      rewrite Forall_forall in IH. apply only_bind.
      * eapply only_weaken; [| apply importsKeyInvalid_only].
        intros m [Hp _]. eapply inScope_key; eauto.
      * intros _ _. eapply only_weaken; [apply inScope_below |].
        apply (IH (key, value) Hin).
Qed.

(** *** Counting the messages at a path *)

Lemma fired_app (sel : MessageCode -> bool) (p : list string)
      (l1 l2 : list Message) :
  fired sel p (l1 ++ l2) = fired sel p l1 ++ fired sel p l2.
Proof. apply filter_app. Qed.

Lemma fired_none (sel : MessageCode -> bool) (p : list string)
      (l : list Message) :
  (forall m, In m l -> sel (code m) = true -> path m = p -> False) ->
  fired sel p l = [].
Proof.
  induction l as [|m l IH]; intros H; simpl; [reflexivity |].
  destruct (sel (code m)) eqn:Hsel; simpl.
  - unfold pathIs. destruct (list_eq_dec string_dec (path m) p) as [Hp|Hp].
    + exfalso. apply (H m); auto. left. reflexivity.
    + apply IH. intros m' Hin. apply H. right. exact Hin.
  - apply IH. intros m' Hin. apply H. right. exact Hin.
Qed.

Lemma pathIs_true (p : list string) (m : Message) :
  path m = p -> pathIs p m = true.
Proof.
  intros Hp. unfold pathIs.
  destruct (list_eq_dec string_dec (path m) p); congruence.
Qed.

(** A message of the crawl of the value under [k] is not a message of
    a check on keys at a path [p ++ [x]]. *)
Lemma inScope_not_fired (sel : MessageCode -> bool) (p : list string)
      (k x : string) (m : Message) :
  (forall c, sel c = true -> mapLevel c = true) ->
  inScope (p ++ [k]) m -> sel (code m) = true -> path m = p ++ [x] -> False.
Proof.
  intros Hsel (suffix & Hp & Hnil) Hc Hx. rewrite Hx in Hp.
  rewrite <- app_assoc in Hp. apply app_inv_head in Hp.
  destruct suffix as [|y suffix]; [| discriminate].
  specialize (Hsel _ Hc). rewrite (Hnil eq_refl) in Hsel. discriminate.
Qed.

Lemma mem_In (s : string) (l : list string) :
  Str.mem s l = true <-> In s l.
Proof.
  unfold Str.mem. rewrite existsb_exists. split.
  - intros (x & Hin & Heq). apply String.eqb_eq in Heq. congruence.
  - intros Hin. exists s. split; [exact Hin | apply String.eqb_refl].
Qed.

Lemma mem_indexOf (key : string) (ks : list string) :
  Str.mem key ks = match indexOf key ks with Some _ => true | None => false end.
Proof.
  unfold Str.mem. induction ks as [|k ks IH]; simpl; [reflexivity |].
  rewrite (String.eqb_sym key k).
  destruct (String.eqb k key); simpl; [reflexivity |].
  rewrite IH. destruct (indexOf key ks); reflexivity.
Qed.

Lemma typesShouldBeFirst_ends (members : list (string * json))
      (p : list string) (isImports : bool) :
  snd (typesShouldBeFirst members p isImports) = Ok tt.
Proof.
  unfold typesShouldBeFirst, when.
  repeat match goal with
         | |- context [if ?b then _ else _] => destruct b
         end; reflexivity.
Qed.

Lemma moduleShouldPrecedeRequire_ends (members : list (string * json))
      (p : list string) (isImports : bool) :
  snd (moduleShouldPrecedeRequire members p isImports) = Ok tt.
Proof.
  unfold moduleShouldPrecedeRequire, when.
  repeat match goal with
         | |- context [if ?b then _ else _] => destruct b
         end; reflexivity.
Qed.

Lemma defaultShouldBeLast_ends (members : list (string * json))
      (p : list string) (isImports : bool) :
  snd (defaultShouldBeLast members p isImports) = Ok tt.
Proof.
  unfold defaultShouldBeLast, when.
  repeat match goal with
         | |- context [if ?b then _ else _] => destruct b
         end; reflexivity.
Qed.

Lemma messages_crawl_object (members : list (string * json))
      (p : list string) (isImports after : bool) :
  messages (crawlExportsOrImports (JObj members) p isImports after) =
  messages (typesShouldBeFirst members p isImports) ++
  messages (moduleShouldPrecedeRequire members p isImports) ++
  messages (defaultShouldBeLast members p isImports) ++
  messages (crawlMembers p isImports members after).
Proof.
  change (crawlExportsOrImports (JObj members) p isImports after)
    with (typesShouldBeFirst members p isImports ;;
          moduleShouldPrecedeRequire members p isImports ;;
          defaultShouldBeLast members p isImports ;;
          crawlMembers p isImports members after).
  rewrite messages_bind, typesShouldBeFirst_ends.
  rewrite messages_bind, moduleShouldPrecedeRequire_ends.
  rewrite messages_bind, defaultShouldBeLast_ends. reflexivity.
Qed.

(** The loop over the keys pushes, of the checks on keys, only the
    message on an invalid key of [imports]. *)
Lemma fired_crawlMembers (sel : MessageCode -> bool) (p : list string)
      (x : string) (isImports : bool) (members : list (string * json))
      (after : bool) :
  (forall c, sel c = true -> mapLevel c = true) ->
  sel IMPORTS_KEY_INVALID = false ->
  fired sel (p ++ [x]) (messages (crawlMembers p isImports members after))
  = [].
Proof.
  intros Hsel Hkey. apply fired_none.
  assert (H : only (fun m => sel (code m) = true -> path m = p ++ [x] -> False)
                   (crawlMembers p isImports members after)).
  { unfold crawlMembers. apply forMembers_only. intros key value a _.
    apply only_bind.
    - eapply only_weaken; [| apply importsKeyInvalid_only].
      intros m [_ Hc] Hs. rewrite Hc in Hs. congruence.
    - intros _ _. eapply only_weaken; [| apply crawl_inScope].
      intros m Hm. eapply inScope_not_fired; eauto. }
  exact H.
Qed.

Lemma fired_foreign (sel : MessageCode -> bool) (q : list string)
      (A : Type) (P : Message -> Prop) (m : M A) :
  only P m ->
  (forall x, P x -> sel (code x) = true -> path x = q -> False) ->
  fired sel q (messages m) = [].
Proof. intros Hm HP. apply fired_none. intros x Hx. apply HP, Hm, Hx. Qed.

(** *** The order of the keys of a condition map *)

(** C4: of the messages of the crawl of a condition map at [p], those
    on the precedence of [module] at the key [module] are exactly one,
    with the code of the context, when both keys are there and [module]
    comes after [require], and none when [module] comes first or one
    of the two is absent. *)
Theorem module_precedes_require
        (members : list (string * json)) (p : list string)
        (isImports isAfterNodeCondition : bool) :
  let out := messages (crawlExportsOrImports (JObj members) p isImports
                                             isAfterNodeCondition) in
  let atModule := fired isPrecedence (p ++ ["module"]) out in
  (forall i j,
      indexOf "module" (keys members) = Some i ->
      indexOf "require" (keys members) = Some j ->
      j < i ->
      atModule =
      [{| code := if isImports then IMPORTS_MODULE_SHOULD_PRECEDE_REQUIRE
                  else EXPORTS_MODULE_SHOULD_PRECEDE_REQUIRE;
          args := []; path := p ++ ["module"]; type := error |}]) /\
  (forall i j,
      indexOf "module" (keys members) = Some i ->
      indexOf "require" (keys members) = Some j ->
      i < j ->
      atModule = []) /\
  (indexOf "module" (keys members) = None \/
   indexOf "require" (keys members) = None ->
   atModule = []).
Proof.
  cbv zeta. rewrite messages_crawl_object, !fired_app.
  rewrite (@fired_foreign isPrecedence (p ++ ["module"]) _ _ _
             (typesShouldBeFirst_only members p isImports))
    by (intros x [_ Hc] Hs; rewrite Hc in Hs; discriminate).
  rewrite (@fired_foreign isPrecedence (p ++ ["module"]) _ _ _
             (defaultShouldBeLast_only members p isImports))
    by (intros x [_ Hc] Hs; destruct (code x); discriminate).
  rewrite fired_crawlMembers
    by (try reflexivity; intros []; simpl; congruence).
  rewrite app_nil_r. simpl.
  unfold moduleShouldPrecedeRequire. rewrite !mem_indexOf.
  repeat split.
  - intros i j -> -> Hlt. simpl.
    apply Nat.ltb_lt in Hlt. rewrite Hlt. simpl.
    rewrite pathIs_true by reflexivity.
    destruct isImports; reflexivity.
  - intros i j -> -> Hlt. simpl.
    assert (Hge : (j <? i)%nat = false) by (apply Nat.ltb_ge; lia).
    rewrite Hge. reflexivity.
  - intros [-> | ->]; simpl; [reflexivity |].
    destruct (indexOf "module" (keys members)); reflexivity.
Qed.

(** C5: of the messages of the crawl of a condition map at [p], those
    on the place of [default] at the key [default] are exactly one,
    with the code of the context, when [default] is a key and not the
    last one, and none when it is the last key or no key. *)
Theorem default_is_last
        (members : list (string * json)) (p : list string)
        (isImports isAfterNodeCondition : bool) :
  let out := messages (crawlExportsOrImports (JObj members) p isImports
                                             isAfterNodeCondition) in
  let atDefault := fired isDefaultLast (p ++ ["default"]) out in
  (In "default" (keys members) ->
   lastPart (keys members) <> Some "default" ->
   atDefault =
   [{| code := if isImports then IMPORTS_DEFAULT_SHOULD_BE_LAST
               else EXPORTS_DEFAULT_SHOULD_BE_LAST;
       args := []; path := p ++ ["default"]; type := error |}]) /\
  (~ In "default" (keys members) \/
   lastPart (keys members) = Some "default" ->
   atDefault = []).
Proof.
  cbv zeta. rewrite messages_crawl_object, !fired_app.
  rewrite (@fired_foreign isDefaultLast (p ++ ["default"]) _ _ _
             (typesShouldBeFirst_only members p isImports))
    by (intros x [_ Hc] Hs; rewrite Hc in Hs; discriminate).
  rewrite (@fired_foreign isDefaultLast (p ++ ["default"]) _ _ _
             (moduleShouldPrecedeRequire_only members p isImports))
    by (intros x [_ Hc] Hs; destruct (code x); discriminate).
  rewrite fired_crawlMembers
    by (try reflexivity; intros []; simpl; congruence).
  rewrite app_nil_r. simpl.
  unfold defaultShouldBeLast, lastPart. split.
  - intros Hin Hlast. apply mem_In in Hin. rewrite Hin. simpl.
    destruct (optString_eqb
                (nth_error (keys members) (length (keys members) - 1))
                (Some "default")) eqn:Heq.
    + apply optString_eqb_eq in Heq. contradiction.
    + simpl. rewrite pathIs_true by reflexivity. destruct isImports; reflexivity.
  - intros [Hnot | Hlast].
    + destruct (Str.mem "default" (keys members)) eqn:Hmem;
        [apply mem_In in Hmem; contradiction | reflexivity].
    + apply optString_eqb_eq in Hlast. rewrite Hlast.
      rewrite andb_false_r. reflexivity.
Qed.

(** *** The keys of [imports] *)

Lemma forItems_ends (body : nat -> json -> M (list Settled))
      (items : list json) :
  (forall key item, In item items -> exists ps, snd (body key item) = Ok ps) ->
  forall key, exists ps, snd (forItems body items key) = Ok ps.
Proof.
  induction items as [|item rest IH]; intros Hbody key; simpl.
  - eexists. reflexivity.
  - destruct (Hbody key item (or_introl eq_refl)) as [ps Hps].
    destruct (IH (fun k i Hi => Hbody k i (or_intror Hi)) (S key)) as [qs Hqs].
    exists (ps ++ qs). rewrite outcome_bind, Hps, outcome_bind, Hqs.
    reflexivity.
Qed.

Lemma forMembers_ends (body : string -> json -> bool -> M (list Settled))
      (members : list (string * json)) :
  (forall key value after,
      In (key, value) members -> exists ps, snd (body key value after) = Ok ps) ->
  forall after, exists ps, snd (forMembers body members after) = Ok ps.
Proof.
  induction members as [|[key value] rest IH]; intros Hbody after; simpl.
  - eexists. reflexivity.
  - destruct (Hbody key value after (or_introl eq_refl)) as [ps Hps].
    destruct (IH (fun k v a Hi => Hbody k v a (or_intror Hi))
                 (after || String.eqb key "node")) as [qs Hqs].
    exists (ps ++ qs). rewrite outcome_bind, Hps, outcome_bind, Hqs.
    reflexivity.
Qed.

Lemma importsKeyInvalid_ends (key : string) (p : list string) (b : bool) :
  snd (importsKeyInvalid key p b) = Ok tt.
Proof.
  unfold importsKeyInvalid, when.
  destruct (b && negb (Str.startsWith key "#")); reflexivity.
Qed.

(** The crawl of a tree without a truthy number or [true] runs to its
    end. *)
Lemma crawl_ends (exportsValue : json) :
  throwFree exportsValue = true ->
  forall (currentPath : list string) (isImports isAfterNodeCondition : bool),
  exists ps,
    snd (crawlExportsOrImports exportsValue currentPath isImports
                               isAfterNodeCondition) = Ok ps.
Proof.
  induction exportsValue as [| b | n | s | items IH | members IH]
    using json_induction; intros Hfree p isImports after;
    cbn [crawlExportsOrImports throwFree] in *; cbv zeta.
  - eexists. reflexivity.
  - destruct b; [discriminate | eexists; reflexivity].
  - rewrite Hfree. eexists. reflexivity.
  - destruct (promiseQueue_push_settles
                (crawlLeaf s p isImports after)) as [q Hq].
    exists [q]. exact Hq.
  - rewrite outcome_bind. cbn [push snd]. apply forItems_ends.
    intros key item Hin. rewrite Forall_forall in IH.
    rewrite forallb_forall in Hfree. apply IH; auto.
  - rewrite outcome_bind, typesShouldBeFirst_ends.
    rewrite outcome_bind, moduleShouldPrecedeRequire_ends.
    rewrite outcome_bind, defaultShouldBeLast_ends.
    apply forMembers_ends. intros key value a Hin.
    rewrite outcome_bind, importsKeyInvalid_ends.
    rewrite Forall_forall in IH. rewrite forallb_forall in Hfree.
    apply (IH (key, value) Hin). apply (Hfree (key, value) Hin).
Qed.

Lemma pathIs_key (p : list string) (k key : string) (m : Message) :
  path m = p ++ [k] -> pathIs (p ++ [key]) m = String.eqb k key.
Proof.
  intros Hp. unfold pathIs. rewrite Hp.
  destruct (list_eq_dec string_dec (p ++ [k]) (p ++ [key])) as [Heq | Hne].
  - apply app_inv_head in Heq. inversion Heq. symmetry. apply String.eqb_refl.
  - symmetry. apply String.eqb_neq. congruence.
Qed.

Lemma messages_crawlMembers_cons (p : list string) (isImports : bool)
      (k : string) (v : json) (rest : list (string * json))
      (after : bool) (ps : list Settled) :
  snd (crawlExportsOrImports v (p ++ [k]) isImports after) = Ok ps ->
  messages (crawlMembers p isImports ((k, v) :: rest) after) =
  messages (importsKeyInvalid k p
              (isImports && optString_eqb (lastPart p) (Some "imports"))) ++
  messages (crawlExportsOrImports v (p ++ [k]) isImports after) ++
  messages (crawlMembers p isImports rest (after || String.eqb k "node")).
Proof.
  intros Hps. unfold crawlMembers. cbn [forMembers].
  rewrite messages_bind, outcome_bind, importsKeyInvalid_ends, Hps.
  rewrite messages_bind, importsKeyInvalid_ends.
  rewrite messages_bind.
  match goal with
  | |- context [match snd ?m with Ok _ => _ | _ => _ end] =>
      destruct (snd m)
  end; cbn [messages ret fst]; rewrite ?app_nil_r, <- ?app_assoc; reflexivity.
Qed.

Lemma fired_keyInvalid_members (p : list string) (isImports : bool)
      (key : string) (members : list (string * json)) :
  NoDup (keys members) ->
  forallb (fun kv => throwFree (snd kv)) members = true ->
  forall after,
    fired isKeyInvalid (p ++ [key])
          (messages (crawlMembers p isImports members after)) =
    if Str.mem key (keys members) &&
       (isImports && optString_eqb (lastPart p) (Some "imports")) &&
       negb (Str.startsWith key "#")
    then [keyInvalidMessage p key] else [].
Proof.
  induction members as [|[k v] rest IH]; intros Hnodup Hfree after.
  - reflexivity.
  - cbn [keys map fst] in Hnodup. cbn [forallb snd] in Hfree.
    inversion Hnodup as [|? ? Hnotin Hnodup']; subst.
    apply andb_prop in Hfree as [Hv Hrest].
    destruct (crawl_ends v Hv (p ++ [k]) isImports after) as [ps Hps].
    rewrite (@messages_crawlMembers_cons _ _ _ _ rest _ _ Hps), !fired_app.
    rewrite (IH Hnodup' Hrest).
    rewrite (@fired_foreign isKeyInvalid (p ++ [key]) _ _ _
               (crawl_inScope v (p ++ [k]) isImports after))
      by (intros x Hx; eapply inScope_not_fired; [| exact Hx];
          intros []; simpl; congruence).
    cbn [app keys map fst].
    change (Str.mem key (k :: map fst rest))
      with (String.eqb key k || Str.mem key (keys rest)).
    unfold importsKeyInvalid, when.
    destruct (String.eqb key k) eqn:Hk.
    + apply String.eqb_eq in Hk. subst k.
      assert (Hmem : Str.mem key (keys rest) = false).
      { destruct (Str.mem key (keys rest)) eqn:Hm; [| reflexivity].
        apply mem_In in Hm. contradiction. }
      rewrite Hmem. cbn [orb andb].
      destruct (isImports && optString_eqb (lastPart p) (Some "imports"));
        cbn [andb]; [| reflexivity].
      destruct (Str.startsWith key "#"); cbn [negb]; [reflexivity |].
      cbn [messages push fst fired filter code isKeyInvalid andb].
      rewrite pathIs_true by reflexivity. reflexivity.
    + cbn [orb].
      assert (Hhead :
                fired isKeyInvalid (p ++ [key])
                  (messages
                     (if (isImports &&
                          optString_eqb (lastPart p) (Some "imports")) &&
                         negb (Str.startsWith k "#")
                      then push (keyInvalidMessage p k) else ret tt)) = []).
      { destruct ((isImports && optString_eqb (lastPart p) (Some "imports"))
                  && negb (Str.startsWith k "#")); [| reflexivity].
        cbn [messages push fst fired filter code isKeyInvalid andb
             keyInvalidMessage].
        rewrite (@pathIs_key p k key) by reflexivity.
        rewrite String.eqb_sym, Hk. reflexivity. }
      unfold keyInvalidMessage in Hhead at 1. rewrite Hhead. reflexivity.
Qed.

(** C6, as amended: under [imports], in the map whose path ends in
    [imports], with its keys distinct and no value on which the crawl
    throws, every key that does not start with [#] has exactly one
    message on an invalid key, at the key, proposing [#] before the key
    with its leading slashes taken off, and a key that starts with [#]
    has none.  In a map whose path does not end in [imports], as the
    condition maps further down, no key has such a message. *)
Theorem imports_keys_flagged
        (members : list (string * json)) (p : list string)
        (isAfterNodeCondition : bool) (key : string) :
  let out := messages (crawlExportsOrImports (JObj members) p true
                                             isAfterNodeCondition) in
  (lastPart p = Some "imports" ->
   NoDup (keys members) ->
   throwFree (JObj members) = true ->
   In key (keys members) ->
   fired isKeyInvalid (p ++ [key]) out =
   if Str.startsWith key "#" then [] else [keyInvalidMessage p key]) /\
  (lastPart p <> Some "imports" ->
   fired isKeyInvalid (p ++ [key]) out = []).
Proof.
  cbv zeta. rewrite messages_crawl_object, !fired_app.
  rewrite (@fired_foreign isKeyInvalid (p ++ [key]) _ _ _
             (typesShouldBeFirst_only members p true))
    by (intros x [_ Hc] Hs; rewrite Hc in Hs; discriminate).
  rewrite (@fired_foreign isKeyInvalid (p ++ [key]) _ _ _
             (moduleShouldPrecedeRequire_only members p true))
    by (intros x [_ Hc] Hs; destruct (code x); discriminate).
  rewrite (@fired_foreign isKeyInvalid (p ++ [key]) _ _ _
             (defaultShouldBeLast_only members p true))
    by (intros x [_ Hc] Hs; destruct (code x); discriminate).
  cbn [app]. split.
  - intros Hlast Hnodup Hfree Hin. cbn [throwFree] in Hfree.
    rewrite (@fired_keyInvalid_members p true key members Hnodup Hfree).
    apply mem_In in Hin. rewrite Hin, Hlast. cbn [andb optString_eqb].
    rewrite String.eqb_refl. cbn [andb].
    destruct (Str.startsWith key "#"); reflexivity.
  - intros Hlast. apply fired_none.
    assert (H : only (fun m => isKeyInvalid (code m) = true ->
                               path m = p ++ [key] -> False)
                     (crawlMembers p true members isAfterNodeCondition)).
    { unfold crawlMembers. apply forMembers_only. intros k v a _.
      apply only_bind.
      - destruct (optString_eqb (lastPart p) (Some "imports")) eqn:Heq;
          [apply optString_eqb_eq in Heq; contradiction |].
        cbn [andb]. unfold importsKeyInvalid. cbn [andb when].
        apply only_ret.
      - intros _ _. eapply only_weaken; [| apply crawl_inScope].
        intros m Hm. eapply inScope_not_fired; eauto.
        intros []; simpl; congruence. }
    exact H.
Qed.

(** *** Values that end in a slash *)

Lemma includes_star (s : string) : Str.includes (s +++ "*") "*" = true.
Proof.
  induction s as [|a s IH]; [reflexivity |].
  cbn [String.append Str.includes]. rewrite IH. apply orb_true_r.
Qed.

Lemma crawlLeaf_from (exportsValue : string) (currentPath : list string)
      (isImports isAfterNodeCondition : bool) :
  (isImports = true -> Str.startsWith exportsValue "." = true) ->
  crawlLeaf exportsValue currentPath isImports isAfterNodeCondition =
  bind (deprecatedSubpathMapping exportsValue currentPath isImports)
       (fun v => crawlLeafFrom v currentPath isImports isAfterNodeCondition).
Proof.
  intros Hdot. unfold crawlLeaf.
  destruct isImports; [rewrite (Hdot eq_refl) |]; reflexivity.
Qed.

Lemma browserConflict_emits (exportsValue : string)
      (currentPath : list string) (isImports : bool) :
  only (emits [EXPORTS_VALUE_CONFLICTS_WITH_BROWSER] currentPath)
       (browserConflict exportsValue currentPath isImports).
Proof. unfold browserConflict. only_auto. Qed.

Lemma filter_none (sel : MessageCode -> bool) (A : Type)
      (P : Message -> Prop) (m : M A) :
  only P m -> (forall x, P x -> sel (code x) = false) ->
  filter (fun x => sel (code x)) (messages m) = [].
Proof.
  intros Hm HP. unfold only in Hm.
  induction (messages m) as [|x l IH]; [reflexivity |].
  cbn [filter]. rewrite (HP x) by (apply Hm; left; reflexivity).
  apply IH. intros y Hy. apply Hm. right. exact Hy.
Qed.

Lemma emits_not (sel : MessageCode -> bool) (codes : list MessageCode)
      (p : list string) :
  forallb (fun c => negb (sel c)) codes = true ->
  forall x, emits codes p x -> sel (code x) = false.
Proof.
  intros Hall x [_ Hc]. unfold hasCode in Hc.
  apply existsb_exists in Hc as (c & Hin & Heq).
  unfold MessageCode_eqb in Heq.
  destruct (MessageCode_eq_dec (code x) c) as [-> |]; [| discriminate].
  rewrite forallb_forall in Hall. specialize (Hall c Hin).
  destruct (sel c); [discriminate | reflexivity].
Qed.

Lemma append_star_differs (part : string) : part +++ "*" <> part.
Proof.
  induction part as [|a part IH]; cbn [String.append]; intros H.
  - discriminate H.
  - injection H as H. exact (IH H).
Qed.

Lemma expectPathOf_differs (currentPath : list string) :
  underFolderKey currentPath = true ->
  expectPathOf currentPath <> currentPath.
Proof.
  unfold underFolderKey, expectPathOf.
  induction currentPath as [|part rest IH]; [discriminate |].
  cbn [existsb map]. intros H Heq. injection Heq as Hpart Hrest.
  destruct (Str.endsWith part "/").
  - exact (append_star_differs Hpart).
  - exact (IH H Hrest).
Qed.

(** C8, as amended: a string that ends in a slash.  One of [imports]
    that does not start with a dot brings no message.  For one of
    [exports], and for one of [imports] that starts with a dot, at a
    path with a part that ends in a slash, where the manifest can be
    read along the expected path, which is the path with a wildcard
    added to each such part and so another path: the task pushes the
    message on the deprecated mapping exactly once, a suggestion where
    what the manifest holds at the expected path is truthy and an error
    where it is not; what is matched against the files is the value
    with the wildcard added; and where that matches no file the message
    on no matched files is pushed as well, exactly once, and not
    otherwise. *)
Theorem trailing_slash_mapping
        (exportsValue : string) (currentPath : list string)
        (isImports isAfterNodeCondition : bool) :
  Str.endsWith exportsValue "/" = true ->
  let out := messages (crawlLeaf exportsValue currentPath isImports
                                 isAfterNodeCondition) in
  (isImports = true -> Str.startsWith exportsValue "." = false ->
   out = []) /\
  ((isImports = true -> Str.startsWith exportsValue "." = true) ->
   underFolderKey currentPath = true ->
   forall found,
     getPkgPathValue realm rootPkg (expectPathOf currentPath) = Ok found ->
     expectPathOf currentPath <> currentPath /\
     filter (fun m => isDeprecatedMapping (code m)) out =
     [deprecatedMappingMessage exportsValue currentPath isImports
        (if truthyValue found then suggestion else error)] /\
     (forall files,
         getExportsFiles (exportsValue +++ "*") (nth_error currentPath 1)
                         exports = Ok files ->
         filter (fun m => isNoMatchedFiles (code m)) out =
         if Nat.eqb (length files) 0
         then [noMatchedFilesMessage currentPath isImports] else [])).
Proof.
  intros Hends. cbv zeta. split.
  { intros -> Hdot. unfold crawlLeaf. rewrite Hdot. reflexivity. }
  intros Hdot Hunder found Hfound.
  split; [exact (@expectPathOf_differs currentPath Hunder) |].
  rewrite (crawlLeaf_from _ _ _ Hdot), messages_bind.
  assert (Hdep : deprecatedSubpathMapping exportsValue currentPath isImports
                 = ([deprecatedMappingMessage exportsValue currentPath
                       isImports
                       (if truthyValue found then suggestion else error)],
                    Ok (exportsValue +++ "*"))).
  { unfold deprecatedSubpathMapping. rewrite Hends, Hfound. reflexivity. }
  rewrite Hdep. cbn [messages fst snd app].
  set (rest := crawlLeafFrom (exportsValue +++ "*") currentPath isImports
                             isAfterNodeCondition).
  assert (Hrest : only (emits ([IMPORTS_VALUE_INVALID; EXPORTS_VALUE_INVALID;
                                IMPORTS_GLOB_NO_MATCHED_FILES;
                                EXPORTS_GLOB_NO_MATCHED_FILES;
                                EXPORTS_VALUE_CONFLICTS_WITH_BROWSER]
                                 ++ fileCodes) currentPath) rest).
  { unfold rest, crawlLeafFrom. only_auto.
    - eapply only_weaken; [| apply browserConflict_emits].
      apply hasCode_incl; intros []; simpl; congruence.
    - eapply only_weaken; [| apply crawlFile_emits].
      apply hasCode_incl; intros []; simpl; congruence. }
  split.
  - cbn [filter code deprecatedMappingMessage].
    replace (isDeprecatedMapping
               (if isImports then IMPORTS_GLOB_NO_DEPRECATED_SUBPATH_MAPPING
                else EXPORTS_GLOB_NO_DEPRECATED_SUBPATH_MAPPING))
      with true by (destruct isImports; reflexivity).
    f_equal. fold (messages rest).
    apply (filter_none isDeprecatedMapping Hrest).
    apply emits_not. reflexivity.
  - intros files Hfiles. cbn [filter code deprecatedMappingMessage].
    replace (isNoMatchedFiles
               (if isImports then IMPORTS_GLOB_NO_DEPRECATED_SUBPATH_MAPPING
                else EXPORTS_GLOB_NO_DEPRECATED_SUBPATH_MAPPING))
      with false by (destruct isImports; reflexivity).
    unfold rest, crawlLeafFrom. cbv zeta.
    rewrite messages_bind.
    assert (Hwhen : forall b m,
               snd (when b (push m)) = Ok tt) by (intros [] ?; reflexivity).
    rewrite Hwhen, filter_app.
    rewrite (@filter_none isNoMatchedFiles _
               (emits [IMPORTS_VALUE_INVALID; EXPORTS_VALUE_INVALID] currentPath))
      by (try (apply emits_not; reflexivity); only_auto).
    cbn [app]. rewrite Hfiles, includes_star.
    unfold lift at 1. unfold bind at 1. cbn [fst snd app andb messages].
    destruct (Nat.eqb (length files) 0).
    + cbn [push fst filter code noMatchedFilesMessage].
      replace (isNoMatchedFiles
                 (if isImports then IMPORTS_GLOB_NO_MATCHED_FILES
                  else EXPORTS_GLOB_NO_MATCHED_FILES))
        with true by (destruct isImports; reflexivity).
      reflexivity.
    + apply (@filter_none isNoMatchedFiles _
               (emits ([EXPORTS_VALUE_CONFLICTS_WITH_BROWSER] ++ fileCodes)
                      currentPath)).
      * only_auto.
        -- eapply only_weaken; [| apply browserConflict_emits].
           apply hasCode_incl; intros []; simpl; congruence.
        -- eapply only_weaken; [| apply crawlFile_emits].
           apply hasCode_incl; intros []; simpl; congruence.
      * apply emits_not. reflexivity.
Qed.

(** *** Texts that are of both formats or of none *)

Lemma format_differs_undecided (actualFormat expectFormat : CodeFormat) :
  actualFormat = mixed \/ actualFormat = unknown ->
  format_differs actualFormat expectFormat = false.
Proof.
  intros [-> | ->]; unfold format_differs; destruct expectFormat; reflexivity.
Qed.

Lemma readFile_no_mismatch (path : string) (pkgPath : list string)
      (tryExtensions : list string) :
  only (fun m => isFormatMismatch (code m) = false)
       (readFile path (Some pkgPath) tryExtensions).
Proof.
  eapply only_weaken; [| apply readFile_emits].
  apply emits_not. reflexivity.
Qed.

Lemma hasInvalidJsxExtension_no_mismatch (filePath : string)
      (currentPath : list string) (globbedFilePath : option string) :
  only (fun m => isFormatMismatch (code m) = false)
       (hasInvalidJsxExtension filePath currentPath globbedFilePath).
Proof.
  eapply only_weaken; [| apply hasInvalidJsxExtension_emits].
  apply emits_not. reflexivity.
Qed.

(** Closes the branch that would push the message on a mismatch: the
    text read is the text known to be of both formats or of none. *)
Ltac no_mismatch Hread :=
  repeat (only_step;
          try solve [apply only_push; reflexivity];
          try solve [apply only_push; cbn [code];
                     match goal with
                     | |- context [if ?b then _ else _] => destruct b
                     end; reflexivity];
          try solve [apply readFile_no_mismatch];
          try solve [apply hasInvalidJsxExtension_no_mismatch]);
  repeat match goal with
         | H : snd (readFile _ _ _) = Ok _ |- _ =>
             rewrite Hread in H; inversion H; clear H
         end;
  subst;
  repeat match goal with
         | H : Some _ = Some _ |- _ => inversion H; clear H
         end;
  subst;
  match goal with
  | H : format_differs (getCodeFormat ?c) ?e = true,
    Hf : getCodeFormat ?c = mixed \/ getCodeFormat ?c = unknown |- _ =>
      rewrite (@format_differs_undecided _ e Hf) in H; discriminate
  end.

(** C3: in each of the checks that compare formats, on [main], on
    [bin], on a file of [exports] or [imports] and on a file of a
    package without [exports], a text that [getCodeFormat] finds to be
    [mixed] or [unknown] brings no message on a format mismatch. *)
Theorem undecided_format_no_mismatch (check : FormatCheck)
        (content : string) :
  snd (contentRead check) = Ok (Some content) ->
  getCodeFormat content = mixed \/ getCodeFormat content = unknown ->
  forall m, In m (messages (runCheck check)) ->
            isFormatMismatch (code m) = false.
Proof.
  intros Hread Hformat.
  change (only (fun m => isFormatMismatch (code m) = false) (runCheck check)).
  destruct check as [main mainPkgPath | binValue currentPath
                    | exportsValue currentPath isImports after isGlob filePath
                    | filePath]; cbn [runCheck contentRead] in *.
  - unfold mainTask, ensureTypeOfField. no_mismatch Hread.
  - unfold binTask. no_mismatch Hread.
  - unfold crawlFile. no_mismatch Hread.
  - unfold scanFile. no_mismatch Hread.
Qed.

(** *** Declaration files *)

Lemma substring_split (s : string) :
  forall k, k <= String.length s ->
    s = String.substring 0 k s +++ String.substring k (String.length s - k) s.
Proof.
  induction s as [|a s IH]; intros k Hk.
  - destruct k; reflexivity.
  - destruct k as [|k].
    + cbn [String.substring String.append String.length Nat.sub].
      destruct (String.length s) eqn:Hlen.
      * destruct s; [reflexivity | discriminate].
      * f_equal. rewrite <- Hlen.
        clear. induction s as [|b s IHs]; [reflexivity |].
        cbn [String.length String.substring]. f_equal.
        destruct s; [reflexivity | exact IHs].
    + cbn [String.length] in Hk.
      cbn [String.substring String.append String.length Nat.sub].
      f_equal. apply IH. lia.
Qed.

Lemma endsWith_split (s suffix : string) :
  Str.endsWith s suffix = true -> exists pre, s = pre +++ suffix.
Proof.
  unfold Str.endsWith. intros H. apply andb_prop in H as [Hle Heq].
  apply Nat.leb_le in Hle. apply String.eqb_eq in Heq.
  remember (String.length suffix) as n eqn:Hn.
  exists (String.substring 0 (String.length s - n) s).
  pose proof (@substring_split s (String.length s - n)) as Hsplit.
  replace (String.length s - (String.length s - n)) with n in Hsplit by lia.
  rewrite Heq in Hsplit. apply Hsplit. lia.
Qed.

Lemma searchFrom_suffix (R : Type) (r : regex) (suffix : string)
      (k : string -> option ascii -> string -> captures -> option R) :
  (forall before prev, exists x, run r prev suffix [] (k before) = Some x) ->
  forall pre before prev,
  exists x, searchFrom r before prev (pre +++ suffix) k = Some x.
Proof.
  intros Hhere pre. induction pre as [|a pre IH]; intros before prev.
  - destruct (Hhere before prev) as [x Hx]. exists x.
    cbn [String.append]. destruct suffix; cbn [searchFrom]; rewrite Hx;
      reflexivity.
  - cbn [String.append searchFrom].
    destruct (run r prev (String a (pre +++ suffix)) [] (k before)) as [x|].
    + exists x. reflexivity.
    + apply IH.
Qed.

(** A path with the extension of a declaration file of one format is
    a declaration file. *)
Lemma isDtsFile_explicit (filePath : string) :
  Str.endsWith filePath ".d.mts" = true \/
  Str.endsWith filePath ".d.cts" = true ->
  isDtsFile filePath = true.
Proof.
  intros [H | H]; apply endsWith_split in H as [pre ->];
    unfold isDtsFile, test;
    match goal with
    | |- context [searchFrom ?r ?b ?p (pre +++ ?suffix) ?k] =>
        destruct (@searchFrom_suffix unit r suffix k
                    (fun before prev => ex_intro _ tt eq_refl) pre b p)
          as [x Hx]; rewrite Hx; reflexivity
    end.
Qed.

(** The format of a declaration file with the extension of one
    format is read off the extension, whatever the fuel. *)
Lemma getDtsFilePathFormat_explicit (filePath : string) :
  (Str.endsWith filePath ".d.mts" = true ->
   getDtsFilePathFormat JSON_parse fuel filePath vfs = Ok ESM) /\
  (Str.endsWith filePath ".d.mts" = false ->
   Str.endsWith filePath ".d.cts" = true ->
   getDtsFilePathFormat JSON_parse fuel filePath vfs = Ok CJS).
Proof.
  unfold getDtsFilePathFormat. split.
  - intros ->. reflexivity.
  - intros -> ->. reflexivity.
Qed.

Lemma bind_lift_Ok (A B : Type) (a : A) (f : A -> M B) :
  bind (lift (Ok a)) f = f a.
Proof. unfold bind, lift. cbn. destruct (f a). reflexivity. Qed.

Lemma messages_then_ret (A : Type) (m : M unit) (a : A) :
  messages (m ;; ret a) = messages m.
Proof.
  rewrite messages_bind. destruct (snd m); cbn; apply app_nil_r.
Qed.

Lemma CodeFormat_eqb_eq (a b : CodeFormat) :
  CodeFormat_eqb a b = true <-> a = b.
Proof. destruct a, b; simpl; split; congruence. Qed.

(** *** The declaration check, round by round *)

Lemma firstMet_snoc (root : option json) (exportsPath : list string)
      (earlier : list (option string * string))
      (round : option string * string) (k : string) :
  firstMet root exportsPath (earlier ++ [round]) k =
  firstMet root exportsPath earlier k &&
  negb match roundKey root exportsPath round with
       | Some k' => String.eqb k' k
       | None => false
       end.
Proof.
  unfold firstMet. rewrite existsb_app. cbn [existsb].
  rewrite orb_false_r, negb_orb. reflexivity.
Qed.

(** The sibling format of the code is the expected format of the
    round. *)
Lemma siblingFormat_expected (root : option json)
      (exportsPath : list string) (env : option string) (format : string)
      (fromSibling : option CodeFormat) :
  format = "import" \/ format = "require" ->
  siblingFormat (dualPublishIn root exportsPath env)
    (if String.eqb format "import"
     then resolveExportsOf root (withEnv ["import"] env) exportsPath
     else resolveExportsOf root (withEnv ["require"] env) exportsPath)
  = Ok fromSibling ->
  expectedDtsFormat root exportsPath (env, format)
  = Ok match fromSibling with
       | Some f => f
       | None => formatOfCondition format
       end.
Proof.
  intros Hformat. unfold siblingFormat, expectedDtsFormat. cbn [fst snd].
  replace (if String.eqb format "import"
           then resolveExportsOf root (withEnv ["import"] env) exportsPath
           else resolveExportsOf root (withEnv ["require"] env) exportsPath)
    with (resolveExportsOf root (withEnv [format] env) exportsPath)
    by (destruct Hformat as [-> | ->]; reflexivity).
  destruct (resolveExportsOf root (withEnv [format] env) exportsPath)
    as [js|].
  - destruct (negb (dualPublishIn root exportsPath env)); cbn [andb].
    + destruct (Vfs.isPathExist vfs (Vfs.pathJoin vfs pkgDir (value js))).
      * destruct (getFilePathFormat JSON_parse fuel
                    (Vfs.pathJoin vfs pkgDir (value js)) vfs);
          intros H; try discriminate H.
        injection H as <-. reflexivity.
      * intros H. injection H as <-. reflexivity.
    + intros H. injection H as <-. reflexivity.
  - destruct (negb (dualPublishIn root exportsPath env));
      intros H; injection H as <-; reflexivity.
Qed.

Lemma checkAdjacentDts_other (typesFilePath : json) (typesResult : Resolved)
      (format : string) :
  only (fun m => isTypesInvalidFormat (code m) = false)
       (checkAdjacentDts typesFilePath typesResult format).
Proof.
  unfold checkAdjacentDts.
  repeat (only_step; try solve [apply only_push; reflexivity]).
Qed.

Lemma filter_only_none (A : Type) (sel : MessageCode -> bool) (m : M A) :
  only (fun x => sel (code x) = false) m ->
  filter (fun x => sel (code x)) (messages m) = [].
Proof.
  intros H. apply (@filter_none sel A _ m H). auto.
Qed.

(** One round of the check, where it returns: what it pushes on the
    format of a declaration file is the message of the round, and the
    keys seen are those of the rounds so far. *)
Lemma checkTypesOne_round (typesFilePath : json) (root : option json)
      (exportsPath : list string) (env : option string) (format : string)
      (seen seen' : list string)
      (earlier : list (option string * string)) :
  format = "import" \/ format = "require" ->
  (forall k, Str.mem k seen = negb (firstMet root exportsPath earlier k)) ->
  snd (checkTypesOne typesFilePath root exportsPath env
         (resolveExportsOf root (withEnv ["import"] env) exportsPath)
         (resolveExportsOf root (withEnv ["require"] env) exportsPath)
         (dualPublishIn root exportsPath env) format seen) = Ok seen' ->
  filter (fun m => isTypesInvalidFormat (code m))
         (messages
            (checkTypesOne typesFilePath root exportsPath env
               (resolveExportsOf root (withEnv ["import"] env) exportsPath)
               (resolveExportsOf root (withEnv ["require"] env) exportsPath)
               (dualPublishIn root exportsPath env) format seen))
  = roundMessages root exportsPath earlier (env, format) /\
  (forall k,
      Str.mem k seen' =
      negb (firstMet root exportsPath (earlier ++ [(env, format)]) k)).
Proof.
  intros Hformat Hseen.
  assert (Hsnoc : forall k,
             negb (firstMet root exportsPath (earlier ++ [(env, format)]) k)
             = Str.mem k seen ||
               match roundKey root exportsPath (env, format) with
               | Some k' => String.eqb k' k
               | None => false
               end).
  { intros k. rewrite firstMet_snoc, negb_andb, negb_involutive, Hseen.
    reflexivity. }
  unfold checkTypesOne, roundMessages.
  unfold roundKey in *. unfold typesResultIn in *. cbn [fst snd] in *.
  destruct (resolveExportsOf root (withEnv ["types"; format] env) exportsPath)
    as [r|]; cbn [option_map] in *.
  2:{ intros H. injection H as <-. split; [reflexivity |].
      intros k. rewrite Hsnoc, orb_false_r. reflexivity. }
  cbv zeta.
  fold (seenKeyOf r (dualPublishIn root exportsPath env) format).
  set (key := seenKeyOf r (dualPublishIn root exportsPath env) format) in *.
  rewrite <- (negb_involutive (firstMet root exportsPath earlier key)),
    <- Hseen.
  destruct (Str.mem key seen) eqn:Hmem; cbn [negb andb].
  { intros H. injection H as <-. split; [reflexivity |].
    intros k. rewrite Hsnoc.
    destruct (String.eqb key k) eqn:E; [| symmetry; apply orb_false_r].
    apply String.eqb_eq in E. subst k. rewrite Hmem. reflexivity. }
  assert (Hkeys : forall k,
             Str.mem k (key :: seen) =
             negb (firstMet root exportsPath (earlier ++ [(env, format)]) k)).
  { intros k. rewrite Hsnoc. unfold Str.mem. cbn [existsb].
    rewrite (String.eqb_sym k key). apply orb_comm. }
  destruct (Vfs.isPathExist vfs (Vfs.pathJoin vfs pkgDir (value r)));
    cbn [negb].
  2:{ intros H. injection H as <-. split; [reflexivity | exact Hkeys]. }
  rewrite outcome_bind, messages_bind.
  destruct (isDtsFile (value r)).
  - unfold checkDtsFormat. cbv zeta.
    destruct (getDtsFilePathFormat JSON_parse fuel
                (Vfs.pathJoin vfs pkgDir (value r)) vfs)
      as [actual | |]; try (cbn; discriminate).
    rewrite !bind_lift_Ok.
    destruct (siblingFormat (dualPublishIn root exportsPath env)
                (if String.eqb format "import"
                 then resolveExportsOf root (withEnv ["import"] env) exportsPath
                 else resolveExportsOf root (withEnv ["require"] env) exportsPath))
      as [fromSibling | |] eqn:Hsibling; try (cbn; discriminate).
    rewrite (@siblingFormat_expected root exportsPath env format fromSibling
               Hformat Hsibling).
    rewrite !bind_lift_Ok.
    fold (dtsFormatMessage r format actual
            match fromSibling with
            | Some f => f
            | None => formatOfCondition format
            end).
    destruct (CodeFormat_eqb actual
                match fromSibling with
                | Some f => f
                | None => formatOfCondition format
                end); cbn [negb when].
    + intros H. injection H as <-. split; [reflexivity | exact Hkeys].
    + intros H. injection H as <-. split; [reflexivity | exact Hkeys].
  - pose proof (@filter_only_none unit isTypesInvalidFormat _
                  (checkAdjacentDts_other typesFilePath r format)) as Hnone.
    destruct (snd (checkAdjacentDts typesFilePath r format));
      try discriminate.
    cbn [ret snd messages fst]. rewrite app_nil_r, Hnone.
    intros H. injection H as <-. split; [reflexivity | exact Hkeys].
Qed.

(** The two rounds of an environment. *)
Lemma checkTypesEnv_rounds (typesFilePath : json) (root : option json)
      (exportsPath : list string) (env : option string)
      (seen seen' : list string)
      (earlier : list (option string * string)) :
  (forall k, Str.mem k seen = negb (firstMet root exportsPath earlier k)) ->
  snd (checkTypesEnv typesFilePath root exportsPath env seen) = Ok seen' ->
  filter (fun m => isTypesInvalidFormat (code m))
         (messages (checkTypesEnv typesFilePath root exportsPath env seen))
  = roundsMessages root exportsPath earlier
                   [(env, "import"); (env, "require")] /\
  (forall k,
      Str.mem k seen' =
      negb (firstMet root exportsPath
              (earlier ++ [(env, "import"); (env, "require")]) k)).
Proof.
  intros Hseen. unfold checkTypesEnv. cbv zeta.
  fold (dualPublishIn root exportsPath env).
  rewrite outcome_bind, messages_bind, filter_app.
  destruct (snd (checkTypesOne typesFilePath root exportsPath env
                   (resolveExportsOf root (withEnv ["import"] env) exportsPath)
                   (resolveExportsOf root (withEnv ["require"] env) exportsPath)
                   (dualPublishIn root exportsPath env) "import" seen))
    as [seen1 | |] eqn:H1; try discriminate.
  intros H2.
  destruct (@checkTypesOne_round typesFilePath root exportsPath env "import"
              seen seen1 earlier (or_introl eq_refl) Hseen H1)
    as [Hm1 Hk1].
  destruct (@checkTypesOne_round typesFilePath root exportsPath env "require"
              seen1 seen' (earlier ++ [(env, "import")])
              (or_intror eq_refl) Hk1 H2)
    as [Hm2 Hk2].
  rewrite Hm1, Hm2. cbn [roundsMessages]. rewrite app_nil_r.
  split; [reflexivity |].
  intros k. rewrite Hk2, <- app_assoc. reflexivity.
Qed.

(** One round returns where the walks it asks for end. *)
Lemma checkTypesOne_returns (typesFile : string) (root : option json)
      (exportsPath : list string) (env : option string) (format : string)
      (seen : list string) :
  format = "import" \/ format = "require" ->
  (exists f, getDtsFilePathFormat JSON_parse fuel
               (Vfs.pathJoin vfs pkgDir typesFile) vfs = Ok f) ->
  (forall r, typesResultIn root exportsPath (env, format) = Some r ->
             exists f, getDtsFilePathFormat JSON_parse fuel
                         (Vfs.pathJoin vfs pkgDir (value r)) vfs = Ok f) ->
  (forall js, resolveExportsOf root (withEnv [format] env) exportsPath
              = Some js ->
              exists f, getFilePathFormat JSON_parse fuel
                          (Vfs.pathJoin vfs pkgDir (value js)) vfs = Ok f) ->
  exists seen',
    snd (checkTypesOne (JStr typesFile) root exportsPath env
           (resolveExportsOf root (withEnv ["import"] env) exportsPath)
           (resolveExportsOf root (withEnv ["require"] env) exportsPath)
           (dualPublishIn root exportsPath env) format seen) = Ok seen'.
Proof.
  intros Hformat [ft Hft] Hdts Hjs. unfold checkTypesOne.
  unfold typesResultIn in Hdts. cbn [fst snd] in Hdts.
  destruct (resolveExportsOf root (withEnv ["types"; format] env) exportsPath)
    as [r|]; [| eexists; reflexivity].
  cbv zeta.
  match goal with
  | |- context [if Str.mem ?k seen then _ else _] => destruct (Str.mem k seen)
  end; [eexists; reflexivity |].
  destruct (Vfs.isPathExist vfs (Vfs.pathJoin vfs pkgDir (value r)));
    cbn [negb]; [| eexists; reflexivity].
  rewrite outcome_bind.
  assert (Hbody : snd (if isDtsFile (value r)
                       then checkDtsFormat r format
                              (dualPublishIn root exportsPath env)
                              (resolveExportsOf root (withEnv ["import"] env)
                                                exportsPath)
                              (resolveExportsOf root (withEnv ["require"] env)
                                                exportsPath)
                       else checkAdjacentDts (JStr typesFile) r format)
                  = Ok tt).
  { destruct (isDtsFile (value r)).
    - unfold checkDtsFormat. cbv zeta.
      destruct (Hdts r eq_refl) as [fa Hfa]. rewrite Hfa, bind_lift_Ok.
      replace (if String.eqb format "import"
               then resolveExportsOf root (withEnv ["import"] env) exportsPath
               else resolveExportsOf root (withEnv ["require"] env) exportsPath)
        with (resolveExportsOf root (withEnv [format] env) exportsPath)
        by (destruct Hformat as [-> | ->]; reflexivity).
      assert (Hsib : exists fromSibling,
                 siblingFormat (dualPublishIn root exportsPath env)
                   (resolveExportsOf root (withEnv [format] env) exportsPath)
                 = Ok fromSibling).
      { unfold siblingFormat.
        destruct (negb (dualPublishIn root exportsPath env));
          [| eexists; reflexivity].
        destruct (resolveExportsOf root (withEnv [format] env) exportsPath)
          as [js|]; [| eexists; reflexivity].
        destruct (Vfs.isPathExist vfs (Vfs.pathJoin vfs pkgDir (value js)));
          [| eexists; reflexivity].
        destruct (Hjs js eq_refl) as [fj Hfj]. rewrite Hfj.
        eexists; reflexivity. }
      destruct Hsib as [fromSibling Hsib]. rewrite Hsib, bind_lift_Ok.
      match goal with
      | |- snd (when ?b _) = _ => destruct b; reflexivity
      end.
    - unfold checkAdjacentDts.
      match goal with
      | |- snd (if ?b then _ else _) = _ => destruct b; [reflexivity |]
      end.
      rewrite Hft, bind_lift_Ok. reflexivity. }
  eexists.
  match goal with
  | |- match ?x with _ => _ end = _ =>
      replace x with (@Ok unit tt) by (symmetry; exact Hbody)
  end.
  reflexivity.
Qed.

Lemma roundsEnd_round (root : option json) (exportsPath : list string)
      (typesFile : string) (round : option string * string) :
  roundsEnd root exportsPath typesFile = true ->
  In round typesRounds ->
  (snd round = "import" \/ snd round = "require") /\
  (exists f, getDtsFilePathFormat JSON_parse fuel
               (Vfs.pathJoin vfs pkgDir typesFile) vfs = Ok f) /\
  (forall r, typesResultIn root exportsPath round = Some r ->
             exists f, getDtsFilePathFormat JSON_parse fuel
                         (Vfs.pathJoin vfs pkgDir (value r)) vfs = Ok f) /\
  (forall js, resolveExportsOf root (withEnv [snd round] (fst round))
                               exportsPath = Some js ->
              exists f, getFilePathFormat JSON_parse fuel
                          (Vfs.pathJoin vfs pkgDir (value js)) vfs = Ok f).
Proof.
  unfold roundsEnd. cbv zeta. intros H Hin.
  apply andb_prop in H as [Hfile Hall].
  rewrite forallb_forall in Hall. specialize (Hall round Hin).
  apply andb_prop in Hall as [Hdts Hjs].
  split; [| split; [| split]].
  - cbn in Hin. decompose [or] Hin; subst; cbn; auto; contradiction.
  - destruct (getDtsFilePathFormat JSON_parse fuel
                (Vfs.pathJoin vfs pkgDir typesFile) vfs);
      [eexists; reflexivity | discriminate | discriminate].
  - intros r Hr. rewrite Hr in Hdts.
    destruct (getDtsFilePathFormat JSON_parse fuel
                (Vfs.pathJoin vfs pkgDir (value r)) vfs);
      [eexists; reflexivity | discriminate | discriminate].
  - intros js Hr. rewrite Hr in Hjs.
    destruct (getFilePathFormat JSON_parse fuel
                (Vfs.pathJoin vfs pkgDir (value js)) vfs);
      [eexists; reflexivity | discriminate | discriminate].
Qed.

Lemma checkTypesEnv_returns (typesFile : string) (root : option json)
      (exportsPath : list string) (env : option string)
      (seen : list string) :
  roundsEnd root exportsPath typesFile = true ->
  In (env, "import") typesRounds -> In (env, "require") typesRounds ->
  exists seen',
    snd (checkTypesEnv (JStr typesFile) root exportsPath env seen) = Ok seen'.
Proof.
  intros Hend Hi Hr. unfold checkTypesEnv. cbv zeta.
  fold (dualPublishIn root exportsPath env).
  rewrite outcome_bind.
  destruct (@roundsEnd_round root exportsPath typesFile (env, "import")
              Hend Hi) as (Hf & Hfile & Hdts & Hjs).
  destruct (@checkTypesOne_returns typesFile root exportsPath env "import"
              seen Hf Hfile Hdts Hjs) as [seen1 H1].
  rewrite H1.
  destruct (@roundsEnd_round root exportsPath typesFile (env, "require")
              Hend Hr) as (Hf' & _ & Hdts' & Hjs').
  exact (@checkTypesOne_returns typesFile root exportsPath env "require"
           seen1 Hf' Hfile Hdts' Hjs').
Qed.

Lemma readFile_unlisted_silent (path : string) (tryExtensions : list string) :
  messages (readFile path None tryExtensions) = [].
Proof.
  unfold readFile.
  destruct (Vfs.readFile vfs path); [reflexivity |].
  induction tryExtensions as [|ext rest IH]; cbn [readFileTry];
    [reflexivity |].
  match goal with
  | |- context [Vfs.readFile vfs ?p] => destruct (Vfs.readFile vfs p)
  end; [reflexivity | exact IH].
Qed.

Lemma findTypesFilePath_silent (exportsKey : option string) :
  messages (findTypesFilePath exportsKey) = [].
Proof.
  unfold findTypesFilePath.
  destruct (match exportsKey with
            | Some key => String.eqb key "."
            | None => true
            end); [| reflexivity].
  cbv zeta.
  destruct (truthy (fst (getPublishedField rootPkg "types")));
    [reflexivity |].
  destruct (truthy (fst (getPublishedField rootPkg "typings")));
    [reflexivity |].
  rewrite messages_bind, readFile_unlisted_silent.
  destruct (snd (readFile (Vfs.pathJoin vfs pkgDir "./index.d.ts") None []))
    as [content | |]; [| reflexivity | reflexivity].
  destruct (truthy (option_map JStr content)); reflexivity.
Qed.

(** C9, as amended: the task of the declaration check.  In a package
    that ships no types, with no truthy [types] or [typings] and no
    [index.d.ts], the task pushes no message on the format of a
    declaration file.  In a package that ships types, where the task
    runs to its end, the messages on the format of a declaration file
    are those of the eight rounds, the environments none, [node],
    [browser] and [worker] each with [import] and then [require], in
    that order: a round has a message exactly where the conditions
    [types], the format and the environment resolve to a declaration
    file that no earlier round resolved to, that exists, and whose
    format differs from the expected one; the message carries both
    formats, the extension proposed and the path proposed.  The
    expected format is that of the path of the code file resolved for
    the format and the environment, where the package does not publish
    two formats and that file exists, and otherwise that of the
    condition: ESM for [import] and CJS for [require]. *)
Theorem declaration_format_checked (exportsRootKey : option string) :
  let task := checkTypesExportedTask exportsRootKey in
  let out := filter (fun m => isTypesInvalidFormat (code m)) (messages task) in
  (forall typesFilePath,
      snd (findTypesFilePath exportsRootKey) = Ok typesFilePath ->
      truthy typesFilePath = false ->
      out = []) /\
  (forall typesFilePath root,
      snd (findTypesFilePath exportsRootKey) = Ok typesFilePath ->
      truthy typesFilePath = true ->
      exportsRootOf exportsRootKey = Ok root ->
      snd task = Ok tt ->
      out = roundsMessages root (exportsPathOf exportsRootKey) [] typesRounds) /\
  (forall typesFile root,
      snd (findTypesFilePath exportsRootKey) = Ok (Some (JStr typesFile)) ->
      exportsRootOf exportsRootKey = Ok root ->
      roundsEnd root (exportsPathOf exportsRootKey) typesFile = true ->
      snd task = Ok tt) /\
  formatOfCondition "import" = ESM /\ formatOfCondition "require" = CJS.
Proof.
  cbv zeta. split; [| split; [| split; [| split; reflexivity]]].
  - intros typesFilePath Hfind Hfalsy. unfold checkTypesExportedTask.
    cbv zeta. rewrite messages_bind, findTypesFilePath_silent, Hfind. cbn [app].
    rewrite messages_bind.
    match goal with
    | |- context [messages ?m ++ match snd ?m with _ => _ end] =>
        assert (Hroot : messages m = [])
          by (destruct exportsRootKey as [key|]; [| reflexivity];
              destruct (truthy (option_map JStr (Some key))); reflexivity);
        rewrite Hroot; destruct (snd m) as [root | |]; try reflexivity
    end.
    destruct typesFilePath as [typesFile|]; [| reflexivity].
    rewrite Hfalsy. reflexivity.
  - intros typesFilePath root Hfind Htruthy Hroot.
    unfold checkTypesExportedTask. cbv zeta.
    rewrite outcome_bind, messages_bind, findTypesFilePath_silent, Hfind.
    cbn [app].
    assert (Hread :
              match exportsRootKey with
              | Some key =>
                  if truthy (option_map JStr exportsRootKey)
                  then lift (getProp exports key) else ret exports
              | None => ret exports
              end = ([], Ok root)).
    { unfold exportsRootOf in Hroot. destruct exportsRootKey as [key|].
      - cbn [option_map truthy].
        destruct (String.eqb key EmptyString); cbn [negb].
        + injection Hroot as <-. reflexivity.
        + unfold lift. rewrite Hroot. reflexivity.
      - injection Hroot as <-. reflexivity. }
    rewrite Hread. rewrite outcome_bind, messages_bind. cbn [fst snd app messages].
    destruct typesFilePath as [typesFile|]; [| discriminate Htruthy].
    rewrite Htruthy.
    replace (match exportsRootKey with
             | Some key =>
                 if truthy (option_map JStr exportsRootKey)
                 then exportsPkgPath ++ [key] else exportsPkgPath
             | None => exportsPkgPath
             end) with (exportsPathOf exportsRootKey)
      by (unfold exportsPathOf; destruct exportsRootKey as [key|];
          [cbn [option_map truthy]; destruct (String.eqb key EmptyString);
           reflexivity | reflexivity]).
    set (path := exportsPathOf exportsRootKey).
    rewrite !outcome_bind, !messages_bind, !filter_app.
    destruct (snd (checkTypesEnv typesFile root path None []))
      as [s0 | |] eqn:H0; try discriminate.
    destruct (@checkTypesEnv_rounds typesFile root path None [] s0 []
                (fun k => eq_refl) H0) as [Hm0 Hk0].
    rewrite !outcome_bind, !messages_bind, !filter_app.
    destruct (snd (checkTypesEnv typesFile root path (Some "node") s0))
      as [s1 | |] eqn:H1; try discriminate.
    destruct (@checkTypesEnv_rounds typesFile root path (Some "node") s0 s1 _
                Hk0 H1) as [Hm1 Hk1].
    rewrite !outcome_bind, !messages_bind, !filter_app.
    destruct (snd (checkTypesEnv typesFile root path (Some "browser") s1))
      as [s2 | |] eqn:H2; try discriminate.
    destruct (@checkTypesEnv_rounds typesFile root path (Some "browser") s1 s2 _
                Hk1 H2) as [Hm2 Hk2].
    rewrite !outcome_bind, !messages_bind, !filter_app.
    destruct (snd (checkTypesEnv typesFile root path (Some "worker") s2))
      as [s3 | |] eqn:H3; try discriminate.
    destruct (@checkTypesEnv_rounds typesFile root path (Some "worker") s2 s3 _
                Hk2 H3) as [Hm3 _].
    intros _. rewrite Hm0, Hm1, Hm2, Hm3.
    cbn [roundsMessages typesRounds flat_map app ret messages fst filter].
    rewrite !app_nil_r, <- !app_assoc. reflexivity.
  - intros typesFile root Hfind Hroot Hend.
    unfold checkTypesExportedTask. cbv zeta.
    rewrite outcome_bind, Hfind.
    assert (Hread :
              match exportsRootKey with
              | Some key =>
                  if truthy (option_map JStr exportsRootKey)
                  then lift (getProp exports key) else ret exports
              | None => ret exports
              end = ([], Ok root)).
    { unfold exportsRootOf in Hroot. destruct exportsRootKey as [key|].
      - cbn [option_map truthy].
        destruct (String.eqb key EmptyString); cbn [negb].
        + injection Hroot as <-. reflexivity.
        + unfold lift. rewrite Hroot. reflexivity.
      - injection Hroot as <-. reflexivity. }
    rewrite Hread, outcome_bind. cbn [snd].
    destruct (truthy (Some (JStr typesFile))); [| reflexivity].
    replace (match exportsRootKey with
             | Some key =>
                 if truthy (option_map JStr exportsRootKey)
                 then exportsPkgPath ++ [key] else exportsPkgPath
             | None => exportsPkgPath
             end) with (exportsPathOf exportsRootKey)
      by (unfold exportsPathOf; destruct exportsRootKey as [key|];
          [cbn [option_map truthy]; destruct (String.eqb key EmptyString);
           reflexivity | reflexivity]).
    set (path := exportsPathOf exportsRootKey) in *.
    assert (Hin : forall env,
               In env [None; Some "node"; Some "browser"; Some "worker"] ->
               In (env, "import") typesRounds /\
               In (env, "require") typesRounds).
    { intros env Henv. cbn in Henv.
      decompose [or] Henv; subst; cbn; auto 10; contradiction. }
    rewrite outcome_bind.
    destruct (@checkTypesEnv_returns typesFile root path None [] Hend
                (proj1 (Hin None ltac:(cbn; auto)))
                (proj2 (Hin None ltac:(cbn; auto)))) as [s0 H0].
    rewrite H0, outcome_bind.
    destruct (@checkTypesEnv_returns typesFile root path (Some "node") s0 Hend
                (proj1 (Hin (Some "node") ltac:(cbn; auto)))
                (proj2 (Hin (Some "node") ltac:(cbn; auto)))) as [s1 H1].
    rewrite H1, outcome_bind.
    destruct (@checkTypesEnv_returns typesFile root path (Some "browser") s1
                Hend
                (proj1 (Hin (Some "browser") ltac:(cbn; auto)))
                (proj2 (Hin (Some "browser") ltac:(cbn; auto)))) as [s2 H2].
    rewrite H2, outcome_bind.
    destruct (@checkTypesEnv_returns typesFile root path (Some "worker") s2
                Hend
                (proj1 (Hin (Some "worker") ltac:(cbn; auto)))
                (proj2 (Hin (Some "worker") ltac:(cbn; auto)))) as [s3 H3].
    rewrite H3. reflexivity.
Qed.


(* =================================================================== *)
(** ** Further properties of [shared/utils.js] *)
(* =================================================================== *)

(** *** Texts and their endings *)

Lemma append_nil_r (s : string) : s +++ "" = s.
Proof. induction s as [|a s IH]; [reflexivity | cbn; now rewrite IH]. Qed.

Lemma length_append (a b : string) :
  String.length (a +++ b) = String.length a + String.length b.
Proof. induction a as [|x a IH]; [reflexivity | cbn; now rewrite IH]. Qed.

Lemma substring_all (s : string) : String.substring 0 (String.length s) s = s.
Proof. induction s as [|a s IH]; [reflexivity | cbn; now rewrite IH]. Qed.

Lemma substring_append_drop (a b : string) (n : nat) :
  String.substring (String.length a) n (a +++ b) = String.substring 0 n b.
Proof. induction a as [|x a IH]; [reflexivity | cbn; exact IH]. Qed.

Lemma substring_append_take (a b : string) :
  String.substring 0 (String.length a) (a +++ b) = a.
Proof. induction a as [|x a IH]; [destruct b; reflexivity | cbn; now rewrite IH]. Qed.

Lemma endsWith_append (a suffix : string) :
  Str.endsWith (a +++ suffix) suffix = true.
Proof.
  unfold Str.endsWith. rewrite length_append.
  replace (String.length a + String.length suffix - String.length suffix)
    with (String.length a) by lia.
  rewrite substring_append_drop, substring_all, String.eqb_refl.
  rewrite andb_true_r. apply Nat.leb_le. lia.
Qed.

(** Two ways to cut one text: one of the cuts lies within the other's
    second part. *)
Lemma append_eq_cases (a x b y : string) :
  a +++ x = b +++ y ->
  (exists t, a = b +++ t /\ y = t +++ x) \/
  (exists t, b = a +++ t /\ x = t +++ y).
Proof.
  revert b. induction a as [|c a IH]; intros b H.
  - right. exists b. split; [reflexivity | exact H].
  - destruct b as [|d b].
    + left. exists (String c a). split; [reflexivity | symmetry; exact H].
    + cbn in H. injection H as -> H. destruct (IH b H) as [[t [-> ->]] | [t [-> ->]]].
      * left. exists t. split; reflexivity.
      * right. exists t. split; reflexivity.
Qed.

Lemma endsWith_append_cases (a x suffix : string) :
  Str.endsWith (a +++ x) suffix = true ->
  Str.endsWith x suffix = true \/ Str.endsWith suffix x = true.
Proof.
  intros H. apply endsWith_split in H as [pre H].
  destruct (@append_eq_cases _ _ _ _ H) as [[t [_ ->]] | [t [_ ->]]].
  - right. apply endsWith_append.
  - left. apply endsWith_append.
Qed.

(** *** What a match says about the subject *)

Lemma matchLit_Some (l : string) :
  forall prev s prev' s',
    matchLit l prev s = Some (prev', s') -> s = l +++ s'.
Proof.
  induction l as [|a l IH]; intros prev s prev' s' H.
  - cbn in H. injection H as _ ->. reflexivity.
  - cbn [matchLit] in H. destruct s as [|b s]; [discriminate |].
    destruct (Ascii.eqb_spec a b) as [-> | _]; [| discriminate].
    cbn [String.append]. f_equal. exact (IH _ _ _ _ H).
Qed.

Lemma oneOf_In (cs : string) (a : ascii) :
  oneOf cs a = true -> In a (list_ascii_of_string cs).
Proof.
  induction cs as [|c cs IH]; cbn [oneOf list_ascii_of_string]; [discriminate |].
  intros H. apply orb_prop in H as [H | H].
  - left. symmetry. now apply Ascii.eqb_eq.
  - right. exact (IH H).
Qed.

(** What a successful run of a pattern says about the subject, read off
    the unfolded matcher. *)
Ltac run_inv :=
  repeat match goal with
  | H : None = Some _ |- _ => discriminate H
  | H : Some _ = Some _ |- _ => injection H as H
  | H : match matchLit ?l ?p ?s with Some _ => _ | None => _ end = Some _ |- _ =>
      let E := fresh "E" in
      destruct (matchLit l p s) as [[? ?]|] eqn:E;
      [apply matchLit_Some in E | discriminate H]
  | H : match ?s with EmptyString => _ | String _ _ => _ end = Some _ |- _ =>
      is_var s; destruct s
  | H : (if ?b then _ else _) = Some _ |- _ =>
      let E := fresh "E" in destruct b eqn:E
  | H : match ?o with Some _ => _ | None => _ end = Some _ |- _ =>
      let E := fresh "E" in destruct o eqn:E
  end.


(** The pattern of [getAdjacentDtsPath] matches an extension of
    [jsExtensions] and nothing else. *)
Lemma adj_inv (R : Type) (prev : option ascii) (s : string) (c : captures)
      (k : cont R) (x : R) :
  run ADJACENT_JS_RE prev s c k = Some x ->
  In s jsExtensions.
Proof.
  clear pkgDir JSON_parse.
  intros H. unfold ADJACENT_JS_RE in H. cbn [run seqs Opt] in H.
  run_inv.
  all: subst.
  all: try match goal with H : oneOf _ _ = true |- _ => apply oneOf_In in H; cbn in H;
     destruct H as [<- | [<- | []]] end.
  all: cbn; tauto.
Qed.

Lemma searchFrom_inv (R : Type) (r : regex) (k : string -> cont R) (x : R) :
  forall s before prev,
    searchFrom r before prev s k = Some x ->
    exists pre suffix prev',
      s = pre +++ suffix /\ run r prev' suffix [] (k (before +++ pre)) = Some x.
Proof.
  induction s as [|a s IH]; intros before prev H; cbn [searchFrom] in H.
  - destruct (run r prev "" [] (k before)) eqn:E; [| discriminate].
    injection H as ->. exists "", "", prev. rewrite !append_nil_r. split; [reflexivity | exact E].
  - destruct (run r prev (String a s) [] (k before)) eqn:E.
    + injection H as ->. exists "", (String a s), prev. rewrite !append_nil_r.
      split; [reflexivity | exact E].
    + apply IH in H as (pre & suffix & prev' & -> & H).
      exists (String a pre), suffix, prev'. split; [reflexivity |].
      rewrite append_assoc in H. exact H.
Qed.

(** Where the pattern matches at the last of the positions only, the
    search ends there. *)
Lemma searchFrom_last (R : Type) (r : regex) (suffix : string)
      (k : string -> cont R) (f : string -> R) :
  (forall u prev before, u <> "" ->
     run r prev (u +++ suffix) [] (k before) = None) ->
  (forall before prev, run r prev suffix [] (k before) = Some (f before)) ->
  forall pre before prev,
    searchFrom r before prev (pre +++ suffix) k = Some (f (before +++ pre)).
Proof.
  intros Hnone Hhere pre. induction pre as [|a pre IH]; intros before prev.
  - cbn [String.append]. rewrite append_nil_r.
    destruct suffix; cbn [searchFrom]; rewrite Hhere; reflexivity.
  - pose proof (Hnone (String a pre) prev before) as Hn.
    cbn [String.append] in Hn |- *. cbn [searchFrom].
    rewrite Hn by discriminate.
    rewrite IH, append_assoc. reflexivity.
Qed.

Lemma searchFrom_nowhere (R : Type) (r : regex) (k : string -> cont R) :
  forall s before prev,
    (forall pre suffix prev' before', s = pre +++ suffix ->
       run r prev' suffix [] (k before') = None) ->
    searchFrom r before prev s k = None.
Proof.
  intros s before prev H.
  destruct (searchFrom r before prev s k) eqn:E; [| reflexivity].
  apply searchFrom_inv in E as (pre & suffix & prev' & Hs & E).
  rewrite (@H _ _ _ _ Hs) in E. discriminate.
Qed.

Lemma append_same_tail (u x : string) : u +++ x = x -> u = "".
Proof.
  intros H. apply (f_equal String.length) in H. rewrite length_append in H.
  destruct u; [reflexivity | cbn in H; lia].
Qed.

Lemma adj_none (R : Type) (ext : string) (u : string) (prev : option ascii)
      (c : captures) (k : cont R) :
  In ext jsExtensions ->
  u <> "" -> run ADJACENT_JS_RE prev (u +++ ext) c k = None.
Proof.
  intros Hext Hu. destruct (run ADJACENT_JS_RE prev (u +++ ext) c k) eqn:E; [| reflexivity].
  exfalso. apply adj_inv in E.
  assert (Hends : Str.endsWith (u +++ ext) ext = true) by apply endsWith_append.
  unfold jsExtensions in Hext, E. cbn [In] in Hext, E.
  repeat destruct Hext as [<- | Hext]; try contradiction;
    repeat destruct E as [E | E]; try contradiction;
    try (rewrite <- E in Hends; discriminate Hends);
    apply Hu; apply (@append_same_tail _ _ (eq_sym E)).
Qed.

Lemma getAdjacentDtsPath_spec (base : string) :
  getAdjacentDtsPath (base +++ ".js") = base +++ ".d.ts" /\
  getAdjacentDtsPath (base +++ ".mjs") = base +++ ".d.mts" /\
  getAdjacentDtsPath (base +++ ".cjs") = base +++ ".d.cts" /\
  getAdjacentDtsPath (base +++ ".jsx") = base +++ ".d.ts" /\
  getAdjacentDtsPath (base +++ ".mjsx") = base +++ ".d.mts" /\
  getAdjacentDtsPath (base +++ ".cjsx") = base +++ ".d.cts".
Proof.
  clear pkgDir JSON_parse.
  unfold getAdjacentDtsPath, firstMatch. fold ADJACENT_JS_RE.
  repeat split.
  all: match goal with
       | |- context [searchFrom ADJACENT_JS_RE "" None (_ +++ ?ext) ?k] =>
           rewrite (@searchFrom_last _ ADJACENT_JS_RE ext k
                      (fun before => (before, _, ""))
                      (fun u prev before Hu =>
                         @adj_none _ ext u prev [] (k before)
                                   ltac:(cbn; tauto) Hu)
                      (fun before prev => eq_refl))
       end.
  all: cbn. all: rewrite ?append_nil_r; reflexivity.
Qed.

Lemma getAdjacentDtsPath_other (filePath : string) :
  existsb (Str.endsWith filePath)
          jsExtensions = false ->
  getAdjacentDtsPath filePath = filePath.
Proof.
  intros Hnone. unfold getAdjacentDtsPath, firstMatch. fold ADJACENT_JS_RE.
  rewrite searchFrom_nowhere; [reflexivity |].
  intros pre suffix prev' before' ->.
  match goal with |- ?lhs = None => destruct lhs eqn:E; [| reflexivity] end.
  exfalso. apply adj_inv in E.
  assert (Hin : existsb (Str.endsWith (pre +++ suffix))
                  jsExtensions = true).
  { apply existsb_exists. exists suffix. split; [exact E | apply endsWith_append]. }
  rewrite Hin in Hnone. discriminate.
Qed.

(** *** Declaration files *)

(** X1: [getAdjacentDtsPath] on a path that ends in [.js], [.mjs],
    [.cjs] or [.jsx], as the comment in the source lists them, and in
    [.mjsx] or [.cjsx]: the extension becomes the one of the
    declaration file, and what stands before it is kept; any other
    path comes back as it is. *)
Theorem adjacent_dts_path_table :
  (forall base,
      getAdjacentDtsPath (base +++ ".js") = base +++ ".d.ts" /\
      getAdjacentDtsPath (base +++ ".mjs") = base +++ ".d.mts" /\
      getAdjacentDtsPath (base +++ ".cjs") = base +++ ".d.cts" /\
      getAdjacentDtsPath (base +++ ".jsx") = base +++ ".d.ts" /\
      getAdjacentDtsPath (base +++ ".mjsx") = base +++ ".d.mts" /\
      getAdjacentDtsPath (base +++ ".cjsx") = base +++ ".d.cts") /\
  (forall filePath,
      existsb (Str.endsWith filePath) jsExtensions = false ->
      getAdjacentDtsPath filePath = filePath).
Proof.
  split; [exact getAdjacentDtsPath_spec | exact getAdjacentDtsPath_other].
Qed.

Lemma dts_inv (R : Type) (prev : option ascii) (s : string) (c : captures)
      (k : cont R) (x : R) :
  run DTS_RE prev s c k = Some x -> In s [".d.ts"; ".d.mts"; ".d.cts"].
Proof.
  clear pkgDir JSON_parse.
  intros H. unfold DTS_RE in H. cbn [run seqs Opt] in H.
  run_inv.
  all: subst.
  all: try match goal with H : oneOf _ _ = true |- _ => apply oneOf_In in H; cbn in H;
     destruct H as [<- | [<- | []]] end.
  all: cbn; tauto.
Qed.

Lemma test_suffix (r : regex) (suffix : string) :
  (forall prev, exists x, run r prev suffix [] (fun _ _ _ => Some tt) = Some x) ->
  forall pre, test r (pre +++ suffix) = true.
Proof.
  intros H pre. unfold test.
  destruct (@searchFrom_suffix unit r suffix (fun _ _ _ _ => Some tt)
              (fun _ prev => H prev) pre "" None) as [x ->].
  reflexivity.
Qed.

Lemma isDtsFile_suffixes (filePath : string) :
  isDtsFile filePath =
  Str.endsWith filePath ".d.ts" || Str.endsWith filePath ".d.mts" ||
  Str.endsWith filePath ".d.cts".
Proof.
  destruct (isDtsFile filePath) eqn:H; symmetry.
  - unfold isDtsFile, test in H.
    destruct (searchFrom DTS_RE "" None filePath (fun _ _ _ _ => Some tt))
      eqn:E; [| discriminate].
    apply searchFrom_inv in E as (pre & suffix & prev' & -> & E).
    apply dts_inv in E. cbn [In] in E.
    destruct E as [<- | [<- | [<- | []]]]; rewrite endsWith_append;
      rewrite ?orb_true_r; reflexivity.
  - apply not_true_is_false. intros Hends. rewrite <- not_true_iff_false in H.
    apply H. clear H.
    apply orb_prop in Hends as [Hends | Hends];
      [apply orb_prop in Hends as [Hends | Hends] |];
      apply endsWith_split in Hends as [pre ->];
      apply test_suffix; intros prev; exists tt; reflexivity.
Qed.

(** X2: [isDtsFile] accepts exactly the paths that end in [.d.ts],
    [.d.mts] or [.d.cts]. *)
Theorem isDtsFile_by_suffix (filePath : string) :
  isDtsFile filePath = true <->
  exists stem ext,
    In ext [".d.ts"; ".d.mts"; ".d.cts"] /\ filePath = stem +++ ext.
Proof.
  clear pkgDir JSON_parse.
  rewrite isDtsFile_suffixes. split.
  - intros H.
    apply orb_prop in H as [H | H]; [apply orb_prop in H as [H | H] |];
      apply endsWith_split in H as [stem ->]; exists stem;
      eexists; (split; [| reflexivity]); cbn; tauto.
  - intros (stem & ext & Hext & ->). cbn [In] in Hext.
    destruct Hext as [<- | [<- | [<- | []]]]; rewrite endsWith_append;
      rewrite ?orb_true_r; reflexivity.
Qed.

Lemma not_endsWith_append (a x suffix : string) :
  Str.endsWith x suffix = false -> Str.endsWith suffix x = false ->
  Str.endsWith (a +++ x) suffix = false.
Proof.
  intros H1 H2. apply not_true_is_false. intros H.
  apply endsWith_append_cases in H as [H | H]; congruence.
Qed.

(** X3: a declaration file, also one of the extensions [.d.mts] and
    [.d.cts], which [isFilePathRawTs] does not name, is no raw
    TypeScript file. *)
Theorem declaration_file_is_not_raw_ts (filePath : string) :
  isDtsFile filePath = true -> isFilePathRawTs filePath = false.
Proof.
  rewrite isDtsFile_suffixes. unfold isFilePathRawTs. intros H.
  apply orb_prop in H as [H | H]; [apply orb_prop in H as [H | H] |].
  - rewrite H. rewrite andb_false_r. cbn [orb].
    apply endsWith_split in H as [pre ->]. now apply not_endsWith_append.
  - apply endsWith_split in H as [pre ->].
    rewrite !not_endsWith_append by reflexivity. reflexivity.
  - apply endsWith_split in H as [pre ->].
    rewrite !not_endsWith_append by reflexivity. reflexivity.
Qed.

Lemma prefix_refl (s : string) : String.prefix s s = true.
Proof. induction s as [|a s IH]; cbn; [reflexivity |]. destruct (ascii_dec a a); [exact IH | contradiction]. Qed.

Lemma prefix_length (p s : string) :
  String.prefix p s = true -> String.length p <= String.length s.
Proof.
  revert s. induction p as [|a p IH]; intros s H; cbn; [lia |].
  destruct s as [|b s]; [discriminate |]. cbn in H.
  destruct (ascii_dec a b); [| discriminate]. apply IH in H. cbn. lia.
Qed.

(** *** [replaceLast] *)

Lemma lastIndexOf_short (s p : string) :
  String.length s < String.length p -> Str.lastIndexOf s p = None.
Proof.
  induction s as [|a s IH]; intros H; cbn [Str.lastIndexOf].
  - destruct (String.prefix p "") eqn:E; [| reflexivity].
    apply prefix_length in E. lia.
  - cbn [String.length] in H. rewrite IH by lia.
    destruct (String.prefix p (String a s)) eqn:E; [| reflexivity].
    apply prefix_length in E. cbn [String.length] in E. lia.
Qed.

Lemma lastIndexOf_append (a p : string) :
  Str.lastIndexOf (a +++ p) p = Some (String.length a).
Proof.
  induction a as [|c a IH]; cbn [String.append String.length].
  - destruct p as [|d p]; [reflexivity |].
    cbn [Str.lastIndexOf]. rewrite lastIndexOf_short by (cbn; lia).
    rewrite prefix_refl. reflexivity.
  - cbn [Str.lastIndexOf]. rewrite IH. reflexivity.
Qed.

Lemma lastIndexOf_none (s p : string) :
  Str.includes s p = false -> Str.lastIndexOf s p = None.
Proof.
  induction s as [|a s IH]; cbn [Str.includes Str.lastIndexOf]; intros H;
    apply orb_false_elim in H as [Hp Hs]; [rewrite Hp; reflexivity |].
  rewrite (IH Hs), Hp. reflexivity.
Qed.

Lemma substring_zero (s : string) (n : nat) : String.substring n 0 s = "".
Proof.
  revert n. induction s as [|a s IH]; intros [|n]; cbn; try reflexivity. apply IH.
Qed.

Lemma replaceLast_suffix (a search replace : string) :
  replaceLast (a +++ search) search replace = a +++ replace.
Proof.
  unfold replaceLast, Str.dropStart. rewrite lastIndexOf_append, length_append.
  rewrite substring_append_take, Nat.sub_diag, substring_zero, append_nil_r.
  reflexivity.
Qed.

(** X4: [replaceLast] on a text that ends in [search] replaces that
    ending, whatever stands before it and also where [search] is
    empty; on a text that does not hold [search] it changes nothing. *)
Theorem replaceLast_replaces_ending (str search replace : string) :
  replaceLast (str +++ search) search replace = str +++ replace /\
  (Str.includes str search = false ->
   replaceLast str search replace = str).
Proof.
  split; [apply replaceLast_suffix |].
  intros H. unfold replaceLast. rewrite lastIndexOf_none by exact H.
  reflexivity.
Qed.

(** *** Absolute and relative paths *)

Lemma includes_prefix (s p : string) :
  String.prefix p s = true -> Str.includes s p = true.
Proof. intros H. destruct s; cbn [Str.includes]; rewrite H; reflexivity. Qed.

Lemma includes_second (a b : ascii) (rest : string) :
  Str.includes (String a (String b rest)) (String b "") = true.
Proof.
  cbn [Str.includes].
  assert (H : String.prefix (String b "") (String b rest) = true).
  { cbn. destruct (ascii_dec b b); [destruct rest; reflexivity | contradiction]. }
  rewrite H. apply orb_true_r.
Qed.

Lemma colon_case (b : ascii) (x : bool) :
  match b with ":"%char => x | _ => false end = true ->
  b = ":"%char /\ x = true.
Proof.
  destruct b as [[] [] [] [] [] [] [] []]; try discriminate.
  intros ->. split; reflexivity.
Qed.

(** X5: a path [isAbsolutePath] accepts, one that starts with a slash
    or with a letter and a colon, is none [isRelativePath] accepts:
    [getExportsFiles] joins it to no directory. *)
Theorem absolute_path_is_not_relative (filePath : string) :
  isAbsolutePath filePath = true -> isRelativePath filePath = false.
Proof.
  destruct filePath as [|a [|b rest]].
  - discriminate.
  - destruct a as [[] [] [] [] [] [] [] []]; cbn; congruence.
  - unfold isAbsolutePath, isRelativePath.
    cbn [Str.first String.get].
    destruct a as [[] [] [] [] [] [] [] []];
      try reflexivity;
      intros H; apply colon_case in H as [-> H];
      try discriminate H;
      rewrite includes_second; reflexivity.
Qed.

(* =================================================================== *)
(** ** The pattern of a glob with one wildcard *)
(* =================================================================== *)

Lemma split_plain (s : string) :
  Str.includes s "*" = false -> Str.split "*" s = [s].
Proof.
  induction s as [|a s IH]; [reflexivity |].
  cbn [Str.includes Str.split]. intros H.
  apply orb_false_elim in H as [Hp Hs].
  destruct (Ascii.eqb_spec a "*") as [-> | _].
  - cbn in Hp. destruct s; discriminate.
  - rewrite (IH Hs). reflexivity.
Qed.

Lemma split_one_star (pre suf : string) :
  Str.includes pre "*" = false -> Str.includes suf "*" = false ->
  Str.split "*" (pre +++ "*" +++ suf) = [pre; suf].
Proof.
  intros Hpre Hsuf. induction pre as [|a pre IH].
  - cbn. rewrite (@split_plain _ Hsuf). reflexivity.
  - cbn [Str.includes] in Hpre. apply orb_false_elim in Hpre as [Hp Hs].
    cbn [String.append Str.split].
    destruct (Ascii.eqb_spec a "*") as [-> | _].
    + cbn in Hp. destruct pre; discriminate.
    + specialize (IH Hs). cbn [String.append] in IH. rewrite IH. reflexivity.
Qed.

Lemma run_star_chr_inv (R : Type) (p : ascii -> bool) (k : cont R) (x : R) :
  forall s prev c,
    run (Star (Chr p)) prev s c k = Some x ->
    exists w s' prev',
      s = w +++ s' /\ forallb p (list_ascii_of_string w) = true /\
      k prev' s' c = Some x.
Proof.
  intros s prev c H. cbn [run] in H.
  remember (String.length s) as n eqn:Hn in H. clear Hn.
  revert s prev H. induction n as [|n IH]; intros s prev H.
  - exists "", s, prev. auto.
  - destruct s as [|a s].
    + exists "", "", prev. auto.
    + destruct (p a) eqn:Hp.
      * cbn [String.length] in H.
        assert (Hlt : (String.length s <? S (String.length s))%nat = true)
          by (apply Nat.ltb_lt; lia).
        rewrite Hlt in H.
        match type of H with
        | match ?inner with _ => _ end = _ => destruct inner eqn:E
        end.
        -- injection H as ->. apply IH in E as (w & s' & prev' & -> & Hw & Hk).
           exists (String a w), s', prev'. cbn. rewrite Hp. auto.
        -- exists "", (String a s), prev. auto.
      * exists "", (String a s), prev. auto.
Qed.

Lemma searchFrom_anchored (R : Type) (r : regex) (k : string -> cont R) :
  (forall a s c (k' : cont R), run r (Some a) s c k' = None) ->
  forall s before,
    searchFrom r before None s k = run r None s [] (k before).
Proof.
  intros Hanch.
  assert (Hlater : forall s before a, searchFrom r before (Some a) s k = None).
  { induction s as [|b s IH]; intros before a; cbn [searchFrom];
      rewrite Hanch; [reflexivity | apply IH]. }
  intros s before. destruct s as [|a s]; cbn [searchFrom];
    destruct (run r None _ [] (k before)); try reflexivity. apply Hlater.
Qed.

Lemma matchLit_append (l : string) :
  forall prev s, exists prev', matchLit l prev (l +++ s) = Some (prev', s).
Proof.
  induction l as [|a l IH]; intros prev s; cbn [matchLit String.append].
  - exists prev. reflexivity.
  - rewrite Ascii.eqb_refl. apply IH.
Qed.

Lemma run_star_chr_complete (R : Type) (p : ascii -> bool) (k : cont R)
      (c : captures) (s' : string) :
  (forall prev', exists y, k prev' s' c = Some y) ->
  forall w prev,
    forallb p (list_ascii_of_string w) = true ->
    exists y, run (Star (Chr p)) prev (w +++ s') c k = Some y.
Proof.
  intros Hk w prev Hw. cbn [run].
  assert (Hle : String.length (w +++ s') <= String.length (w +++ s')) by lia.
  revert Hle. generalize (String.length (w +++ s')) at 2 3 as n.
  intros n. revert prev n.
  induction w as [|a w IH]; intros prev n Hle.
  - cbn [String.append] in *. destruct (Hk prev) as [y Hy].
    destruct n as [|n]; [exists y; exact Hy |].
    match goal with
    | |- exists y', match ?inner with _ => _ end = _ => destruct inner as [z|]
    end; [exists z; reflexivity | exists y; exact Hy].
  - cbn [list_ascii_of_string forallb] in Hw. apply andb_prop in Hw as [Ha Hw].
    cbn [String.append String.length] in Hle |- *.
    destruct n as [|n]; [lia |].
    cbn [run]. rewrite Ha.
    assert (Hlt : (String.length (w +++ s') <? S (String.length (w +++ s')))%nat
                  = true) by (apply Nat.ltb_lt; lia).
    cbn [String.length]. rewrite Hlt.
    destruct (IH Hw (Some a) n ltac:(lia)) as [y Hy].
    rewrite Hy. exists y. reflexivity.
Qed.

Lemma substring_head (w s' : string) :
  String.substring 0 (String.length (w +++ s') - String.length s') (w +++ s')
  = w.
Proof.
  rewrite length_append.
  replace (String.length w + String.length s' - String.length s')
    with (String.length w) by lia.
  apply substring_append_take.
Qed.

Lemma append_cancel_l (a x y : string) : a +++ x = a +++ y -> x = y.
Proof. induction a as [|c a IH]; cbn; intros H; [exact H |]. injection H. exact IH. Qed.

Lemma append_cancel_r (x y b : string) : x +++ b = y +++ b -> x = y.
Proof.
  intros H. destruct (@append_eq_cases _ _ _ _ H) as [(t & -> & Ht) | (t & -> & Ht)];
    symmetry in Ht; apply append_same_tail in Ht; subst t;
    rewrite append_nil_r; reflexivity.
Qed.

Lemma oneStar_sound (pre suf s : string) (matched : list (option string)) :
  exec (oneStar pre suf) 1 s = Some matched ->
  exists x,
    matched = [Some x] /\ s = pre +++ x +++ suf /\ x <> "" /\
    forallb dot (list_ascii_of_string x) = true.
Proof.
  unfold exec, oneStar. rewrite searchFrom_anchored by reflexivity.
  intros H. cbn [seqs globParts] in H. unfold Plus in H.
  remember (Star (Chr dot)) as star eqn:Hstar.
  cbn [run] in H.
  destruct (matchLit pre None s) as [[prev1 s1]|] eqn:Epre; [| discriminate H].
  apply matchLit_Some in Epre. subst s.
  destruct s1 as [|a s2]; [discriminate H |].
  destruct (dot a) eqn:Ha; [| discriminate H].
  subst star. apply run_star_chr_inv in H as (w & s3 & prev3 & -> & Hw & H).
  cbn [run] in H.
  destruct (matchLit suf prev3 s3) as [[prev4 s4]|] eqn:Esuf; [| discriminate H].
  apply matchLit_Some in Esuf. subst s3.
  destruct s4; [| discriminate H].
  injection H as <-. cbn [map seq capture Nat.eqb].
  match goal with
  | |- exists x, [Some ?t] = _ /\ _ =>
      change t with
        (String.substring 0
           (String.length (String a w +++ suf +++ "") -
            String.length (suf +++ ""))
           (String a w +++ suf +++ ""))
  end.
  rewrite substring_head, append_nil_r.
  exists (String a w). repeat split; try discriminate.
  cbn [list_ascii_of_string forallb]. rewrite Ha. exact Hw.
Qed.

Lemma oneStar_complete (pre suf x : string) :
  x <> "" -> forallb dot (list_ascii_of_string x) = true ->
  exec (oneStar pre suf) 1 (pre +++ x +++ suf) = Some [Some x].
Proof.
  intros Hx Hdot.
  assert (Hsome : exists matched,
             exec (oneStar pre suf) 1 (pre +++ x +++ suf) = Some matched).
  { unfold exec, oneStar. rewrite searchFrom_anchored by reflexivity.
    cbn [seqs globParts]. unfold Plus.
    remember (Star (Chr dot)) as star eqn:Hstar.
    cbn [run].
    destruct (matchLit_append pre None (x +++ suf)) as [prev1 ->].
    destruct x as [|a w]; [contradiction |].
    cbn [list_ascii_of_string forallb] in Hdot.
    apply andb_prop in Hdot as [Ha Hw].
    cbn [String.append]. rewrite Ha. subst star.
    apply run_star_chr_complete; [| exact Hw].
    intros prev'. destruct (matchLit_append suf prev' "") as [prev4 Hsuf].
    rewrite append_nil_r in Hsuf. rewrite Hsuf. eexists. reflexivity. }
  destruct Hsome as [matched Hm]. rewrite Hm.
  destruct (@oneStar_sound _ _ _ _ Hm) as (x' & -> & Hs & _).
  apply append_cancel_l, append_cancel_r in Hs. subst x'. reflexivity.
Qed.

Lemma slash_append (a b : string) :
  Str.slash (a +++ b) = Str.slash a +++ Str.slash b.
Proof.
  induction a as [|c a IH]; [reflexivity |].
  cbn [String.append Str.slash]. rewrite IH. reflexivity.
Qed.

Lemma includes_slash_star (s : string) :
  Str.includes s "*" = false -> Str.includes (Str.slash s) "*" = false.
Proof.
  induction s as [|a s IH]; [reflexivity |].
  cbn [Str.includes Str.slash]. intros H.
  apply orb_false_elim in H as [Hp Hs]. rewrite (IH Hs), orb_false_r.
  destruct (Ascii.eqb_spec a "\") as [-> | _]; [reflexivity |].
  cbn [String.prefix] in Hp |- *.
  destruct (ascii_dec "*" a); [| reflexivity].
  destruct (Str.slash s), s; try discriminate; reflexivity.
Qed.

Lemma globMatch_oneStar (pre suf str : string) :
  Str.includes pre "*" = false -> Str.includes suf "*" = false ->
  globMatch (pre +++ "*" +++ suf) str = exec (oneStar pre suf) 1 str.
Proof.
  intros Hpre Hsuf. unfold globMatch, globRegExp, globGroups, oneStar.
  rewrite (@split_one_star pre suf Hpre Hsuf). reflexivity.
Qed.

(** X6: a glob with one wildcard matches a path exactly when the path
    is the text before the wildcard, a text that is not empty and
    holds no line terminator, and the text after the wildcard; the one
    capture is that text.  So every file [exportsGlob] returns for such
    a glob is, with its backslashes turned, of that shape. *)
Theorem glob_one_wildcard (pre suf : string) :
  Str.includes pre "*" = false -> Str.includes suf "*" = false ->
  (forall str matched,
      globMatch (pre +++ "*" +++ suf) str = Some matched <->
      exists x,
        matched = [Some x] /\ str = pre +++ x +++ suf /\ x <> "" /\
        forallb dot (list_ascii_of_string x) = true) /\
  (forall packedFiles exportsKey exports files filePath,
      exportsGlob fuel (pre +++ "*" +++ suf) vfs packedFiles exportsKey
                  exports = Ok files ->
      In filePath files ->
      exists x,
        Str.slash filePath = Str.slash pre +++ x +++ Str.slash suf /\
        x <> "" /\ forallb dot (list_ascii_of_string x) = true).
Proof.
  intros Hpre Hsuf.
  assert (Hshape : forall pre suf str matched,
             Str.includes pre "*" = false -> Str.includes suf "*" = false ->
             globMatch (pre +++ "*" +++ suf) str = Some matched ->
             exists x,
               matched = [Some x] /\ str = pre +++ x +++ suf /\ x <> "" /\
               forallb dot (list_ascii_of_string x) = true).
  { intros pre' suf' str matched Hp Hs.
    rewrite (@globMatch_oneStar pre' suf' str Hp Hs). apply oneStar_sound. }
  split.
  - intros str matched. split; [now apply Hshape |].
    intros (x & -> & -> & Hx & Hdot).
    rewrite (@globMatch_oneStar pre suf _ Hpre Hsuf). now apply oneStar_complete.
  - intros packedFiles exportsKey exports files filePath Hglob Hin.
    unfold exportsGlob in Hglob.
    destruct (topDirOf (pre +++ "*" +++ suf)) as [topDir|];
      [| injection Hglob as <-; contradiction].
    destruct (Vfs.isPathDir vfs topDir);
      [| injection Hglob as <-; contradiction].
    apply scanDir_accepts with (filePath := filePath) in Hglob;
      [| exact Hin].
    destruct (@globAccepts_matched _ _ _ _ Hglob) as (matched & Hm & _).
    rewrite !slash_append in Hm. cbn [Str.slash Ascii.eqb Bool.eqb] in Hm.
    apply Hshape in Hm; try now apply includes_slash_star.
    destruct Hm as (x & _ & Hstr & Hx & Hdot). exists x. auto.
Qed.

(** *** The format expected of a path with an explicit extension *)

Lemma getFilePathFormat_mjs (base : string) :
  getFilePathFormat JSON_parse fuel (base +++ ".mjs") vfs = Ok ESM.
Proof.
  unfold getFilePathFormat.
  rewrite (@not_endsWith_append base ".mjs" ".native.js") by reflexivity.
  rewrite endsWith_append. reflexivity.
Qed.

Lemma getFilePathFormat_cjs (base : string) :
  getFilePathFormat JSON_parse fuel (base +++ ".cjs") vfs = Ok CJS.
Proof.
  unfold getFilePathFormat.
  rewrite (@not_endsWith_append base ".cjs" ".native.js") by reflexivity.
  rewrite (@not_endsWith_append base ".cjs" ".mjs") by reflexivity.
  rewrite endsWith_append. reflexivity.
Qed.

Lemma getDtsFilePathFormat_mts (base : string) :
  getDtsFilePathFormat JSON_parse fuel (base +++ ".d.mts") vfs = Ok ESM.
Proof. unfold getDtsFilePathFormat. rewrite endsWith_append. reflexivity. Qed.

Lemma getDtsFilePathFormat_cts (base : string) :
  getDtsFilePathFormat JSON_parse fuel (base +++ ".d.cts") vfs = Ok CJS.
Proof.
  unfold getDtsFilePathFormat.
  rewrite (@not_endsWith_append base ".d.cts" ".d.mts") by reflexivity.
  rewrite endsWith_append. reflexivity.
Qed.

(** X7: the message on a format mismatch proposes the extension
    [getCodeFormatExtension actualFormat], and the scan of a package
    without [exports] looks for the file [replaceLast] makes with it.
    Where the path ends in the extension it is said to have, that file
    is expected to be of the format the text has, whatever manifests
    lie above it. *)
Theorem proposed_extension_has_actual_format
        (stem actualExtension : string) (actualFormat : CodeFormat) :
  actualFormat = ESM \/ actualFormat = CJS ->
  getFilePathFormat JSON_parse fuel
    (replaceLast (stem +++ actualExtension) actualExtension
                 (getCodeFormatExtension actualFormat)) vfs
  = Ok actualFormat.
Proof.
  intros [-> | ->]; rewrite replaceLast_suffix; cbn [getCodeFormatExtension].
  - apply getFilePathFormat_mjs.
  - apply getFilePathFormat_cjs.
Qed.

(** X8: the same for a declaration file [stem.d] with the extension
    [actualExtension]: with the extension that
    [getDtsCodeFormatExtension] gives for the expected format in its
    place, [getDtsFilePathFormat] finds the expected format. *)
Theorem proposed_dts_extension_has_expected_format
        (stem actualExtension : string) (expectFormat : CodeFormat) :
  expectFormat = ESM \/ expectFormat = CJS ->
  getDtsFilePathFormat JSON_parse fuel
    (replaceLast (stem +++ ".d" +++ actualExtension) actualExtension
                 (getDtsCodeFormatExtension expectFormat)) vfs
  = Ok expectFormat.
Proof.
  intros H. rewrite <- append_assoc, replaceLast_suffix, append_assoc.
  destruct H as [-> | ->]; cbn [getDtsCodeFormatExtension String.append].
  - apply getDtsFilePathFormat_mts.
  - apply getDtsFilePathFormat_cts.
Qed.

(** X9: the declaration file next to a file with the extension [.mjs]
    or [.cjs] has the format of that file: the adjacent declaration
    file, as [checkTypesExported] notes, is in the right format. *)
Theorem adjacent_dts_same_format (base ext : string) :
  ext = ".mjs" \/ ext = ".cjs" ->
  getDtsFilePathFormat JSON_parse fuel
    (getAdjacentDtsPath (base +++ ext)) vfs =
  getFilePathFormat JSON_parse fuel (base +++ ext) vfs.
Proof.
  pose proof (getAdjacentDtsPath_spec base) as (_ & Hm & Hc & _).
  intros [-> | ->].
  - rewrite Hm, getDtsFilePathFormat_mts, getFilePathFormat_mjs. reflexivity.
  - rewrite Hc, getDtsFilePathFormat_cts, getFilePathFormat_cjs. reflexivity.
Qed.

(* =================================================================== *)
(** ** Reading the manifest *)
(* =================================================================== *)

Lemma lookup_In (members : list (string * json)) (k : string) (v : json) :
  noDuplicate (keys members) = true -> In (k, v) members ->
  lookup k members = Some v.
Proof.
  induction members as [|[k' v'] rest IH]; intros Hnd Hin; [contradiction |].
  cbn [keys map fst noDuplicate] in Hnd. apply andb_prop in Hnd as [Hfresh Hnd].
  cbn [lookup]. destruct Hin as [Heq | Hin].
  - injection Heq as -> ->. rewrite String.eqb_refl. reflexivity.
  - destruct (String.eqb_spec k' k) as [-> | _].
    + exfalso. apply negb_true_iff in Hfresh.
      assert (Hmem : Str.mem k (keys rest) = true).
      { apply mem_In. apply in_map_iff. exists (k, v).
        split; [reflexivity | exact Hin]. }
      fold (keys rest) in Hfresh. congruence.
    + apply IH; assumption.
Qed.

Lemma lookup_Some_In (members : list (string * json)) (k : string)
      (v : json) :
  lookup k members = Some v -> exists k', In (k', v) members.
Proof.
  induction members as [|[k' v'] rest IH]; cbn [lookup]; [discriminate |].
  destruct (String.eqb k' k).
  - intros H. injection H as ->. exists k'. left. reflexivity.
  - intros H. destruct (IH H) as [k'' Hin]. exists k''. right. exact Hin.
Qed.

(** The values of a value with unique keys have unique keys. *)
Lemma uniqueKeys_getProp (v v' : json) (p : string) :
  uniqueKeys v = true -> getProp (Some v) p = Ok (Some v') ->
  uniqueKeys v' = true.
Proof.
  intros Hu H. destruct v as [| b | n | s | items | members];
    cbn [getProp] in H; try discriminate.
  - destruct (String.eqb p "length"); [inversion H; reflexivity |].
    destruct (arrayIndex p (String.length s)) as [i|]; [| discriminate].
    destruct (String.get i s); cbn [option_map] in H; [| discriminate].
    inversion H. reflexivity.
  - destruct (String.eqb p "length"); [inversion H; reflexivity |].
    destruct (arrayIndex p (length items)) as [i|]; [| discriminate].
    injection H as H.
    apply nth_error_In in H. cbn [uniqueKeys] in Hu.
    rewrite forallb_forall in Hu. exact (Hu _ H).
  - injection H as H. apply lookup_Some_In in H as [k' Hin].
    cbn [uniqueKeys] in Hu. apply andb_prop in Hu as [_ Hu].
    rewrite forallb_forall in Hu. exact (Hu _ Hin).
Qed.

(** A read that has left the manifest does not come back to it. *)
Lemma uniqueKeys_path (path : list string) :
  forall x v',
    match x with
    | Own _ (Some v) => uniqueKeys v = true
    | _ => True
    end ->
    getPkgPathValueFrom x path = Ok (Own realm (Some v')) ->
    uniqueKeys v' = true.
Proof.
  induction path as [|p rest IH]; intros x v' Hu H;
    cbn [getPkgPathValueFrom] in H.
  - injection H as ->. exact Hu.
  - destruct (member x p) as [y | |] eqn:E; try discriminate.
    apply (IH y v'); [| exact H].
    destruct x as [[v|] | h]; cbn [member] in E.
    + destruct (getProp (Some v) p) as [[w|] | |] eqn:Ew; try discriminate.
      * injection E as <-. exact (@uniqueKeys_getProp _ _ _ Hu Ew).
      * destruct (inherited realm v p); injection E as <-; exact I.
    + cbn [getProp] in E. discriminate.
    + destruct (hostGet realm h p) as [[h'|] | |]; try discriminate;
        injection E as <-; exact I.
Qed.

Lemma getPkgPathValueFrom_app (p q : list string) :
  forall (v w : Value realm),
    getPkgPathValueFrom v p = Ok w ->
    getPkgPathValueFrom v (p ++ q) = getPkgPathValueFrom w q.
Proof.
  induction p as [|k p IH]; intros v w H; cbn [getPkgPathValueFrom app] in *.
  - injection H as <-. reflexivity.
  - destruct (member v k); try discriminate. exact (@IH _ _ H).
Qed.

(** Reading an own property. *)
Lemma member_own (v own : json) (p : string) :
  getProp (Some v) p = Ok (Some own) ->
  member (Own realm (Some v)) p = Ok (Own realm (Some own)).
Proof. cbn [member]. intros ->. reflexivity. Qed.

(** The path [resolveExports] returns leads, from the value it was
    given, to the text it returns. *)
Lemma resolveExports_located (v : json) :
  forall conditions currentPath r,
    uniqueKeys v = true ->
    resolveExports v conditions currentPath = Some r ->
    exists suffix,
      matched r = currentPath ++ suffix /\
      getPkgPathValueFrom (Own realm (Some v)) suffix =
      Ok (Own realm (Some (JStr (value r)))).
Proof.
  induction v as [| b | n | s | items IH | members IH] using json_induction;
    intros conditions currentPath r Hu H; cbn [resolveExports] in H;
    try discriminate.
  - injection H as H. subst r. exists []. cbn. rewrite app_nil_r.
    split; reflexivity.
  - destruct items as [|first rest]; [discriminate |].
    apply Forall_inv in IH. cbn [uniqueKeys forallb] in Hu.
    apply andb_prop in Hu as [Hu _].
    destruct (IH _ _ _ Hu H) as (suffix & Hm & Hv).
    exists ("0" :: suffix). rewrite Hm, <- app_assoc. split; [reflexivity |].
    cbn [getPkgPathValueFrom].
    rewrite (@member_own (JArr (first :: rest)) first "0" eq_refl). exact Hv.
  - cbn [uniqueKeys] in Hu. apply andb_prop in Hu as [Hnd Hu].
    assert (Hgen : forall ms,
               (forall k v', In (k, v') ms -> lookup k members = Some v') ->
               Forall (fun kv : string * json =>
                         forall conditions currentPath r,
                           uniqueKeys (snd kv) = true ->
                           resolveExports (snd kv) conditions currentPath = Some r ->
                           exists suffix,
                             matched r = currentPath ++ suffix /\
                             getPkgPathValueFrom (Own realm (Some (snd kv)))
                                                 suffix =
                             Ok (Own realm (Some (JStr (value r))))) ms ->
               forallb (fun kv => uniqueKeys (snd kv)) ms = true ->
               resolveExports (JObj ms) conditions currentPath = Some r ->
               exists suffix,
                 matched r = currentPath ++ suffix /\
                 getPkgPathValueFrom (Own realm (Some (JObj members)))
                                     suffix =
                 Ok (Own realm (Some (JStr (value r))))).
    { clear H IH Hu. induction ms as [|[key v'] rest IHrest];
        intros Hall IH Hu H; [discriminate |].
      apply Forall_cons_iff in IH as [IHv IH].
      cbn [forallb snd] in Hu. apply andb_prop in Hu as [Huv Hu].
      assert (Hnext : forall k v0, In (k, v0) rest -> lookup k members = Some v0).
      { intros k v0 Hin. apply Hall. right. exact Hin. }
      cbn [resolveExports] in H. cbn [snd] in IHv.
      destruct (Str.mem key conditions || String.eqb key "default").
      + destruct (resolveExports v' conditions (currentPath ++ [key]))
          as [res|] eqn:E.
        * injection H as H. subst res.
          destruct (IHv _ _ _ Huv E) as (suffix & Hm & Hv).
          exists (key :: suffix). rewrite Hm, <- app_assoc.
          split; [reflexivity |].
          cbn [getPkgPathValueFrom].
          rewrite (@member_own (JObj members) v' key)
            by (cbn [getProp]; rewrite (Hall key v' (or_introl eq_refl));
                reflexivity).
          exact Hv.
        * destruct (String.eqb key "default"); [discriminate |].
          exact (IHrest Hnext IH Hu H).
      + exact (IHrest Hnext IH Hu H). }
    apply (Hgen members); try assumption.
    intros k v'. now apply lookup_In.
Qed.

(** X10: [resolveExports] looks at the conditions asked for as a set:
    two lists with the same members resolve every value alike, so the
    order that decides is the order of the keys in the manifest. *)
Theorem resolveExports_conditions_as_set (exportsValue : json) :
  forall c1 c2 currentPath,
    (forall k, Str.mem k c1 = Str.mem k c2) ->
    resolveExports exportsValue c1 currentPath =
    resolveExports exportsValue c2 currentPath.
Proof.
  induction exportsValue as [| b | n | s | items IH | members IH]
    using json_induction;
    intros c1 c2 currentPath Hsame; cbn [resolveExports]; try reflexivity.
  - destruct items as [|first rest]; [reflexivity |].
    apply Forall_inv in IH. now apply IH.
  - induction members as [|[key v'] rest IHrest]; [reflexivity |].
    apply Forall_cons_iff in IH as [IHv IH]. cbn [snd] in IHv.
    rewrite (Hsame key), (IHv c1 c2 _ Hsame), (IHrest IH). reflexivity.
Qed.

(** X11: [resolveExports] never looks past the key [default]: the keys
    of a condition map that come after it change nothing, whatever
    conditions are asked for and also where [default] resolves to
    nothing. *)
Theorem resolveExports_ignores_after_default
        (pre post : list (string * json)) (v : json)
        (conditions currentPath : list string) :
  resolveExports (JObj (pre ++ ("default", v) :: post)) conditions currentPath =
  resolveExports (JObj (pre ++ [("default", v)])) conditions currentPath.
Proof.
  cbn [resolveExports].
  induction pre as [|[key v'] pre IH]; cbn [app].
  - rewrite orb_true_r. cbn [String.eqb Ascii.eqb Bool.eqb].
    destruct (resolveExports v conditions (currentPath ++ ["default"]));
      reflexivity.
  - rewrite IH. reflexivity.
Qed.


(** X13: the path of a resolved entry point, which the messages on
    declaration files carry, leads from the manifest to the text that
    was resolved: for a value [v] found in the manifest at [p], what
    [resolveExports] returns for [v] and [p] is found in the manifest
    at the path returned. *)
Theorem resolved_path_locates_value (v : json) (p conditions : list string)
        (r : Resolved) :
  uniqueKeys rootPkg = true ->
  getPkgPathValue realm rootPkg p = Ok (Own realm (Some v)) ->
  resolveExports v conditions p = Some r ->
  getPkgPathValue realm rootPkg (matched r) =
  Ok (Own realm (Some (JStr (value r)))).
Proof.
  intros Hu Hp Hr. unfold getPkgPathValue in *.
  destruct (@resolveExports_located v conditions p r
              (@uniqueKeys_path p (Own realm (Some rootPkg)) v Hu Hp) Hr)
    as (suffix & -> & Hv).
  rewrite (@getPkgPathValueFrom_app _ _ _ _ Hp). exact Hv.
Qed.

(* =================================================================== *)
(** ** Further properties of the crawl *)
(* =================================================================== *)

(** *** [readFile] *)

Lemma reportUnpublished_pushes (pkgPath : option (list string))
      (path : string) :
  snd (reportUnpublished pkgPath path) = Ok tt /\
  (forall m, In m (messages (reportUnpublished pkgPath path)) ->
             code m = FILE_NOT_PUBLISHED) /\
  (_packedFiles = None \/ pkgPath = None ->
   messages (reportUnpublished pkgPath path) = []).
Proof.
  unfold reportUnpublished, fileNotPublished, when.
  destruct pkgPath as [pkgPath|], _packedFiles as [files|];
    try (split; [reflexivity | split; [intros m [] | reflexivity]]).
  destruct (negb (Str.mem path files));
    (split; [reflexivity | split]).
  - intros m [<- | []]. reflexivity.
  - intros [H | H]; discriminate.
  - intros m [].
  - reflexivity.
Qed.

Lemma read_then_report (pkgPath : option (list string)) (path : string)
      (content : string) :
  snd (reportUnpublished pkgPath path ;; ret (Some content))
  = Ok (Some content) /\
  messages (reportUnpublished pkgPath path ;; ret (Some content))
  = messages (reportUnpublished pkgPath path).
Proof.
  destruct (reportUnpublished_pushes pkgPath path) as (Hok & _).
  rewrite outcome_bind, messages_bind, Hok. split; [reflexivity |].
  apply app_nil_r.
Qed.

Lemma readFileTry_result (path : string) (pkgPath : option (list string))
      (tryExtensions : list string) :
  (forallb unreadable (tl (readCandidates path tryExtensions)) = true ->
   readFileTry path pkgPath tryExtensions =
   (match pkgPath with
    | Some pkgPath => [fileDoesNotExistMessage pkgPath]
    | None => []
    end, Ok None)) /\
  (forallb unreadable (tl (readCandidates path tryExtensions)) = false ->
   exists content,
     snd (readFileTry path pkgPath tryExtensions) = Ok (Some content) /\
     (forall m, In m (messages (readFileTry path pkgPath tryExtensions)) ->
                code m = FILE_NOT_PUBLISHED) /\
     (_packedFiles = None \/ pkgPath = None ->
      messages (readFileTry path pkgPath tryExtensions) = [])).
Proof.
  unfold readCandidates. cbn [tl].
  induction tryExtensions as [|ext rest IH];
    cbn [map forallb readFileTry].
  - split; [| discriminate]. intros _. destruct pkgPath; reflexivity.
  - unfold unreadable at 1 3.
    destruct (Vfs.readFile vfs _) as [content|]; cbn [andb].
    + split; [discriminate |]. intros _. exists content.
      match goal with
      | |- context [reportUnpublished pkgPath ?f] =>
          destruct (read_then_report pkgPath f content) as [Hok Hmsgs];
          destruct (reportUnpublished_pushes pkgPath f) as (_ & Hcodes & Hno)
      end.
      rewrite Hmsgs. auto.
    + exact IH.
Qed.

(** X14: [readFile] never throws.  It returns [false] exactly when the
    path and the path with each of the extensions to try cannot be
    read; it then pushes the one message [FILE_DOES_NOT_EXIST] at
    [pkgPath], and nothing where no [pkgPath] is passed.  Where it
    returns the text of a file, it pushes at most the message that the
    file is not published, and none without the list of packed
    files. *)
Theorem readFile_reports (path : string) (pkgPath : option (list string))
        (tryExtensions : list string) :
  let r := readFile path pkgPath tryExtensions in
  (forallb unreadable (readCandidates path tryExtensions) = true ->
   r = (match pkgPath with
        | Some pkgPath => [fileDoesNotExistMessage pkgPath]
        | None => []
        end, Ok None)) /\
  (forallb unreadable (readCandidates path tryExtensions) = false ->
   exists content,
     snd r = Ok (Some content) /\
     (forall m, In m (messages r) -> code m = FILE_NOT_PUBLISHED) /\
     (_packedFiles = None \/ pkgPath = None -> messages r = [])).
Proof.
  cbv zeta.
  destruct (readFileTry_result path pkgPath tryExtensions) as [Hnone Hsome].
  unfold readFile. unfold readCandidates in *. cbn [forallb tl] in *.
  unfold unreadable at 1 3.
  destruct (Vfs.readFile vfs path) as [content|] eqn:Hread; cbn [andb].
  - split; [discriminate |]. intros _. exists content.
    destruct (read_then_report pkgPath path content) as [Hok Hmsgs].
    destruct (reportUnpublished_pushes pkgPath path) as (_ & Hcodes & Hno).
    rewrite Hmsgs. auto.
  - split; assumption.
Qed.

(** *** Where the messages of a crawl lie, and how a crawl ends *)

(** X15: every message of the crawl of a value of [exports] or
    [imports] is at the path of that value or below it. *)
Theorem crawl_messages_below_path
        (exportsValue : json) (currentPath : list string)
        (isImports isAfterNodeCondition : bool) (m : Message) :
  In m (messages (crawlExportsOrImports exportsValue currentPath isImports
                                        isAfterNodeCondition)) ->
  exists suffix, path m = currentPath ++ suffix.
Proof.
  intros H.
  destruct (crawl_inScope exportsValue currentPath isImports
                          isAfterNodeCondition m H) as (suffix & Hp & _).
  exists suffix. exact Hp.
Qed.

Lemma forItems_throws (body : nat -> json -> M (list Settled))
      (items : list json) :
  Forall (fun item =>
            (throwFree item = true ->
             forall key, exists ps, snd (body key item) = Ok ps) /\
            (throwFree item = false ->
             forall key, snd (body key item) = Throw)) items ->
  forallb throwFree items = false ->
  forall key, snd (forItems body items key) = Throw.
Proof.
  induction items as [|item rest IH]; intros Hbody Hfree key;
    [discriminate |].
  apply Forall_cons_iff in Hbody as [[Hok Hthrow] Hbody].
  cbn [forallb] in Hfree. cbn [forItems]. rewrite outcome_bind.
  destruct (throwFree item).
  - destruct (Hok eq_refl key) as [ps ->].
    rewrite outcome_bind, (IH Hbody Hfree). reflexivity.
  - rewrite (Hthrow eq_refl key). reflexivity.
Qed.

Lemma forMembers_throws (body : string -> json -> bool -> M (list Settled))
      (members : list (string * json)) :
  Forall (fun kv =>
            (throwFree (snd kv) = true ->
             forall after, exists ps, snd (body (fst kv) (snd kv) after) = Ok ps) /\
            (throwFree (snd kv) = false ->
             forall after, snd (body (fst kv) (snd kv) after) = Throw))
         members ->
  forallb (fun kv => throwFree (snd kv)) members = false ->
  forall after, snd (forMembers body members after) = Throw.
Proof.
  induction members as [|[key value] rest IH]; intros Hbody Hfree after;
    [discriminate |].
  apply Forall_cons_iff in Hbody as [[Hok Hthrow] Hbody].
  cbn [forallb fst snd] in *. cbn [forMembers]. rewrite outcome_bind.
  destruct (throwFree value).
  - destruct (Hok eq_refl after) as [ps ->].
    rewrite outcome_bind, (IH Hbody Hfree). reflexivity.
  - rewrite (Hthrow eq_refl after). reflexivity.
Qed.

Lemma crawl_throws (exportsValue : json) :
  throwFree exportsValue = false ->
  forall (currentPath : list string) (isImports isAfterNodeCondition : bool),
    snd (crawlExportsOrImports exportsValue currentPath isImports
                               isAfterNodeCondition) = Throw.
Proof.
  induction exportsValue as [| b | n | s | items IH | members IH]
    using json_induction; intros Hfree p isImports after;
    cbn [crawlExportsOrImports throwFree] in *; cbv zeta;
    try discriminate.
  - destruct b; [reflexivity | discriminate].
  - rewrite Hfree. reflexivity.
  - rewrite outcome_bind. cbn [push snd]. apply forItems_throws; [| exact Hfree].
    rewrite Forall_forall in IH |- *. intros item Hin. split.
    + intros Hok key. now apply crawl_ends.
    + intros Hthrow key. now apply IH.
  - rewrite outcome_bind, typesShouldBeFirst_ends.
    rewrite outcome_bind, moduleShouldPrecedeRequire_ends.
    rewrite outcome_bind, defaultShouldBeLast_ends.
    apply forMembers_throws; [| exact Hfree].
    rewrite Forall_forall in IH |- *. intros [key value] Hin.
    cbn [fst snd]. split.
    + intros Hok a. rewrite outcome_bind, importsKeyInvalid_ends.
      now apply crawl_ends.
    + intros Hthrow a. rewrite outcome_bind, importsKeyInvalid_ends.
      now apply (IH (key, value) Hin).
Qed.

(** X16: the crawl of a value of [exports] or [imports] returns where
    the value holds no [true] and no number other than zero, on which
    the operator [in] throws, and throws where it holds one, also deep
    inside; [null], [false] and zero are passed over. *)
Theorem crawl_throws_exactly
        (exportsValue : json) (currentPath : list string)
        (isImports isAfterNodeCondition : bool) :
  let r := crawlExportsOrImports exportsValue currentPath isImports
                                 isAfterNodeCondition in
  (throwFree exportsValue = true -> exists ps, snd r = Ok ps) /\
  (throwFree exportsValue = false -> snd r = Throw).
Proof.
  split; intros H; [now apply crawl_ends | now apply crawl_throws].
Qed.

(** *** Where the crawl compares no formats *)

Lemma mem_app (x : string) (l1 l2 : list string) :
  Str.mem x (l1 ++ l2) = Str.mem x l1 || Str.mem x l2.
Proof. apply existsb_app. Qed.

Lemma skipsFormatCheck_below (p : list string) (after b : bool)
      (key : string) :
  skipsFormatCheck p after = true ->
  skipsFormatCheck (p ++ [key]) (after || b) = true.
Proof.
  unfold skipsFormatCheck. rewrite !mem_app. intros H.
  apply orb_prop in H as [H | H]; [apply orb_prop in H as [H | H] |];
    rewrite H; rewrite ?orb_true_r; reflexivity.
Qed.

Lemma crawlFile_skips (exportsValue : string) (currentPath : list string)
      (isImports isAfterNodeCondition isGlob : bool) (filePath : string) :
  skipsFormatCheck currentPath isAfterNodeCondition = true ->
  only (fun m => isFormatMismatch (code m) = false)
       (crawlFile exportsValue currentPath isImports isAfterNodeCondition
                  isGlob filePath).
Proof.
  intros Hskip. unfold crawlFile.
  repeat (only_step;
          try solve [apply only_push; reflexivity];
          try solve [apply only_push; cbn [code];
                     match goal with
                     | |- context [if ?b then _ else _] => destruct b
                     end; reflexivity];
          try solve [apply readFile_no_mismatch];
          try solve [apply hasInvalidJsxExtension_no_mismatch]).
  all: unfold skipsFormatCheck in Hskip;
    repeat match goal with
           | H : _ = false |- _ => rewrite H in Hskip
           end; discriminate Hskip.
Qed.

Lemma crawlLeaf_skips (exportsValue : string) (currentPath : list string)
      (isImports isAfterNodeCondition : bool) :
  skipsFormatCheck currentPath isAfterNodeCondition = true ->
  only (fun m => isFormatMismatch (code m) = false)
       (crawlLeaf exportsValue currentPath isImports isAfterNodeCondition).
Proof.
  intros Hskip. unfold crawlLeaf, deprecatedSubpathMapping.
  repeat (only_step;
          try solve [apply only_push; cbn [code];
                     match goal with
                     | |- context [if ?b then _ else _] => destruct b
                     end; reflexivity]).
  - eapply only_weaken; [| apply browserConflict_emits].
    apply emits_not. reflexivity.
  - apply crawlFile_skips. exact Hskip.
Qed.

Lemma forMembers_only_from (P : Message -> Prop) (Q : bool -> Prop)
      (body : string -> json -> bool -> M (list Settled))
      (members : list (string * json)) :
  (forall a b, Q a -> Q (a || b)) ->
  (forall key value a,
      In (key, value) members -> Q a -> only P (body key value a)) ->
  forall after, Q after -> only P (forMembers body members after).
Proof.
  intros HQ. induction members as [|[key value] rest IH];
    intros Hbody after Hafter; simpl.
  - apply only_ret.
  - apply only_bind; [apply Hbody; [left; reflexivity | exact Hafter] |].
    intros ps _. apply only_bind.
    + apply IH; [| apply HQ; exact Hafter].
      intros k v a Hin. apply Hbody. right. exact Hin.
    + intros qs _. apply only_ret.
Qed.

Lemma crawl_skips (exportsValue : json) :
  forall (currentPath : list string) (isImports isAfterNodeCondition : bool),
    skipsFormatCheck currentPath isAfterNodeCondition = true ->
    only (fun m => isFormatMismatch (code m) = false)
         (crawlExportsOrImports exportsValue currentPath isImports
                                isAfterNodeCondition).
Proof.
  induction exportsValue as [| b | n | s | items IH | members IH]
    using json_induction; intros p isImports after Hskip; simpl.
  - apply only_ret.
  - destruct b; [apply only_lift | apply only_ret].
  - destruct (Z.eqb n 0); [apply only_ret | apply only_lift].
  - apply only_promiseQueue_push. apply crawlLeaf_skips. exact Hskip.
  - apply only_bind.
    + apply only_push. destruct isImports; reflexivity.
    + intros _ _. apply forItems_only. intros key item Hin.
      rewrite Forall_forall in IH. apply (IH item Hin).
      rewrite <- (orb_false_r after). now apply skipsFormatCheck_below.
  - apply only_bind; [| intros _ _; apply only_bind;
                        [| intros _ _; apply only_bind; [| intros _ _]]].
    + eapply only_weaken; [| apply typesShouldBeFirst_only].
      intros m [_ ->]. reflexivity.
    + eapply only_weaken; [| apply moduleShouldPrecedeRequire_only].
      intros m [_ Hc]. destruct (code m); simpl in *; congruence.
    + eapply only_weaken; [| apply defaultShouldBeLast_only].
      intros m [_ Hc]. destruct (code m); simpl in *; congruence.
    + apply (@forMembers_only_from _
               (fun a => forall key, skipsFormatCheck (p ++ [key]) a = true)).
      * intros a b Ha key. specialize (Ha key).
        unfold skipsFormatCheck in *.
        destruct a; [reflexivity |]. destruct b; [reflexivity |].
        exact Ha.
      * intros key value a Hin Ha. apply only_bind.
        -- eapply only_weaken; [| apply importsKeyInvalid_only].
           intros m [_ ->]. reflexivity.
        -- intros _ _. rewrite Forall_forall in IH.
           apply (IH (key, value) Hin). apply Ha.
      * intros key. rewrite <- (orb_false_r after).
        now apply skipsFormatCheck_below.
Qed.

(** X17: the crawl of a value that is reached after the key [node] of a
    condition map, or at a path that holds the key [browser] or the
    key [module], pushes no message on a format mismatch, however deep
    the value; and in the loop over the keys of a map the keys after
    [node] are crawled with the flag set. *)
Theorem format_check_skipped
        (exportsValue : json) (currentPath : list string)
        (isImports isAfterNodeCondition : bool) :
  (isAfterNodeCondition = true \/ In "browser" currentPath \/
   In "module" currentPath ->
   forall m,
     In m (messages (crawlExportsOrImports exportsValue currentPath
                       isImports isAfterNodeCondition)) ->
     isFormatMismatch (code m) = false) /\
  (forall rest body,
      forMembers body (("node", exportsValue) :: rest) isAfterNodeCondition =
      (ps <- body "node" exportsValue isAfterNodeCondition ;;
       qs <- forMembers body rest true ;;
       ret (ps ++ qs))).
Proof.
  split.
  - intros H. apply crawl_skips. unfold skipsFormatCheck.
    destruct H as [-> | [H | H]]; [reflexivity | |];
      apply mem_In in H; rewrite H; rewrite ?orb_true_r; reflexivity.
  - intros rest body. cbn [forMembers]. rewrite orb_true_r. reflexivity.
Qed.

(** *** Arrays *)

Lemma path_not_below (p : list string) (k : string) (suffix : list string) :
  p ++ k :: suffix <> p.
Proof.
  intros H. apply (f_equal (@length string)) in H.
  rewrite length_app in H. cbn [length] in H. lia.
Qed.

(** X18: an array among the values of [exports] or [imports] is
    reported once at its path, with the code of the context, whatever
    it holds; the arrays it holds are reported at their own paths. *)
Theorem fallback_array_flagged_once
        (items : list json) (currentPath : list string)
        (isImports isAfterNodeCondition : bool) :
  fired isFallbackArray currentPath
        (messages (crawlExportsOrImports (JArr items) currentPath isImports
                                         isAfterNodeCondition)) =
  [{| code := if isImports then IMPORTS_FALLBACK_ARRAY_USE
              else EXPORTS_FALLBACK_ARRAY_USE;
      args := []; path := currentPath; type := warning |}].
Proof.
  cbn [crawlExportsOrImports]. rewrite messages_bind. cbn [push snd messages fst].
  rewrite fired_app. cbn [fired filter code].
  rewrite pathIs_true by reflexivity.
  replace (isFallbackArray (if isImports then IMPORTS_FALLBACK_ARRAY_USE
                            else EXPORTS_FALLBACK_ARRAY_USE))
    with true by (destruct isImports; reflexivity).
  cbn [andb app]. f_equal.
  apply (@fired_foreign isFallbackArray currentPath _
           (fun m => exists k suffix, path m = currentPath ++ k :: suffix)).
  - apply forItems_only. intros key item _.
    eapply only_weaken; [| apply crawl_inScope].
    intros m (suffix & Hp & _). exists (Str.ofNat key), suffix.
    rewrite <- app_assoc in Hp. exact Hp.
  - intros m (k & suffix & Hp) _ Hq. rewrite Hq in Hp.
    symmetry in Hp. exact (@path_not_below _ _ _ Hp).
Qed.

(** *** The place of [types] in a condition map *)

Lemma startsWith_refl (s : string) : Str.startsWith s s = true.
Proof. apply prefix_refl. Qed.

(** X19: of the messages of the crawl of a condition map at [p], those
    on the place of [types] at the key [types] are none in [imports],
    none where the map has no key [types], and none where [types] is
    its first key; there is exactly one in [exports] where [types] is
    the second key and the first key, which does not start with
    [types], maps to a text that is no raw TypeScript file. *)
Theorem types_should_be_first
        (members : list (string * json)) (p : list string)
        (isImports isAfterNodeCondition : bool) :
  let out := messages (crawlExportsOrImports (JObj members) p isImports
                                             isAfterNodeCondition) in
  let atTypes := fired isTypesFirst (p ++ ["types"]) out in
  (isImports = true \/ ~ In "types" (keys members) \/
   nth_error (keys members) 0 = Some "types" ->
   atTypes = []) /\
  (forall key s t rest,
      members = (key, JStr s) :: ("types", t) :: rest ->
      isImports = false ->
      Str.startsWith key "types" = false ->
      isFilePathRawTs s = false ->
      atTypes =
      [{| code := EXPORTS_TYPES_SHOULD_BE_FIRST; args := [];
          path := p ++ ["types"]; type := error |}]).
Proof.
  cbv zeta. rewrite messages_crawl_object, !fired_app.
  rewrite (@fired_foreign isTypesFirst (p ++ ["types"]) _ _ _
             (moduleShouldPrecedeRequire_only members p isImports))
    by (intros x [_ Hc] Hs; destruct (code x); discriminate).
  rewrite (@fired_foreign isTypesFirst (p ++ ["types"]) _ _ _
             (defaultShouldBeLast_only members p isImports))
    by (intros x [_ Hc] Hs; destruct (code x); discriminate).
  rewrite fired_crawlMembers
    by (try reflexivity; intros []; simpl; congruence).
  rewrite !app_nil_r. unfold typesShouldBeFirst. split.
  - intros [-> | [Hnot | Hfirst]]; [reflexivity | |].
    + destruct (Str.mem "types" (keys members)) eqn:Hmem;
        [apply mem_In in Hmem; contradiction |].
      rewrite andb_false_r. reflexivity.
    + rewrite Hfirst. cbn [optString_eqb String.eqb Ascii.eqb Bool.eqb negb].
      rewrite andb_false_r. reflexivity.
  - intros key s t rest -> -> Hkey Hraw.
    assert (Hne : String.eqb key "types" = false).
    { destruct (String.eqb_spec key "types") as [-> |]; [| reflexivity].
      rewrite startsWith_refl in Hkey. discriminate. }
    unfold precedingKeys.
    cbn [keys map fst nth_error optString_eqb indexOf Str.mem existsb].
    rewrite Hne. cbn [String.eqb Ascii.eqb Bool.eqb orb andb negb option_map].
    rewrite orb_true_r.
    cbn [firstn filter]. rewrite Hkey, Hraw.
    cbn [negb length Nat.eqb existsb snd isObjectType typeOf String.eqb
         Ascii.eqb Bool.eqb andb orb when].
    cbn [messages push fst fired filter code isTypesFirst andb].
    rewrite pathIs_true by reflexivity. reflexivity.
Qed.

(** *** Values that do not start with [./] *)

Lemma deprecatedSubpathMapping_plain (exportsValue : string)
      (currentPath : list string) (isImports : bool) :
  Str.endsWith exportsValue "/" = false ->
  deprecatedSubpathMapping exportsValue currentPath isImports =
  ret exportsValue.
Proof. unfold deprecatedSubpathMapping. intros ->. reflexivity. Qed.

(** X20: for a text of [exports] that does not end in a slash, and for
    one of [imports] that also starts with a dot, the task pushes the
    message on an invalid value exactly once where the text does not
    start with [./], with the text it proposes, and not where it
    does. *)
Theorem value_should_start_with_dot_slash
        (exportsValue : string) (currentPath : list string)
        (isImports isAfterNodeCondition : bool) :
  Str.endsWith exportsValue "/" = false ->
  (isImports = true -> Str.startsWith exportsValue "." = true) ->
  filter (fun m => isValueInvalid (code m))
         (messages (crawlLeaf exportsValue currentPath isImports
                              isAfterNodeCondition)) =
  if Str.startsWith exportsValue "./" then []
  else [valueInvalidMessage exportsValue currentPath isImports].
Proof.
  intros Hends Hdot.
  rewrite (crawlLeaf_from _ _ _ Hdot), (@deprecatedSubpathMapping_plain _ currentPath isImports Hends).
  change (ret exportsValue) with (lift (Ok exportsValue)).
  rewrite bind_lift_Ok. unfold crawlLeafFrom. cbv zeta.
  rewrite messages_bind.
  assert (Hwhen : forall b m, snd (when b (push m)) = Ok tt)
    by (intros [] ?; reflexivity).
  rewrite Hwhen, filter_app.
  match goal with
  | |- _ ++ filter _ (messages ?rest) = _ =>
      rewrite (@filter_none isValueInvalid _
                 (emits ([IMPORTS_GLOB_NO_MATCHED_FILES;
                          EXPORTS_GLOB_NO_MATCHED_FILES;
                          EXPORTS_VALUE_CONFLICTS_WITH_BROWSER] ++ fileCodes)
                        currentPath) rest)
  end.
  - rewrite app_nil_r.
    destruct (Str.startsWith exportsValue "./"); [reflexivity |].
    cbn [negb when messages push fst filter code].
    replace (isValueInvalid (if isImports then IMPORTS_VALUE_INVALID
                             else EXPORTS_VALUE_INVALID))
      with true by (destruct isImports; reflexivity).
    reflexivity.
  - only_auto.
    + eapply only_weaken; [| apply browserConflict_emits].
      apply hasCode_incl; intros []; simpl; congruence.
    + eapply only_weaken; [| apply crawlFile_emits].
      apply hasCode_incl; intros []; simpl; congruence.
  - apply emits_not. reflexivity.
Qed.

(** *** Declaration files met twice *)

Lemma checkTypesOne_seen (typesFilePath : json)
      (exportsRootValue : option json) (exportsPath : list string)
      (env : option string) (importResult requireResult : option Resolved)
      (isDualPublish : bool) (format : string)
      (seen seen' : list string) (r : Resolved) :
  resolveExportsOf exportsRootValue (withEnv ["types"; format] env)
                   exportsPath = Some r ->
  snd (checkTypesOne typesFilePath exportsRootValue exportsPath env
         importResult requireResult isDualPublish format seen) = Ok seen' ->
  Str.mem (seenKeyOf r isDualPublish format) seen' = true.
Proof.
  intros Hr. unfold checkTypesOne. rewrite Hr. cbv zeta.
  fold (seenKeyOf r isDualPublish format).
  destruct (Str.mem (seenKeyOf r isDualPublish format) seen) eqn:Hmem.
  - intros H. injection H as <-. exact Hmem.
  - assert (Hhead : Str.mem (seenKeyOf r isDualPublish format)
                      (seenKeyOf r isDualPublish format :: seen) = true).
    { cbn [Str.mem existsb]. rewrite String.eqb_refl. reflexivity. }
    destruct (negb (Vfs.isPathExist vfs (Vfs.pathJoin vfs pkgDir (value r)))).
    + intros H. injection H as <-. exact Hhead.
    + rewrite outcome_bind.
      match goal with
      | |- match snd ?c with _ => _ end = _ -> _ => destruct (snd c)
      end; try discriminate.
      intros H. injection H as <-. exact Hhead.
Qed.

Lemma checkTypesOne_skip (typesFilePath : json)
      (exportsRootValue : option json) (exportsPath : list string)
      (env : option string) (importResult requireResult : option Resolved)
      (isDualPublish : bool) (format : string)
      (seen : list string) (r : Resolved) :
  resolveExportsOf exportsRootValue (withEnv ["types"; format] env)
                   exportsPath = Some r ->
  Str.mem (seenKeyOf r isDualPublish format) seen = true ->
  checkTypesOne typesFilePath exportsRootValue exportsPath env
    importResult requireResult isDualPublish format seen = ret seen.
Proof.
  intros Hr Hmem. unfold checkTypesOne. rewrite Hr. cbv zeta.
  fold (seenKeyOf r isDualPublish format). rewrite Hmem. reflexivity.
Qed.

(** X21: in a package that does not publish two formats of an entry
    point, a declaration file that the conditions [types] and [import]
    and the conditions [types] and [require] resolve to at the same
    path is checked once: the check for [require] adds no message to
    those of the check for [import]. *)
Theorem same_declaration_checked_once
        (typesFilePath : json) (exportsRootValue : option json)
        (exportsPath : list string) (env : option string)
        (seenResolvedKeys : list string) (r r' : Resolved) :
  let importResult :=
    resolveExportsOf exportsRootValue (withEnv ["import"] env) exportsPath in
  let requireResult :=
    resolveExportsOf exportsRootValue (withEnv ["require"] env) exportsPath in
  isDualPublishOf importResult requireResult = false ->
  resolveExportsOf exportsRootValue (withEnv ["types"; "import"] env)
                   exportsPath = Some r ->
  resolveExportsOf exportsRootValue (withEnv ["types"; "require"] env)
                   exportsPath = Some r' ->
  matched r = matched r' ->
  messages (checkTypesEnv typesFilePath exportsRootValue exportsPath env
                          seenResolvedKeys) =
  messages (checkTypesOne typesFilePath exportsRootValue exportsPath env
              importResult requireResult false "import" seenResolvedKeys).
Proof.
  cbv zeta. intros Hdual Hr Hr' Hsame. unfold checkTypesEnv. cbv zeta.
  rewrite Hdual, messages_bind.
  destruct (snd (checkTypesOne typesFilePath exportsRootValue exportsPath env
                   _ _ false "import" seenResolvedKeys)) as [seen | |] eqn:Hone;
    try apply app_nil_r.
  pose proof (@checkTypesOne_seen _ _ _ _ _ _ _ _ _ _ _ Hr Hone) as Hmem.
  rewrite (@checkTypesOne_skip typesFilePath _ _ _ _ _ false "require" seen r' Hr').
  - apply app_nil_r.
  - unfold seenKeyOf in *. rewrite <- Hsame. exact Hmem.
Qed.

(** *** The path a message on a declaration file proposes *)

Lemma indexOf_last (key : string) (init : list string) :
  ~ In key init -> indexOf key (init ++ [key]) = Some (length init).
Proof.
  induction init as [|k init IH]; intros Hnot; cbn [app indexOf length].
  - rewrite String.eqb_refl. reflexivity.
  - destruct (String.eqb_spec k key) as [-> | _].
    + exfalso. apply Hnot. left. reflexivity.
    + rewrite IH; [reflexivity |]. intros Hin. apply Hnot. right. exact Hin.
Qed.

Lemma indexOf_None (key : string) (l : list string) :
  ~ In key l -> indexOf key l = None.
Proof.
  intros Hnot. pose proof (mem_indexOf key l) as H.
  destruct (indexOf key l); [| reflexivity].
  apply mem_In in H. contradiction.
Qed.

(** X22: the path proposed with the message on the format of a
    declaration file, as the comment in the source has it: a resolved
    path that holds the condition is kept; in one that ends in its
    only [types] the condition is put before [types]; to one without
    [types] the condition is added at the end. *)
Theorem expectPath_places_condition (path init : list string)
        (format : string) :
  (In format path -> expectPathFor path format = path) /\
  (~ In format (init ++ ["types"]) -> ~ In "types" init ->
   expectPathFor (init ++ ["types"]) format = init ++ [format; "types"]) /\
  (~ In format path -> ~ In "types" path ->
   expectPathFor path format = path ++ [format]).
Proof.
  unfold expectPathFor. repeat split.
  - intros Hin. apply mem_In in Hin. rewrite Hin. reflexivity.
  - intros Hformat Htypes.
    destruct (Str.mem format (init ++ ["types"])) eqn:Hmem;
      [apply mem_In in Hmem; contradiction |].
    rewrite (@indexOf_last "types" init Htypes), length_app. cbn [length].
    replace (length init + 1 - 1) with (length init) by lia.
    rewrite Nat.eqb_refl.
    rewrite firstn_app, Nat.sub_diag, firstn_all. cbn [firstn].
    rewrite app_nil_r, skipn_app, Nat.sub_diag, skipn_all. reflexivity.
  - intros Hformat Htypes.
    destruct (Str.mem format path) eqn:Hmem;
      [apply mem_In in Hmem; contradiction |].
    rewrite (@indexOf_None "types" path Htypes). reflexivity.
Qed.

(* =================================================================== *)
(** ** Properties of [core] *)
(* =================================================================== *)

Lemma pass_outcome_bind (A B : Type) (m : Pass.M A) (f : A -> Pass.M B) :
  snd (Pass.bind m f) =
  match snd m with
  | Ok a => snd (f a)
  | Throw => Throw
  | OutOfFuel => OutOfFuel
  end.
Proof. unfold Pass.bind. destruct (snd m); reflexivity. Qed.

Lemma pass_messages_bind (A B : Type) (m : Pass.M A) (f : A -> Pass.M B) :
  fst (Pass.bind m f) =
  fst m ++ match snd m with Ok a => fst (f a) | _ => [] end.
Proof.
  unfold Pass.bind. destruct (snd m); simpl; auto using app_nil_r.
Qed.

Lemma queue_settles (task : Pass.M unit) :
  exists p, snd (queue task) = Ok [p] /\
            (p = rejected <-> snd task = Throw).
Proof.
  unfold queue. destruct (snd task); eexists; (split; [reflexivity |]);
    split; congruence.
Qed.

(** *** The manifest *)

Lemma readRootPkg_fails :
  Vfs.readFile vfs rootPkgPath = None \/
  (exists text, Vfs.readFile vfs rootPkgPath = Some text /\
                JSON_parse text = None) ->
  snd readRootPkg = Throw.
Proof.
  unfold readRootPkg, readFile. intros [Hread | (text & Hread & Hparse)];
    rewrite Hread.
  - reflexivity.
  - rewrite outcome_bind.
    destruct (reportUnpublished_pushes (Some []) rootPkgPath) as (Hok & _).
    rewrite outcome_bind, Hok. cbn [ret snd]. rewrite Hparse. reflexivity.
Qed.

(** X23: [core] throws where the manifest of the package cannot be
    read or cannot be parsed, for every level and with or without
    [strict]; and it throws on a manifest that is [null]. *)
Theorem core_needs_manifest (level : MessageType) (strict : bool) :
  (Vfs.readFile vfs rootPkgPath = None \/
   (exists text, Vfs.readFile vfs rootPkgPath = Some text /\
                 JSON_parse text = None) \/
   rootPkg = JNull) ->
  core level strict = Throw.
Proof.
  intros H. unfold core, checks. cbv zeta.
  rewrite pass_outcome_bind, pass_outcome_bind. cbn [entry snd].
  assert (Hcases : snd readRootPkg = Throw \/
                   (rootPkg = JNull /\ snd readRootPkg <> OutOfFuel)).
  { destruct H as [H | [H | H]];
      [left; apply readRootPkg_fails; auto
      | left; apply readRootPkg_fails; auto |].
    right. split; [exact H |].
    unfold readRootPkg, readFile.
    destruct (Vfs.readFile vfs rootPkgPath) as [text|].
    - rewrite outcome_bind.
      destruct (reportUnpublished_pushes (Some []) rootPkgPath) as (Hok & _).
      rewrite outcome_bind, Hok. cbn [ret snd].
      destruct (JSON_parse text); discriminate.
    - discriminate. }
  destruct Hcases as [-> | [-> Hfuel]]; [reflexivity |].
  destruct (snd readRootPkg); [| reflexivity | contradiction].
  rewrite pass_outcome_bind. reflexivity.
Qed.

(** *** The level and [strict] *)

Lemma escalate_type (m : Pass.message) : Pass.type (escalate m) <> warning.
Proof.
  unfold escalate. destruct (Pass.type m) eqn:H; cbn; congruence.
Qed.

Lemma filter_escalate (l : list Pass.message) :
  filter isError (map escalate l) =
  map escalate (filter (fun m => negb (isSuggestion m)) l).
Proof.
  induction l as [|m l IH]; [reflexivity |].
  cbn [map filter]. rewrite IH.
  unfold isError, isSuggestion, escalate.
  destruct (Pass.type m) eqn:H; cbn; rewrite ?H; reflexivity.
Qed.

(** X24: the messages [core] returns with [strict] hold no warning;
    those it returns for the level [warning] are the ones for the
    level [suggestion] that are no suggestions, and those for the level
    [error] the ones that are errors; with [strict] the level [error]
    returns what the level [warning] returns without it, each warning
    made an error; the manifest returned is the one parsed, and
    whether [core] returns depends on neither option. *)
Theorem level_and_strict (level : MessageType) (strict : bool) (r : Result) :
  core level strict = Ok r ->
  pkg r = rootPkg /\
  (strict = true ->
   forall m, In m (resultMessages r) -> Pass.type m <> warning) /\
  (exists all,
      core suggestion strict = Ok all /\
      resultMessages r =
      match level with
      | suggestion => resultMessages all
      | warning => filter (fun m => negb (isSuggestion m)) (resultMessages all)
      | error => filter isError (resultMessages all)
      end) /\
  (exists plain strictly,
      core warning false = Ok plain /\ core error true = Ok strictly /\
      resultMessages strictly = map escalate (resultMessages plain)).
Proof.
  unfold core. cbv zeta.
  destruct (snd (Pass.bind checks (fun promises => Pass.lift (wait promises))));
    try discriminate.
  intros H. injection H as <-. cbn [pkg resultMessages].
  split; [reflexivity | split; [| split]].
  - intros -> m Hm. unfold report in Hm.
    assert (Hin : In m (map escalate
                          (fst (Pass.bind checks
                                  (fun promises => Pass.lift (wait promises)))))).
    { destruct level; try (apply filter_In in Hm as [Hm _]); exact Hm. }
    apply in_map_iff in Hin as (x & <- & _). apply escalate_type.
  - eexists. split; [reflexivity |]. cbn [resultMessages].
    unfold report. destruct level; reflexivity.
  - eexists. eexists. split; [reflexivity | split; [reflexivity |]].
    cbn [resultMessages]. unfold report. apply filter_escalate.
Qed.

(** *** What the tasks of [core] push *)

Lemma passOnly_ret (A : Type) (P : Pass.message -> Prop) (a : A) :
  passOnly P (Pass.ret a).
Proof. intros x []. Qed.

Lemma passOnly_lift (A : Type) (P : Pass.message -> Prop) (o : outcome A) :
  passOnly P (Pass.lift o).
Proof. intros x []. Qed.

Lemma passOnly_push (P : Pass.message -> Prop) (m : Pass.message) :
  P m -> passOnly P (Pass.push m).
Proof. intros Hm x [<- | []]. exact Hm. Qed.

Lemma passOnly_bind (A B : Type) (P : Pass.message -> Prop)
      (m : Pass.M A) (f : A -> Pass.M B) :
  passOnly P m -> (forall a, snd m = Ok a -> passOnly P (f a)) ->
  passOnly P (Pass.bind m f).
Proof.
  intros Hm Hf x Hx. rewrite pass_messages_bind in Hx.
  apply in_app_or in Hx as [Hx | Hx]; [auto |].
  destruct (snd m) as [a| |] eqn:Ha; [| destruct Hx | destruct Hx].
  exact (Hf a eq_refl x Hx).
Qed.

Lemma passOnly_when (P : Pass.message -> Prop) (b : bool) (m : Pass.M unit) :
  (b = true -> passOnly P m) -> passOnly P (Pass.when b m).
Proof. destruct b; simpl; intros H; [auto | apply passOnly_ret]. Qed.

Lemma passOnly_queue (P : Pass.message -> Prop) (task : Pass.M unit) :
  passOnly P task -> passOnly P (queue task).
Proof.
  intros H x Hx. apply H. unfold queue in Hx.
  destruct (snd task); exact Hx.
Qed.

(** A check on entry points pushes none of the codes of the checks on
    the package. *)
Lemma passOnly_entry (A : Type) (m : M A) : passOnly fromTask (entry m).
Proof.
  intros x Hx. unfold entry in Hx. cbn [fst] in Hx.
  apply in_map_iff in Hx as ([c a p t] & <- & _). split; reflexivity.
Qed.

Ltac pass_step :=
  match goal with
  | |- passOnly _ (Pass.bind _ _) => apply passOnly_bind; [| intros ? ?]
  | |- passOnly _ (Pass.ret _) => apply passOnly_ret
  | |- passOnly _ (Pass.lift _) => apply passOnly_lift
  | |- passOnly _ (entry _) => apply passOnly_entry
  | |- passOnly _ (Pass.when _ _) => apply passOnly_when; intros ?
  | |- passOnly _ (queue _) => apply passOnly_queue
  | |- passOnly _ (Pass.push _) =>
      apply passOnly_push;
      repeat match goal with
             | |- context [if ?b then _ else _] => destruct b
             end; split; reflexivity
  | |- passOnly _ (if ?b then _ else _) => destruct b eqn:?
  | |- passOnly _ (match ?x with _ => _ end) => destruct x eqn:?
  | |- passOnly _ (let (_, _) := ?x in _) => destruct x eqn:?
  end.

Lemma useFilesTask_only (paths : list string) :
  passOnly fromTask (useFilesTask paths).
Proof.
  induction paths as [|p rest IH]; cbn [useFilesTask];
    repeat pass_step; exact IH.
Qed.

Lemma licenseTask_only : passOnly fromTask licenseTask.
Proof. unfold licenseTask. repeat pass_step. Qed.

Lemma localDependencies_only (dependencies : list (string * json)) :
  passOnly fromTask (localDependencies dependencies).
Proof.
  induction dependencies as [|[depName depVersion] rest IH];
    cbn [localDependencies]; repeat pass_step; exact IH.
Qed.

Lemma implicitIndexTask_only : passOnly fromTask implicitIndexTask.
Proof. unfold implicitIndexTask. repeat pass_step. Qed.

Lemma moduleTask_only (module : option json) (modulePkgPath : list string) :
  passOnly fromTask (moduleTask module modulePkgPath).
Proof. unfold moduleTask. repeat pass_step. Qed.

Lemma checkRepositoryField_only (repository : option json) :
  passOnly fromTask (checkRepositoryField repository).
Proof. unfold checkRepositoryField. repeat pass_step. Qed.

Lemma checkKnownFields_only (module : option json) (fields : list string) :
  passOnly fromTask (checkKnownFields module fields).
Proof.
  induction fields as [|fieldName rest IH]; cbn [checkKnownFields];
    unfold knownFieldTask; repeat pass_step; exact IH.
Qed.

Lemma crawlBrowser_only (fieldValue : json) :
  forall currentPath, passOnly fromTask (crawlBrowser fieldValue currentPath).
Proof.
  induction fieldValue as [| b | n | s | items IH | members IH]
    using json_induction; intros p; cbn [crawlBrowser];
    try apply passOnly_ret.
  - repeat pass_step.
  - generalize 0 as key.
    induction items as [|v rest IHrest]; intros key;
      [apply passOnly_ret |].
    apply Forall_cons_iff in IH as [IHv IH].
    repeat pass_step; [apply IHv | apply (IHrest IH)].
  - induction members as [|[key v] rest IHrest]; [apply passOnly_ret |].
    apply Forall_cons_iff in IH as [IHv IH].
    repeat pass_step; [apply IHv | apply (IHrest IH)].
Qed.

Lemma checkBrowser_only : passOnly fromTask checkBrowser.
Proof.
  unfold checkBrowser. repeat pass_step. apply crawlBrowser_only.
Qed.

Lemma checkExports_only : passOnly fromTask checkExports.
Proof. unfold checkExports. repeat pass_step. Qed.

Lemma checkBin_only : passOnly fromTask checkBin.
Proof. unfold checkBin. repeat pass_step. Qed.

Lemma checkImports_only : passOnly fromTask checkImports.
Proof. unfold checkImports. repeat pass_step. Qed.

Lemma pass_bind_Ok (A B : Type) (m : Pass.M A) (f : A -> Pass.M B) (b : B) :
  snd (Pass.bind m f) = Ok b ->
  exists a, snd m = Ok a /\ snd (f a) = Ok b /\
            fst (Pass.bind m f) = fst m ++ fst (f a).
Proof.
  rewrite pass_outcome_bind, pass_messages_bind.
  destruct (snd m) as [a | |]; try discriminate.
  intros H. exists a. auto.
Qed.

(** One step along the body of [checks], which has returned. *)
Ltac checks_step H :=
  let a := fresh "q" in
  let Ha := fresh "Hq" in
  let Hm := fresh "Hm" in
  apply pass_bind_Ok in H as (a & Ha & H & Hm);
  rewrite Hm; clear Hm; cbv beta in H |- *.

Lemma checks_pushed (promises : list Settled) :
  snd checks = Ok promises ->
  exists before middle after,
    fst checks =
    before ++
    fst (Pass.when (nullish (getPropOpt (Some rootPkg) "type"))
           (Pass.push (packageMessage USE_TYPE [] ["name"] suggestion))) ++
    middle ++
    fst (missingRootEntrypoint (fst (getPublishedField rootPkg "main"))
                               (fst (getPublishedField rootPkg "module"))) ++
    after /\
    (forall x, In x (before ++ middle ++ after) -> fromTask x).
Proof.
  unfold checks. intros H.
  checks_step H. checks_step H.
  destruct (getPublishedField rootPkg "main") as [main mainPkgPath] eqn:Emain.
  destruct (getPublishedField rootPkg "module") as [module modulePkgPath]
    eqn:Emodule.
  do 15 checks_step H.
  cbn [fst].
  match goal with
  | |- exists before middle after,
        ?s1 ++ ?s2 ++ ?a1 ++ ?a2 ++ ?a3 ++ ?w ++ ?b1 ++ ?b2 ++ ?b3 ++ ?r
            ++ ?rest = _ /\ _ =>
      exists (s1 ++ s2 ++ a1 ++ a2 ++ a3), (b1 ++ b2 ++ b3), rest
  end.
  split; [rewrite <- !app_assoc; reflexivity |].
  intros x Hx.
  repeat (apply in_app_or in Hx; destruct Hx as [Hx | Hx]);
    revert x Hx;
    match goal with
    | |- forall x, In x (fst ?c) -> _ => change (passOnly fromTask c)
    end;
    repeat pass_step;
    auto using useFilesTask_only, licenseTask_only, localDependencies_only,
      implicitIndexTask_only, moduleTask_only, checkRepositoryField_only,
      checkKnownFields_only, checkBrowser_only, checkExports_only,
      checkBin_only, checkImports_only.
Qed.

Lemma core_messages (level : MessageType) (strict : bool) (r : Result) :
  core level strict = Ok r ->
  exists promises,
    snd checks = Ok promises /\ wait promises = Ok tt /\
    resultMessages r = report level strict (fst checks).
Proof.
  unfold core. cbv zeta.
  destruct (snd (Pass.bind checks (fun promises => Pass.lift (wait promises))))
    as [[] | |] eqn:Hrun; try discriminate.
  intros H. injection H as <-. cbn [resultMessages].
  apply pass_bind_Ok in Hrun as (promises & Hchecks & Hwait & ->).
  exists promises. cbn [Pass.lift fst snd] in *. rewrite app_nil_r. auto.
Qed.

Lemma isPackageCode_escalate (c : PackageCode) (m : Pass.message) :
  isPackageCode c (escalate m) = isPackageCode c m.
Proof. unfold escalate. destruct (Pass.type m); reflexivity. Qed.

Lemma filter_code_report (c : PackageCode) (strict : bool)
      (l : list Pass.message) :
  filter (isPackageCode c) (report suggestion strict l) =
  if strict then map escalate (filter (isPackageCode c) l)
  else filter (isPackageCode c) l.
Proof.
  unfold report. destruct strict; [| reflexivity].
  induction l as [|m l IH]; [reflexivity |].
  cbn [map filter]. rewrite isPackageCode_escalate, IH.
  destruct (isPackageCode c m); reflexivity.
Qed.

Lemma filter_fromTask (c : PackageCode) (l : list Pass.message) :
  c = USE_TYPE \/ c = EXPORTS_MISSING_ROOT_ENTRYPOINT ->
  (forall x, In x l -> fromTask x) ->
  filter (isPackageCode c) l = [].
Proof.
  intros Hc Hl. induction l as [|m l IH]; [reflexivity |].
  cbn [filter]. destruct (Hl m (or_introl eq_refl)) as [H1 H2].
  destruct Hc as [-> | ->]; rewrite ?H1, ?H2; apply IH;
    intros x Hx; apply Hl; right; exact Hx.
Qed.

Lemma missingRootEntrypoint_pushes :
  fst (missingRootEntrypoint (fst (getPublishedField rootPkg "main"))
                             (fst (getPublishedField rootPkg "module"))) =
  if lacksRootEntrypoint then [missingRootMessage false] else [].
Proof.
  unfold missingRootEntrypoint, lacksRootEntrypoint. cbv zeta.
  destruct (negb (nullish (fst (getPublishedField rootPkg "main"))) ||
            negb (nullish (fst (getPublishedField rootPkg "module"))));
    cbn [andb]; [| destruct exports as [[]|]; reflexivity].
  destruct exports as [[| b | n | s | items | members]|]; try reflexivity;
    cbn [nullish negb typeOf String.eqb Ascii.eqb Bool.eqb].
  - destruct (map fst (forIn (Some (JArr items)))) as [|first rest];
      [reflexivity |].
    cbn [nth_error].
    destruct (Str.startsWith first "." && negb (Str.mem "." (first :: rest)));
      reflexivity.
  - destruct (map fst (forIn (Some (JObj members)))) as [|first rest];
      [reflexivity |].
    cbn [nth_error].
    destruct (Str.startsWith first "." && negb (Str.mem "." (first :: rest)));
      reflexivity.
Qed.

(** X25: among the messages [core] returns for the level [suggestion],
    the one on the field [type] is there exactly once where the
    manifest has no [type], or [null] for it, and not otherwise; no
    task pushes another. *)
Theorem use_type_suggested_once (strict : bool) (r : Result) :
  core suggestion strict = Ok r ->
  filter (isPackageCode USE_TYPE) (resultMessages r) =
  if nullish (getPropOpt (Some rootPkg) "type") then [useTypeMessage]
  else [].
Proof.
  intros H. apply core_messages in H as (promises & Hchecks & _ & ->).
  rewrite filter_code_report.
  destruct (checks_pushed Hchecks) as (before & middle & after & -> & Hrest).
  rewrite !filter_app, missingRootEntrypoint_pushes.
  rewrite (@filter_fromTask USE_TYPE before),
          (@filter_fromTask USE_TYPE middle),
          (@filter_fromTask USE_TYPE after);
    try (left; reflexivity);
    try (intros x Hx; apply Hrest; rewrite !in_app_iff; tauto).
  replace (filter (isPackageCode USE_TYPE)
             (if lacksRootEntrypoint then [missingRootMessage false] else []))
    with (@nil Pass.message) by (destruct lacksRootEntrypoint; reflexivity).
  rewrite !app_nil_r. cbn [app].
  destruct (nullish (getPropOpt (Some rootPkg) "type")), strict; reflexivity.
Qed.

(** X26: among the messages [core] returns for the level [suggestion],
    the one on [exports] without a root entry point is there exactly
    once where [main] or [module] is given and [exports] is an object
    or an array whose first key starts with a dot and that has no key
    [.], and not otherwise; it is a warning, and an error with
    [strict]. *)
Theorem missing_root_entrypoint_once (strict : bool) (r : Result) :
  core suggestion strict = Ok r ->
  filter (isPackageCode EXPORTS_MISSING_ROOT_ENTRYPOINT) (resultMessages r) =
  if lacksRootEntrypoint then [missingRootMessage strict] else [].
Proof.
  intros H. apply core_messages in H as (promises & Hchecks & _ & ->).
  rewrite filter_code_report.
  destruct (checks_pushed Hchecks) as (before & middle & after & -> & Hrest).
  rewrite !filter_app, missingRootEntrypoint_pushes.
  rewrite (@filter_fromTask EXPORTS_MISSING_ROOT_ENTRYPOINT before),
          (@filter_fromTask EXPORTS_MISSING_ROOT_ENTRYPOINT middle),
          (@filter_fromTask EXPORTS_MISSING_ROOT_ENTRYPOINT after);
    try (right; reflexivity);
    try (intros x Hx; apply Hrest; rewrite !in_app_iff; tauto).
  replace (filter (isPackageCode EXPORTS_MISSING_ROOT_ENTRYPOINT)
             (fst (Pass.when (nullish (getPropOpt (Some rootPkg) "type"))
                     (Pass.push (packageMessage USE_TYPE [] ["name"]
                                                suggestion)))))
    with (@nil Pass.message)
    by (destruct (nullish (getPropOpt (Some rootPkg) "type")); reflexivity).
  rewrite !app_nil_r. cbn [app].
  destruct lacksRootEntrypoint, strict; reflexivity.
Qed.

(** *** A task that throws *)

Lemma pass_bind_settles (A B : Type) (m : Pass.M A) (f : A -> Pass.M B) :
  snd m <> OutOfFuel ->
  (forall a, snd m = Ok a -> snd (f a) <> OutOfFuel) ->
  snd (Pass.bind m f) <> OutOfFuel.
Proof.
  intros Hm Hf. rewrite pass_outcome_bind.
  destruct (snd m) as [a | |]; [exact (Hf a eq_refl) | discriminate |].
  contradiction.
Qed.

Lemma queue_returns (task : Pass.M unit) : snd (queue task) <> OutOfFuel.
Proof. unfold queue. destruct (snd task); discriminate. Qed.

Lemma promiseQueue_push_returns (task : M unit) :
  snd (promiseQueue_push task) <> OutOfFuel.
Proof. unfold promiseQueue_push. destruct (snd task); discriminate. Qed.

Lemma readRootPkg_returns : snd readRootPkg <> OutOfFuel.
Proof.
  unfold readRootPkg, readFile.
  destruct (Vfs.readFile vfs rootPkgPath) as [text|]; [| discriminate].
  rewrite outcome_bind.
  destruct (reportUnpublished_pushes (Some []) rootPkgPath) as (Hok & _).
  rewrite outcome_bind, Hok. cbn [ret snd].
  destruct (JSON_parse text); discriminate.
Qed.

Lemma crawl_returns (exportsValue : json) (currentPath : list string)
      (isImports isAfterNodeCondition : bool) :
  snd (crawlExportsOrImports exportsValue currentPath isImports
                             isAfterNodeCondition) <> OutOfFuel.
Proof.
  destruct (throwFree exportsValue) eqn:Hfree.
  - destruct (@crawl_ends exportsValue Hfree currentPath isImports
                          isAfterNodeCondition) as [ps ->]. discriminate.
  - rewrite (@crawl_throws exportsValue Hfree). discriminate.
Qed.

Lemma ensureTypeOfField_returns (fieldValue : option json)
      (expectTypes : list string) (pkgPath : list string) :
  exists ok, snd (ensureTypeOfField fieldValue expectTypes pkgPath) = Ok ok.
Proof.
  unfold ensureTypeOfField.
  destruct (negb (Str.mem (typeOf fieldValue) expectTypes));
    eexists; reflexivity.
Qed.

Lemma crawlBin_returns (binValue : json) (currentPath : list string) :
  snd (crawlBin binValue currentPath) <> OutOfFuel.
Proof.
  assert (Heach : forall members,
             snd ((fix each (members : list (string * json))
                     : M (list Settled) :=
                     match members with
                     | [] => ret []
                     | (key, v) :: rest =>
                         let binPath := currentPath ++ [key] in
                         ok <- ensureTypeOfField (Some v) ["string"] binPath ;;
                         ps <- match ok, v with
                               | true, JStr s =>
                                   promiseQueue_push (binTask s binPath)
                               | _, _ => ret []
                               end ;;
                         qs <- each rest ;;
                         ret (ps ++ qs)
                     end) members) <> OutOfFuel).
  { induction members as [|[key v] rest IH]; [discriminate |].
    cbv zeta. rewrite outcome_bind.
    destruct (ensureTypeOfField_returns (Some v) ["string"]
                                        (currentPath ++ [key])) as [ok ->].
    rewrite outcome_bind.
    match goal with
    | |- match snd ?c with _ => _ end <> _ =>
        assert (Hc : exists ps, snd c = Ok ps)
    end.
    { destruct ok, v; try (eexists; reflexivity).
      destruct (promiseQueue_push_settles
                  (binTask s (currentPath ++ [key]))) as [p Hp].
      eexists. exact Hp. }
    destruct Hc as [ps ->]. rewrite outcome_bind.
    destruct (snd _); try discriminate. contradiction. }
  unfold crawlBin. destruct binValue; try discriminate;
    try apply promiseQueue_push_returns;
    (destruct (isObjectType _); [apply Heach | discriminate]).
Qed.

Lemma getProp_returns (v : option json) (p : string) :
  getProp v p <> OutOfFuel.
Proof.
  unfold getProp. destruct v as [[]|];
    repeat match goal with
           | |- context [if ?b then _ else _] => destruct b
           end; discriminate.
Qed.

Lemma inOperator_returns (key : string) (obj : json) :
  inOperator key obj <> OutOfFuel.
Proof.
  unfold inOperator, hasProperty.
  destruct obj; try discriminate;
    match goal with
    | |- match getProp ?v ?p with _ => _ end <> _ =>
        pose proof (getProp_returns v p);
        destruct (getProp v p) as [[]| |]; try discriminate; contradiction
    end.
Qed.

Ltac settle_step :=
  match goal with
  | |- snd (Pass.bind _ _) <> OutOfFuel =>
      apply pass_bind_settles; [| intros ? ?]
  | |- snd (queue _) <> OutOfFuel => apply queue_returns
  | |- snd (entry ?m) <> OutOfFuel => change (snd m <> OutOfFuel)
  | |- snd (promiseQueue_push _) <> OutOfFuel =>
      apply promiseQueue_push_returns
  | |- snd (crawlExportsOrImports _ _ _ _) <> OutOfFuel =>
      apply crawl_returns
  | |- snd (crawlBin _ _) <> OutOfFuel => apply crawlBin_returns
  | |- snd readRootPkg <> OutOfFuel => apply readRootPkg_returns
  | |- snd (ensureTypeOfField ?v ?t ?p) <> OutOfFuel =>
      let ok := fresh "ok" in
      destruct (ensureTypeOfField_returns v t p) as [ok ->]; discriminate
  | |- snd (Pass.ret _) <> OutOfFuel => discriminate
  | |- snd (ret _) <> OutOfFuel => discriminate
  | |- snd (lift Throw) <> OutOfFuel => discriminate
  | |- snd (Pass.push _) <> OutOfFuel => discriminate
  | |- snd (Pass.lift (getProp ?v ?p)) <> OutOfFuel =>
      exact (getProp_returns v p)
  | |- snd (Pass.lift (inOperator ?k ?o)) <> OutOfFuel =>
      exact (inOperator_returns k o)
  | |- snd (Pass.when ?b _) <> OutOfFuel => destruct b; cbn [Pass.when]
  | |- snd (if ?b then _ else _) <> OutOfFuel => destruct b eqn:?
  | |- snd (match ?x with _ => _ end) <> OutOfFuel => destruct x eqn:?
  | |- snd (let (_, _) := ?x in _) <> OutOfFuel => destruct x eqn:?
  end.

Lemma checkKnownFields_returns (module : option json)
      (fields : list string) :
  snd (checkKnownFields module fields) <> OutOfFuel.
Proof.
  induction fields as [|fieldName rest IH]; cbn [checkKnownFields];
    repeat settle_step; exact IH.
Qed.

Lemma crawlBrowser_returns (fieldValue : json) :
  forall currentPath,
    snd (crawlBrowser fieldValue currentPath) <> OutOfFuel.
Proof.
  induction fieldValue as [| b | n | s | items IH | members IH]
    using json_induction; intros p; cbn [crawlBrowser];
    try discriminate.
  - apply queue_returns.
  - generalize 0 as key.
    induction items as [|v rest IHrest]; intros key; [discriminate |].
    apply Forall_cons_iff in IH as [IHv IH].
    repeat settle_step; [apply IHv | apply (IHrest IH)].
  - induction members as [|[key v] rest IHrest]; [discriminate |].
    apply Forall_cons_iff in IH as [IHv IH].
    repeat settle_step; [apply IHv | apply (IHrest IH)].
Qed.

(** The body of [core] up to [wait] returns or throws. *)
Lemma checks_returns : snd checks <> OutOfFuel.
Proof.
  unfold checks, checkMain, missingRootEntrypoint, checkBrowser,
    checkExports, doCheckTypesExported, checkTypesExported, checkBin,
    checkImports.
  repeat settle_step;
    auto using checkKnownFields_returns, crawlBrowser_returns.
Qed.

Ltac promises_step H :=
  let a := fresh "q" in
  let Ha := fresh "Hq" in
  apply pass_bind_Ok in H as (a & Ha & H & _); cbv beta in H.

(** The promises of the tasks on [dependencies] and on [repository]
    are among those [wait] looks at. *)
Lemma checks_promises (promises : list Settled) :
  snd checks = Ok promises ->
  (truthy (getPropOpt (Some rootPkg) "dependencies") = true ->
   forall p,
     snd (queue (localDependencies
                   (forIn (getPropOpt (Some rootPkg) "dependencies"))))
     = Ok [p] ->
     In p promises) /\
  (inOperator "repository" rootPkg = Ok true ->
   forall p,
     snd (queue (checkRepositoryField
                   (getPropOpt (Some rootPkg) "repository"))) = Ok [p] ->
     In p promises).
Proof.
  unfold checks. intros H.
  promises_step H. promises_step H.
  destruct (getPublishedField rootPkg "main") as [main mainPkgPath].
  destruct (getPublishedField rootPkg "module") as [module modulePkgPath].
  do 15 promises_step H.
  cbn [Pass.ret snd] in H. injection H as <-. split.
  - intros Hdeps p Hp. rewrite Hdeps, Hp in Hq3. injection Hq3 as <-.
    rewrite !in_app_iff. cbn [In]. tauto.
  - intros Hrepo p Hp. cbn [Pass.lift snd] in Hq9. rewrite Hrepo in Hq9.
    injection Hq9 as <-. rewrite Hp in Hq10. injection Hq10 as <-.
    rewrite !in_app_iff. cbn [In]. tauto.
Qed.

Lemma localDependencies_throws (dependencies : list (string * json))
      (depName : string) (depVersion : json) :
  In (depName, depVersion) dependencies ->
  (forall s, depVersion <> JStr s) ->
  snd (localDependencies dependencies) = Throw.
Proof.
  intros Hin Hno. induction dependencies as [|[name v] rest IH];
    [contradiction |].
  cbn [localDependencies].
  destruct v; try reflexivity.
  destruct Hin as [Heq | Hin].
  - injection Heq as _ <-. exfalso. exact (Hno s eq_refl).
  - rewrite pass_outcome_bind.
    destruct (Str.startsWith s "file:" || Str.startsWith s "link:");
      exact (IH Hin).
Qed.

Lemma wait_rejected (promises : list Settled) :
  In rejected promises -> wait promises = Throw.
Proof.
  intros H. unfold wait.
  replace (existsb (fun p => match p with rejected => true | _ => false end)
                   promises) with true; [reflexivity |].
  symmetry. apply existsb_exists. exists rejected. auto.
Qed.

Lemma queue_rejected (task : Pass.M unit) :
  snd task = Throw -> snd (queue task) = Ok [rejected].
Proof. unfold queue. intros ->. reflexivity. Qed.

(** X27: a task that throws makes [core] throw, whatever the other
    tasks find: so a manifest whose [dependencies] give an entry a
    version that is no text, and a manifest whose [repository] is
    [null]. *)
Theorem failed_task_fails_pass (level : MessageType) (strict : bool) :
  (truthy (getPropOpt (Some rootPkg) "dependencies") = true /\
   exists depName depVersion,
     In (depName, depVersion)
        (forIn (getPropOpt (Some rootPkg) "dependencies")) /\
     forall s, depVersion <> JStr s) \/
  (exists members,
      rootPkg = JObj members /\ lookup "repository" members = Some JNull) ->
  core level strict = Throw.
Proof.
  intros H. unfold core. cbv zeta. rewrite pass_outcome_bind.
  pose proof checks_returns as Hreturns.
  destruct (snd checks) as [promises | |] eqn:Hchecks;
    [| reflexivity | contradiction].
  destruct (checks_promises Hchecks) as [Hdeps Hrepo].
  cbn [Pass.lift snd]. rewrite wait_rejected; [reflexivity |].
  destruct H as [[Htruthy (depName & depVersion & Hin & Hno)]
                | (members & Hroot & Hlookup)].
  - apply (Hdeps Htruthy). apply queue_rejected.
    exact (localDependencies_throws _ _ Hin Hno).
  - apply Hrepo.
    + rewrite Hroot. unfold inOperator, hasProperty. cbn [getProp].
      rewrite Hlookup. reflexivity.
    + apply queue_rejected. rewrite Hroot. unfold getPropOpt.
      cbn [getProp]. rewrite Hlookup. reflexivity.
Qed.

End Core.

(* ===================================================================== *)
(** ** The properties on the examples *)
(* ===================================================================== *)

(** The classifier on source texts. *)
Example getCodeFormat_cjs : getCodeFormat "module.exports = {}" = CJS.
Proof. vm_compute. reflexivity. Qed.

Example getCodeFormat_esm : getCodeFormat "export default 1" = ESM.
Proof. vm_compute. reflexivity. Qed.

Example getCodeFormat_mixed :
  getCodeFormat "import a from 'b'; module.exports = a" = mixed.
Proof. vm_compute. reflexivity. Qed.

Example getCodeFormat_unknown : getCodeFormat "console.log(1)" = unknown.
Proof. vm_compute. reflexivity. Qed.

(** A marker inside a comment does not count. *)
Example getCodeFormat_comment :
  getCodeFormat "/* module.exports = 1 */ export const a = 1 // require('x')" = ESM.
Proof. vm_compute. reflexivity. Qed.

(** A text with a marker of CommonJS in a block comment and one in a
    line comment, and a marker of module syntax outside them: without
    its comments the text has the marker of module syntax only. *)
Lemma getCodeFormat_classifies_witness :
  withoutLineComments
    (withoutBlockComments
       "/* module.exports = 1 */ export const a = 1 // require('x')")
  = " export const a = 1 " /\
  getCodeFormat "/* module.exports = 1 */ export const a = 1 // require('x')"
  = ESM /\
  marked esmMarkerAt " export const a = 1 " /\
  ~ marked cjsMarkerAt " export const a = 1 ".
Proof.
  destruct (getCodeFormat_classifies
              "/* module.exports = 1 */ export const a = 1 // require('x')")
    as (_ & _ & Hesm & _).
  split; [vm_compute; reflexivity |].
  split; [vm_compute; reflexivity |].
  apply Hesm. vm_compute. reflexivity.
Defined.

(** Where the comments end: a block comment at the first star and
    slash, also one that holds a slash and a star; one that is not
    closed stays; a line comment at the end of its line. *)
Example stripComments_texts :
  stripComments "a /* b /* c */ d */ e" = "a  d */ e" /\
  stripComments "a /* b" = "a /* b" /\
  stripComments "a /*/ b */ c" = "a  c" /\
  stripComments ("a // b" +++ String "010" "c // d") = "a " +++ String "010" "c ".
Proof. repeat split; vm_compute; reflexivity. Qed.

(** The no-break space is white space: after it a marker counts. *)
Example getCodeFormat_after_no_break_space :
  getCodeFormat (String "160" "export default 1") = ESM /\
  getCodeFormat (String "x" "export default 1") = unknown.
Proof. split; vm_compute; reflexivity. Qed.

Lemma imports_external_value_skipped_witness :
  Str.startsWith "node:fs" "." = false /\
  crawlExportsOrImports Fixture.JSON_parse Fixture.fuel Fixture.constants
    "/pkg" (MemFs.make []) None (JObj []) Fixture.realm (JStr "node:fs")
    ["imports"; "#fs"] true false
  = ([], Ok [fulfilled]).
Proof.
  split; [reflexivity |].
  apply (imports_external_value_skipped Fixture.JSON_parse Fixture.fuel
           Fixture.constants "/pkg" (MemFs.make []) None (JObj [])
           Fixture.realm "node:fs" ["imports"; "#fs"] false).
  reflexivity.
Defined.

(** In [/pkg/sub] the nearest manifest has no [type] field, the one
    above it says [module]: the file is CJS. *)
Lemma getFilePathFormat_rule_witness :
  getFilePathFormat Fixture.JSON_parse Fixture.fuel "/pkg/sub/index.js"
                    Fixture.nested = Ok CJS /\
  getFilePathFormat Fixture.JSON_parse Fixture.fuel "/pkg/index.js"
                    Fixture.nested = Ok ESM /\
  getFilePathFormat Fixture.JSON_parse Fixture.fuel "/pkg/sub/index.native.js.mjs"
                    Fixture.nested = Ok ESM.
Proof.
  split; [| split].
  - destruct (getFilePathFormat_rule Fixture.JSON_parse Fixture.fuel
                Fixture.nested "/pkg/sub/index.js") as (_ & _ & Hwalk).
    destruct (Hwalk eq_refl eq_refl 0) as [Hfound _].
    + unfold Fixture.fuel. lia.
    + intros i Hi. lia.
    + exact (Hfound (JObj []) eq_refl).
  - destruct (getFilePathFormat_rule Fixture.JSON_parse Fixture.fuel
                Fixture.nested "/pkg/index.js") as (_ & _ & Hwalk).
    destruct (Hwalk eq_refl eq_refl 0) as [Hfound _].
    + unfold Fixture.fuel. lia.
    + intros i Hi. lia.
    + exact (Hfound (JObj [("type", JStr "module")]) eq_refl).
  - destruct (getFilePathFormat_rule Fixture.JSON_parse Fixture.fuel
                Fixture.nested "/pkg/sub/index.native.js.mjs") as (Hmjs & _).
    exact (Hmjs eq_refl).
Defined.

(** C1 as stated fails: the specification's walk skips the manifest of
    [/pkg/sub], which has no [type] field, and answers ESM from the one
    above; the code stops at the nearest manifest and answers CJS. *)
Lemma getFilePathFormat_nearest_typed_counterexample :
  getFilePathFormat Fixture.JSON_parse Fixture.fuel "/pkg/sub/index.js"
                    Fixture.nested = Ok CJS /\
  expectedFormat_asSpecified Fixture.JSON_parse Fixture.fuel Fixture.nested
                             "/pkg/sub/index.js" = Ok ESM /\
  getFilePathFormat Fixture.JSON_parse Fixture.fuel "/pkg/sub/index.js"
                    Fixture.nested
  <> expectedFormat_asSpecified Fixture.JSON_parse Fixture.fuel Fixture.nested
                                "/pkg/sub/index.js".
Proof.
  split; [vm_compute; reflexivity |].
  split; [vm_compute; reflexivity |].
  vm_compute. discriminate.
Qed.

(** The pattern [/pkg/dist/*/*.js] takes [a/a.js] and leaves [a/b.js]. *)
Lemma exportsGlob_captures_identical_witness :
  exportsGlob Fixture.fuel "/pkg/dist/*/*.js" Fixture.twice None None None
  = Ok ["/pkg/dist/a/a.js"] /\
  (exists matched,
     globMatch (Str.slash "/pkg/dist/*/*.js") (Str.slash "/pkg/dist/a/a.js")
     = Some matched /\
     forall c, In c matched -> Some c = nth_error matched 0) /\
  ~ In "/pkg/dist/a/b.js" ["/pkg/dist/a/a.js"].
Proof.
  assert (Hglob : exportsGlob Fixture.fuel "/pkg/dist/*/*.js" Fixture.twice
                              None None None = Ok ["/pkg/dist/a/a.js"])
    by (vm_compute; reflexivity).
  destruct (exportsGlob_captures_identical Fixture.fuel Fixture.twice
              "/pkg/dist/*/*.js" None None None Hglob) as [Hin Hout].
  split; [exact Hglob |]. split.
  - apply Hin. left. reflexivity.
  - apply (Hout "/pkg/dist/a/b.js" [Some "a"; Some "b"] (Some "b")).
    + vm_compute. reflexivity.
    + right. left. reflexivity.
    + vm_compute. discriminate.
Defined.

(** The captures are those of the first match the engine finds, the
    first wildcard as long as it can be. *)
Example globMatch_greedy :
  globMatch "*/*" "a/a/a/a/a" = Some [Some "a/a/a/a"; Some "a"] /\
  allGlobSame [Some "a/a/a/a"; Some "a"] = false.
Proof. split; vm_compute; reflexivity. Qed.

(** The crawl of the examples: the package [/pkg] on the file system
    [fs] with the manifest [pkg], nothing packed. *)
Local Abbreviation crawlIn fs pkg :=
  (crawlExportsOrImports Fixture.JSON_parse Fixture.fuel Fixture.constants
                         "/pkg" fs None pkg Fixture.realm).

(** [exports: { require, module }]: one message, at [module]. *)
Lemma module_precedes_require_witness :
  fired isPrecedence ["exports"; "module"]
        (messages (crawlIn Fixture.dual
                     (Fixture.manifest "exports" Fixture.requireBeforeModule)
                     Fixture.requireBeforeModule ["exports"] false false))
  = [{| code := EXPORTS_MODULE_SHOULD_PRECEDE_REQUIRE; args := [];
        path := ["exports"; "module"]; type := error |}].
Proof.
  destruct (module_precedes_require Fixture.JSON_parse Fixture.fuel
              Fixture.constants "/pkg" Fixture.dual None
              (Fixture.manifest "exports" Fixture.requireBeforeModule)
              Fixture.realm
              [("require", JStr "./a.cjs"); ("module", JStr "./a.mjs")]
              ["exports"] false false) as [Hfires _].
  apply (Hfires 1 0); [reflexivity | reflexivity | lia].
Defined.

(** The whole crawl of that map pushes this message and no other. *)
Example requireBeforeModule_messages :
  messages (crawlIn Fixture.dual
              (Fixture.manifest "exports" Fixture.requireBeforeModule)
              Fixture.requireBeforeModule ["exports"] false false)
  = [{| code := EXPORTS_MODULE_SHOULD_PRECEDE_REQUIRE; args := [];
        path := ["exports"; "module"]; type := error |}].
Proof. vm_compute. reflexivity. Qed.

(** [exports: { default, import }]: one message, at [default]. *)
Lemma default_is_last_witness :
  fired isDefaultLast ["exports"; "default"]
        (messages (crawlIn Fixture.dual
                     (Fixture.manifest "exports" Fixture.defaultFirst)
                     Fixture.defaultFirst ["exports"] false false))
  = [{| code := EXPORTS_DEFAULT_SHOULD_BE_LAST; args := [];
        path := ["exports"; "default"]; type := error |}].
Proof.
  destruct (default_is_last Fixture.JSON_parse Fixture.fuel
              Fixture.constants "/pkg" Fixture.dual None
              (Fixture.manifest "exports" Fixture.defaultFirst)
              Fixture.realm
              [("default", JStr "./a.js"); ("import", JStr "./a.mjs")]
              ["exports"] false false) as [Hfires _].
  apply Hfires; [left; reflexivity | vm_compute; discriminate].
Defined.

(** [imports: { foo }]: one message, proposing [#foo]. *)
Lemma imports_keys_flagged_witness :
  fired isKeyInvalid ["imports"; "foo"]
        (messages (crawlIn Fixture.dual
                     (Fixture.manifest "imports" Fixture.importsFoo)
                     Fixture.importsFoo ["imports"] true false))
  = [{| code := IMPORTS_KEY_INVALID;
        args := [("suggestKey", ArgString "#foo")];
        path := ["imports"; "foo"]; type := error |}].
Proof.
  destruct (imports_keys_flagged Fixture.JSON_parse Fixture.fuel
              Fixture.constants "/pkg" Fixture.dual None
              (Fixture.manifest "imports" Fixture.importsFoo)
              Fixture.realm
              [("foo", JStr "./a.js")] ["imports"] false "foo")
    as [Hflagged _].
  apply Hflagged.
  - reflexivity.
  - repeat constructor. intros [].
  - reflexivity.
  - left. reflexivity.
Defined.

(** C6 as stated fails: [node] is a key of a condition map under
    [imports] and does not start with [#], and the crawl of [imports]
    pushes no message on an invalid key, at [node] or anywhere. *)
Lemma imports_nested_key_counterexample :
  Str.startsWith "node" "#" = false /\
  fired isKeyInvalid ["imports"; "#a"; "node"]
        (messages (crawlIn Fixture.dual
                     (Fixture.manifest "imports" Fixture.importsNested)
                     Fixture.importsNested ["imports"] true false)) = [] /\
  filter (fun m => isKeyInvalid (code m))
         (messages (crawlIn Fixture.dual
                      (Fixture.manifest "imports" Fixture.importsNested)
                      Fixture.importsNested ["imports"] true false)) = [].
Proof. repeat split; vm_compute; reflexivity. Qed.

(** [exports: { "./sub/": "./sub/", "./sub/*": "./sub/*" }] in a
    package without the folder: the message on the deprecated mapping, a
    suggestion since the manifest has the wildcard mapping, and the
    message on no matched files. *)
Lemma trailing_slash_mapping_witness :
  let out :=
    messages (crawlLeaf Fixture.JSON_parse Fixture.fuel Fixture.constants
                "/pkg" Fixture.dual None
                (Fixture.manifest "exports" Fixture.folderAndWildcard)
                Fixture.realm
                "./sub/" ["exports"; "./sub/"] false false) in
  filter (fun m => isDeprecatedMapping (code m)) out =
  [{| code := EXPORTS_GLOB_NO_DEPRECATED_SUBPATH_MAPPING;
      args := [("expectPath", ArgList ["exports"; "./sub/*"]);
               ("expectValue", ArgString "./sub/*")];
      path := ["exports"; "./sub/"]; type := suggestion |}] /\
  filter (fun m => isNoMatchedFiles (code m)) out =
  [{| code := EXPORTS_GLOB_NO_MATCHED_FILES; args := [];
      path := ["exports"; "./sub/"]; type := warning |}].
Proof.
  destruct (@trailing_slash_mapping Fixture.JSON_parse Fixture.fuel
              Fixture.constants "/pkg" Fixture.dual None
              (Fixture.manifest "exports" Fixture.folderAndWildcard)
              Fixture.realm
              "./sub/" ["exports"; "./sub/"] false false eq_refl)
    as [_ Hfolder].
  destruct (Hfolder (fun H => False_ind _ (Bool.diff_false_true H)) eq_refl
                    (Own Fixture.realm (Some (JStr "./sub/*"))) eq_refl)
    as (_ & Hdeprecated & Hnone).
  split; [exact Hdeprecated |]. apply (Hnone []). vm_compute. reflexivity.
Defined.

(** C8 as stated fails twice.  The value [dep/] of [imports] ends in a
    slash and its task pushes no message at all.  And in [exports] the
    folder mapping under [import] is an error although the manifest has
    the wildcard mapping of the same key, which has the condition
    [require] only. *)
Lemma trailing_slash_imports_counterexample :
  (Str.endsWith "dep/" "/" = true /\
   messages (crawlIn Fixture.dual
               (Fixture.manifest "imports" Fixture.importsDependency)
               (JStr "dep/") ["imports"; "#dep/"] true false) = []) /\
  (Str.endsWith "./sub/" "/" = true /\
   getProp (Some Fixture.wildcardOtherCondition) "./sub/*"
   = Ok (Some (JObj [("require", JStr "./sub/*")])) /\
   map (fun m => (code m, type m))
       (filter (fun m => isDeprecatedMapping (code m))
          (messages (crawlIn Fixture.dual
                       (Fixture.manifest "exports" Fixture.wildcardOtherCondition)
                       (JStr "./sub/") ["exports"; "./sub/"; "import"]
                       false false)))
   = [(EXPORTS_GLOB_NO_DEPRECATED_SUBPATH_MAPPING, error)]).
Proof. repeat split; vm_compute; reflexivity. Qed.

(** Under the wildcard key the manifest has no condition [toString],
    but the object there inherits a method of that name from the host,
    which is truthy: the message is a suggestion. *)
Example trailing_slash_inherited_member :
  map (fun m => (code m, type m))
      (filter (fun m => isDeprecatedMapping (code m))
         (messages
            (crawlIn Fixture.dual
               (Fixture.manifest "exports"
                  (JObj [("./sub/", JObj [("toString", JStr "./sub/")]);
                         ("./sub/*", JObj [])]))
               (JStr "./sub/") ["exports"; "./sub/"; "toString"] false false)))
  = [(EXPORTS_GLOB_NO_DEPRECATED_SUBPATH_MAPPING, suggestion)].
Proof. vm_compute. reflexivity. Qed.

(** A file of a package of type [module] with the markers of both
    formats brings no message on a mismatch. *)
Lemma undecided_format_no_mismatch_witness :
  getCodeFormat "import a from 'b'; module.exports = a" = mixed /\
  Forall (fun m => isFormatMismatch (code m) = false)
         (messages
            (runCheck Fixture.JSON_parse Fixture.fuel Fixture.constants
               "/pkg" Fixture.undecided None
               (Fixture.manifest "exports" (JStr "./both.js"))
               (ExportedCheck "./both.js" ["exports"] false false false
                              "/pkg/both.js"))).
Proof.
  split; [vm_compute; reflexivity |].
  apply Forall_forall.
  apply (@undecided_format_no_mismatch Fixture.JSON_parse Fixture.fuel
           Fixture.constants "/pkg" Fixture.undecided None
           (Fixture.manifest "exports" (JStr "./both.js"))
           (ExportedCheck "./both.js" ["exports"] false false false
                          "/pkg/both.js")
           "import a from 'b'; module.exports = a").
  - vm_compute. reflexivity.
  - left. vm_compute. reflexivity.
Defined.

(** A text of one format under the extension of the other is
    reported, once. *)
Example decided_format_mismatch :
  messages
    (runCheck Fixture.JSON_parse Fixture.fuel Fixture.constants
       "/pkg" Fixture.mismatch None
       (Fixture.manifest "main" (JStr "./index.mjs"))
       (MainCheck "./index.mjs" ["main"]))
  = [{| code := FILE_INVALID_EXPLICIT_FORMAT;
        args := [("actualFormat", ArgFormat CJS);
                 ("expectFormat", ArgFormat ESM);
                 ("actualExtension", ArgString ".mjs");
                 ("expectExtension", ArgString ".cjs")];
        path := ["main"]; type := warning |}].
Proof. vm_compute. reflexivity. Qed.

(** [exports: { types: "./a.d.cts", import: "./a.mjs" }] in a package
    with the field [types]: the code file is ESM by its extension, the
    declaration file CJS by its own, and the one message of the task
    proposes [.mts] under [import]; the round of [require] resolves to
    the same declaration file and is passed over. *)
Lemma declaration_format_checked_witness :
  filter (fun m => isTypesInvalidFormat (code m))
         (messages
            (checkTypesExportedTask Fixture.JSON_parse Fixture.fuel "/pkg"
               Fixture.typed None Fixture.typedManifest None))
  = [{| code := EXPORTS_TYPES_INVALID_FORMAT;
        args := [("condition", ArgString "import");
                 ("actualFormat", ArgFormat CJS);
                 ("expectFormat", ArgFormat ESM);
                 ("actualExtension", ArgString ".cts");
                 ("expectExtension", ArgString ".mts");
                 ("expectPath", ArgList ["exports"; "import"; "types"])];
        path := ["exports"; "types"]; type := warning |}].
Proof.
  destruct (@declaration_format_checked Fixture.JSON_parse Fixture.fuel
              "/pkg" Fixture.typed None Fixture.typedManifest None)
    as (_ & Hships & Hends & _).
  rewrite (Hships (Some (JStr "./a.d.cts")) (Some Fixture.typedExports)).
  - vm_compute. reflexivity.
  - vm_compute. reflexivity.
  - reflexivity.
  - vm_compute. reflexivity.
  - apply (Hends "./a.d.cts" (Some Fixture.typedExports));
      vm_compute; reflexivity.
Defined.

(** C9 as stated fails, in three ways.  Without the field [types], and
    with no [index.d.ts], the package gets no message, although [types]
    and [import] resolve to the declaration file [a.d.cts], which exists
    and is CJS, and [import] resolves to the code file [a.mjs], which
    exists and is ESM.  With the field [types], and the declaration file
    missing from the package, there is no message either: the message on
    the missing file takes over.  And a declaration file [a.d.mts] that
    [types] resolves to under [import] and under [require] is checked
    under [import] only, where it has the format of its sibling: under
    [require], where no sibling is resolved and the condition asks for
    CJS, there is no message. *)
Lemma declaration_without_types_counterexample :
  (resolveExports Fixture.typedExports ["types"; "import"] ["exports"]
   = Some {| value := "./a.d.cts"; matched := ["exports"; "types"] |} /\
   Vfs.isPathExist Fixture.typed "/pkg/a.d.cts" = true /\
   getDtsFilePathFormat Fixture.JSON_parse Fixture.fuel "/pkg/a.d.cts"
                        Fixture.typed = Ok CJS /\
   resolveExports Fixture.typedExports ["import"] ["exports"]
   = Some {| value := "./a.mjs"; matched := ["exports"; "import"] |} /\
   Vfs.isPathExist Fixture.typed "/pkg/a.mjs" = true /\
   getFilePathFormat Fixture.JSON_parse Fixture.fuel "/pkg/a.mjs"
                     Fixture.typed = Ok ESM /\
   checkTypesExportedTask Fixture.JSON_parse Fixture.fuel "/pkg"
     Fixture.typed None Fixture.untypedManifest None = ([], Ok tt)) /\
  (Vfs.isPathExist Fixture.dual "/pkg/a.d.cts" = false /\
   getDtsFilePathFormat Fixture.JSON_parse Fixture.fuel "/pkg/a.d.cts"
                        Fixture.dual = Ok CJS /\
   Vfs.isPathExist Fixture.dual "/pkg/a.mjs" = true /\
   getFilePathFormat Fixture.JSON_parse Fixture.fuel "/pkg/a.mjs"
                     Fixture.dual = Ok ESM /\
   checkTypesExportedTask Fixture.JSON_parse Fixture.fuel "/pkg"
     Fixture.dual None Fixture.typedManifest None = ([], Ok tt)) /\
  (resolveExports Fixture.typedEsmExports ["types"; "require"] ["exports"]
   = Some {| value := "./a.d.mts"; matched := ["exports"; "types"] |} /\
   Vfs.isPathExist Fixture.typedEsm "/pkg/a.d.mts" = true /\
   getDtsFilePathFormat Fixture.JSON_parse Fixture.fuel "/pkg/a.d.mts"
                        Fixture.typedEsm = Ok ESM /\
   resolveExports Fixture.typedEsmExports ["require"] ["exports"] = None /\
   formatOfCondition "require" = CJS /\
   checkTypesExportedTask Fixture.JSON_parse Fixture.fuel "/pkg"
     Fixture.typedEsm None Fixture.typedEsmManifest None = ([], Ok tt)).
Proof. repeat split; vm_compute; reflexivity. Qed.

(** The whole check on that package pushes this one message: under
    [require] the same declaration file is met again and passed over. *)
Example checkTypesExported_typed :
  map (fun m => (code m, path m))
      (messages
         (checkTypesExportedTask Fixture.JSON_parse Fixture.fuel "/pkg"
            Fixture.typed None Fixture.typedManifest None))
  = [(EXPORTS_TYPES_INVALID_FORMAT, ["exports"; "types"])].
Proof. vm_compute. reflexivity. Qed.

(** Outside the amended C8: the path with the wildcard added leaves the
    manifest at [./sub/*], so reading on under it throws; the task is
    rejected before it pushes a message. *)
Example trailing_slash_nested_throws :
  crawlIn Fixture.dual
    (Fixture.manifest "exports"
       (JObj [("./sub/", JObj [("import", JStr "./sub/")])]))
    (JStr "./sub/") ["exports"; "./sub/"; "import"] false false
  = ([], Ok [rejected]).
Proof. vm_compute. reflexivity. Qed.

(** Outside the amended C6: the value [true] stops the crawl of
    [imports] before the key [foo] is looked at. *)
Example imports_truthy_value_throws :
  crawlIn Fixture.dual
    (Fixture.manifest "imports"
       (JObj [("#a", JBool true); ("foo", JStr "./a.js")]))
    (JObj [("#a", JBool true); ("foo", JStr "./a.js")])
    ["imports"] true false
  = ([], Throw).
Proof. vm_compute. reflexivity. Qed.

(* ===================================================================== *)
(** ** More properties on the examples *)
(* ===================================================================== *)

Lemma absolute_path_is_not_relative_witness :
  isAbsolutePath "/pkg/a.js" = true /\ isRelativePath "/pkg/a.js" = false.
Proof.
  split; [reflexivity |].
  apply (@absolute_path_is_not_relative "/pkg/a.js"). reflexivity.
Defined.

Lemma replaceLast_replaces_ending_witness :
  Str.includes "index" ".js" = false /\
  replaceLast ("index" +++ ".js") ".js" ".mjs" = "index" +++ ".mjs" /\
  replaceLast "index" ".js" ".mjs" = "index".
Proof.
  destruct (replaceLast_replaces_ending "index" ".js" ".mjs") as [Hend Hnone].
  split; [reflexivity |]. split; [exact Hend |]. apply Hnone. reflexivity.
Defined.

Lemma isDtsFile_by_suffix_witness :
  isDtsFile "dist/a.d.mts" = true /\
  exists stem ext,
    In ext [".d.ts"; ".d.mts"; ".d.cts"] /\ "dist/a.d.mts" = stem +++ ext.
Proof.
  split; [vm_compute; reflexivity |].
  apply (isDtsFile_by_suffix "dist/a.d.mts").
  vm_compute. reflexivity.
Defined.

Lemma declaration_file_is_not_raw_ts_witness :
  isDtsFile "dist/a.d.ts" = true /\ isFilePathRawTs "dist/a.d.ts" = false.
Proof.
  split; [vm_compute; reflexivity |].
  apply (@declaration_file_is_not_raw_ts "dist/a.d.ts").
  vm_compute. reflexivity.
Defined.

Lemma adjacent_dts_path_table_witness :
  getAdjacentDtsPath ("dist/a" +++ ".mjs") = "dist/a" +++ ".d.mts" /\
  existsb (Str.endsWith "dist/a.json") jsExtensions = false /\
  getAdjacentDtsPath "dist/a.json" = "dist/a.json".
Proof.
  destruct adjacent_dts_path_table as [Htable Hother].
  split; [exact (proj1 (proj2 (Htable "dist/a"))) |].
  split; [reflexivity |]. apply Hother. reflexivity.
Defined.

Lemma glob_one_wildcard_witness :
  Str.includes "/pkg/dist/a/" "*" = false /\ Str.includes ".js" "*" = false /\
  globMatch ("/pkg/dist/a/" +++ "*" +++ ".js") "/pkg/dist/a/b.js"
  = Some [Some "b"] /\
  exportsGlob Fixture.fuel ("/pkg/dist/a/" +++ "*" +++ ".js") Fixture.twice
              None None None = Ok ["/pkg/dist/a/a.js"; "/pkg/dist/a/b.js"] /\
  exists x, "/pkg/dist/a/b.js" = "/pkg/dist/a/" +++ x +++ ".js" /\ x <> "".
Proof.
  destruct (@glob_one_wildcard Fixture.fuel Fixture.twice "/pkg/dist/a/" ".js"
              eq_refl eq_refl) as [Hmatch Hfiles].
  split; [reflexivity |]. split; [reflexivity |]. split.
  - apply Hmatch. exists "b". repeat split. discriminate.
  - split; [vm_compute; reflexivity |].
    destruct (Hfiles None None None ["/pkg/dist/a/a.js"; "/pkg/dist/a/b.js"]
                     "/pkg/dist/a/b.js")
      as (x & Hx & Hne & _).
    + vm_compute. reflexivity.
    + right. left. reflexivity.
    + exists x. split; [exact Hx | exact Hne].
Defined.

Lemma proposed_extension_has_actual_format_witness :
  (ESM = ESM \/ ESM = CJS) /\
  getFilePathFormat Fixture.JSON_parse Fixture.fuel
    (replaceLast ("/pkg/sub/index" +++ ".js") ".js" (getCodeFormatExtension ESM))
    Fixture.nested = Ok ESM.
Proof.
  split; [left; reflexivity |].
  apply (@proposed_extension_has_actual_format Fixture.JSON_parse Fixture.fuel
           Fixture.nested "/pkg/sub/index" ".js" ESM).
  left. reflexivity.
Defined.

Lemma proposed_dts_extension_has_expected_format_witness :
  (CJS = ESM \/ CJS = CJS) /\
  getDtsFilePathFormat Fixture.JSON_parse Fixture.fuel
    (replaceLast ("/pkg/a" +++ ".d" +++ ".mts") ".mts"
                 (getDtsCodeFormatExtension CJS))
    Fixture.typed = Ok CJS.
Proof.
  split; [right; reflexivity |].
  apply (@proposed_dts_extension_has_expected_format Fixture.JSON_parse
           Fixture.fuel Fixture.typed "/pkg/a" ".mts" CJS).
  right. reflexivity.
Defined.

Lemma adjacent_dts_same_format_witness :
  getAdjacentDtsPath ("/pkg/a" +++ ".cjs") = "/pkg/a.d.cts" /\
  getDtsFilePathFormat Fixture.JSON_parse Fixture.fuel
    (getAdjacentDtsPath ("/pkg/a" +++ ".cjs")) Fixture.dual
  = getFilePathFormat Fixture.JSON_parse Fixture.fuel ("/pkg/a" +++ ".cjs")
                      Fixture.dual.
Proof.
  split; [vm_compute; reflexivity |].
  apply (@adjacent_dts_same_format Fixture.JSON_parse Fixture.fuel
           Fixture.dual "/pkg/a" ".cjs").
  right. reflexivity.
Defined.

Lemma resolveExports_conditions_as_set_witness :
  resolveExports Fixture.typedExports ["import"; "types"] ["exports"] =
  resolveExports Fixture.typedExports ["types"; "import"; "types"] ["exports"].
Proof.
  apply (@resolveExports_conditions_as_set Fixture.typedExports
           ["import"; "types"] ["types"; "import"; "types"] ["exports"]).
  intros k. unfold Str.mem. cbn [existsb].
  destruct (String.eqb k "import"), (String.eqb k "types"); reflexivity.
Defined.


Lemma resolved_path_locates_value_witness :
  getPkgPathValue Fixture.realm Fixture.typedManifest ["exports"; "import"]
  = Ok (Own Fixture.realm (Some (JStr "./a.mjs"))).
Proof.
  apply (@resolved_path_locates_value Fixture.typedManifest Fixture.realm
           Fixture.typedExports ["exports"] ["import"]
           {| value := "./a.mjs"; matched := ["exports"; "import"] |});
    reflexivity.
Defined.

Lemma readFile_reports_witness :
  readFile Fixture.dual None "/pkg/missing" (Some ["main"]) [".js"]
  = ([{| code := FILE_DOES_NOT_EXIST; args := []; path := ["main"];
         type := error |}], Ok None) /\
  exists content,
    snd (readFile Fixture.dual (Some ["/pkg/a.js"]) "/pkg/a.mjs"
                  (Some ["main"]) []) = Ok (Some content) /\
    forall m,
      In m (messages (readFile Fixture.dual (Some ["/pkg/a.js"]) "/pkg/a.mjs"
                               (Some ["main"]) [])) ->
      code m = FILE_NOT_PUBLISHED.
Proof.
  split.
  - destruct (readFile_reports Fixture.dual None "/pkg/missing" (Some ["main"])
                               [".js"]) as [Hnone _].
    apply Hnone. vm_compute. reflexivity.
  - destruct (readFile_reports Fixture.dual (Some ["/pkg/a.js"]) "/pkg/a.mjs"
                               (Some ["main"]) []) as [_ Hsome].
    destruct Hsome as (content & Hread & Hcodes & _).
    + vm_compute. reflexivity.
    + exists content. split; [exact Hread | exact Hcodes].
Defined.

(** The package whose file [index.mjs] holds CommonJS: the message on
    the format lies at the path of the value. *)
Lemma crawl_messages_below_path_witness :
  exists m suffix,
    In m (messages (crawlIn Fixture.mismatch
                      (Fixture.manifest "exports" (JStr "./index.mjs"))
                      (JStr "./index.mjs") ["exports"] false false)) /\
    code m = FILE_INVALID_EXPLICIT_FORMAT /\
    path m = ["exports"] ++ suffix.
Proof.
  exists {| code := FILE_INVALID_EXPLICIT_FORMAT;
            args := [("actualFormat", ArgFormat CJS);
                     ("expectFormat", ArgFormat ESM);
                     ("actualExtension", ArgString ".mjs");
                     ("expectExtension", ArgString ".cjs");
                     ("actualFilePath", ArgString "./index.mjs")];
            path := ["exports"]; type := warning |}.
  assert (Hin : In {| code := FILE_INVALID_EXPLICIT_FORMAT;
                      args := [("actualFormat", ArgFormat CJS);
                               ("expectFormat", ArgFormat ESM);
                               ("actualExtension", ArgString ".mjs");
                               ("expectExtension", ArgString ".cjs");
                               ("actualFilePath", ArgString "./index.mjs")];
                      path := ["exports"]; type := warning |}
                   (messages (crawlIn Fixture.mismatch
                                (Fixture.manifest "exports" (JStr "./index.mjs"))
                                (JStr "./index.mjs") ["exports"] false false)))
    by (vm_compute; left; reflexivity).
  destruct (@crawl_messages_below_path Fixture.JSON_parse Fixture.fuel
              Fixture.constants "/pkg" Fixture.mismatch None
              (Fixture.manifest "exports" (JStr "./index.mjs")) Fixture.realm
              (JStr "./index.mjs") ["exports"] false false _ Hin)
    as [suffix Hsuffix].
  exists suffix. split; [exact Hin |]. split; [reflexivity | exact Hsuffix].
Defined.

Lemma crawl_throws_exactly_witness :
  throwFree (JObj [("import", JNull); ("default", JStr "./a.js")]) = true /\
  (exists ps,
      snd (crawlIn Fixture.dual (JObj [])
             (JObj [("import", JNull); ("default", JStr "./a.js")])
             ["exports"] false false) = Ok ps) /\
  throwFree (JObj [("import", JObj [("node", JBool true)])]) = false /\
  snd (crawlIn Fixture.dual (JObj [])
         (JObj [("import", JObj [("node", JBool true)])])
         ["exports"] false false) = Throw.
Proof.
  split; [reflexivity |]. split.
  - destruct (crawl_throws_exactly Fixture.JSON_parse Fixture.fuel
                Fixture.constants "/pkg" Fixture.dual None (JObj [])
                Fixture.realm
                (JObj [("import", JNull); ("default", JStr "./a.js")])
                ["exports"] false false) as [Hreturns _].
    apply Hreturns. reflexivity.
  - split; [reflexivity |].
    destruct (crawl_throws_exactly Fixture.JSON_parse Fixture.fuel
                Fixture.constants "/pkg" Fixture.dual None (JObj [])
                Fixture.realm
                (JObj [("import", JObj [("node", JBool true)])])
                ["exports"] false false) as [_ Hthrows].
    apply Hthrows. reflexivity.
Defined.

(** The file [index.mjs] that holds CommonJS brings a message on its
    format, and none where it is reached after the key [node]. *)
Lemma format_check_skipped_witness :
  map code (messages (crawlIn Fixture.mismatch
                        (Fixture.manifest "exports" (JStr "./index.mjs"))
                        (JStr "./index.mjs") ["exports"] false false))
  = [FILE_INVALID_EXPLICIT_FORMAT] /\
  forall m,
    In m (messages (crawlIn Fixture.mismatch
                      (Fixture.manifest "exports" (JStr "./index.mjs"))
                      (JStr "./index.mjs") ["exports"] false true)) ->
    isFormatMismatch (code m) = false.
Proof.
  split; [vm_compute; reflexivity |].
  destruct (format_check_skipped Fixture.JSON_parse Fixture.fuel
              Fixture.constants "/pkg" Fixture.mismatch None
              (Fixture.manifest "exports" (JStr "./index.mjs")) Fixture.realm
              (JStr "./index.mjs") ["exports"] false true) as [Hskipped _].
  apply Hskipped. left. reflexivity.
Defined.

Lemma types_should_be_first_witness :
  fired isTypesFirst (["exports"] ++ ["types"])
        (messages (crawlIn Fixture.typed Fixture.typedManifest
                     (JObj [("import", JStr "./a.mjs");
                            ("types", JStr "./a.d.cts")])
                     ["exports"] false false))
  = [{| code := EXPORTS_TYPES_SHOULD_BE_FIRST; args := [];
        path := ["exports"] ++ ["types"]; type := error |}] /\
  fired isTypesFirst (["exports"] ++ ["types"])
        (messages (crawlIn Fixture.typed Fixture.typedManifest
                     (JObj [("types", JStr "./a.d.cts");
                            ("import", JStr "./a.mjs")])
                     ["exports"] false false))
  = [].
Proof.
  split.
  - destruct (types_should_be_first Fixture.JSON_parse Fixture.fuel
                Fixture.constants "/pkg" Fixture.typed None
                Fixture.typedManifest Fixture.realm
                [("import", JStr "./a.mjs"); ("types", JStr "./a.d.cts")]
                ["exports"] false false) as [_ Hsecond].
    apply (Hsecond "import" "./a.mjs" (JStr "./a.d.cts") []); reflexivity.
  - destruct (types_should_be_first Fixture.JSON_parse Fixture.fuel
                Fixture.constants "/pkg" Fixture.typed None
                Fixture.typedManifest Fixture.realm
                [("types", JStr "./a.d.cts"); ("import", JStr "./a.mjs")]
                ["exports"] false false) as [Hnone _].
    apply Hnone. right. right. reflexivity.
Defined.

Lemma value_should_start_with_dot_slash_witness :
  filter (fun m => isValueInvalid (code m))
         (messages (crawlLeaf Fixture.JSON_parse Fixture.fuel Fixture.constants
                      "/pkg" Fixture.dual None
                      (Fixture.manifest "exports" (JStr "a.js")) Fixture.realm
                      "a.js" ["exports"] false false))
  = [{| code := EXPORTS_VALUE_INVALID;
        args := [("suggestValue", ArgString "./a.js")];
        path := ["exports"]; type := error |}].
Proof.
  apply (@value_should_start_with_dot_slash Fixture.JSON_parse Fixture.fuel
           Fixture.constants "/pkg" Fixture.dual None
           (Fixture.manifest "exports" (JStr "a.js")) Fixture.realm
           "a.js" ["exports"] false false).
  - reflexivity.
  - discriminate.
Defined.

(** [types] before [import] in a package that publishes one format:
    the round of [require] resolves to the same declaration file and
    adds nothing. *)
Lemma same_declaration_checked_once_witness :
  messages (checkTypesEnv Fixture.JSON_parse Fixture.fuel "/pkg" Fixture.typed
              (JStr "./a.d.cts") (Some Fixture.typedExports) ["exports"]
              None [])
  = messages (checkTypesOne Fixture.JSON_parse Fixture.fuel "/pkg"
                Fixture.typed (JStr "./a.d.cts") (Some Fixture.typedExports)
                ["exports"] None
                (Some {| value := "./a.mjs"; matched := ["exports"; "import"] |})
                None false "import" []).
Proof.
  apply (@same_declaration_checked_once Fixture.JSON_parse Fixture.fuel "/pkg"
           Fixture.typed (JStr "./a.d.cts") (Some Fixture.typedExports)
           ["exports"] None []
           {| value := "./a.d.cts"; matched := ["exports"; "types"] |}
           {| value := "./a.d.cts"; matched := ["exports"; "types"] |});
    reflexivity.
Defined.

Lemma expectPath_places_condition_witness :
  expectPathFor (["exports"] ++ ["types"]) "import"
  = ["exports"] ++ ["import"; "types"] /\
  expectPathFor ["exports"; "types"; "node"] "import"
  = ["exports"; "types"; "node"] ++ ["import"] /\
  expectPathFor ["exports"; "import"; "types"] "import"
  = ["exports"; "import"; "types"].
Proof.
  split; [| split].
  - destruct (expectPath_places_condition ["exports"; "types"] ["exports"]
                                          "import") as (_ & Hlast & _).
    apply Hlast; cbn; intuition discriminate.
  - destruct (expectPath_places_condition ["exports"; "types"; "node"] []
                                          "import") as (_ & _ & Hpush).
    vm_compute. reflexivity.
  - destruct (expectPath_places_condition ["exports"; "import"; "types"] []
                                          "import") as (Hthere & _).
    apply Hthere. right. left. reflexivity.
Defined.

(** A package directory without a manifest. *)
Lemma core_needs_manifest_witness :
  Vfs.readFile (MemFs.make []) (rootPkgPath "/pkg" (MemFs.make [])) = None /\
  core Fixture.JSON_parse Fixture.fuel Fixture.constants "/pkg"
       (MemFs.make []) None (JObj []) Fixture.realm [] [] warning false
  = Throw.
Proof.
  split; [reflexivity |].
  apply (@core_needs_manifest Fixture.JSON_parse Fixture.fuel Fixture.constants
           "/pkg" (MemFs.make []) None (JObj []) Fixture.realm [] []
           warning false).
  left. reflexivity.
Defined.

(** [{ type, main, exports: { "./sub": null } }] with [strict]: the
    messages hold no warning, and the manifest returned is the one
    parsed. *)
Lemma level_and_strict_witness :
  exists r,
    core Fixture.JSON_parse Fixture.fuel Fixture.constants "/pkg"
         (MemFs.make [("/pkg/package.json", Fixture.subOnlyText)]) None
         Fixture.subOnly Fixture.realm [] [] warning true = Ok r /\
    pkg r = Fixture.subOnly /\
    forall m, In m (resultMessages r) -> Pass.type m <> warning.
Proof.
  eexists. split; [vm_compute; reflexivity |].
  destruct (@level_and_strict Fixture.JSON_parse Fixture.fuel Fixture.constants
              "/pkg"
              (MemFs.make [("/pkg/package.json", Fixture.subOnlyText)]) None
              Fixture.subOnly Fixture.realm [] [] warning true _
              ltac:(vm_compute; reflexivity))
    as (Hpkg & Hstrict & _).
  split; [exact Hpkg | exact (Hstrict eq_refl)].
Defined.

(** The empty manifest has no [type]: the one suggestion. *)
Lemma use_type_suggested_once_witness :
  exists r,
    core Fixture.JSON_parse Fixture.fuel Fixture.constants "/pkg"
         (MemFs.make [("/pkg/package.json", Fixture.emptyObjectText)]) None
         (JObj []) Fixture.realm [] [] suggestion false = Ok r /\
    filter (isPackageCode USE_TYPE) (resultMessages r) = [useTypeMessage].
Proof.
  eexists. split; [vm_compute; reflexivity |].
  apply (@use_type_suggested_once Fixture.JSON_parse Fixture.fuel
           Fixture.constants "/pkg"
           (MemFs.make [("/pkg/package.json", Fixture.emptyObjectText)]) None
           (JObj []) Fixture.realm [] [] false).
  vm_compute. reflexivity.
Defined.

(** [main] beside [exports] that has the key [./sub] only. *)
Lemma missing_root_entrypoint_once_witness :
  exists r,
    core Fixture.JSON_parse Fixture.fuel Fixture.constants "/pkg"
         (MemFs.make [("/pkg/package.json", Fixture.subOnlyText)]) None
         Fixture.subOnly Fixture.realm [] [] suggestion false = Ok r /\
    filter (isPackageCode EXPORTS_MISSING_ROOT_ENTRYPOINT) (resultMessages r)
    = [missingRootMessage Fixture.subOnly false].
Proof.
  eexists. split; [vm_compute; reflexivity |].
  apply (@missing_root_entrypoint_once Fixture.JSON_parse Fixture.fuel
           Fixture.constants "/pkg"
           (MemFs.make [("/pkg/package.json", Fixture.subOnlyText)]) None
           Fixture.subOnly Fixture.realm [] [] false).
  vm_compute. reflexivity.
Defined.

(** [repository: null] in a manifest that is fine otherwise. *)
Lemma failed_task_fails_pass_witness :
  lookup "repository" [("type", JStr "module"); ("repository", JNull)]
  = Some JNull /\
  core Fixture.JSON_parse Fixture.fuel Fixture.constants "/pkg"
       (MemFs.make [("/pkg/package.json", Fixture.repositoryNullText)]) None
       Fixture.repositoryNull Fixture.realm [] [] warning false
  = Throw.
Proof.
  split; [reflexivity |].
  apply (@failed_task_fails_pass Fixture.JSON_parse Fixture.fuel
           Fixture.constants "/pkg"
           (MemFs.make [("/pkg/package.json", Fixture.repositoryNullText)]) None
           Fixture.repositoryNull Fixture.realm [] [] warning false).
  right. exists [("type", JStr "module"); ("repository", JNull)].
  split; reflexivity.
Defined.
